(** * Video_gen: progressive-drawing animators

    A shallow embedding of the frame synthesizers and of the encoder
    streaming pipeline of the sketch animators
    ([sketch_animate.py], [sketch_animate_v2.py], [sketch_animate_color.py],
    [sketch_animate_highlight.py], [sketch_animate_whiteboard.py]), and of
    the job store of the rendering API ([colab/fastapi_server.py]) with its
    connection test ([colab/test-ngrok-connection.py]).

    Conventions.
    - Python [int]s are [Z] or [nat]; Python [float]s are rationals, every
      float operation being the exact operation followed by a rounding
      [fl : Q -> Q] that the development keeps abstract; [binary64] is the
      rounding of Python's floats.
    - A numpy array of shape (h, w, 3) is a [canvas]: its shape together with
      a total function from coordinates to pixels.
    - OpenCV, numpy's generator and the encoder process are the environment:
      they are Section variables or fields of the [world]. *)

From Stdlib Require Import String ZArith QArith Qround Qpower List Bool Lia Lqa.
From Stdlib Require Import Arith PeanoNat.
From Stdlib Require Import Permutation Sorted.
Import ListNotations.

Set Implicit Arguments.

(** ** Python numbers *)

(** [int(x)] on a float truncates toward zero. *)
Definition py_int (q : Q) : Z :=
  if Qle_bool 0 q then Qfloor q else Qceiling q.

Definition QofNat (n : nat) : Q := inject_Z (Z.of_nat n).

Section FloatArithmetic.

(** Rounding of an exact result to the floating-point grid. *)
Variable fl : Q -> Q.

(** [total_frames = int(fps * duration)] *)
Definition total_frames_of (fps : Z) (duration : Q) : nat :=
  Z.to_nat (py_int (fl (inject_Z fps * duration))).

(** [progress = (frame_idx + 1) / total_frames] *)
Definition progress (frame_idx total_frames : nat) : Q :=
  fl (QofNat (frame_idx + 1) / QofNat total_frames).

(** [int(total * progress)], the shared reveal count *)
Definition reveal_count (total : nat) (frame_idx total_frames : nat) : Z :=
  py_int (fl (QofNat total * progress frame_idx total_frames)).

(** [sketch_animate_v2.py]: [contours_to_draw = int(len(contours) * progress)] *)
Definition contours_to_draw {A} (contours : list A) (frame_idx total_frames : nat) : Z :=
  reveal_count (length contours) frame_idx total_frames.

(** [sketch_animate_color.py]: [pixels_to_draw = int(total_pixels * progress)] *)
Definition pixels_to_draw (total_pixels : nat) (frame_idx total_frames : nat) : Z :=
  reveal_count total_pixels frame_idx total_frames.

(** [sketch_animate.py]: [paths_to_draw = max(1, int(len(paths) * progress))] *)
Definition paths_to_draw {A} (paths : list A) (frame_idx total_frames : nat) : Z :=
  Z.max 1 (reveal_count (length paths) frame_idx total_frames).

(** [range(k)] and the slice [xs[:k]] for a non-negative or negative [k] *)
Definition py_range (k : Z) : list nat := seq 0 (Z.to_nat k).

Definition py_prefix {A} (xs : list A) (k : Z) : list A :=
  if (k <? 0)%Z then firstn (length xs - Z.to_nat (- k)) xs
  else firstn (Z.to_nat k) xs.

End FloatArithmetic.

(** Exact arithmetic: the rounding that changes nothing. *)
Definition exact (q : Q) : Q := q.

(** A rounding is monotone when it preserves [<=]; it is faithful on
    integers when every integer up to 2^53 is on the grid, as for doubles. *)
Definition monotone_rounding (fl : Q -> Q) : Prop :=
  forall x y, x <= y -> fl x <= fl y.

Definition exact_on_integers (fl : Q -> Q) : Prop :=
  forall z : Z, (Z.abs z <= 2 ^ 53)%Z -> fl (inject_Z z) == inject_Z z.

(** The rounding of Python's floats: IEEE 754 binary64, to nearest with
    ties to even, 53 bits of significand.  The exponent range is left out
    (no overflow, no subnormal numbers). *)
Definition round_half_even (q : Q) : Z :=
  let f := Qfloor q in
  match Qcompare (q - inject_Z f) (1 # 2) with
  | Lt => f
  | Gt => (f + 1)%Z
  | Eq => if Z.even f then f else (f + 1)%Z
  end.

Definition binary64 (q : Q) : Q :=
  match Qnum q with
  | 0%Z => 0
  | _ =>
      let a := if Qle_bool 0 q then q else - q in
      let e0 := (Z.log2 (Qnum a) - Z.log2 (Zpos (Qden a)))%Z in
      (* [2 ^ e <= a < 2 ^ (e + 1)] *)
      let e := if Qle_bool (Qpower 2 e0) a then e0 else (e0 - 1)%Z in
      let ulp := Qpower 2 (e - 52) in
      let r := Qred (inject_Z (round_half_even (a / ulp)) * ulp) in
      if Qle_bool 0 q then r else - r
  end.

(** The binade of a positive number, [e] with [2 ^ e <= a < 2 ^ (e + 1)],
    and the number rounded to the 53 bits of that binade: what [binary64]
    computes for the absolute value. *)
Definition binade (a : Q) : Z :=
  let e0 := (Z.log2 (Qnum a) - Z.log2 (Zpos (Qden a)))%Z in
  if Qle_bool (Qpower 2 e0) a then e0 else (e0 - 1)%Z.

Definition nearest (a : Q) : Q :=
  inject_Z (round_half_even (a / Qpower 2 (binade a - 52)))
  * Qpower 2 (binade a - 52).

(** ** Rasters *)

(** One pixel: three [uint8] channels. *)
Definition pixel : Type := (Z * Z * Z)%type.

Definition white : pixel := (255, 255, 255)%Z.
Definition black : pixel := (0, 0, 0)%Z.

(** A numpy array of shape [(rows, cols, 3)]. *)
Record canvas : Type := mkCanvas {
  rows : nat;
  cols : nat;
  px : nat -> nat -> pixel }.

Definition shape (c : canvas) : nat * nat := (rows c, cols c).

(** [np.ones((height, width, 3), dtype=np.uint8) * 255] *)
Definition blank (height width : nat) : canvas :=
  mkCanvas height width (fun _ _ => white).

(** An in-place update of the pixels of an array: the shape stays. *)
Definition paint (f : nat -> nat -> pixel -> pixel) (c : canvas) : canvas :=
  mkCanvas (rows c) (cols c) (fun y x => f y x (px c y x)).

(** [cv2.cvtColor(canvas, cv2.COLOR_BGR2RGB)] *)
Definition bgr2rgb (c : canvas) : canvas :=
  paint (fun _ _ p => let '(b, g, r) := p in (r, g, b)) c.

Definition pixel_bytes (p : pixel) : list Z :=
  let '(a, b, c) := p in [a; b; c].

(** [canvas.tobytes()]: row-major, three bytes a pixel. *)
Definition tobytes (c : canvas) : list Z :=
  flat_map (fun y => flat_map (fun x => pixel_bytes (px c y x)) (seq 0 (cols c)))
           (seq 0 (rows c)).

Definition point : Type := (Z * Z)%type.
Definition contour : Type := list point.

(** ** Exceptions, the world and the run monad *)

Inductive exn : Type :=
| BrokenPipeError
| TimeoutExpired
| ZeroDivisionError
| ValueError
| AttributeError
| ParseError
| CvError
| OSError
| TypeError
| FileNotFoundError
| NameError
| JSONDecodeError.

Inductive res (A : Type) : Type :=
| Ok (a : A)
| Raise (e : exn).
Arguments Ok {A} a.
Arguments Raise {A} e.

(** What [subprocess.Popen] and the encoder process do; the run cannot
    choose it. *)
Inductive encoder : Type :=
| EncExits (code : Z) (secs : nat)
    (* reads every frame; exits with [code], [secs] seconds after its
       input is closed *)
| EncDies (after : nat) (code : Z)
    (* exits with [code] when the run has made [after] calls to [write]:
       whatever reaches the pipe from then on finds it broken.  An encoder
       that gives up on the k-th frame it receives exits no earlier than
       the flush that carries that frame to it. *)
| EncHangs
    (* reads every frame and never exits *)
| EncNotStarted (e : exn).
    (* [Popen] raises [e]: [TypeError] for a [None] among its arguments,
       [FileNotFoundError] when there is no such program *)

Inductive proc_state : Type :=
| NotSpawned
| Running
| Exited (code : Z).

Inductive log_event : Type :=
| ErrFfmpegFailed (code : Z)          (* "FFmpeg failed ..." *)
| ErrAnimation (e : exn)              (* "Animation error: ..." *)
| ErrCreatingAnimation (e : exn)      (* "Error creating animation: ..." *)
| ErrPipeBroken                       (* "FFmpeg pipe broken ..." *)
| ErrStreaming (e : exn)              (* "Error streaming to FFmpeg: ..." *)
| ErrProcessing (e : exn)             (* "Processing error: ..." *)
| ErrExtract                          (* "Failed to extract ..." *)
| ErrNoPaths                          (* "No paths found in SVG" *)
| ErrNoFrames                         (* "No frames were rendered successfully" *)
| WarnFrameFailed (frame_idx : nat)   (* "Frame i failed to render" *)
| WarnRenderFailed (e : exn)          (* "Simple rendering failed: ..." *)
| WarnFallback                        (* "No stroke pixels found, using full image" *)
| InfoComplete                        (* "Animation complete" *)
| InfoCleanedUp.                      (* "Cleaned up temp directory" *)

(** Attributes that [render_svg_frame_simple] caches on the animator. *)
Record svg_cache : Type := mkSvgCache {
  svg_paths_cache : option (list string);   (* [_svg_paths_cache]: the [d] of each kept path *)
  total_svg_paths : option nat;             (* [_total_svg_paths] *)
  full_image_cache : option canvas }.       (* [_full_image_cache] *)

Definition no_cache : svg_cache := mkSvgCache None None None.

Record world : Type := mkWorld {
  proc : proc_state;
  stdin_frames : list (list Z);     (* the frames written, oldest first *)
  stdin_closed : bool;
  temp_dir_exists : bool;
  attrs : svg_cache;
  log : list log_event }.

(** The world when [__init__] has made the temporary directory. *)
Definition fresh_world : world :=
  mkWorld NotSpawned [] false true no_cache [].

Definition M (A : Type) : Type := world -> res A * world.

Definition ret {A} (a : A) : M A := fun w => (Ok a, w).
Definition raise {A} (e : exn) : M A := fun w => (Raise e, w).

Definition bind {A B} (m : M A) (k : A -> M B) : M B :=
  fun w => match m w with
           | (Ok a, w') => k a w'
           | (Raise e, w') => (Raise e, w')
           end.

Declare Scope run_scope.
Delimit Scope run_scope with run.
Notation "x <- m ;; k" := (bind m (fun x => k))
  (at level 61, m at next level, right associativity) : run_scope.
Notation "m ;; k" := (bind m (fun _ => k))
  (at level 61, right associativity) : run_scope.
Local Open Scope run_scope.

(** [try: m except Exception as e: h e] *)
Definition try_except {A} (m : M A) (h : exn -> M A) : M A :=
  fun w => match m w with
           | (Ok a, w') => (Ok a, w')
           | (Raise e, w') => h e w'
           end.

(** [try: m finally: f]; [f] does not raise here. *)
Definition try_finally {A} (m : M A) (f : world -> world) : M A :=
  fun w => let '(r, w') := m w in (r, f w').

Definition lift {A} (r : res A) : M A := fun w => (r, w).

Definition modify (f : world -> world) : M unit := fun w => (Ok tt, f w).

Definition logger (e : log_event) : M unit :=
  modify (fun w => mkWorld (proc w) (stdin_frames w) (stdin_closed w)
                           (temp_dir_exists w) (attrs w)
                           (log w ++ [e])).

(** [for x in xs: body x] *)
Fixpoint for_each {A} (xs : list A) (body : A -> M unit) : M unit :=
  match xs with
  | [] => ret tt
  | x :: rest => body x ;; for_each rest body
  end.

(** *** The encoder process *)

Definition set_proc (p : proc_state) (w : world) : world :=
  mkWorld p (stdin_frames w) (stdin_closed w) 
          (temp_dir_exists w) (attrs w) (log w).

(** [subprocess.Popen(ffmpeg_args, stdin=PIPE, ..., bufsize=10**8)] *)
Definition popen (enc : encoder) : M unit :=
  match enc with
  | EncNotStarted e => raise e
  | _ => modify (set_proc Running)
  end.

(** [bufsize=10**8]: [ffmpeg_process.stdin] is a [BufferedWriter] with a
    buffer of that many bytes. *)
Definition bufsize : Z := 10 ^ 8.

(** [write(frame)] reaches the pipe only when the frame does not fit the
    room left in the buffer, which holds [held] bytes. *)
Definition overflows (held : Z) (frame : list Z) : bool :=
  (bufsize - held <? Z.of_nat (length frame))%Z.

(** The bytes the buffer holds after [write(frame)]: the frame is copied
    behind what is held when it fits; otherwise the buffer is flushed to
    the pipe, and the frame is kept when it fits the empty buffer and
    written straight to the pipe when it does not.  (A frame has
    height * width * 3 bytes, never exactly [bufsize].) *)
Definition write_buffered (held : Z) (frame : list Z) : Z :=
  let n := Z.of_nat (length frame) in
  if overflows held frame
  then (if (n <=? bufsize)%Z then n else 0%Z)
  else (held + n)%Z.

(** The bytes held once [frames] have been written to a fresh pipe. *)
Definition buffered (frames : list (list Z)) : Z :=
  fold_left write_buffered frames 0%Z.

Arguments buffered : simpl never.
Arguments overflows : simpl never.

(** [ffmpeg_process.stdin.write(frame)].  [stdin_frames] records the frames
    that [write] accepted; an accepted frame is in the buffer or in the
    pipe.  When the encoder has exited, the write that has to flush raises
    [BrokenPipeError]; a write that only fills the buffer does not. *)
Definition stdin_write (enc : encoder) (frame : list Z) : M unit :=
  fun w =>
    match proc w with
    | Running =>
        match enc with
        | EncDies after code =>
            if (after <=? length (stdin_frames w))%nat
               && overflows (buffered (stdin_frames w)) frame
            then (Raise BrokenPipeError, set_proc (Exited code) w)
            else (Ok tt, mkWorld (proc w) (stdin_frames w ++ [frame])
                                 (stdin_closed w)
                                 (temp_dir_exists w) (attrs w) (log w))
        | _ => (Ok tt, mkWorld (proc w) (stdin_frames w ++ [frame])
                               (stdin_closed w)
                               (temp_dir_exists w) (attrs w) (log w))
        end
    | _ => (Raise BrokenPipeError, w)
    end.

(** [ffmpeg_process.stdin.close()]: what the buffer holds is flushed, then
    the pipe is closed, also when the flush raised. *)
Definition stdin_close (enc : encoder) : M unit :=
  fun w =>
    let closed := mkWorld (proc w) (stdin_frames w) true (temp_dir_exists w)
                          (attrs w) (log w) in
    match enc with
    | EncDies after code =>
        if (after <=? length (stdin_frames w))%nat
           && (0 <? buffered (stdin_frames w))%Z
        then (Raise BrokenPipeError, set_proc (Exited code) closed)
        else (Ok tt, closed)
    | _ => (Ok tt, closed)
    end.

(** [ffmpeg_process.wait(timeout=t)]: the exit code, or [TimeoutExpired]
    with the process left as it is. *)
Definition wait (enc : encoder) (timeout : nat) : M Z :=
  fun w =>
    match proc w with
    | Exited code => (Ok code, w)
    | NotSpawned => (Raise OSError, w)
    | Running =>
        match enc with
        | EncExits code secs =>
            if (secs <=? timeout)%nat
            then (Ok code, set_proc (Exited code) w)
            else (Raise TimeoutExpired, w)
        | EncDies _ code => (Ok code, set_proc (Exited code) w)
        | EncHangs => (Raise TimeoutExpired, w)
        | EncNotStarted _ => (Raise OSError, w)
        end
    end.

(** *** The command handed to [Popen] *)




(** [_find_ffmpeg] of the other four animators: the bundled binary when
    it is there, else [shutil.which('ffmpeg') or 'ffmpeg']; always a
    string. *)
Definition find_ffmpeg (node_ffmpeg : string) (node_ffmpeg_exists : bool)
  (which_ffmpeg : option string) : string :=
  if node_ffmpeg_exists then node_ffmpeg
  else match which_ffmpeg with
       | Some EmptyString => "ffmpeg"%string
       | Some path => path
       | None => "ffmpeg"%string
       end.

(** [shutil.rmtree(self.temp_dir, ignore_errors=True)] under its guard,
    with the log line that follows it. *)
Definition cleanup (w : world) : world :=
  if temp_dir_exists w
  then mkWorld (proc w) (stdin_frames w) (stdin_closed w) 
               false (attrs w) (log w ++ [InfoCleanedUp])
  else w.

Definition set_attrs (a : svg_cache) : M unit :=
  modify (fun w => mkWorld (proc w) (stdin_frames w) (stdin_closed w)
                           (temp_dir_exists w) a (log w)).

Definition get_attrs : M svg_cache := fun w => (Ok (attrs w), w).

(** Bind on results, for code that raises but touches no state. *)
Definition rbind {A B} (r : res A) (k : A -> res B) : res B :=
  match r with
  | Ok a => k a
  | Raise e => Raise e
  end.

(** ** Configuration *)

Record config : Type := mkConfig {
  width : nat;
  height : nat;
  fps : Z;
  duration : Q }.

(** ** Drawing plans of the pixel-reveal animators
    ([sketch_animate_color.py], [sketch_animate_highlight.py]) *)

(** [np.column_stack(np.where(mask > 0))]: the (y, x) pairs of the set
    pixels, in row-major order. *)
Definition np_where (mask : nat -> nat -> bool) (h w : nat) : list (nat * nat) :=
  flat_map (fun y => flat_map (fun x => if mask y x then [(y, x)] else [])
                              (seq 0 w))
           (seq 0 h).

(** [np.ones((height, width), dtype=bool)] *)
Definition all_set : nat -> nat -> bool := fun _ _ => true.

(** The stroke pixels with the fallback of both animators:
    [if total_pixels == 0: stroke_pixels = <every pixel>]. *)
Definition stroke_pixels_of (mask : nat -> nat -> bool) (h w : nat) : list (nat * nat) :=
  let stroke_pixels := np_where mask h w in
  if (length stroke_pixels =? 0)%nat then np_where all_set h w else stroke_pixels.

Section NaturalOrder.

Variable fl : Q -> Q.

(** numpy's global generator and [argsort] are the library's. *)
Variable rng : Type.
Variable np_random_seed : Z -> rng.
Variable np_random_randn : nat -> rng -> list Q * rng.
Variable np_argsort : list Q -> list nat.

(** [stroke_pixels[:, 0] * wy + stroke_pixels[:, 1] * wx + randn * sigma] *)
Definition scores_of (wy wx sigma : Q) (stroke_pixels : list (nat * nat))
  (noise : list Q) : list Q :=
  map (fun pn : (nat * nat) * Q =>
         let '((y, x), n) := pn in
         fl (fl (fl (QofNat y * fl wy) + fl (QofNat x * fl wx)) + fl (n * sigma)))
      (combine stroke_pixels noise).

(** [np.random.seed(42); scores = ...; stroke_pixels[np.argsort(scores)]],
    run with the generator in state [g]; the state left behind is returned
    with the plan. *)
Definition natural_order (wy wx sigma : Q) (stroke_pixels : list (nat * nat))
  (g : rng) : list (nat * nat) * rng :=
  let g1 := np_random_seed 42 in
  let '(noise, g2) := np_random_randn (length stroke_pixels) g1 in
  let scores := scores_of wy wx sigma stroke_pixels noise in
  let sorted_indices := np_argsort scores in
  (map (fun i => nth i stroke_pixels (0, 0)%nat) sorted_indices, g2).

(** The plan of [ColorSketchAnimator]: score = y*0.6 + x*0.4 + randn*20. *)
Definition color_drawing_plan (mask : nat -> nat -> bool) (h w : nat) (g : rng)
  : list (nat * nat) * rng :=
  natural_order (6 # 10) (4 # 10) 20 (stroke_pixels_of mask h w) g.

(** The plan of [HighlightAnimator]: score = y*0.5 + x*0.5 + randn*30. *)
Definition highlight_drawing_plan (mask : nat -> nat -> bool) (h w : nat) (g : rng)
  : list (nat * nat) * rng :=
  natural_order (5 # 10) (5 # 10) 30 (stroke_pixels_of mask h w) g.

End NaturalOrder.

(** ** [sketch_animate_v2.py] *)

(** [sorted(xs, key=key, reverse=True)]: a stable sort, largest key first;
    equal keys keep their order. *)
Fixpoint insert_desc {A} (key : A -> Q) (a : A) (sorted : list A) : list A :=
  match sorted with
  | [] => [a]
  | b :: rest =>
      if Qle_bool (key b) (key a) then a :: sorted
      else b :: insert_desc key a rest
  end.

Definition sorted_reverse {A} (key : A -> Q) (xs : list A) : list A :=
  fold_right (insert_desc key) [] xs.

Section V2.

Variable fl : Q -> Q.

(** OpenCV's rasterizer: does drawing the contour with this thickness
    (negative: filled) touch the pixel (y, x)? *)
Variable contour_raster : contour -> Z -> nat -> nat -> bool.
Variable contourArea : contour -> Q.

(** [extract_contours], after [cv2.findContours] has run. *)
Definition extract_contours (found : list contour) : list contour :=
  sorted_reverse contourArea found.

(** [cv2.drawContours(canvas, contours, i, color, thickness)] *)
Definition drawContours (canvas0 : canvas) (contours : list contour) (i : nat)
  (color : pixel) (thickness : Z) : res canvas :=
  match nth_error contours i with
  | Some cnt =>
      Ok (paint (fun y x p => if contour_raster cnt thickness y x then color else p)
                canvas0)
  | None => Raise CvError
  end.

(** The body of the frame loop up to the write. *)
Definition v2_canvas (contours : list contour) (h w : nat)
  (frame_idx total_frames : nat) : res canvas :=
  let k := contours_to_draw fl contours frame_idx total_frames in
  fold_left
    (fun acc i =>
       rbind acc (fun c =>
       rbind (drawContours c contours i black (-1)) (fun c1 =>
       drawContours c1 contours i black 2)))
    (py_range k) (Ok (blank h w)).

(** [SketchAnimatorV2.create_animation].  [preprocess_ok] is what
    [preprocess_image] returned, [found] what [cv2.findContours] found
    ([None]: the cleaned image could not be read), [copy_outputs] the fate
    of the copies made after the encoder succeeded. *)
Definition create_animation (cfg : config) (enc : encoder)
  (preprocess_ok : bool) (found : option (list contour))
  (copy_outputs : res unit) : M bool :=
  try_finally
    (try_except
       (if negb preprocess_ok then ret false
        else
          let total_frames := total_frames_of fl (fps cfg) (duration cfg) in
          match found with
          | None => logger ErrExtract ;; ret false
          | Some cs =>
              let contours := extract_contours cs in
              popen enc ;;
              for_each (seq 0 total_frames)
                (fun frame_idx =>
                   canvas0 <- lift (v2_canvas contours (height cfg) (width cfg)
                                              frame_idx total_frames) ;;
                   stdin_write enc (tobytes canvas0)) ;;
              stdin_close enc ;;
              return_code <- wait enc 60 ;;
              if negb (return_code =? 0)%Z
              then logger (ErrFfmpegFailed return_code) ;; ret false
              else logger InfoComplete ;; lift copy_outputs ;; ret true
          end)
       (fun e => logger (ErrAnimation e) ;; ret false))
    cleanup.

End V2.

(** ** [sketch_animate_color.py] *)

Section Color.

Variable fl : Q -> Q.
Variable rng : Type.
Variable np_random_seed : Z -> rng.
Variable np_random_randn : nat -> rng -> list Q * rng.
Variable np_argsort : list Q -> list nat.

(** [cv2.GaussianBlur(canvas, (3, 3), 0)] *)
Variable GaussianBlur : canvas -> canvas.

Definition is_revealed (revealed : list (nat * nat)) (y x : nat) : bool :=
  existsb (fun p => (fst p =? y)%nat && (snd p =? x)%nat) revealed.

(** [canvas[ys, xs] = img_color[ys, xs]] *)
Definition reveal_pixels (img_color : canvas) (revealed : list (nat * nat))
  (canvas0 : canvas) : canvas :=
  paint (fun y x p => if is_revealed revealed y x then px img_color y x else p)
        canvas0.

(** The body of the frame loop up to the write. *)
Definition color_canvas (img_color : canvas) (stroke_pixels : list (nat * nat))
  (total_pixels : nat) (h w : nat) (frame_idx total_frames : nat) : canvas :=
  let k := pixels_to_draw fl total_pixels frame_idx total_frames in
  let white_bg := blank h w in
  let canvas0 := white_bg in
  let canvas1 :=
    if (0 <? k)%Z then
      let revealed_pixels := py_prefix stroke_pixels k in
      let c := reveal_pixels img_color revealed_pixels canvas0 in
      if (0 <? frame_idx)%nat && (frame_idx mod 10 =? 0)%nat
      then GaussianBlur c else c
    else canvas0 in
  bgr2rgb canvas1.

(** [ColorSketchAnimator.create_color_animation].  [loaded] is what
    [preprocess_color_image] returned: the resized image and the mask
    [threshold(...) | stroke_map], or [None]; [g] is the state of numpy's
    generator when the run starts. *)
Definition create_color_animation (cfg : config) (enc : encoder)
  (loaded : option (canvas * (nat -> nat -> bool))) (g : rng)
  (save_outputs : res unit) : M bool :=
  try_finally
    (try_except
       (let total_frames := total_frames_of fl (fps cfg) (duration cfg) in
        match loaded with
        | None => ret false
        | Some (img_color, mask) =>
            let h := height cfg in
            let w := width cfg in
            (if (length (np_where mask h w) =? 0)%nat
             then logger WarnFallback else ret tt) ;;
            let total_pixels := length (stroke_pixels_of mask h w) in
            let stroke_pixels :=
              fst (color_drawing_plan fl np_random_seed np_random_randn
                                      np_argsort mask h w g) in
            popen enc ;;
            for_each (seq 0 total_frames)
              (fun frame_idx =>
                 stdin_write enc
                   (tobytes (color_canvas img_color stroke_pixels total_pixels
                                          h w frame_idx total_frames))) ;;
            stdin_close enc ;;
            return_code <- wait enc 60 ;;
            if negb (return_code =? 0)%Z
            then logger (ErrFfmpegFailed return_code) ;; ret false
            else logger InfoComplete ;; lift save_outputs ;; ret true
        end)
       (fun e => logger (ErrAnimation e) ;; ret false))
    cleanup.

End Color.

(** ** [sketch_animate.py]: the trace-based animator *)

(** What [ET.parse] gives: the tokens of the [viewBox] attribute when it is
    there, each as [float()] reads it, and the [d] attribute of every path
    element (empty when absent). *)
Record svg_doc : Type := mkSvg {
  viewBox : option (list (res Q));
  path_elements : list string }.

(** The environment of one run of the trace-based animator. *)
Record trace_env : Type := mkTraceEnv {
  HAS_CV2 : bool;
  HAS_XML : bool;
  has_pil : bool;                           (* [from PIL import ...] works *)
  et_parse : res svg_doc;                   (* [ET.parse(svg_path)] *)
  cleaned_png_exists : bool;
  imread_cleaned : option canvas;           (* [cv2.imread(cleaned_png, ...)] *)
  cv_resize : canvas -> nat -> nat -> res canvas }.

Definition nonempty (s : string) : bool :=
  match s with
  | EmptyString => false
  | String _ _ => true
  end.

Definition set_svg_paths_cache (v : list string) : M unit :=
  fun w => set_attrs (mkSvgCache (Some v) (total_svg_paths (attrs w))
                                 (full_image_cache (attrs w))) w.

Definition set_total_svg_paths (n : nat) : M unit :=
  fun w => set_attrs (mkSvgCache (svg_paths_cache (attrs w)) (Some n)
                                 (full_image_cache (attrs w))) w.

Definition set_full_image_cache (c : canvas) : M unit :=
  fun w => set_attrs (mkSvgCache (svg_paths_cache (attrs w))
                                 (total_svg_paths (attrs w)) (Some c)) w.

(** [tempfile.mkdtemp(...)] in [process] *)
Definition mkdtemp : M unit :=
  modify (fun w => mkWorld (proc w) (stdin_frames w) (stdin_closed w) true
                           (attrs w) (log w)).

(** The trace-based animator starts without a temporary directory. *)
Definition trace_world : world := mkWorld NotSpawned [] false false no_cache [].

(** [for x in xs: acc = body(acc, x)] *)
Fixpoint fold_m {A B} (xs : list A) (acc : B) (body : B -> A -> M B) : M B :=
  match xs with
  | [] => ret acc
  | x :: rest => acc' <- body acc x ;; fold_m rest acc' body
  end.

Section Trace.

Variable fl : Q -> Q.
Variable env : trace_env.

(** [a / b] on numbers *)
Definition py_truediv (a b : Q) : res Q :=
  if Qeq_bool b 0 then Raise ZeroDivisionError else Ok (fl (a / b)).

(** [parse_svg_paths]: the kept paths, [[]] on any failure. *)
Definition parse_svg_paths : list string :=
  if negb (HAS_XML env) then []
  else match et_parse env with
       | Ok doc => filter nonempty (path_elements doc)
       | Raise _ => []
       end.

(** The first-call block of [render_svg_frame_simple] that fills the
    cached attributes. *)
Definition cache_svg_paths (w h : nat) : M unit :=
  doc <- lift (et_parse env) ;;
  let vb_parts :=
    match viewBox doc with
    | Some parts => parts
    | None => [Ok 0; Ok 0; Ok (QofNat w); Ok (QofNat h)]
    end in
  vb_width <- lift (if (3 <=? length vb_parts)%nat
                    then nth 2 vb_parts (Raise ValueError)
                    else Ok (QofNat w)) ;;
  vb_height <- lift (if (4 <=? length vb_parts)%nat
                     then nth 3 vb_parts (Raise ValueError)
                     else Ok (QofNat h)) ;;
  let cache := filter nonempty (path_elements doc) in
  set_svg_paths_cache cache ;;
  _ <- lift (py_truediv (QofNat w) vb_width) ;;
  _ <- lift (py_truediv (QofNat h) vb_height) ;;
  set_total_svg_paths (length cache).

(** The step that loads [_full_image_cache] when it is not there yet. *)
Definition load_full_image (w h : nat) : M unit :=
  a <- get_attrs ;;
  match full_image_cache a with
  | Some _ => ret tt
  | None =>
      if cleaned_png_exists env then
        match imread_cleaned env with
        | Some img =>
            resized <- lift (cv_resize env img w h) ;;
            set_full_image_cache resized
        | None => ret tt
        end
      else ret tt
  end.

(** [distance_from_topleft <= reveal_ratio] at pixel (y, x) *)
Definition reveal_mask (reveal_ratio : Q) (w h : nat) (y x : nat) : bool :=
  Qle_bool (fl (fl (fl (QofNat x / QofNat w) + fl (QofNat y / QofNat h)) / 2))
           reveal_ratio.

(** [canvas[:, :, c] = np.where(mask > 0, full[:, :, c], 255)] for the three
    channels, with numpy's broadcasting of [full] against the (h, w) mask. *)
Definition reveal_full_image (mask : nat -> nat -> bool) (full canvas0 : canvas)
  : res canvas :=
  let fits (n m : nat) := (n =? m)%nat || (n =? 1)%nat in
  if fits (rows full) (rows canvas0) && fits (cols full) (cols canvas0) then
    Ok (paint (fun y x _ =>
                 if mask y x
                 then px full (if (rows full =? 1)%nat then 0%nat else y)
                              (if (cols full =? 1)%nat then 0%nat else x)
                 else white)
              canvas0)
  else Raise ValueError.

(** The [try] block of [render_svg_frame_simple]. *)
Definition render_body (paths_to_draw0 : Z) (w h : nat) : M canvas :=
  a <- get_attrs ;;
  match svg_paths_cache a with
  | Some _ => ret tt
  | None => cache_svg_paths w h
  end ;;
  let canvas0 := blank h w in
  a1 <- get_attrs ;;
  total <- match total_svg_paths a1 with
           | Some t => ret t
           | None => raise AttributeError
           end ;;
  let num_paths_to_render := Z.min paths_to_draw0 (Z.of_nat total) in
  if (0 <? num_paths_to_render)%Z then
    (* [np.array(pil_img)] of a white (width, height) image, when PIL is there *)
    let canvas1 := if has_pil env then blank h w else canvas0 in
    load_full_image w h ;;
    a2 <- get_attrs ;;
    match full_image_cache a2 with
    | Some full =>
        reveal_ratio <- lift (py_truediv (inject_Z num_paths_to_render)
                                         (inject_Z (Z.max 1 (Z.of_nat total)))) ;;
        lift (reveal_full_image (reveal_mask reveal_ratio w h) full canvas1)
    | None => ret canvas1
    end
  else ret canvas0.

(** [render_svg_frame_simple]: never raises. *)
Definition render_svg_frame_simple (paths_to_draw0 : Z) (w h : nat)
  : M (option canvas) :=
  if negb (HAS_CV2 env) then ret None
  else
    try_except
      (c <- render_body paths_to_draw0 w h ;; ret (Some c))
      (fun e => logger (WarnRenderFailed e) ;; ret (Some (blank h w))).

(** The pre-rendering loop of [create_animation_frames_stream]. *)
Definition prerender (paths : list string) (w h total_frames : nat)
  : M (list canvas) :=
  fold_m (seq 0 total_frames) []
    (fun rendered_frames frame_idx =>
       frame <- render_svg_frame_simple
                  (paths_to_draw fl paths frame_idx total_frames) w h ;;
       match frame with
       | Some f => ret (rendered_frames ++ [f])
       | None => logger (WarnFrameFailed frame_idx) ;; ret rendered_frames
       end).

(** [create_animation_frames_stream].  [enc] is what [Popen] and the
    process come to for the command
    [self.config.get('ffmpeg_path', 'ffmpeg')]: see [spawned]. *)
Definition create_animation_frames_stream (cfg : config) (enc : encoder) : M bool :=
  try_except
    (let total_frames := total_frames_of fl (fps cfg) (duration cfg) in
     let paths := parse_svg_paths in
     match paths with
     | [] => logger ErrNoPaths ;; ret false
     | _ :: _ =>
         popen enc ;;
         rendered_frames <- prerender paths (width cfg) (height cfg) total_frames ;;
         match rendered_frames with
         | [] => logger ErrNoFrames ;; ret false
         | _ :: _ =>
             streamed <-
               try_except
                 (for_each rendered_frames
                    (fun frame => stdin_write enc (tobytes frame)) ;;
                  stdin_close enc ;;
                  ret true)
                 (fun e =>
                    match e with
                    | BrokenPipeError => logger ErrPipeBroken ;; ret false
                    | _ => logger (ErrStreaming e) ;; ret false
                    end) ;;
             if negb streamed then ret false
             else
               return_code <- wait enc 60 ;;
               if negb (return_code =? 0)%Z
               then logger (ErrFfmpegFailed return_code) ;; ret false
               else logger InfoComplete ;; ret true
         end
     end)
    (fun e => logger (ErrCreatingAnimation e) ;; ret false).

(** [SketchAnimator.process].  The four booleans are the outcomes of the
    dependency check (nothing required is missing), [preprocess_image],
    [convert_to_pbm] and [run_potrace]. *)
Definition process (cfg : config) (enc : encoder)
  (deps_ok preprocess_ok pbm_ok potrace_ok : bool) (copy_outputs : res unit)
  : M bool :=
  try_finally
    (try_except
       (mkdtemp ;;
        if negb deps_ok then ret false
        else if negb preprocess_ok then ret false
        else if negb pbm_ok then ret false
        else if negb potrace_ok then ret false
        else
          ok <- create_animation_frames_stream cfg enc ;;
          if negb ok then ret false
          else lift copy_outputs ;; ret true)
       (fun e => logger (ErrProcessing e) ;; ret false))
    cleanup.

End Trace.

(** Loading the module [sketch_animate.py].  [import cv2] and
    [import numpy as np] share one [try]: when it fails, [np] is not bound,
    and two methods of [SketchAnimator] are annotated
    [-> Optional[np.ndarray]].  An interpreter that evaluates annotations
    when a function is defined (Python 3.13 and before; 3.14 defers them)
    then raises [NameError] in the class body. *)
Definition import_sketch_animate (eager_annotations has_cv2 : bool) : res unit :=
  if eager_annotations && negb has_cv2 then Raise NameError else Ok tt.

(** The script from its first line: the module is loaded, then [main] has
    [process] run. *)
Definition run_sketch_animate (eager_annotations : bool) (fl : Q -> Q)
  (env : trace_env) (cfg : config) (enc : encoder)
  (deps_ok preprocess_ok pbm_ok potrace_ok : bool) (copy_outputs : res unit)
  : M bool :=
  lift (import_sketch_animate eager_annotations (HAS_CV2 env)) ;;
  process fl env cfg enc deps_ok preprocess_ok pbm_ok potrace_ok copy_outputs.

(** ** Cursor overlays and [sketch_animate_whiteboard.py] *)

(** One call [cv2.circle(img, center, radius, color, thickness)]. *)
Record circle_op : Type := mkCircle {
  center : Z * Z;
  radius : Z;
  color : pixel;
  thickness : Z }.

Definition nonempty_list {A} (xs : list A) : bool :=
  match xs with
  | [] => false
  | _ :: _ => true
  end.

Section Cursors.

Variable fl : Q -> Q.
(** [np.sin] on floats *)
Variable np_sin : Q -> Q.

(** [HighlightAnimator]:
    [pulse = 0.8 + 0.2 * np.sin(frame_idx * 0.3)];
    [cursor_radius = int(cursor_size * pulse)] with [cursor_size = 25]. *)
Definition highlight_cursor_radius (frame_idx : nat) : Z :=
  let cursor_size := 25 in
  let pulse := fl (fl (8 # 10)
                   + fl (fl (2 # 10) * np_sin (fl (QofNat frame_idx * fl (3 # 10))))) in
  py_int (fl (cursor_size * pulse)).

(** The circles of the cursor block of [create_highlight_animation], drawn
    when some pixel is revealed and some is still hidden. *)
Definition highlight_cursor_ops (stroke_pixels : list (nat * nat))
  (pixels_drawn : Z) (total_pixels : nat) (frame_idx : nat) : list circle_op :=
  if (0 <? pixels_drawn)%Z && (pixels_drawn <? Z.of_nat total_pixels)%Z then
    let '(cursor_y, cursor_x) := nth (Z.to_nat pixels_drawn) stroke_pixels (0, 0)%nat in
    let cursor_radius := highlight_cursor_radius frame_idx in
    let c := (Z.of_nat cursor_x, Z.of_nat cursor_y) in
    [ mkCircle c cursor_radius (100, 150, 255)%Z (-1);
      mkCircle c cursor_radius (50, 100, 200)%Z 3 ]
  else [].

(** [WhiteboardAnimator.draw_hand_cursor]:
    [pulse = 0.85 + 0.15 * np.sin(frame_idx * 0.2)]; [size = int(20 * pulse)]. *)
Definition hand_cursor_size (frame_idx : nat) : Z :=
  let pulse := fl (fl (85 # 100)
                   + fl (fl (15 # 100) * np_sin (fl (QofNat frame_idx * fl (2 # 10))))) in
  py_int (fl (20 * pulse)).

Definition hand_cursor_ops (x y : Z) (frame_idx : nat) : list circle_op :=
  let size := hand_cursor_size frame_idx in
  [ mkCircle (x + 2, y + 2)%Z size (180, 180, 180)%Z (-1);
    mkCircle (x, y) size (50, 150, 255)%Z (-1) ].

End Cursors.

(** What [extract_drawing_strokes] came back with. *)
Inductive wb_extraction : Type :=
| WbStrokes (img_color : canvas) (outline_paths : list (list point))
            (color_fills : list contour)
| WbUnreadable      (* [return None, None, None] *)
| WbRaised.         (* the handler's [return None, None] *)

Section Whiteboard.

Variable fl : Q -> Q.
Variable np_sin : Q -> Q.

(** OpenCV's rasterizers: filled contours as a mask, anti-aliased lines and
    circles as the new value of each pixel. *)
Variable contour_raster : contour -> Z -> nat -> nat -> bool.
Variable line_raster : point -> point -> nat -> nat -> pixel -> pixel.
Variable circle_raster : circle_op -> nat -> nat -> pixel -> pixel.
(** [cv2.moments]: (m00, m10, m01) *)
Variable moments : contour -> Q * Q * Q.

Definition wb_truediv (a b : Q) : res Q :=
  if Qeq_bool b 0 then Raise ZeroDivisionError else Ok (fl (a / b)).

Definition draw_hand_cursor (canvas0 : canvas) (x y : Z) (frame_idx : nat) : canvas :=
  fold_left (fun c op => paint (circle_raster op) c)
            (hand_cursor_ops fl np_sin x y frame_idx) canvas0.

(** [for i in range(n): cv2.line(canvas, path[i], path[i + 1], ...)] *)
Definition draw_segments (n : Z) (stroke_path : list point) (canvas0 : canvas)
  : canvas :=
  fold_left (fun c i => paint (line_raster (nth i stroke_path (0, 0)%Z)
                                           (nth (i + 1) stroke_path (0, 0)%Z)) c)
            (py_range n) canvas0.

Definition path_len (stroke_path : list point) : Z :=
  Z.of_nat (length stroke_path).

(** The loop over [outline_paths] of pass 1, with its [break]s. *)
Fixpoint draw_outlines (paths : list (list point)) (target drawn_points : Z)
  (canvas0 : canvas) (cursor : Z * Z) : canvas * (Z * Z) :=
  match paths with
  | [] => (canvas0, cursor)
  | stroke_path :: rest =>
      if (drawn_points + path_len stroke_path <=? target)%Z then
        draw_outlines rest target (drawn_points + path_len stroke_path)%Z
          (draw_segments (path_len stroke_path - 1) stroke_path canvas0)
          (last stroke_path (0, 0)%Z)
      else if (drawn_points <? target)%Z then
        let points_to_draw := (target - drawn_points)%Z in
        (draw_segments (Z.min (points_to_draw - 1) (path_len stroke_path - 1))
                       stroke_path canvas0,
         nth (Z.to_nat (Z.min points_to_draw (path_len stroke_path - 1)))
             stroke_path (0, 0)%Z)
      else (canvas0, cursor)
  end.

(** "First, draw ALL outlines (completed)" *)
Definition draw_all_outlines (paths : list (list point)) (canvas0 : canvas) : canvas :=
  fold_left (fun c stroke_path =>
               draw_segments (path_len stroke_path - 1) stroke_path c)
            paths canvas0.

(** One fill: [canvas[mask > 0] = img_color[mask > 0]] and the cursor moved
    to the centroid when [m00 != 0]. *)
Definition draw_fill (img_color : canvas) (cnt : contour)
  (acc : canvas * (Z * Z)) : canvas * (Z * Z) :=
  let '(canvas0, cursor) := acc in
  let canvas1 :=
    paint (fun y x p => if contour_raster cnt (-1) y x then px img_color y x else p)
          canvas0 in
  let '(m00, m10, m01) := moments cnt in
  if Qeq_bool m00 0 then (canvas1, cursor)
  else (canvas1, (py_int (fl (m10 / m00)), py_int (fl (m01 / m00)))).

Definition sum_lengths (paths : list (list point)) : nat :=
  fold_right (fun p acc => (length p + acc)%nat) 0%nat paths.

(** [outline_frames = int(total_frames * 0.50)],
    [color_frames = int(total_frames * 0.35)] *)
Definition outline_frames_of (total_frames : nat) : Z :=
  py_int (fl (QofNat total_frames * fl (50 # 100))).

Definition color_frames_of (total_frames : nat) : Z :=
  py_int (fl (QofNat total_frames * fl (35 # 100))).

Definition hold_frames_of (total_frames : nat) : Z :=
  (Z.of_nat total_frames - outline_frames_of total_frames
   - color_frames_of total_frames)%Z.

(** The body of the frame loop of [create_whiteboard_animation], up to the
    colour conversion. *)
Definition whiteboard_canvas (img_color : canvas)
  (outline_paths : list (list point)) (color_fills : list contour)
  (h w : nat) (frame_idx total_frames : nat) : res canvas :=
  let outline_frames := outline_frames_of total_frames in
  let color_frames := color_frames_of total_frames in
  let total_outline_points :=
    if nonempty_list outline_paths then sum_lengths outline_paths else 1%nat in
  let total_color_fills :=
    if nonempty_list color_fills then length color_fills else 1%nat in
  let canvas0 := blank h w in
  let cursor0 := (Z.of_nat w / 2, Z.of_nat h / 2)%Z in
  if (Z.of_nat frame_idx <? outline_frames)%Z && nonempty_list outline_paths then
    (* pass 1: outlines *)
    rbind (wb_truediv (QofNat (frame_idx + 1)) (inject_Z outline_frames))
      (fun outline_progress =>
         let target_outline_points :=
           py_int (fl (QofNat total_outline_points * outline_progress)) in
         let '(canvas1, (cursor_x, cursor_y)) :=
           draw_outlines outline_paths target_outline_points 0 canvas0 cursor0 in
         Ok (draw_hand_cursor canvas1 cursor_x cursor_y frame_idx))
  else if (outline_frames <=? Z.of_nat frame_idx)%Z && nonempty_list color_fills then
    (* pass 2: fills *)
    let canvas1 := draw_all_outlines outline_paths canvas0 in
    let color_frame_idx := (Z.of_nat frame_idx - outline_frames)%Z in
    rbind (wb_truediv (inject_Z (color_frame_idx + 1)) (inject_Z color_frames))
      (fun color_progress =>
         let fills_to_draw :=
           py_int (fl (QofNat total_color_fills * color_progress)) in
         let '(canvas2, (cursor_x, cursor_y)) :=
           fold_left (fun acc i => draw_fill img_color (nth i color_fills []) acc)
                     (py_range (Z.min fills_to_draw (Z.of_nat (length color_fills))))
                     (canvas1, cursor0) in
         if (fills_to_draw <? Z.of_nat total_color_fills)%Z
         then Ok (draw_hand_cursor canvas2 cursor_x cursor_y frame_idx)
         else Ok canvas2)
  else
    (* pass 3: [canvas = img_color.copy()] *)
    Ok img_color.

(** The guard after extraction:
    [img_color is None or (not outline_paths and not color_fills)] *)
Definition strokes_missing (outline_paths : list (list point))
  (color_fills : list contour) : bool :=
  negb (nonempty_list outline_paths) && negb (nonempty_list color_fills).

(** [WhiteboardAnimator.create_whiteboard_animation] *)
Definition create_whiteboard_animation (cfg : config) (enc : encoder)
  (extracted : wb_extraction) (save_outputs : res unit) : M bool :=
  try_finally
    (try_except
       (let total_frames := total_frames_of fl (fps cfg) (duration cfg) in
        match extracted with
        | WbRaised => raise ValueError      (* two values unpacked into three *)
        | WbUnreadable => logger ErrExtract ;; ret false
        | WbStrokes img_color outline_paths color_fills =>
            if strokes_missing outline_paths color_fills
            then logger ErrExtract ;; ret false
            else
              popen enc ;;
              for_each (seq 0 total_frames)
                (fun frame_idx =>
                   canvas0 <- lift (whiteboard_canvas img_color outline_paths
                                      color_fills (height cfg) (width cfg)
                                      frame_idx total_frames) ;;
                   stdin_write enc (tobytes (bgr2rgb canvas0))) ;;
              stdin_close enc ;;
              return_code <- wait enc 60 ;;
              if negb (return_code =? 0)%Z
              then logger (ErrFfmpegFailed return_code) ;; ret false
              else logger InfoComplete ;; lift save_outputs ;; ret true
        end)
       (fun e => logger (ErrAnimation e) ;; ret false))
    cleanup.

End Whiteboard.

(** ** Skeletonization in [preprocess_image]
    ([sketch_animate.py], [sketch_animate_v2.py]) *)

(** A single-channel 0/255 image: [true] is 255 (foreground). *)
Record bimg : Type := mkBimg {
  brows : nat;
  bcols : nat;
  fg : nat -> nat -> bool }.

(** The 3x3 structuring element [np.ones((3, 3), np.uint8)], anchored at its
    centre. *)
Definition kernel3 : list (Z * Z) :=
  [ (-1, -1); (-1, 0); (-1, 1);
    (0, -1);  (0, 0);  (0, 1);
    (1, -1);  (1, 0);  (1, 1) ]%Z.

Definition inside (b : bimg) (y x : Z) : bool :=
  ((0 <=? y) && (y <? Z.of_nat (brows b)) &&
   (0 <=? x) && (x <? Z.of_nat (bcols b)))%Z.

(** The value seen by a morphological filter at (y, x): the pixel inside the
    image, [border] outside. *)
Definition sample (b : bimg) (border : bool) (y x : Z) : bool :=
  if inside b y x then fg b (Z.to_nat y) (Z.to_nat x) else border.

(** [cv2.erode(binary, kernel)].  With the default border
    ([BORDER_CONSTANT], [morphologyDefaultBorderValue()]) OpenCV lets pixels
    outside the image take the largest value, so the border never erodes. *)
Definition erode (b : bimg) : bimg :=
  mkBimg (brows b) (bcols b)
    (fun y x =>
       forallb (fun d : Z * Z =>
                  sample b true (Z.of_nat y + fst d) (Z.of_nat x + snd d))
               kernel3).

(** [cv2.dilate] with the default border: outside counts as the smallest
    value. *)
Definition dilate (b : bimg) : bimg :=
  mkBimg (brows b) (bcols b)
    (fun y x =>
       existsb (fun d : Z * Z =>
                  sample b false (Z.of_nat y + fst d) (Z.of_nat x + snd d))
               kernel3).

(** [cv2.morphologyEx(binary, cv2.MORPH_OPEN, kernel)] *)
Definition morph_open (b : bimg) : bimg := dilate (erode b).

(** [cv2.subtract(a, b)] on 0/255 images (saturating) *)
Definition subtract (a b : bimg) : bimg :=
  mkBimg (brows a) (bcols a) (fun y x => fg a y x && negb (fg b y x)).

Definition bitwise_or (a b : bimg) : bimg :=
  mkBimg (brows a) (bcols a) (fun y x => fg a y x || fg b y x).

Definition bitwise_not (a : bimg) : bimg :=
  mkBimg (brows a) (bcols a) (fun y x => negb (fg a y x)).

(** [cv2.countNonZero] *)
Definition countNonZero (b : bimg) : nat :=
  list_sum (map (fun y => length (filter (fun x => fg b y x) (seq 0 (bcols b))))
                (seq 0 (brows b))).

(** [np.zeros(binary.shape, np.uint8)] *)
Definition zeros (h w : nat) : bimg := mkBimg h w (fun _ _ => false).

(** An image whose every pixel is foreground. *)
Definition all_foreground (h w : nat) : bimg := mkBimg h w (fun _ _ => true).

(** The [while True:] loop, run for at most [fuel] iterations: [Some] of the
    accumulated skeleton when the loop reaches its [break], [None] when
    [fuel] iterations did not reach it. *)
Fixpoint skeleton_loop (fuel : nat) (binary skeleton : bimg) : option bimg :=
  match fuel with
  | O => None
  | S fuel' =>
      let opened := morph_open binary in
      let temp := subtract binary opened in
      let eroded := erode binary in
      let skeleton' := bitwise_or skeleton temp in
      if (countNonZero eroded =? 0)%nat then Some skeleton'
      else skeleton_loop fuel' eroded skeleton'
  end.

(** The skeletonization block: the result is [cv2.bitwise_not(skeleton)]. *)
Definition skeletonize (fuel : nat) (binary : bimg) : option bimg :=
  option_map bitwise_not
    (skeleton_loop fuel binary (zeros (brows binary) (bcols binary))).

(** ** Vocabulary of the properties and closed examples *)

(** The world after the frames [fs] have gone down the pipe. *)
Definition push_frames (fs : list (list Z)) (w : world) : world :=
  mkWorld (proc w) (stdin_frames w ++ fs) (stdin_closed w)
          (temp_dir_exists w) (attrs w) (log w).

(** The encoder was started and is still reading when it has been sent [n]
    frames: no write of the first [n] finds the pipe broken. *)
Definition takes (enc : encoder) (n : nat) : Prop :=
  match enc with
  | EncDies after _ => (n <= after)%nat
  | EncNotStarted _ => False
  | _ => True
  end.

(** Where a frame loop finds the pipe broken when the encoder exits after
    [after] writes: the number of frames accepted when a write raises, if
    one does.  The loop starts with [held] bytes in the buffer and [done]
    writes made. *)
Fixpoint broken_write (after : nat) (held : Z) (done : nat)
  (frames : list (list Z)) : option nat :=
  match frames with
  | [] => None
  | frame :: rest =>
      if (after <=? done)%nat && overflows held frame then Some done
      else broken_write after (write_buffered held frame) (S done) rest
  end.

(** The bytes of [n] frames of [h] x [w] pixels. *)
Definition bytes_of (n h w : nat) : Z := Z.of_nat (n * (h * w * 3)).

(** The bytes a frame puts on the pipe. *)
Definition frame_bytes (r : res canvas) : list Z :=
  match r with
  | Ok c => tobytes c
  | Raise _ => []
  end.

(** The encoder is not done 60 seconds after its input was closed. *)
Definition never_done_in_time (enc : encoder) : Prop :=
  match enc with
  | EncExits _ secs => (60 < secs)%nat
  | EncDies _ _ => False
  | EncHangs => True
  | EncNotStarted _ => False
  end.

(** Two worlds with the same process, pipe and temporary directory. *)
Definition same_pipe (w w' : world) : Prop :=
  proc w' = proc w /\ stdin_frames w' = stdin_frames w /\
  stdin_closed w' = stdin_closed w /\ temp_dir_exists w' = temp_dir_exists w.

(** A step that touches only the cached attributes and the log. *)
Definition quiet {A} (m : M A) : Prop := forall w, same_pipe w (snd (m w)).

(** What a step returns when it returns. *)
Definition yields {A} (P : A -> Prop) (m : M A) : Prop :=
  forall w a w', m w = (Ok a, w') -> P a.

(** The pipe holds [n] frames of [h] x [w] pixels, three bytes each. *)
Definition holds_frames (n h w : nat) (fs : list (list Z)) : Prop :=
  length fs = n /\ Forall (fun frame => length frame = (h * w * 3)%nat) fs.

(** An environment whose SVG cannot be parsed: every frame is white. *)
Definition broken_svg_env : trace_env :=
  mkTraceEnv true true false (Raise ParseError) false None (fun c _ _ => Ok c).

(** A two-by-two, two-frame configuration and a rasterizer that draws
    nothing, for the closed examples. *)
Definition tiny_cfg : config := mkConfig 2 2 2 1.
Definition no_raster : contour -> Z -> nat -> nat -> bool := fun _ _ _ _ => false.
Definition no_area : contour -> Q := fun _ => 0.

(** An environment whose SVG holds one path, without PIL and without a
    cleaned image to reveal. *)
Definition one_path_env : trace_env :=
  mkTraceEnv true true false (Ok (mkSvg None ["M0 0 L1 1"%string])) false None
             (fun c _ _ => Ok c).

(** Rasterizers that leave every pixel as it is, moments that are all zero
    and a sine that is zero everywhere, for the closed examples. *)
Definition keep_line : point -> point -> nat -> nat -> pixel -> pixel :=
  fun _ _ _ _ p => p.
Definition keep_circle : circle_op -> nat -> nat -> pixel -> pixel :=
  fun _ _ _ p => p.
Definition no_moments : contour -> Q * Q * Q := fun _ => (0, 0, 0).
Definition flat_sin : Q -> Q := fun _ => 0.

(** A toy generator: the state is a counter, [randn] hands out the counter
    values, [argsort] keeps the order. *)
Definition counter_randn (n : nat) (g : nat) : list Q * nat :=
  (map (fun i => QofNat (g + i)) (seq 0 n), (g + n)%nat).

(** A few facts of the sine and the cosine of the reals: the sine is a
    function of the value, [sin 0 = 0], [2/3 <= sin 0.8 < 1],
    [2/3 <= sin 1.6 < 1], [-1/3 <= sin 3.2 < 0], and for the angle [x] the
    double-angle formulas [cos 8x = 1 - 2 sin^2 4x] and
    [sin 16x = 2 sin 8x cos 8x]. *)
Definition trig_like (s c : Q -> Q) (x : Q) : Prop :=
  (forall a b, a == b -> s a == s b)
  /\ s 0 == 0
  /\ (2 # 3) <= s (4 # 5) /\ s (4 # 5) < 1
  /\ (2 # 3) <= s (8 # 5) /\ s (8 # 5) < 1
  /\ - (1 # 3) <= s (16 # 5) /\ s (16 # 5) < 0
  /\ c (8 * x) == 1 - 2 * (s (4 * x) * s (4 * x))
  /\ s (16 * x) == 2 * s (8 * x) * c (8 * x).

(** Rational stand-ins with these facts at the angle 0.2: 0.72, 0.99 and
    what the formulas make of them. *)
Definition toy_sin (x : Q) : Q :=
  if Qeq_bool x (4 # 5) then 18 # 25
  else if Qeq_bool x (8 # 5) then 99 # 100
  else if Qeq_bool x (16 # 5)
       then 2 * (99 # 100) * (1 - 2 * ((18 # 25) * (18 # 25)))
       else 0.

Definition toy_cos (x : Q) : Q :=
  if Qeq_bool x (8 # 5) then 1 - 2 * ((18 # 25) * (18 # 25)) else 1.

(** [target_outline_points] at frame [frame_idx] of pass 1 of the
    whiteboard animator: how far the outlines are revealed. *)
Definition outline_target (fl : Q -> Q) (outline_paths : list (list point))
  (frame_idx total_frames : nat) : Z :=
  py_int (fl (QofNat (sum_lengths outline_paths)
              * fl (QofNat (frame_idx + 1)
                    / inject_Z (outline_frames_of fl total_frames)))).

(** [fills_to_draw] at frame [frame_idx] of pass 2: how many fills are
    revealed. *)
Definition fill_target (fl : Q -> Q) (color_fills : list contour)
  (frame_idx total_frames : nat) : Z :=
  py_int (fl (QofNat (length color_fills)
              * fl (inject_Z (Z.of_nat frame_idx
                              - outline_frames_of fl total_frames + 1)
                    / inject_Z (color_frames_of fl total_frames)))).

(** Where the cursor stands once the fills [fills] are drawn: on the
    centroid of the last of them whose area is not zero. *)
Definition fills_cursor (fl : Q -> Q) (moments : contour -> Q * Q * Q)
  (fills : list contour) (cursor : Z * Z) : Z * Z :=
  fold_left (fun cur cnt =>
               let '(m00, m10, m01) := moments cnt in
               if Qeq_bool m00 0 then cur
               else (py_int (fl (m10 / m00)), py_int (fl (m01 / m00))))
            fills cursor.

(** The filled raster of an axis-aligned rectangle given by its corners:
    the pixels of its bounding box. *)
Definition box_raster (cnt : contour) (thickness0 : Z) (y x : nat) : bool :=
  ((thickness0 <? 0)
   && existsb (fun p : point => fst p <=? Z.of_nat x) cnt
   && existsb (fun p : point => Z.of_nat x <=? fst p) cnt
   && existsb (fun p : point => snd p <=? Z.of_nat y) cnt
   && existsb (fun p : point => Z.of_nat y <=? snd p) cnt)%Z.

(** A dark square, corners (1, 1) and (11, 11), on a light grey 12 x 12
    image; its contour has area 100. *)
Definition square : contour := [(1, 1); (11, 1); (11, 11); (1, 11)]%Z.

Definition square_img : canvas :=
  mkCanvas 12 12
    (fun y x => if box_raster square (-1) y x then (40, 40, 40)%Z
                else (200, 200, 200)%Z).

Definition square_cfg : config := mkConfig 12 12 10 1.

(** Every pixel of the image is foreground. *)
Definition full (b : bimg) : Prop :=
  forall y x, (y < brows b)%nat -> (x < bcols b)%nat -> fg b y x = true.

(** Every pixel of the image is background. *)
Definition empty (b : bimg) : Prop :=
  forall y x, (y < brows b)%nat -> (x < bcols b)%nat -> fg b y x = false.

(** The signed unit step from [a] toward [a0]. *)
Definition toward (a a0 : nat) : Z :=
  if (a <? a0)%nat then 1%Z else if (a0 <? a)%nat then (-1)%Z else 0%Z.

(** The same image in a run of two frames. *)
Definition short_square_cfg : config := mkConfig 12 12 2 1.

(** A run that gave up before it spawned an encoder: it returned [False],
    the process and the pipe are as they were, the directory is gone. *)
Definition aborted_before_spawn (r : res bool * world) (w : world) : Prop :=
  fst r = Ok false /\ proc (snd r) = proc w
  /\ stdin_frames (snd r) = stdin_frames w
  /\ temp_dir_exists (snd r) = false.

(** The animator after a first render has cached [t] paths and the resized
    cleaned image [full]. *)
Definition cached (paths : list string) (full : canvas) (w0 : world) : Prop :=
  attrs w0 = mkSvgCache (Some paths) (Some (length paths)) (Some full).

(** The share of the paths that a frame reveals, as
    [render_svg_frame_simple] computes it. *)
Definition reveal_ratio_of (fl : Q -> Q) (paths_to_draw0 : Z) (t : nat) : Q :=
  fl (inject_Z (Z.min paths_to_draw0 (Z.of_nat t))
      / inject_Z (Z.max 1 (Z.of_nat t))).

(** What [float(vb_parts[2])] and [float(vb_parts[3])] must give for the
    first-call block of [render_svg_frame_simple] to get through: a number
    other than zero. *)
Definition viewbox_usable (doc : svg_doc) (w h : nat) : bool :=
  let vb_parts :=
    match viewBox doc with
    | Some parts => parts
    | None => [Ok 0; Ok 0; Ok (QofNat w); Ok (QofNat h)]
    end in
  let nonzero (r : res Q) :=
    match r with
    | Ok q => negb (Qeq_bool q 0)
    | Raise _ => false
    end in
  nonzero (if (3 <=? length vb_parts)%nat
           then nth 2 vb_parts (Raise ValueError) else Ok (QofNat w))
  && nonzero (if (4 <=? length vb_parts)%nat
              then nth 3 vb_parts (Raise ValueError) else Ok (QofNat h)).

(** A run of the trace-based animator in which nothing is missing: OpenCV,
    an SVG that parses, the cleaned image, and a resize to the frame size. *)
Definition healthy (env : trace_env) (doc : svg_doc) (full : canvas)
  (w h : nat) : Prop :=
  HAS_CV2 env = true
  /\ et_parse env = Ok doc
  /\ viewbox_usable doc w h = true
  /\ cleaned_png_exists env = true
  /\ exists img, imread_cleaned env = Some img
                 /\ cv_resize env img w h = Ok full
                 /\ shape full = (h, w).

(** The world with the three cached attributes replaced. *)
Definition with_attrs (a : svg_cache) (w : world) : world :=
  mkWorld (proc w) (stdin_frames w) (stdin_closed w) (temp_dir_exists w) a
          (log w).

(** The frame that shows [full] under the mask of [ratio], white elsewhere. *)
Definition wipe_of (fl : Q -> Q) (ratio : Q) (full : canvas) (w h : nat)
  (c : canvas) : Prop :=
  shape c = (h, w)
  /\ forall y x, (y < h)%nat -> (x < w)%nat ->
       px c y x = if reveal_mask fl ratio w h y x then px full y x else white.

(** A 2 x 2 grey image and an environment in which nothing is missing. *)
Definition grey2 : canvas := mkCanvas 2 2 (fun _ _ => (9, 9, 9)%Z).
Definition healthy_env : trace_env :=
  mkTraceEnv true true false (Ok (mkSvg None ["M0 0 L1 1"%string])) true
             (Some grey2) (fun c _ _ => Ok c).

(** An SVG whose [viewBox] has four numbers or more, the width or the
    height among them being zero. *)
Definition zero_viewbox (doc : svg_doc) : Prop :=
  exists parts vb_width vb_height,
    viewBox doc = Some parts
    /\ (4 <= length parts)%nat
    /\ nth 2 parts (Raise ValueError) = Ok vb_width
    /\ nth 3 parts (Raise ValueError) = Ok vb_height
    /\ (vb_width == 0 \/ vb_height == 0).

(** The warnings of a run whose first frame failed on the scale and whose
    later frames fail on the attribute that was never set. *)
Definition poisoned_warnings (n : nat) : list log_event :=
  match n with
  | O => []
  | S k => WarnRenderFailed ZeroDivisionError
           :: repeat (WarnRenderFailed AttributeError) k
  end.

(** An environment in which nothing is missing but the size of the
    [viewBox], which is 0 x 0. *)
Definition zero_viewbox_env : trace_env :=
  mkTraceEnv true true false
             (Ok (mkSvg (Some [Ok 0; Ok 0; Ok 0; Ok 0]) ["M0 0 L1 1"%string]))
             true (Some grey2) (fun c _ _ => Ok c).

(** Every foreground pixel of [a] is a foreground pixel of [b]. *)
Definition within (a b : bimg) : Prop :=
  forall y x, (y < brows b)%nat -> (x < bcols b)%nat ->
              fg a y x = true -> fg b y x = true.

(** A 2 x 3 image whose first pixel alone is background. *)
Definition corner_img : bimg :=
  mkBimg 2 3 (fun y x => negb ((y =? 0)%nat && (x =? 0)%nat)).

(** ** The glow trail of [create_highlight_animation]
    ([sketch_animate_highlight.py]) *)

(** A slice bound as Python reads it: counted from the end when negative,
    and clamped to the length. *)
Definition py_bound (len : nat) (k : Z) : nat :=
  if (k <? 0)%Z then Z.to_nat (Z.max 0 (Z.of_nat len + k))
  else Nat.min (Z.to_nat k) len.

(** The slice [xs[a:b]] *)
Definition py_slice {A} (xs : list A) (a b : Z) : list A :=
  skipn (py_bound (length xs) a) (firstn (py_bound (length xs) b) xs).

(** [min(a, b)] on floats *)
Definition py_min (a b : Q) : Q := if Qle_bool a b then a else b.

Section Glow.

Variable fl : Q -> Q.

(** [highlight_trail_frames = int(fps * 0.3)] *)
Definition highlight_trail_frames (fps0 : Z) : Z :=
  py_int (fl (inject_Z fps0 * fl (3 # 10))).

(** [glow_start = max(0, pixels_drawn - highlight_trail_frames * 50)] *)
Definition glow_start (pixels_drawn trail : Z) : Z :=
  Z.max 0 (pixels_drawn - trail * 50).

(** The loop over [enumerate(recent_pixels)], from index [i] on: the centre
    and the intensity of each [cv2.circle(glow_mask, (px, py), 8, intensity,
    -1)], with [age = len(recent_pixels) - i] and
    [intensity = min(1.0, age / (highlight_trail_frames * 10))]. *)
Fixpoint glow_circles (recent : list (nat * nat)) (len i : nat) (trail : Z)
  : res (list (point * Q)) :=
  match recent with
  | [] => Ok []
  | (py, px) :: rest =>
      let age := (len - i)%nat in
      rbind (if Qeq_bool (inject_Z (trail * 10)) 0
             then Raise ZeroDivisionError
             else Ok (fl (QofNat age / inject_Z (trail * 10))))
        (fun ratio =>
           let intensity := py_min 1 ratio in
           rbind (glow_circles rest len (S i) trail)
             (fun later => Ok (((Z.of_nat px, Z.of_nat py), intensity) :: later)))
  end.

(** The glow block of one frame: the circles drawn on [glow_mask], oldest
    pixel first; none when the block is not entered. *)
Definition glow_trail (stroke_pixels : list (nat * nat)) (pixels_drawn : Z)
  (fps0 : Z) : res (list (point * Q)) :=
  let trail := highlight_trail_frames fps0 in
  if (0 <? pixels_drawn)%Z then
    let start := glow_start pixels_drawn trail in
    if (start <? pixels_drawn)%Z then
      let recent_pixels := py_slice stroke_pixels start pixels_drawn in
      glow_circles recent_pixels (length recent_pixels) 0 trail
    else Ok []
  else Ok [].

End Glow.

(** ** [check_dependencies] and [convert_to_pbm] ([sketch_animate.py]) *)

(** What a [subprocess.run(..., timeout=t)] came to. *)
Inductive run_outcome : Type :=
| RunExit (returncode : Z)
| RunNotFound          (* [FileNotFoundError] *)
| RunTimeout.          (* [subprocess.TimeoutExpired] *)

(** [name in missing] *)
Definition py_in (name : string) (xs : list string) : bool :=
  existsb (String.eqb name) xs.

(** [check_dependencies]: the pair it returns, and whether it stored the
    path of the bundled FFmpeg in the configuration. *)
Definition check_dependencies (potrace ffmpeg : run_outcome)
  (win32 bundled_ffmpeg_exists has_cv2 : bool)
  : bool * list string * bool :=
  let missing1 :=
    match potrace with
    | RunExit code => if negb (code =? 0)%Z then ["potrace"%string] else []
    | _ => ["potrace"%string]
    end in
  let '(missing2, ffmpeg_path_set) :=
    match ffmpeg with
    | RunExit code =>
        (if negb (code =? 0)%Z then missing1 ++ ["ffmpeg"%string] else missing1,
         false)
    | _ =>
        if win32 && bundled_ffmpeg_exists then (missing1, true)
        else (missing1 ++ ["ffmpeg"%string], false)
    end in
  let missing :=
    if negb has_cv2
    then missing2 ++ ["opencv-python (optional but recommended)"%string]
    else missing2 in
  ((length missing =? 0)%nat, missing, ffmpeg_path_set).

(** The use [process] makes of the check: [false] when it returns at once. *)
Definition dependencies_gate (checked : bool * list string * bool) : bool :=
  let '(deps_ok, missing, _) := checked in
  if negb deps_ok
  then negb (py_in "potrace" missing || py_in "ffmpeg" missing)
  else true.

(** A single-channel 8-bit image. *)
Record gimg : Type := mkGimg {
  grows : nat;
  gcols : nat;
  gray : nat -> nat -> Z }.

(** [cv2.threshold(img, thresh, maxval, cv2.THRESH_BINARY_INV)] *)
Definition threshold_binary_inv (thresh maxval : Z) (img : gimg) : gimg :=
  mkGimg (grows img) (gcols img)
         (fun y x => if (thresh <? gray img y x)%Z then 0%Z else maxval).

(** [binary.tobytes()]: one byte per pixel, row after row. *)
Definition gimg_tobytes (img : gimg) : list Z :=
  flat_map (fun y => map (fun x => gray img y x) (seq 0 (gcols img)))
           (seq 0 (grows img)).

(** The file that [convert_to_pbm] writes: the header
    [P4\n{width} {height}\n] and the bytes that follow it. *)
Record pbm_file : Type := mkPbm {
  pbm_magic : string;
  pbm_width : nat;
  pbm_height : nat;
  pbm_data : list Z }.

(** [convert_to_pbm]: what it returns and the file it wrote itself, if any.
    [magick] is the fate of the ImageMagick call, [imread] what
    [cv2.imread] gave, [open_pbm] that of opening the file for writing. *)
Definition convert_to_pbm (has_cv2 : bool) (magick : run_outcome)
  (imread : option gimg) (open_pbm : res unit) : res (bool * option pbm_file) :=
  if negb has_cv2 then
    match magick with
    | RunExit code => if (code =? 0)%Z then Ok (true, None) else Ok (false, None)
    | RunNotFound => Ok (false, None)
    | RunTimeout => Raise TimeoutExpired
    end
  else
    match imread with
    | None => Ok (false, None)
    | Some img =>
        let binary := threshold_binary_inv 127 255 img in
        match open_pbm with
        | Raise _ => Ok (false, None)
        | Ok _ =>
            Ok (true, Some (mkPbm "P4" (gcols binary) (grows binary)
                                  (gimg_tobytes binary)))
        end
    end.

(** A 3 x 2 image with a dark and a bright half. *)
Definition halves : gimg :=
  mkGimg 2 3 (fun _ x => if (x <? 1)%nat then 10%Z else 240%Z).

(** ** [create_highlight_animation] ([sketch_animate_highlight.py]) *)

(** What [preprocess_image] of the highlight animator came back with. *)
Inductive hl_loaded : Type :=
| HlLoaded (img_color : canvas) (drawing_mask : nat -> nat -> bool)
| HlUnreadable     (* the image could not be read: a bare [return None] *)
| HlRaised.        (* the handler's [return None, None, None], after its
                      "Preprocessing error" line *)

Section Highlight.

Variable fl : Q -> Q.
Variable rng : Type.
Variable np_random_seed : Z -> rng.
Variable np_random_randn : nat -> rng -> list Q * rng.
Variable np_argsort : list Q -> list nat.
Variable np_sin : Q -> Q.
Variable circle_raster : circle_op -> nat -> nat -> pixel -> pixel.

(** The glow of a trail that is not empty: its circles on a float mask,
    [cv2.GaussianBlur(glow_mask, (21, 21), 0)], the mask times the glow
    colour added to the canvas, and the clip back to [uint8]. *)
Variable glow_filter : list (point * Q) -> canvas -> canvas.

(** [cv2.addWeighted(canvas, 1 - alpha, overlay, alpha, 0)], [alpha = 0.4] *)
Variable addWeighted : canvas -> canvas -> canvas.

(** The body of the frame loop up to the write.  A trail without circles
    leaves the mask at zero, and the canvas as it is. *)
Definition highlight_canvas (img_color : canvas)
  (stroke_pixels : list (nat * nat)) (total_pixels h w : nat) (fps0 : Z)
  (frame_idx total_frames : nat) : res canvas :=
  let pixels_drawn := pixels_to_draw fl total_pixels frame_idx total_frames in
  let canvas0 := blank h w in
  rbind
    (if (0 <? pixels_drawn)%Z then
       let revealed := py_prefix stroke_pixels pixels_drawn in
       let canvas1 := reveal_pixels img_color revealed canvas0 in
       rbind (glow_trail fl stroke_pixels pixels_drawn fps0)
         (fun circles =>
            let canvas2 :=
              match circles with
              | [] => canvas1
              | _ :: _ => glow_filter circles canvas1
              end in
            match highlight_cursor_ops fl np_sin stroke_pixels pixels_drawn
                                       total_pixels frame_idx with
            | [] => Ok canvas2
            | ops =>
                let overlay :=
                  fold_left (fun c op => paint (circle_raster op) c) ops canvas2 in
                Ok (addWeighted canvas2 overlay)
            end)
     else Ok canvas0)
    (fun canvas1 => Ok (bgr2rgb canvas1)).

(** [HighlightAnimator.create_highlight_animation].  [loaded] is what
    [preprocess_image] returned, the mask being
    [threshold(...) | stroke_map]; [g] is the state of numpy's generator
    when the run starts. *)
Definition create_highlight_animation (cfg : config) (enc : encoder)
  (loaded : hl_loaded) (g : rng)
  (save_outputs : res unit) : M bool :=
  try_finally
    (try_except
       (let total_frames := total_frames_of fl (fps cfg) (duration cfg) in
        match loaded with
        | HlUnreadable => raise TypeError   (* [None] unpacked into three *)
        | HlRaised => ret false
        | HlLoaded img_color drawing_mask =>
            let h := height cfg in
            let w := width cfg in
            (if (length (np_where drawing_mask h w) =? 0)%nat
             then logger WarnFallback else ret tt) ;;
            let total_pixels := length (stroke_pixels_of drawing_mask h w) in
            let stroke_pixels :=
              fst (highlight_drawing_plan fl np_random_seed np_random_randn
                                          np_argsort drawing_mask h w g) in
            popen enc ;;
            for_each (seq 0 total_frames)
              (fun frame_idx =>
                 canvas_rgb <- lift (highlight_canvas img_color stroke_pixels
                                       total_pixels h w (fps cfg) frame_idx
                                       total_frames) ;;
                 stdin_write enc (tobytes canvas_rgb)) ;;
            stdin_close enc ;;
            return_code <- wait enc 60 ;;
            if negb (return_code =? 0)%Z
            then logger (ErrFfmpegFailed return_code) ;; ret false
            else logger InfoComplete ;; lift save_outputs ;; ret true
        end)
       (fun e => logger (ErrAnimation e) ;; ret false))
    cleanup.

End Highlight.

(** Filters that leave the canvas as it is, for the closed examples. *)
Definition keep_glow : list (point * Q) -> canvas -> canvas := fun _ c => c.
Definition keep_blend : canvas -> canvas -> canvas := fun c _ => c.

(** ** [colab/fastapi_server.py]: the job store and its endpoints *)

Module JobServer.

(** A Python dict with string keys, in insertion order: [d[k] = v] replaces
    the value of a key that is there and appends a key that is not. *)
Fixpoint dict_set {V} (k : string) (v : V) (d : list (string * V))
  : list (string * V) :=
  match d with
  | [] => [(k, v)]
  | (k', v') :: rest =>
      if String.eqb k k' then (k', v) :: rest
      else (k', v') :: dict_set k v rest
  end.

(** [d.get(k)] *)
Fixpoint dict_get {V} (k : string) (d : list (string * V)) : option V :=
  match d with
  | [] => None
  | (k', v) :: rest => if String.eqb k k' then Some v else dict_get k rest
  end.

(** The truth value of an optional string and of an optional flag. *)
Definition truthy (o : option string) : bool :=
  match o with
  | Some s => nonempty s
  | None => false
  end.

Definition flag (o : option bool) : bool :=
  match o with
  | Some b => b
  | None => false
  end.

(** What a handler answers: a body with its status code, or an
    [HTTPException]. *)
Inductive http (A : Type) : Type :=
| Respond (status_code : nat) (body : A)
| HTTPException (status_code : nat) (detail : string).
Arguments Respond {A} status_code body.
Arguments HTTPException {A} status_code detail.

(** [class CallbackRequest] *)
Record CallbackRequest : Type := mkCallback {
  req_status : string;
  req_outputPath : option string;
  req_error : option string;
  req_startedAt : option bool }.

(** The [{job_id}-status.json] file. *)
Record status_file : Type := mkStatusFile {
  file_status : string;
  file_outputPath : option string;
  file_error : option string }.

(** The body of [get_job_status]. *)
Record JobStatus : Type := mkJobStatus {
  js_jobId : string;
  js_status : string;
  js_createdAt : string;
  js_startedAt : option string;
  js_completedAt : option string;
  js_error : option string;
  js_downloadUrl : option string }.

(** One entry of the body of [get_pending_jobs]. *)
Record pending_job : Type := mkPending {
  pj_jobId : string;
  pj_createdAt : string;
  pj_planUrl : string;
  pj_callbackUrl : option string }.

(** The JSON posted to the webhook. *)
Record webhook_post : Type := mkWebhook {
  wh_url : string;
  wh_jobId : string;
  wh_status : string;
  wh_outputPath : option string;
  wh_error : option string }.

Section Store.

(** [request.videoPlan.dict()] *)
Variable plan : Type.

(** An entry of [jobs.json]; a key that is absent reads as [None]. *)
Record job : Type := mkJob {
  jobId : string;
  status : string;
  videoPlan : plan;
  createdAt : string;
  callbackUrl : option string;
  startedAt : option string;
  completedAt : option string;
  error : option string;
  outputPath : option string }.

(** The files under [JOBS_DIR]: [jobs.json], the plans, the statuses. *)
Record server : Type := mkServer {
  jobs : list (string * job);
  plan_files : list (string * plan);
  status_files : list (string * status_file) }.

(** No [jobs.json] yet: [load_jobs] returns [{}]. *)
Definition empty_server : server := mkServer [] [] [].

(** [create_job]; [job_id] and [now] are what the clock and [uuid4] gave. *)
Definition create_job (job_id now : string) (videoPlan0 : plan)
  (callbackUrl0 : option string) (s : server)
  : http (string * string * string) * server :=
  let job0 := mkJob job_id "pending" videoPlan0 now callbackUrl0
                    None None None None in
  (Respond 202 (job_id, "pending"%string, createdAt job0),
   mkServer (dict_set job_id job0 (jobs s))
            (dict_set job_id videoPlan0 (plan_files s))
            (dict_set job_id (mkStatusFile "pending" None None)
                      (status_files s))).

(** [get_job_status] *)
Definition get_job_status (job_id : string) (s : server) : http JobStatus :=
  match dict_get job_id (jobs s) with
  | None => HTTPException 404 "Job not found"
  | Some job0 =>
      let download_url :=
        if String.eqb (status job0) "completed"
        then Some (String.append "/api/colab/download/" job_id)
        else None in
      Respond 200 (mkJobStatus job_id (status job0) (createdAt job0)
                               (startedAt job0) (completedAt job0)
                               (error job0) download_url)
  end.

(** [get_job_plan]: answers from the plan file. *)
Definition get_job_plan (job_id : string) (s : server) : http plan :=
  match dict_get job_id (plan_files s) with
  | None => HTTPException 404 "Job plan not found"
  | Some p => Respond 200 p
  end.

(** [get_pending_jobs] *)
Definition get_pending_jobs (s : server) : list pending_job :=
  map (fun kv : string * job =>
         mkPending (fst kv) (createdAt (snd kv))
                   (String.append "/api/colab/plan/" (fst kv))
                   (callbackUrl (snd kv)))
      (filter (fun kv : string * job => String.eqb (status (snd kv)) "pending")
              (jobs s)).

(** The updates that [job_callback] makes to the job. *)
Definition report (request : CallbackRequest) (now : string) (job0 : job) : job :=
  let st := req_status request in
  let started :=
    if String.eqb st "processing" && flag (req_startedAt request)
    then Some now else startedAt job0 in
  let completed :=
    if String.eqb st "completed" || String.eqb st "failed"
    then Some now else completedAt job0 in
  let output :=
    if String.eqb st "completed" && truthy (req_outputPath request)
    then req_outputPath request else outputPath job0 in
  let err :=
    if String.eqb st "failed" && truthy (req_error request)
    then req_error request else error job0 in
  mkJob (jobId job0) st (videoPlan job0) (createdAt job0) (callbackUrl job0)
        started completed err output.

(** [job_callback]: the answer, the post made to the webhook if any (its
    failure is caught and printed), and the files. *)
Definition job_callback (job_id : string) (request : CallbackRequest)
  (now : string) (s : server)
  : http (string * string) * option webhook_post * server :=
  match dict_get job_id (jobs s) with
  | None => (HTTPException 404 "Job not found", None, s)
  | Some job0 =>
      let job1 := report request now job0 in
      let s' := mkServer (dict_set job_id job1 (jobs s)) (plan_files s)
                         (dict_set job_id
                            (mkStatusFile (status job1) (outputPath job1)
                                          (error job1))
                            (status_files s)) in
      let post :=
        if truthy (callbackUrl job1)
           && (String.eqb (req_status request) "completed"
               || String.eqb (req_status request) "failed")
        then match callbackUrl job1 with
             | Some url => Some (mkWebhook url job_id (status job1)
                                           (outputPath job1) (error job1))
             | None => None
             end
        else None in
      (Respond 200 (job_id, status job1), post, s')
  end.

(** [download_video]; [exists_file] is [Path.exists]. *)
Definition download_video (exists_file : string -> bool) (job_id : string)
  (s : server) : http string :=
  match dict_get job_id (jobs s) with
  | None => HTTPException 404 "Job not found"
  | Some job0 =>
      if negb (String.eqb (status job0) "completed") then
        HTTPException 400
          (String.append "Job is not completed. Current status: " (status job0))
      else
        let output_path :=
          if truthy (outputPath job0)
          then match outputPath job0 with
               | Some p => p
               | None => EmptyString
               end
          else String.append "temp/colab-jobs/"
                             (String.append job_id "-output.mp4") in
        if negb (exists_file output_path)
        then HTTPException 404 "Output file not found"
        else Respond 200 output_path
  end.

(** [process_job_locally]: the answer, whether the background task was
    created, and the files. *)
Definition process_job_locally (job_id now : string) (s : server)
  : http string * bool * server :=
  match dict_get job_id (jobs s) with
  | None => (HTTPException 404 "Job not found", false, s)
  | Some job0 =>
      if negb (String.eqb (status job0) "pending") then
        (HTTPException 400
           (String.append "Job is not pending. Current status: " (status job0)),
         false, s)
      else
        let job1 := mkJob (jobId job0) "processing" (videoPlan job0)
                          (createdAt job0) (callbackUrl job0) (Some now)
                          (completedAt job0) (error job0) (outputPath job0) in
        (Respond 200 job_id, true,
         mkServer (dict_set job_id job1 (jobs s)) (plan_files s)
                  (status_files s))
  end.

(** [process_video_background], once its sleep is over. *)
Definition process_video_background (job_id now : string) (s : server) : server :=
  match dict_get job_id (jobs s) with
  | None => s
  | Some job0 =>
      let job1 :=
        mkJob (jobId job0) "failed" (videoPlan job0) (createdAt job0)
              (callbackUrl job0) (startedAt job0) (Some now)
              (Some "Local processing not yet implemented. Use Colab or Node.js server."%string)
              (outputPath job0) in
      mkServer (dict_set job_id job1 (jobs s)) (plan_files s) (status_files s)
  end.

(** What reaches the server: the requests that write, and the end of a
    background task. *)
Inductive event : Type :=
| Generate (job_id now : string) (videoPlan0 : plan)
           (callbackUrl0 : option string)
| Callback (job_id : string) (request : CallbackRequest) (now : string)
| Process (job_id now : string)
| Background (job_id now : string).

Definition handle (s : server) (e : event) : server :=
  match e with
  | Generate job_id now p cb => snd (create_job job_id now p cb s)
  | Callback job_id request now => snd (job_callback job_id request now s)
  | Process job_id now => snd (process_job_locally job_id now s)
  | Background job_id now => process_video_background job_id now s
  end.

Definition serve (events : list event) (s : server) : server :=
  fold_left handle events s.

(** Is the event a [create_job] for this id? *)
Definition generates (job_id : string) (e : event) : bool :=
  match e with
  | Generate k _ _ _ => String.eqb k job_id
  | _ => false
  end.

(** What holds of the files after any history of the server: the keys of
    [jobs.json] are distinct, every job is stored under its own id, its plan
    file holds its plan, and it has a status file. *)
Definition consistent (s : server) : Prop :=
  NoDup (map fst (jobs s))
  /\ (forall k, dict_get k (plan_files s)
                = option_map videoPlan (dict_get k (jobs s)))
  /\ (forall k j, dict_get k (jobs s) = Some j -> jobId j = k)
  /\ (forall k, dict_get k (status_files s) = None
                <-> dict_get k (jobs s) = None).

(** The fields of a job that no report changes, and those that are only
    ever filled in. *)
Definition same_job (j j' : job) : Prop :=
  jobId j' = jobId j /\ videoPlan j' = videoPlan j
  /\ createdAt j' = createdAt j /\ callbackUrl j' = callbackUrl j.

Definition keeps_record (j j' : job) : Prop :=
  (startedAt j <> None -> startedAt j' <> None)
  /\ (completedAt j <> None -> completedAt j' <> None)
  /\ (error j <> None -> error j' <> None)
  /\ (outputPath j <> None -> outputPath j' <> None).

End Store.

End JobServer.

(** ** [extract_drawing_strokes] ([sketch_animate_whiteboard.py]) *)

(** [sorted(xs, key=key)]: a stable sort, smallest key first. *)
Fixpoint insert_asc {A} (key : A -> Q) (a : A) (sorted : list A) : list A :=
  match sorted with
  | [] => [a]
  | b :: rest =>
      if Qle_bool (key a) (key b) then a :: sorted
      else b :: insert_asc key a rest
  end.

Definition py_sorted {A} (key : A -> Q) (xs : list A) : list A :=
  fold_right (insert_asc key) [] xs.

Section Strokes.

Variable fl : Q -> Q.
(** [cv2.moments]: (m00, m10, m01); [cv2.contourArea]; [cv2.arcLength(cnt,
    True)]; [cv2.approxPolyDP(cnt, epsilon, True)] as a list of points. *)
Variable moments : contour -> Q * Q * Q.
Variable contourArea : contour -> Q.
Variable arcLength : contour -> Q.
Variable approxPolyDP : contour -> Q -> list point.

(** The sort key: the height of the centroid, 0 without area. *)
Definition contour_top (cnt : contour) : Q :=
  let '(m00, _, m01) := moments cnt in
  if negb (Qeq_bool m00 0) then fl (m01 / m00) else 0.

(** The outline paths of pass 1, from the contours of the edge map. *)
Definition outline_paths_of (edge_contours : list contour) : list (list point) :=
  let min_edge_area := 50 in
  let sorted := py_sorted contour_top edge_contours in
  let kept := filter (fun cnt => Qle_bool min_edge_area (contourArea cnt)) sorted in
  filter (fun points => (3 <=? length points)%nat)
         (map (fun cnt => approxPolyDP cnt (fl (fl (3 # 1000) * arcLength cnt)))
              kept).

(** The colour fills of pass 2, from the contours of the binary mask. *)
Definition color_fills_of (color_contours : list contour) : list contour :=
  let min_color_area := 100 in
  filter (fun cnt => Qle_bool min_color_area (contourArea cnt))
         (py_sorted contour_top color_contours).

(** [extract_drawing_strokes]: [loaded] is the enhanced image with the
    contours found in its edge map and in its binary mask, [None] when
    [cv2.imread] gave nothing, or the exception that an OpenCV call
    raised. *)
Definition extract_drawing_strokes
  (loaded : res (option (canvas * list contour * list contour)))
  : wb_extraction :=
  match loaded with
  | Raise _ => WbRaised
  | Ok None => WbUnreadable
  | Ok (Some (img_enhanced, edge_contours, color_contours)) =>
      WbStrokes img_enhanced (outline_paths_of edge_contours)
                (color_fills_of color_contours)
  end.

End Strokes.

(** ** [colab/test-ngrok-connection.py] *)

(** A JSON value, as [response.json()] hands it over. *)
Unset Elimination Schemes.
Inductive json : Type :=
| JNull
| JBool (b : bool)
| JNumber (q : Q)
| JString (s : string)
| JArray (items : list json)
| JObject (fields : list (string * json)).
Set Elimination Schemes.

(** What [requests.get] or [requests.post] came to: a response with its
    status code and its body ([None] when the body is not JSON), or a
    [RequestException] (no connection, a timeout). *)
Inductive reply : Type :=
| Replied (status_code : nat) (body : option json)
| RequestException.

(** [response.json()] *)
Definition response_json (body : option json) : res json :=
  match body with
  | Some data => Ok data
  | None => Raise JSONDecodeError
  end.

(** [data.get(key, default)]: only a dict has the method. *)
Definition json_get (data : json) (key : string) (default : json) : res json :=
  match data with
  | JObject fields =>
      Ok (match JobServer.dict_get key fields with
          | Some value => value
          | None => default
          end)
  | _ => Raise AttributeError
  end.

(** [len(value)] *)
Definition json_len (value : json) : res nat :=
  match value with
  | JArray items => Ok (length items)
  | JObject fields => Ok (length fields)
  | JString s => Ok (String.length s)
  | _ => Raise TypeError
  end.

Section Client.

(** The server behind the URL, and its three endpoints as the client
    reaches them. *)
Variable S : Type.
Variable get_health : S -> reply * S.
Variable get_pending : S -> reply * S.
Variable post_generate : S -> reply * S.

(** Is the error of [response.json()] a [RequestException]?  It is from
    [requests] 2.27 on; before, it is a [ValueError]. *)
Variable json_error_is_request_exception : bool.

(** [try: ... except requests.exceptions.RequestException: <handler>],
    once the request has been answered: of what the body of the [try] can
    raise then, the handler takes the JSON error alone, and that when it is
    a [RequestException]. *)
Definition except_request_exception {A} (body : res A) (handler : A) : res A :=
  match body with
  | Raise JSONDecodeError =>
      if json_error_is_request_exception then Ok handler else body
  | _ => body
  end.

(** Test 1, the health check: [true] to go on, [false] for [return False]. *)
Definition health_check (health : reply) : res bool :=
  match health with
  | RequestException => Ok false
  | Replied status_code body =>
      if (status_code =? 200)%nat
      then except_request_exception
             (rbind (response_json body) (fun _ => Ok true)) false
      else Ok false
  end.

(** Test 2, the pending jobs: nothing is returned, the count is printed. *)
Definition pending_check (pending : reply) : res unit :=
  match pending with
  | RequestException => Ok tt
  | Replied status_code body =>
      if (status_code =? 200)%nat
      then except_request_exception
             (rbind (response_json body) (fun data =>
              rbind (json_get data "jobs" (JArray [])) (fun jobs =>
              rbind (json_len jobs) (fun _ => Ok tt))))
             tt
      else Ok tt
  end.

(** Test 3, the test job: the value returned. *)
Definition creation_check (created : reply) : res bool :=
  match created with
  | RequestException => Ok false
  | Replied status_code body =>
      if (status_code =? 202)%nat
      then except_request_exception
             (rbind (response_json body) (fun job_data =>
              rbind (json_get job_data "jobId" JNull) (fun _ =>
              rbind (json_get job_data "endpoints" (JObject [])) (fun endpoints =>
              rbind (json_get endpoints "status" JNull) (fun _ => Ok true)))))
             false
      else Ok false
  end.

(** [test_connection]: the result, or the exception that escapes it, and
    the server after the requests that were made. *)
Definition test_connection (s : S) : res bool * S :=
  let '(health, s1) := get_health s in
  match health_check health with
  | Raise e => (Raise e, s1)
  | Ok false => (Ok false, s1)
  | Ok true =>
      let '(pending, s2) := get_pending s1 in
      match pending_check pending with
      | Raise e => (Raise e, s2)
      | Ok _ =>
          let '(created, s3) := post_generate s2 in
          (creation_check created, s3)
      end
  end.

End Client.

(** The bodies that the handlers of [fastapi_server.py] return, as JSON. *)
Definition json_optional (o : option string) : json :=
  match o with
  | Some s => JString s
  | None => JNull
  end.

Definition health_body (now : string) : json :=
  JObject [ ("status", JString "ok"); ("timestamp", JString now);
            ("service", JString "colab-video-api-fastapi") ]%string.

Definition pending_body (pending : list JobServer.pending_job) : json :=
  JObject
    [ ("jobs"%string,
       JArray
         (map (fun j =>
                 JObject [ ("jobId", JString (JobServer.pj_jobId j));
                           ("createdAt", JString (JobServer.pj_createdAt j));
                           ("planUrl", JString (JobServer.pj_planUrl j));
                           ("callbackUrl",
                            json_optional (JobServer.pj_callbackUrl j)) ]%string)
              pending)) ].

Definition created_body (job_id status createdAt : string) : json :=
  JObject
    [ ("jobId", JString job_id); ("status", JString status);
      ("createdAt", JString createdAt);
      ("endpoints",
       JObject [ ("status", JString (String.append "/api/colab/status/" job_id));
                 ("download",
                  JString (String.append "/api/colab/download/" job_id));
                 ("plan", JString (String.append "/api/colab/plan/" job_id)) ]);
      ("message",
       JString "Job created. Use Colab notebook to process, or poll status endpoint.")
    ]%string.

(** The endpoints of [fastapi_server.py] behind a tunnel that works;
    [job_id] and [now] are what the server's clock and [uuid4] give to the
    job of test 3, which carries no callback URL, and [health_now] is the
    clock at the health check. *)
Definition tunnel_health {plan : Type} (health_now : string)
  (s : JobServer.server plan) : reply * JobServer.server plan :=
  (Replied 200 (Some (health_body health_now)), s).

Definition tunnel_pending {plan : Type} (s : JobServer.server plan)
  : reply * JobServer.server plan :=
  (Replied 200 (Some (pending_body (JobServer.get_pending_jobs s))), s).

Definition tunnel_generate {plan : Type} (job_id now : string) (test_plan : plan)
  (s : JobServer.server plan) : reply * JobServer.server plan :=
  match JobServer.create_job job_id now test_plan None s with
  | (JobServer.Respond code (job_id0, status0, createdAt0), s') =>
      (Replied code (Some (created_body job_id0 status0 createdAt0)), s')
  | (JobServer.HTTPException code detail, s') =>
      (Replied code (Some (JObject [("detail"%string, JString detail)])), s')
  end.

(** Does the frame loop of [create_animation] blacken the pixel when it
    draws the contour: filled, or along its outline of thickness 2? *)
Definition drawn_by (contour_raster : contour -> Z -> nat -> nat -> bool)
  (cnt : contour) (y x : nat) : bool :=
  contour_raster cnt (-1)%Z y x || contour_raster cnt 2%Z y x.

(** * Properties *)

(** ** Facts on numbers *)

Lemma py_int_monotone (x y : Q) : x <= y -> (py_int x <= py_int y)%Z.
Proof.
  intros Hxy. unfold py_int.
  destruct (Qle_bool 0 x) eqn:Hx; destruct (Qle_bool 0 y) eqn:Hy.
  - now apply Qfloor_resp_le.
  - apply Qle_bool_iff in Hx.
    assert (Hy' : 0 <= y) by (eapply Qle_trans; eauto).
    apply Qle_bool_iff in Hy'. congruence.
  - apply Qle_bool_iff in Hy.
    apply Z.le_trans with 0%Z.
    + assert (Hneg : x <= 0).
      { destruct (Qlt_le_dec x 0) as [Hlt|Hge].
        - now apply Qlt_le_weak.
        - apply Qle_bool_iff in Hge. congruence. }
      change 0%Z with (Qceiling 0). now apply Qceiling_resp_le.
    + change 0%Z with (Qfloor 0). now apply Qfloor_resp_le.
  - now apply Qceiling_resp_le.
Qed.

Lemma py_int_integer (z : Z) : py_int (inject_Z z) = z.
Proof.
  unfold py_int. destruct (Qle_bool 0 (inject_Z z)).
  - apply Qfloor_Z.
  - apply Qceiling_Z.
Qed.

Lemma py_int_compat (x y : Q) : x == y -> py_int x = py_int y.
Proof.
  intros E. apply Z.le_antisymm; apply py_int_monotone; rewrite E; apply Qle_refl.
Qed.

Lemma monotone_rounding_compat (fl : Q -> Q) :
  monotone_rounding fl -> forall x y, x == y -> fl x == fl y.
Proof.
  intros M x y E. apply Qle_antisym; apply M; rewrite E; apply Qle_refl.
Qed.

Lemma QofNat_le (a b : nat) : (a <= b)%nat -> QofNat a <= QofNat b.
Proof.
  intros H. unfold QofNat. rewrite <- Zle_Qle. lia.
Qed.

Lemma QofNat_nonneg (a : nat) : 0 <= QofNat a.
Proof. apply (QofNat_le (a:=0)). lia. Qed.

Lemma progress_monotone (fl : Q -> Q) (N i j : nat) :
  monotone_rounding fl -> (i <= j)%nat -> progress fl i N <= progress fl j N.
Proof.
  intros M Hij. unfold progress. apply M.
  unfold Qdiv. apply Qmult_le_compat_r.
  - apply QofNat_le. lia.
  - destruct N as [|n].
    + apply Qle_refl.
    + apply Qlt_le_weak, Qinv_lt_0_compat. unfold QofNat.
      change 0 with (inject_Z 0). rewrite <- Zlt_Qlt. lia.
Qed.

Lemma reveal_count_monotone (fl : Q -> Q) (total N i j : nat) :
  monotone_rounding fl -> (i <= j)%nat ->
  (reveal_count fl total i N <= reveal_count fl total j N)%Z.
Proof.
  intros M Hij. unfold reveal_count.
  apply py_int_monotone, M.
  rewrite (Qmult_comm (QofNat total) (progress fl i N)).
  rewrite (Qmult_comm (QofNat total) (progress fl j N)).
  apply Qmult_le_compat_r.
  - now apply progress_monotone.
  - apply QofNat_nonneg.
Qed.

(** ** Reveal progress *)

Lemma exact_monotone : monotone_rounding exact.
Proof. intros x y H. exact H. Qed.

Lemma exact_exact_on_integers : exact_on_integers exact.
Proof. intros z _. apply Qeq_refl. Qed.

(** ** The rounding of doubles *)

Lemma binary64_pos (q : Q) : 0 < q -> binary64 q == nearest q.
Proof.
  intros H. unfold binary64.
  destruct (Qnum q) eqn:E.
  - exfalso. unfold Qlt in H. simpl in H. lia.
  - assert (P : Qle_bool 0 q = true) by (apply Qle_bool_iff; lra).
    rewrite P. rewrite Qred_correct. reflexivity.
  - exfalso. unfold Qlt in H. simpl in H. lia.
Qed.

Lemma binary64_neg (q : Q) : q < 0 -> binary64 q == - nearest (- q).
Proof.
  intros H. unfold binary64.
  destruct (Qnum q) eqn:E.
  - exfalso. unfold Qlt in H. simpl in H. lia.
  - exfalso. unfold Qlt in H. simpl in H. lia.
  - assert (P : Qle_bool 0 q = false).
    { destruct (Qle_bool 0 q) eqn:K; [|reflexivity].
      apply Qle_bool_iff in K. lra. }
    rewrite P. rewrite Qred_correct. reflexivity.
Qed.

Lemma binary64_zero (q : Q) : q == 0 -> binary64 q == 0.
Proof.
  intros H. unfold binary64.
  assert (E : Qnum q = 0%Z) by (unfold Qeq in H; simpl in H; lia).
  now rewrite E.
Qed.

Lemma pow2_pos (e : Z) : 0 < 2 ^ e.
Proof. apply Qpower_0_lt. reflexivity. Qed.

Lemma pow2_succ (e : Z) : 2 ^ (e + 1) == 2 * 2 ^ e.
Proof. rewrite Qpower_plus by discriminate. change (2 ^ 1) with 2. ring. Qed.

Lemma pow2_Z (n : Z) : (0 <= n)%Z -> inject_Z (2 ^ n) == 2 ^ n.
Proof. intros H. now rewrite Zpower_Qpower. Qed.

(** [2 ^ (log2 n - log2 d - 1) < n / d < 2 ^ (log2 n - log2 d + 1)] *)
Lemma binade_spec (a : Q) :
  0 < a -> 2 ^ binade a <= a /\ a < 2 ^ (binade a + 1).
Proof.
  intros H. destruct a as [n d].
  assert (Hn : (0 < n)%Z) by (unfold Qlt in H; simpl in H; lia).
  unfold binade. cbn [Qnum Qden].
  set (ln := Z.log2 n). set (ld := Z.log2 (Z.pos d)).
  destruct (Z.log2_spec n Hn) as [N1 N2]. fold ln in N1, N2.
  destruct (Z.log2_spec (Z.pos d) ltac:(lia)) as [D1 D2]. fold ld in D1, D2.
  assert (Ln : (0 <= ln)%Z) by apply Z.log2_nonneg.
  assert (Ld : (0 <= ld)%Z) by apply Z.log2_nonneg.
  assert (Qn1 : 2 ^ ln <= inject_Z n)
    by (rewrite <- pow2_Z by lia; now rewrite <- Zle_Qle).
  assert (Qn2 : inject_Z n < 2 ^ (ln + 1))
    by (rewrite <- pow2_Z by lia; now rewrite <- Zlt_Qlt).
  assert (Qd1 : 2 ^ ld <= inject_Z (Z.pos d))
    by (rewrite <- pow2_Z by lia; now rewrite <- Zle_Qle).
  assert (Qd2 : inject_Z (Z.pos d) < 2 ^ (ld + 1))
    by (rewrite <- pow2_Z by lia; now rewrite <- Zlt_Qlt).
  assert (A : (n # d) == inject_Z n / inject_Z (Z.pos d)) by apply Qmake_Qdiv.
  assert (Pd : 0 < inject_Z (Z.pos d)) by reflexivity.
  assert (Pl : 0 < 2 ^ ld) by apply pow2_pos.
  assert (Pn : 0 < 2 ^ ln) by apply pow2_pos.
  assert (M : (n # d) * inject_Z (Z.pos d) == inject_Z n).
  { rewrite A. field. lra. }
  rewrite pow2_succ in Qn2, Qd2.
  assert (Pe : 2 ^ (ln - ld) * 2 ^ ld == 2 ^ ln).
  { rewrite <- Qpower_plus by discriminate. now replace (ln - ld + ld)%Z with ln by lia. }
  assert (Pe' : 2 ^ (ln - ld - 1) * 2 == 2 ^ (ln - ld)).
  { rewrite Qmult_comm, <- pow2_succ.
    now replace (ln - ld - 1 + 1)%Z with (ln - ld)%Z by lia. }
  assert (Pp : 0 < 2 ^ (ln - ld)) by apply pow2_pos.
  assert (Pq : 0 < 2 ^ (ln - ld - 1)) by apply pow2_pos.
  set (x := n # d) in *. set (D := inject_Z (Z.pos d)) in *.
  set (N := inject_Z n) in *.
  set (p := 2 ^ (ln - ld)) in *. set (q := 2 ^ (ln - ld - 1)) in *.
  set (pd := 2 ^ ld) in *. set (pn := 2 ^ ln) in *.
  destruct (Qle_bool p x) eqn:K.
  - apply Qle_bool_iff in K. split; [exact K|].
    rewrite pow2_succ. fold p.
    (* x * D = N < 2 pn = 2 p pd <= 2 p D *)
    apply Qnot_le_lt. intros C. 
    assert (2 * p * D <= x * D) by nra. nra.
  - assert (K' : x < p).
    { apply Qnot_le_lt. intros C. apply Qle_bool_iff in C. congruence. }
    replace (ln - ld - 1 + 1)%Z with (ln - ld)%Z by lia. fold p q.
    split; [|exact K'].
    (* q * 2 = p; p * pd = pn <= N = x D < x * 2 pd *)
    apply Qnot_lt_le. intros C.
    assert (x * D < q * (2 * pd)) by nra. nra.
Qed.

Lemma binade_unique (a : Q) (e : Z) :
  0 < a -> 2 ^ e <= a -> a < 2 ^ (e + 1) -> binade a = e.
Proof.
  intros H L U. destruct (binade_spec H) as [L' U'].
  assert (A : (e < binade a + 1)%Z).
  { apply (@Qpower_lt_compat_l_inv 2); [|reflexivity]. lra. }
  assert (B : (binade a < e + 1)%Z).
  { apply (@Qpower_lt_compat_l_inv 2); [|reflexivity]. lra. }
  lia.
Qed.

Lemma round_half_even_floor (x : Q) :
  round_half_even x = Qfloor x \/ round_half_even x = (Qfloor x + 1)%Z.
Proof.
  unfold round_half_even.
  destruct (x - inject_Z (Qfloor x) ?= 1 # 2); [destruct (Z.even _)| |]; auto.
Qed.

Lemma round_half_even_compat (x y : Q) :
  x == y -> round_half_even x = round_half_even y.
Proof.
  intros E. unfold round_half_even.
  assert (F : Qfloor x = Qfloor y) by now rewrite E.
  rewrite F.
  assert (C : (x - inject_Z (Qfloor y) ?= 1 # 2)
              = (y - inject_Z (Qfloor y) ?= 1 # 2)) by now rewrite E.
  now rewrite C.
Qed.

Lemma round_half_even_integer (z : Z) : round_half_even (inject_Z z) = z.
Proof.
  unfold round_half_even. rewrite Qfloor_Z.
  assert (E : (inject_Z z - inject_Z z ?= 1 # 2) = Lt)
    by (apply -> Qlt_alt; lra).
  now rewrite E.
Qed.

Lemma round_half_even_ge (x : Q) (z : Z) :
  inject_Z z <= x -> (z <= round_half_even x)%Z.
Proof.
  intros H. assert (F : (z <= Qfloor x)%Z).
  { rewrite <- (Qfloor_Z z). now apply Qfloor_resp_le. }
  destruct (round_half_even_floor x); lia.
Qed.

Lemma round_half_even_le (x : Q) (z : Z) :
  x <= inject_Z z -> (round_half_even x <= z)%Z.
Proof.
  intros H. destruct (Qlt_le_dec x (inject_Z z)) as [L|G].
  - assert (F : (Qfloor x < z)%Z).
    { rewrite Zlt_Qlt. eapply Qle_lt_trans; [apply Qfloor_le|exact L]. }
    destruct (round_half_even_floor x); lia.
  - assert (E : x == inject_Z z) by lra.
    unfold round_half_even.
    assert (Fl : Qfloor x = z) by (rewrite E; apply Qfloor_Z).
    rewrite Fl.
    assert (K : (x - inject_Z z ?= 1 # 2) = Lt) by (apply -> Qlt_alt; lra).
    rewrite K. lia.
Qed.

Lemma round_half_even_monotone (x y : Q) :
  x <= y -> (round_half_even x <= round_half_even y)%Z.
Proof.
  intros H.
  assert (F : (Qfloor x <= Qfloor y)%Z) by now apply Qfloor_resp_le.
  destruct (Z.eq_dec (Qfloor x) (Qfloor y)) as [E|NE].
  - unfold round_half_even. rewrite <- E.
    set (f := Qfloor x).
    destruct (Qcompare_spec (x - inject_Z f) (1 # 2)) as [Cx|Cx|Cx];
      destruct (Qcompare_spec (y - inject_Z f) (1 # 2)) as [Cy|Cy|Cy];
      try (destruct (Z.even f)); try lia; exfalso; lra.
  - destruct (round_half_even_floor x), (round_half_even_floor y); lia.
Qed.

(** The rounding of a positive number stays in its binade, ends
    included. *)
Lemma nearest_bounds (a : Q) :
  0 < a -> 2 ^ binade a <= nearest a /\ nearest a <= 2 ^ (binade a + 1).
Proof.
  intros H. destruct (binade_spec H) as [L U].
  unfold nearest. set (e := binade a) in *.
  set (ulp := 2 ^ (e - 52)).
  assert (Pu : 0 < ulp) by apply pow2_pos.
  assert (E1 : 2 ^ e == inject_Z (2 ^ 52) * ulp).
  { rewrite pow2_Z by lia. unfold ulp.
    rewrite <- Qpower_plus by discriminate.
    now replace (52 + (e - 52))%Z with e by lia. }
  assert (E2 : 2 ^ (e + 1) == inject_Z (2 ^ 53) * ulp).
  { rewrite pow2_Z by lia. unfold ulp.
    rewrite <- Qpower_plus by discriminate.
    now replace (53 + (e - 52))%Z with (e + 1)%Z by lia. }
  assert (A : inject_Z (2 ^ 52) <= a / ulp).
  { apply Qle_shift_div_l; [exact Pu|]. now rewrite <- E1. }
  assert (B : a / ulp <= inject_Z (2 ^ 53)).
  { apply Qle_shift_div_r; [exact Pu|]. rewrite <- E2. lra. }
  apply round_half_even_ge in A. apply round_half_even_le in B.
  rewrite E1, E2. rewrite Zle_Qle in A, B.
  split; apply Qmult_le_compat_r; lra.
Qed.

Lemma nearest_monotone (x y : Q) :
  0 < x -> x <= y -> nearest x <= nearest y.
Proof.
  intros Hx H. assert (Hy : 0 < y) by lra.
  destruct (binade_spec Hx) as [Lx Ux]. destruct (binade_spec Hy) as [Ly Uy].
  assert (Le : (binade x < binade y + 1)%Z).
  { apply (@Qpower_lt_compat_l_inv 2); [|reflexivity]. lra. }
  destruct (Z.eq_dec (binade x) (binade y)) as [E|NE].
  - unfold nearest. rewrite E. set (ulp := 2 ^ (binade y - 52)).
    assert (Pu : 0 < ulp) by apply pow2_pos.
    apply Qmult_le_compat_r; [|lra].
    rewrite <- Zle_Qle. apply round_half_even_monotone.
    apply Qmult_le_compat_r; [exact H|].
    apply Qlt_le_weak, Qinv_lt_0_compat, Pu.
  - destruct (nearest_bounds Hx) as [_ B]. destruct (nearest_bounds Hy) as [A _].
    apply Qle_trans with (2 ^ (binade x + 1)); [exact B|].
    apply Qle_trans with (2 ^ binade y); [|exact A].
    apply Qpower_le_compat_l; [lia|discriminate].
Qed.

Lemma nearest_pos (a : Q) : 0 < a -> 0 < nearest a.
Proof.
  intros H. destruct (nearest_bounds H) as [L _].
  assert (P := pow2_pos (binade a)). lra.
Qed.

Lemma binary64_monotone : monotone_rounding binary64.
Proof.
  intros x y H.
  destruct (Q_dec x 0) as [[Nx|Px]|Zx]; destruct (Q_dec y 0) as [[Ny|Py]|Zy];
    try (exfalso; lra).
  - rewrite (binary64_neg Nx), (binary64_neg Ny).
    assert (K : nearest (- y) <= nearest (- x))
      by (apply nearest_monotone; lra).
    lra.
  - rewrite (binary64_neg Nx), (binary64_pos Py).
    assert (A := @nearest_pos (- x) ltac:(lra)).
    assert (B := nearest_pos Py). lra.
  - rewrite (binary64_neg Nx), (binary64_zero Zy).
    assert (A := @nearest_pos (- x) ltac:(lra)). lra.
  - rewrite (binary64_pos Px), (binary64_pos Py).
    now apply nearest_monotone.
  - rewrite (binary64_zero Zx), (binary64_pos Py).
    assert (B := nearest_pos Py). lra.
  - rewrite (binary64_zero Zx), (binary64_zero Zy). lra.
Qed.

Lemma nearest_integer (z : Z) :
  (0 < z <= 2 ^ 53)%Z -> nearest (inject_Z z) == inject_Z z.
Proof.
  intros [Hz Hb].
  assert (P : 0 < inject_Z z) by (change 0 with (inject_Z 0); now rewrite <- Zlt_Qlt).
  destruct (binade_spec P) as [L U].
  unfold nearest. set (e := binade (inject_Z z)) in *.
  assert (He : (e <= 53)%Z).
  { apply (@Qpower_le_compat_l_inv 2); [|reflexivity].
    apply Qle_trans with (inject_Z z); [exact L|].
    rewrite <- pow2_Z by lia. now rewrite <- Zle_Qle. }
  assert (H0 : (0 <= e)%Z).
  { assert (K : (0 < e + 1)%Z); [|lia].
    apply (@Qpower_lt_compat_l_inv 2); [|reflexivity].
    apply Qle_lt_trans with (inject_Z z); [|exact U].
    change (2 ^ 0) with (inject_Z 1). rewrite <- Zle_Qle. lia. }
  destruct (Z.eq_dec e 53) as [E53|NE].
  - assert (Ez : z = (2 ^ 53)%Z).
    { apply Z.le_antisymm; [exact Hb|].
      rewrite Zle_Qle, pow2_Z by lia. now rewrite <- E53. }
    rewrite E53, Ez. vm_compute. reflexivity.
  - assert (I : inject_Z z / 2 ^ (e - 52) == inject_Z (z * 2 ^ (52 - e))).
    { rewrite inject_Z_mult, pow2_Z by lia.
      replace (e - 52)%Z with (- (52 - e))%Z by lia.
      rewrite Qpower_opp. field.
      apply Qpower_not_0. discriminate. }
    assert (R : round_half_even (inject_Z z / 2 ^ (e - 52))
                = (z * 2 ^ (52 - e))%Z).
    { rewrite (round_half_even_compat I). apply round_half_even_integer. }
    rewrite R, inject_Z_mult, pow2_Z by lia.
    rewrite <- Qmult_assoc, <- Qpower_plus by discriminate.
    replace (52 - e + (e - 52))%Z with 0%Z by lia.
    change (2 ^ 0) with 1. ring.
Qed.

Lemma binary64_exact_on_integers : exact_on_integers binary64.
Proof.
  intros z Hz.
  destruct (Z.lt_trichotomy z 0) as [N|[->|P]].
  - assert (Q0 : inject_Z z < 0)
      by (change 0 with (inject_Z 0); now rewrite <- Zlt_Qlt).
    rewrite (binary64_neg Q0).
    rewrite <- inject_Z_opp. rewrite nearest_integer by lia.
    rewrite inject_Z_opp. ring.
  - reflexivity.
  - assert (Q0 : 0 < inject_Z z)
      by (change 0 with (inject_Z 0); now rewrite <- Zlt_Qlt).
    rewrite (binary64_pos Q0). apply nearest_integer. lia.
Qed.

Lemma firstn_prefix {A} (xs : list A) (a b : nat) :
  (a <= b)%nat -> exists rest, firstn b xs = firstn a xs ++ rest.
Proof.
  revert a b. induction xs as [|x xs IH]; intros a b Hab.
  - exists []. now rewrite !firstn_nil.
  - destruct a as [|a].
    + exists (firstn b (x :: xs)). reflexivity.
    + destruct b as [|b]; [lia|].
      destruct (IH a b) as [rest E]; [lia|].
      exists rest. simpl. now rewrite E.
Qed.

(** C2. For a fixed plan and a monotone rounding of the float operations,
    the number of primitives revealed at frame index [i], computed from
    the progress [(i + 1) / N], never decreases as [i] grows: for [i < j < N]
    the count of frame [i] is at most that of frame [j], both for the
    contours of the contour animator and for the pixels of the colour
    animator; the pixels revealed at frame [i] are a prefix of those
    revealed at frame [j]; and once a larger count has been reached no later
    frame shows the earlier count again. *)
Theorem reveal_monotone_over_frames (fl : Q -> Q) (contours : list contour)
  (stroke_pixels : list (nat * nat)) (N i j : nat) :
  monotone_rounding fl -> (i < j)%nat -> (j < N)%nat ->
  (contours_to_draw fl contours i N <= contours_to_draw fl contours j N)%Z /\
  (pixels_to_draw fl (length stroke_pixels) i N
   <= pixels_to_draw fl (length stroke_pixels) j N)%Z /\
  (exists rest,
      firstn (Z.to_nat (pixels_to_draw fl (length stroke_pixels) j N)) stroke_pixels
      = firstn (Z.to_nat (pixels_to_draw fl (length stroke_pixels) i N)) stroke_pixels
        ++ rest) /\
  (forall k, (j < k)%nat -> (k < N)%nat ->
     (reveal_count fl (length contours) i N
      < reveal_count fl (length contours) j N)%Z ->
     reveal_count fl (length contours) k N
     <> reveal_count fl (length contours) i N).
Proof.
  intros M Hij HjN.
  assert (Hle : forall total a b, (a <= b)%nat ->
            (reveal_count fl total a N <= reveal_count fl total b N)%Z).
  { intros total a b Hab. now apply reveal_count_monotone. }
  unfold contours_to_draw, pixels_to_draw.
  repeat split.
  - apply Hle; lia.
  - apply Hle; lia.
  - apply firstn_prefix.
    assert (Hc := Hle (length stroke_pixels) i j ltac:(lia)). lia.
  - intros k Hjk HkN Hlt E.
    assert (Hjk' := Hle (length contours) j k ltac:(lia)). lia.
Qed.

Lemma reveal_monotone_over_frames_witness :
  monotone_rounding exact /\ (2 < 5)%nat /\ (5 < 10)%nat /\
  (contours_to_draw exact [[(0, 0)]; [(1, 1)]; [(2, 2)]; [(3, 3)]]%Z 2 10
   <= contours_to_draw exact [[(0, 0)]; [(1, 1)]; [(2, 2)]; [(3, 3)]]%Z 5 10)%Z.
Proof.
  split; [exact exact_monotone|].
  split; [lia|]. split; [lia|].
  exact (proj1 (@reveal_monotone_over_frames exact [[(0, 0)]; [(1, 1)]; [(2, 2)]; [(3, 3)]]%Z [(0, 0)%nat]
                  10 2 5 exact_monotone ltac:(lia) ltac:(lia))).
Defined.

(** ** Frames and the pipe *)

Lemma progress_le_one (fl : Q -> Q) (i N : nat) :
  monotone_rounding fl -> exact_on_integers fl -> (i < N)%nat ->
  progress fl i N <= 1.
Proof.
  intros M E HiN. unfold progress.
  rewrite <- (E 1%Z) by (simpl; lia).
  apply M. change (inject_Z 1) with 1.
  apply Qle_shift_div_r.
  - unfold QofNat. change 0 with (inject_Z 0). rewrite <- Zlt_Qlt. lia.
  - rewrite Qmult_1_l. apply QofNat_le. lia.
Qed.

Lemma reveal_count_le_total (fl : Q -> Q) (total i N : nat) :
  monotone_rounding fl -> exact_on_integers fl ->
  (Z.of_nat total <= 2 ^ 53)%Z -> (i < N)%nat ->
  (reveal_count fl total i N <= Z.of_nat total)%Z.
Proof.
  intros M E Hb HiN. unfold reveal_count.
  apply Z.le_trans with (py_int (inject_Z (Z.of_nat total)));
    [|rewrite py_int_integer; lia].
  apply py_int_monotone.
  apply Qle_trans with (fl (inject_Z (Z.of_nat total)));
    [|rewrite (E (Z.of_nat total)) by lia; apply Qle_refl].
  apply M. fold (QofNat total).
  apply Qle_trans with (QofNat total * 1);
    [|rewrite Qmult_1_r; apply Qle_refl].
  rewrite (Qmult_comm (QofNat total) (progress fl i N)).
  rewrite (Qmult_comm (QofNat total) 1).
  apply Qmult_le_compat_r.
  - now apply progress_le_one.
  - apply QofNat_nonneg.
Qed.


Lemma length_flat_map_const {A B} (f : A -> list B) (n : nat) (xs : list A) :
  (forall x, length (f x) = n) -> length (flat_map f xs) = (length xs * n)%nat.
Proof.
  intros H. induction xs as [|x xs IH]; simpl.
  - reflexivity.
  - rewrite length_app, H, IH. reflexivity.
Qed.

Lemma tobytes_length (c : canvas) :
  length (tobytes c) = (rows c * cols c * 3)%nat.
Proof.
  unfold tobytes.
  rewrite (length_flat_map_const _ (n := (cols c * 3)%nat)).
  - rewrite length_seq. lia.
  - intros y. rewrite (length_flat_map_const _ (n := 3%nat)).
    + now rewrite length_seq.
    + intros x. destruct (px c y x) as [[a b] d]. reflexivity.
Qed.

Lemma paint_shape (f : nat -> nat -> pixel -> pixel) (c : canvas) :
  shape (paint f c) = shape c.
Proof. reflexivity. Qed.

Lemma bgr2rgb_shape (c : canvas) : shape (bgr2rgb c) = shape c.
Proof. reflexivity. Qed.

Lemma shape_bytes (c : canvas) (h w : nat) :
  shape c = (h, w) -> length (tobytes c) = (h * w * 3)%nat.
Proof.
  intros H. rewrite tobytes_length. unfold shape in H.
  injection H as -> ->. reflexivity.
Qed.

Lemma takes_fewer (enc : encoder) (n m : nat) :
  (m <= n)%nat -> takes enc n -> takes enc m.
Proof. destruct enc; simpl; auto; lia. Qed.

(** An encoder that takes frames was started. *)
Lemma popen_takes (enc : encoder) (n : nat) :
  takes enc n -> popen enc = modify (set_proc Running).
Proof. destruct enc; simpl; intros H; [reflexivity..|contradiction]. Qed.

Lemma popen_not_started (e : exn) (w : world) :
  popen (EncNotStarted e) w = (Raise e, w).
Proof. reflexivity. Qed.

(** Closing the pipe leaves the written frames as they are, whether the
    flush raises or not. *)
Lemma stdin_close_frames (enc : encoder) (w : world) :
  stdin_frames (snd (stdin_close enc w)) = stdin_frames w.
Proof.
  unfold stdin_close. destruct enc as [code secs|after code| |e]; try reflexivity.
  destruct ((after <=? length (stdin_frames w))%nat
            && (0 <? buffered (stdin_frames w))%Z); reflexivity.
Qed.

(** Closing the pipe of an encoder that is still there does not raise. *)
Lemma stdin_close_ok (enc : encoder) (w : world) :
  takes enc (S (length (stdin_frames w))) ->
  stdin_close enc w
  = (Ok tt, mkWorld (proc w) (stdin_frames w) true (temp_dir_exists w)
                    (attrs w) (log w)).
Proof.
  unfold stdin_close. destruct enc as [code secs|after code| |e]; try reflexivity.
  simpl. intros H.
  destruct (after <=? length (stdin_frames w))%nat eqn:E; [|reflexivity].
  apply Nat.leb_le in E. lia.
Qed.

Lemma buffered_push (frames : list (list Z)) (frame : list Z) :
  buffered (frames ++ [frame]) = write_buffered (buffered frames) frame.
Proof. unfold buffered. now rewrite fold_left_app. Qed.

Lemma push_frames_nil (w : world) : push_frames [] w = w.
Proof. destruct w. unfold push_frames. simpl. now rewrite app_nil_r. Qed.

Lemma push_frames_push (f : list Z) (fs : list (list Z)) (w : world) :
  push_frames fs (push_frames [f] w) = push_frames (f :: fs) w.
Proof. unfold push_frames. simpl. now rewrite <- app_assoc. Qed.

Lemma stdin_write_ok (enc : encoder) (frame : list Z) (w : world) :
  proc w = Running -> takes enc (S (length (stdin_frames w))) ->
  stdin_write enc frame w = (Ok tt, push_frames [frame] w).
Proof.
  intros Hp Ht. unfold stdin_write, push_frames. rewrite Hp.
  destruct enc as [code secs|after code| |e]; try reflexivity.
  simpl in Ht.
  destruct (after <=? length (stdin_frames w))%nat eqn:E.
  - apply Nat.leb_le in E. lia.
  - reflexivity.
Qed.

(** A write that fits the buffer is accepted, whatever the encoder does. *)
Lemma stdin_write_buffered (enc : encoder) (frame : list Z) (w : world) :
  proc w = Running -> overflows (buffered (stdin_frames w)) frame = false ->
  stdin_write enc frame w = (Ok tt, push_frames [frame] w).
Proof.
  intros Hp Ho. unfold stdin_write, push_frames. rewrite Hp.
  destruct enc as [code secs|after code| |e]; try reflexivity.
  now rewrite Ho, andb_false_r.
Qed.

(** A write that has to flush finds the pipe broken when the encoder has
    exited. *)
Lemma stdin_write_broken (after : nat) (code : Z) (frame : list Z) (w : world) :
  proc w = Running -> (after <= length (stdin_frames w))%nat ->
  overflows (buffered (stdin_frames w)) frame = true ->
  stdin_write (EncDies after code) frame w
  = (Raise BrokenPipeError, set_proc (Exited code) w).
Proof.
  intros Hp Ha Ho. unfold stdin_write. rewrite Hp.
  apply Nat.leb_le in Ha. now rewrite Ha, Ho.
Qed.

(** A loop whose body writes one frame per element sends them all, in
    order, to an encoder that keeps reading. *)
Lemma for_each_streams {A} (enc : encoder) (f : A -> list Z)
  (xs : list A) (body : A -> M unit) :
  (forall x w, In x xs -> body x w = stdin_write enc (f x) w) ->
  forall w, proc w = Running ->
            takes enc (length (stdin_frames w) + length xs) ->
            for_each xs body w = (Ok tt, push_frames (map f xs) w).
Proof.
  induction xs as [|x xs IH]; intros Hbody w Hp Ht.
  - simpl. unfold ret. now rewrite push_frames_nil.
  - simpl. unfold bind.
    rewrite Hbody by (now left).
    rewrite stdin_write_ok; auto.
    + rewrite IH.
      * now rewrite push_frames_push.
      * intros y w' Hy. apply Hbody. now right.
      * exact Hp.
      * simpl. rewrite length_app. simpl.
        eapply takes_fewer; [|exact Ht]. simpl. lia.
    + eapply takes_fewer; [|exact Ht]. simpl. lia.
Qed.

(** The same loop against an encoder that exits after [after] writes: the
    first write from then on that has to flush raises [BrokenPipeError];
    when none has to, every frame is accepted. *)
Lemma for_each_breaks {A} (after : nat) (code : Z) (f : A -> list Z)
  (xs : list A) (body : A -> M unit) :
  (forall x w, In x xs -> body x w = stdin_write (EncDies after code) (f x) w) ->
  forall w, proc w = Running ->
    for_each xs body w
    = match broken_write after (buffered (stdin_frames w))
                         (length (stdin_frames w)) (map f xs) with
      | Some k =>
          (Raise BrokenPipeError,
           set_proc (Exited code)
             (push_frames (map f (firstn (k - length (stdin_frames w)) xs)) w))
      | None => (Ok tt, push_frames (map f xs) w)
      end.
Proof.
  induction xs as [|x xs IH]; intros Hbody w Hp.
  - simpl. unfold ret. now rewrite push_frames_nil.
  - cbn [for_each map broken_write]. unfold bind. rewrite Hbody by (now left).
    destruct ((after <=? length (stdin_frames w))%nat
              && overflows (buffered (stdin_frames w)) (f x)) eqn:E.
    + apply andb_prop in E. destruct E as [Ea Eo].
      rewrite stdin_write_broken; auto; [|now apply Nat.leb_le].
      rewrite Nat.sub_diag. simpl. now rewrite push_frames_nil.
    + assert (W : stdin_write (EncDies after code) (f x) w
                  = (Ok tt, push_frames [f x] w)).
      { unfold stdin_write, push_frames. rewrite Hp, E. reflexivity. }
      rewrite W, IH; [|intros y w' Hy; apply Hbody; now right|exact Hp].
      cbn [push_frames stdin_frames].
      rewrite buffered_push, length_app. cbn [length].
      rewrite Nat.add_1_r.
      destruct (broken_write after
                  (write_buffered (buffered (stdin_frames w)) (f x))
                  (S (length (stdin_frames w))) (map f xs)) as [k|] eqn:B.
      * assert (Hk : (S (length (stdin_frames w)) <= k)%nat).
        { clear - B. revert B.
          generalize (write_buffered (buffered (stdin_frames w)) (f x)).
          generalize (S (length (stdin_frames w))).
          generalize (map f xs). clear.
          induction l as [|a l IHl]; intros n z B; simpl in B; [discriminate|].
          destruct ((after <=? n)%nat && overflows z a).
          - injection B as <-. lia.
          - apply IHl in B. lia. }
        replace (k - length (stdin_frames w))%nat
          with (S (k - S (length (stdin_frames w))))%nat by lia.
        cbn [firstn map].
        now rewrite push_frames_push.
      * now rewrite push_frames_push.
Qed.

(** A write raises only when the encoder has exited, and before the loop
    is over. *)
Lemma broken_write_bounds (after : nat) (frames : list (list Z)) :
  forall held done k,
    broken_write after held done frames = Some k ->
    (after <= k)%nat /\ (done <= k)%nat /\ (k < done + length frames)%nat.
Proof.
  induction frames as [|a l IH]; intros held done k B; simpl in B;
    [discriminate|].
  destruct ((after <=? done)%nat && overflows held a) eqn:E.
  - injection B as <-. apply andb_prop in E. destruct E as [E _].
    apply Nat.leb_le in E. simpl. lia.
  - apply IH in B. simpl. lia.
Qed.

(** No write raises while the encoder is there. *)
Lemma broken_write_alive (after : nat) (frames : list (list Z)) :
  forall held done,
    (done + length frames <= after)%nat ->
    broken_write after held done frames = None.
Proof.
  induction frames as [|a l IH]; intros held done H; simpl; [reflexivity|].
  simpl in H.
  destruct (after <=? done)%nat eqn:E; [apply Nat.leb_le in E; lia|].
  simpl. apply IH. lia.
Qed.

(** Frames that fit the buffer together are all accepted: nothing reaches
    the pipe before [close]. *)
Lemma broken_write_fits (after : nat) (frames : list (list Z)) :
  forall held done,
    (0 <= held)%Z ->
    (held + Z.of_nat (length (concat frames)) <= bufsize)%Z ->
    broken_write after held done frames = None
    /\ fold_left write_buffered frames held
       = (held + Z.of_nat (length (concat frames)))%Z.
Proof.
  induction frames as [|a l IH]; intros held done H0 H; simpl.
  - split; [reflexivity|lia].
  - simpl in H. rewrite length_app in H.
    assert (O : overflows held a = false).
    { unfold overflows. apply Z.ltb_ge. lia. }
    rewrite O, andb_false_r.
    assert (W : write_buffered held a = (held + Z.of_nat (length a))%Z).
    { unfold write_buffered. now rewrite O. }
    rewrite W. destruct (IH (held + Z.of_nat (length a))%Z (S done)) as [B F];
      [lia|lia|].
    split; [exact B|]. rewrite F, length_app. lia.
Qed.

(** After a frame that is not empty and fits the buffer, the buffer is not
    empty. *)
Lemma buffered_positive (frames : list (list Z)) :
  frames <> [] ->
  Forall (fun frame => (0 < Z.of_nat (length frame) <= bufsize)%Z) frames ->
  (0 < buffered frames)%Z.
Proof.
  intros Hne Hall. unfold buffered.
  assert (G : forall held, (0 <= held)%Z ->
            (0 < fold_left write_buffered frames held)%Z).
  { induction frames as [|a l IH]; [contradiction|].
    intros held Hh. simpl.
    apply Forall_cons_iff in Hall. destruct Hall as [Ha Hl].
    assert (P : (0 < write_buffered held a)%Z).
    { unfold write_buffered. destruct (overflows held a).
      - destruct (Z.leb_spec (Z.of_nat (length a)) bufsize); lia.
      - lia. }
    destruct l as [|b l'].
    - exact P.
    - apply IH; [discriminate|exact Hl|lia]. }
  apply G. lia.
Qed.

Lemma concat_length_uniform (frames : list (list Z)) (n : nat) :
  Forall (fun frame => length frame = n) frames ->
  length (concat frames) = (length frames * n)%nat.
Proof.
  induction 1 as [|a l Ha Hl IH]; simpl; [reflexivity|].
  rewrite length_app, IH, Ha. reflexivity.
Qed.

(** Where the broken pipe surfaces when the encoder exits before the pipe
    is closed and the frames are not empty and fit the buffer one at a
    time: at a write no earlier than the exit, or at [close] at the latest;
    at [close] when the frames fit the buffer all together. *)
Lemma broken_pipe_surfaces (frames : list (list Z)) (N h w after : nat) :
  length frames = N ->
  Forall (fun frame => length frame = (h * w * 3)%nat) frames ->
  (after <= N)%nat -> (0 < N)%nat ->
  (0 < bytes_of 1 h w <= bufsize)%Z ->
  exists k,
    (after <= k <= N)%nat
    /\ ((broken_write after 0 0 frames = Some k /\ (N <=? k)%nat = false)
        \/ (broken_write after 0 0 frames = None /\ k = N
            /\ (after <=? N)%nat && (0 <? buffered frames)%Z = true))
    /\ ((bytes_of N h w <= bufsize)%Z -> k = N).
Proof.
  intros L F Ha HN Hsz. unfold bytes_of in *. rewrite Nat.mul_1_l in Hsz.
  destruct (broken_write after 0 0 frames) as [k|] eqn:B.
  - destruct (broken_write_bounds _ _ _ _ B) as (B1 & _ & B3).
    simpl in B3. rewrite L in B3.
    exists k. split; [lia|]. split.
    + left. split; [reflexivity|]. apply Nat.leb_gt. lia.
    + intros Hfit.
      destruct (@broken_write_fits after frames 0%Z 0%nat) as [K _]; [lia| |].
      * rewrite (concat_length_uniform F), L. lia.
      * congruence.
  - exists N. split; [lia|]. split; [|reflexivity].
    right. split; [reflexivity|]. split; [reflexivity|].
    apply andb_true_intro. split; [now apply Nat.leb_le|].
    apply Z.ltb_lt. apply buffered_positive.
    + intros K. rewrite K in L. simpl in L. lia.
    + eapply Forall_impl; [|exact F]. intros fr E. simpl in E. rewrite E. lia.
Qed.

Lemma insert_desc_length {A} (key : A -> Q) (a : A) (xs : list A) :
  length (insert_desc key a xs) = S (length xs).
Proof.
  induction xs as [|b xs IH]; simpl.
  - reflexivity.
  - destruct (Qle_bool (key b) (key a)); simpl; auto.
Qed.

Lemma sorted_reverse_length {A} (key : A -> Q) (xs : list A) :
  length (sorted_reverse key xs) = length xs.
Proof.
  unfold sorted_reverse. induction xs as [|x xs IH]; simpl.
  - reflexivity.
  - now rewrite insert_desc_length, IH.
Qed.

Section V2Facts.

Variable fl : Q -> Q.
Variable contour_raster : contour -> Z -> nat -> nat -> bool.
Variable contourArea : contour -> Q.

Lemma drawContours_ok (c : canvas) (contours : list contour) (i : nat)
  (color0 : pixel) (t : Z) :
  (i < length contours)%nat ->
  exists c', drawContours contour_raster c contours i color0 t = Ok c'
             /\ shape c' = shape c.
Proof.
  intros Hi. unfold drawContours.
  destruct (nth_error contours i) as [cnt|] eqn:E.
  - eexists. split; [reflexivity|]. apply paint_shape.
  - apply nth_error_None in E. lia.
Qed.

Lemma draw_prefix_ok (contours : list contour) (idxs : list nat) (c0 : canvas) :
  Forall (fun i => (i < length contours)%nat) idxs ->
  exists c,
    fold_left
      (fun acc i =>
         rbind acc (fun c =>
         rbind (drawContours contour_raster c contours i black (-1)) (fun c1 =>
         drawContours contour_raster c1 contours i black 2)))
      idxs (Ok c0) = Ok c
    /\ shape c = shape c0.
Proof.
  intros H. revert c0. induction H as [|i idxs Hi _ IH]; intros c0.
  - exists c0. split; reflexivity.
  - simpl.
    destruct (@drawContours_ok c0 contours i black (-1) Hi) as [c1 [E1 S1]].
    destruct (@drawContours_ok c1 contours i black 2 Hi) as [c2 [E2 S2]].
    rewrite E1. simpl. rewrite E2.
    destruct (IH c2) as [c [E S]].
    exists c. split; [exact E|]. congruence.
Qed.

Lemma v2_canvas_ok (contours : list contour) (h w i N : nat) :
  (contours_to_draw fl contours i N <= Z.of_nat (length contours))%Z ->
  exists c, v2_canvas fl contour_raster contours h w i N = Ok c
            /\ shape c = (h, w).
Proof.
  intros Hk. unfold v2_canvas.
  destruct (@draw_prefix_ok contours
              (py_range (contours_to_draw fl contours i N)) (blank h w))
    as [c [E S]].
  - unfold py_range. apply Forall_forall. intros x Hx.
    apply in_seq in Hx. lia.
  - exists c. split; [exact E|exact S].
Qed.

Lemma v2_frames_ok (contours : list contour) (h w N : nat) :
  monotone_rounding fl -> exact_on_integers fl ->
  (Z.of_nat (length contours) <= 2 ^ 53)%Z ->
  forall i, (i < N)%nat ->
  exists c, v2_canvas fl contour_raster contours h w i N = Ok c
            /\ shape c = (h, w).
Proof.
  intros M E Hb i Hi. apply v2_canvas_ok.
  unfold contours_to_draw. now apply reveal_count_le_total.
Qed.

(** The frame loop of [create_animation] sends every frame when each
    renders and the encoder keeps reading. *)
Lemma v2_loop_streams (enc : encoder) (contours : list contour) (h w N : nat)
  (w0 : world) :
  (forall i, (i < N)%nat ->
     exists c, v2_canvas fl contour_raster contours h w i N = Ok c) ->
  proc w0 = Running -> takes enc (length (stdin_frames w0) + N) ->
  for_each (seq 0 N)
    (fun frame_idx =>
       canvas0 <- lift (v2_canvas fl contour_raster contours h w frame_idx N) ;;
       stdin_write enc (tobytes canvas0)) w0
  = (Ok tt,
     push_frames
       (map (fun i => frame_bytes (v2_canvas fl contour_raster contours h w i N))
            (seq 0 N)) w0).
Proof.
  intros Hok Hp Ht.
  apply (@for_each_streams nat enc
           (fun i => frame_bytes (v2_canvas fl contour_raster contours h w i N)));
    auto.
  - intros x w1 Hx. apply in_seq in Hx.
    destruct (Hok x) as [c E]; [lia|].
    unfold bind, lift. rewrite E. reflexivity.
  - now rewrite length_seq.
Qed.

End V2Facts.

Lemma never_done_takes (enc : encoder) (n : nat) :
  never_done_in_time enc -> takes enc n.
Proof. destruct enc; simpl; auto; tauto. Qed.

Lemma firstn_map {A B} (f : A -> B) (n : nat) (xs : list A) :
  firstn n (map f xs) = map f (firstn n xs).
Proof.
  revert xs. induction n as [|n IH]; intros [|x xs]; simpl; auto.
  now rewrite IH.
Qed.

(** Unfolds what is left of a run once its frame loop has been rewritten. *)
Ltac finish_run :=
  unfold bind, stdin_close, wait, logger, modify, lift, ret, cleanup,
    push_frames, set_proc; cbn.

(** Rewrites [popen] for an encoder that is known to start. *)
Ltac start_encoder :=
  match goal with
  | H : takes ?enc _ |- context [popen ?enc] =>
      rewrite (@popen_takes enc _ H)
  | H : never_done_in_time ?enc |- context [popen ?enc] =>
      rewrite (@popen_takes enc 0 (never_done_takes enc 0 H))
  | |- context [popen (EncExits ?c ?s)] =>
      change (popen (EncExits c s)) with (modify (set_proc Running))
  | |- context [popen (EncDies ?a ?c)] =>
      change (popen (EncDies a c)) with (modify (set_proc Running))
  | |- context [popen EncHangs] =>
      change (popen EncHangs) with (modify (set_proc Running))
  end; cbn [modify].

(** The flush at [close] may find the pipe broken or not: both cases. *)
Ltac either_close :=
  repeat match goal with
         | |- context [((?a <=? ?n)%nat && (0 <? ?b)%Z)] =>
             destruct ((a <=? n)%nat && (0 <? b)%Z); cbn
         end.

(** *** Runs of the contour animator *)

Section V2Runs.

Variable fl : Q -> Q.
Variable contour_raster : contour -> Z -> nat -> nat -> bool.
Variable contourArea : contour -> Q.
Variable cfg : config.
Variable found : list contour.
Variable copy_outputs : res unit.

Let N := total_frames_of fl (fps cfg) (duration cfg).
Let contours := extract_contours contourArea found.
Let frames : list (list Z) :=
  map (fun i => frame_bytes (v2_canvas fl contour_raster contours
                                       (height cfg) (width cfg) i N))
      (seq 0 N).

Hypothesis frames_render :
  forall i, (i < N)%nat ->
    exists c, v2_canvas fl contour_raster contours (height cfg) (width cfg) i N = Ok c.

Ltac enter_v2 :=
  unfold create_animation, try_finally, try_except;
  cbn [negb]; fold N; fold contours;
  unfold bind at 1; start_encoder;
  unfold bind at 1.

Lemma v2_run_frames (enc : encoder) :
  takes enc N ->
  stdin_frames (snd (create_animation fl contour_raster contourArea cfg enc
                                      true (Some found) copy_outputs fresh_world))
  = frames.
Proof.
  intros Ht. enter_v2.
  rewrite (@v2_loop_streams fl contour_raster enc contours (height cfg)
             (width cfg) N (set_proc Running fresh_world) frames_render
             eq_refl Ht).
  destruct enc as [code secs|after code| |e]; finish_run.
  - destruct (secs <=? 60)%nat; cbn; [|reflexivity].
    destruct (code =? 0)%Z; cbn; [|reflexivity].
    destruct copy_outputs; reflexivity.
  - either_close; [reflexivity|].
    destruct (code =? 0)%Z; cbn; [|reflexivity].
    destruct copy_outputs; reflexivity.
  - reflexivity.
  - contradiction.
Qed.

Lemma v2_run_timeout (enc : encoder) :
  never_done_in_time enc ->
  create_animation fl contour_raster contourArea cfg enc true (Some found)
                   copy_outputs fresh_world
  = (Ok false,
     mkWorld Running frames true false no_cache
             [ErrAnimation TimeoutExpired; InfoCleanedUp]).
Proof.
  intros Hn. enter_v2.
  rewrite (@v2_loop_streams fl contour_raster enc contours (height cfg)
             (width cfg) N (set_proc Running fresh_world) frames_render
             eq_refl (never_done_takes enc _ Hn)).
  destruct enc as [code secs|after code| |e]; cbn in Hn; finish_run.
  - destruct (secs <=? 60)%nat eqn:E; [apply Nat.leb_le in E; lia|].
    reflexivity.
  - contradiction.
  - reflexivity.
  - contradiction.
Qed.

Lemma v2_run_exit_code (code : Z) (secs : nat) :
  (secs <= 60)%nat -> code <> 0%Z ->
  create_animation fl contour_raster contourArea cfg (EncExits code secs) true
                   (Some found) copy_outputs fresh_world
  = (Ok false,
     mkWorld (Exited code) frames true false no_cache
             [ErrFfmpegFailed code; InfoCleanedUp]).
Proof.
  intros Hs Hc. enter_v2.
  rewrite (@v2_loop_streams fl contour_raster (EncExits code secs) contours
             (height cfg) (width cfg) N (set_proc Running fresh_world)
             frames_render eq_refl I).
  finish_run. apply Nat.leb_le in Hs. rewrite Hs. cbn.
  apply Z.eqb_neq in Hc. rewrite Hc. reflexivity.
Qed.

Lemma v2_run_success (secs : nat) :
  (secs <= 60)%nat -> copy_outputs = Ok tt ->
  create_animation fl contour_raster contourArea cfg (EncExits 0 secs) true
                   (Some found) copy_outputs fresh_world
  = (Ok true,
     mkWorld (Exited 0) frames true false no_cache
             [InfoComplete; InfoCleanedUp]).
Proof.
  intros Hs Hc. enter_v2.
  rewrite (@v2_loop_streams fl contour_raster (EncExits 0 secs) contours
             (height cfg) (width cfg) N (set_proc Running fresh_world)
             frames_render eq_refl I).
  finish_run. apply Nat.leb_le in Hs. rewrite Hs. cbn. rewrite Hc. reflexivity.
Qed.

(** The run against an encoder that reads every frame and exits in time:
    the exit code decides, then the copies. *)
Lemma v2_run_exits (code : Z) (secs : nat) :
  (secs <= 60)%nat ->
  create_animation fl contour_raster contourArea cfg (EncExits code secs) true
                   (Some found) copy_outputs fresh_world
  = if (code =? 0)%Z
    then match copy_outputs with
         | Ok _ =>
             (Ok true,
              mkWorld (Exited code) frames true false no_cache
                      [InfoComplete; InfoCleanedUp])
         | Raise e =>
             (Ok false,
              mkWorld (Exited code) frames true false no_cache
                      [InfoComplete; ErrAnimation e; InfoCleanedUp])
         end
    else (Ok false,
          mkWorld (Exited code) frames true false no_cache
                  [ErrFfmpegFailed code; InfoCleanedUp]).
Proof.
  intros Hs. enter_v2.
  rewrite (@v2_loop_streams fl contour_raster (EncExits code secs) contours
             (height cfg) (width cfg) N (set_proc Running fresh_world)
             frames_render eq_refl I).
  finish_run. apply Nat.leb_le in Hs. rewrite Hs. cbn.
  destruct (code =? 0)%Z; cbn; [|reflexivity].
  destruct copy_outputs; reflexivity.
Qed.

(** The run against an encoder that exits after [after] writes: the error
    surfaces at the first write from then on that has to flush, else at
    [close] when the buffer holds something; else the exit code decides. *)
Lemma v2_run_dies (after : nat) (code : Z) :
  create_animation fl contour_raster contourArea cfg (EncDies after code) true
                   (Some found) copy_outputs fresh_world
  = match broken_write after 0 0 frames with
    | Some k =>
        (Ok false,
         mkWorld (Exited code) (firstn k frames) false false no_cache
                 [ErrAnimation BrokenPipeError; InfoCleanedUp])
    | None =>
        if (after <=? N)%nat && (0 <? buffered frames)%Z
        then (Ok false,
              mkWorld (Exited code) frames true false no_cache
                      [ErrAnimation BrokenPipeError; InfoCleanedUp])
        else if (code =? 0)%Z
        then match copy_outputs with
             | Ok _ =>
                 (Ok true,
                  mkWorld (Exited code) frames true false no_cache
                          [InfoComplete; InfoCleanedUp])
             | Raise e =>
                 (Ok false,
                  mkWorld (Exited code) frames true false no_cache
                          [InfoComplete; ErrAnimation e; InfoCleanedUp])
             end
        else (Ok false,
              mkWorld (Exited code) frames true false no_cache
                      [ErrFfmpegFailed code; InfoCleanedUp])
    end.
Proof.
  enter_v2.
  rewrite (@for_each_breaks nat after code
             (fun i => frame_bytes (v2_canvas fl contour_raster contours
                                              (height cfg) (width cfg) i N)));
    [|intros x w1 Hx; apply in_seq in Hx;
      destruct (@frames_render x) as [c E]; [lia|];
      unfold bind, lift; rewrite E; reflexivity
     |reflexivity].
  cbn [set_proc fresh_world stdin_frames length].
  change (buffered []) with 0%Z. fold frames.
  destruct (broken_write after 0 0 frames) as [k|] eqn:B.
  - finish_run. rewrite Nat.sub_0_r. unfold frames. now rewrite firstn_map.
  - finish_run. fold frames.
    replace (length frames) with N by (unfold frames; now rewrite length_map, length_seq).
    destruct ((after <=? N)%nat && (0 <? buffered frames)%Z); cbn;
      [reflexivity|].
    destruct (code =? 0)%Z; cbn; [|reflexivity].
    destruct copy_outputs; reflexivity.
Qed.

End V2Runs.

(** *** Runs of the colour animator *)

Section ColorRuns.

Variable fl : Q -> Q.
Variable rng : Type.
Variable np_random_seed : Z -> rng.
Variable np_random_randn : nat -> rng -> list Q * rng.
Variable np_argsort : list Q -> list nat.
Variable GaussianBlur : canvas -> canvas.

(** OpenCV's filters return an array of the shape of their input. *)
Hypothesis blur_shape : forall c, shape (GaussianBlur c) = shape c.

Lemma color_canvas_shape (img_color : canvas) (stroke_pixels : list (nat * nat))
  (total_pixels h w i N : nat) :
  shape (color_canvas fl GaussianBlur img_color stroke_pixels total_pixels h w i N)
  = (h, w).
Proof.
  unfold color_canvas. rewrite bgr2rgb_shape.
  destruct (0 <? pixels_to_draw fl total_pixels i N)%Z; [|reflexivity].
  destruct ((0 <? i)%nat && (i mod 10 =? 0)%nat).
  - now rewrite blur_shape.
  - reflexivity.
Qed.

Variable cfg : config.
Variable img_color : canvas.
Variable mask : nat -> nat -> bool.
Variable g : rng.
Variable save_outputs : res unit.

Let N := total_frames_of fl (fps cfg) (duration cfg).
Let plan : list (nat * nat) :=
  fst (color_drawing_plan fl np_random_seed np_random_randn np_argsort mask
                          (height cfg) (width cfg) g).
Let color_frames : list (list Z) :=
  map (fun i => tobytes (color_canvas fl GaussianBlur img_color plan
                           (length (stroke_pixels_of mask (height cfg) (width cfg)))
                           (height cfg) (width cfg) i N))
      (seq 0 N).

Lemma color_run_frames (enc : encoder) :
  takes enc N ->
  stdin_frames
    (snd (create_color_animation fl np_random_seed np_random_randn np_argsort
            GaussianBlur cfg enc (Some (img_color, mask)) g save_outputs
            fresh_world))
  = color_frames.
Proof.
  intros Ht.
  unfold create_color_animation, try_finally, try_except.
  fold N. fold plan.
  set (body := fun frame_idx : nat => stdin_write enc _).
  assert (Hloop : forall w0, proc w0 = Running -> stdin_frames w0 = [] ->
            for_each (seq 0 N) body w0
            = (Ok tt, push_frames color_frames w0)).
  { intros w0 Hp Hf.
    apply (@for_each_streams nat enc
             (fun i => tobytes (color_canvas fl GaussianBlur img_color plan
                         (length (stroke_pixels_of mask (height cfg) (width cfg)))
                         (height cfg) (width cfg) i N))); auto.
    rewrite Hf, length_seq. exact Ht. }
  unfold bind at 1.
  destruct (length (np_where mask (height cfg) (width cfg)) =? 0)%nat.
  - unfold logger at 1, modify at 1. cbn [fst snd].
    unfold bind at 1. start_encoder. unfold bind at 1.
    rewrite Hloop by reflexivity.
    destruct enc as [code secs|after code| |e]; finish_run.
    + destruct (secs <=? 60)%nat; cbn; [|reflexivity].
      destruct (code =? 0)%Z; cbn; [|reflexivity].
      destruct save_outputs; reflexivity.
    + either_close; [reflexivity|].
      destruct (code =? 0)%Z; cbn; [|reflexivity].
      destruct save_outputs; reflexivity.
    + reflexivity.
    + contradiction.
  - unfold ret at 1.
    unfold bind at 1. start_encoder. unfold bind at 1.
    rewrite Hloop by reflexivity.
    destruct enc as [code secs|after code| |e]; finish_run.
    + destruct (secs <=? 60)%nat; cbn; [|reflexivity].
      destruct (code =? 0)%Z; cbn; [|reflexivity].
      destruct save_outputs; reflexivity.
    + either_close; [reflexivity|].
      destruct (code =? 0)%Z; cbn; [|reflexivity].
      destruct save_outputs; reflexivity.
    + reflexivity.
    + contradiction.
Qed.

End ColorRuns.

(** *** Steps that leave the process, the pipe and the directory alone *)

Lemma same_pipe_refl (w : world) : same_pipe w w.
Proof. repeat split. Qed.

Lemma same_pipe_trans (a b c : world) :
  same_pipe a b -> same_pipe b c -> same_pipe a c.
Proof.
  unfold same_pipe. intros (H1 & H2 & H3 & H4) (K1 & K2 & K3 & K4).
  repeat split; congruence.
Qed.

Lemma quiet_ret {A} (a : A) : quiet (ret a).
Proof. intros w. apply same_pipe_refl. Qed.

Lemma quiet_raise {A} (e : exn) : quiet (@raise A e).
Proof. intros w. apply same_pipe_refl. Qed.

Lemma quiet_lift {A} (r : res A) : quiet (lift r).
Proof. intros w. apply same_pipe_refl. Qed.

Lemma quiet_get_attrs : quiet get_attrs.
Proof. intros w. apply same_pipe_refl. Qed.

Lemma quiet_logger (e : log_event) : quiet (logger e).
Proof. intros w. repeat split. Qed.

Lemma quiet_set_attrs (a : svg_cache) : quiet (set_attrs a).
Proof. intros w. repeat split. Qed.

Lemma quiet_set_svg_paths_cache (v : list string) : quiet (set_svg_paths_cache v).
Proof. intros w. repeat split. Qed.

Lemma quiet_set_total_svg_paths (n : nat) : quiet (set_total_svg_paths n).
Proof. intros w. repeat split. Qed.

Lemma quiet_set_full_image_cache (c : canvas) : quiet (set_full_image_cache c).
Proof. intros w. repeat split. Qed.

Lemma quiet_bind {A B} (m : M A) (k : A -> M B) :
  quiet m -> (forall a, quiet (k a)) -> quiet (bind m k).
Proof.
  intros Hm Hk w. unfold bind.
  specialize (Hm w). destruct (m w) as [[a|e] w1]; simpl in *.
  - eapply same_pipe_trans; [exact Hm|apply Hk].
  - exact Hm.
Qed.

Lemma quiet_try_except {A} (m : M A) (h : exn -> M A) :
  quiet m -> (forall e, quiet (h e)) -> quiet (try_except m h).
Proof.
  intros Hm Hh w. unfold try_except.
  specialize (Hm w). destruct (m w) as [[a|e] w1]; simpl in *.
  - exact Hm.
  - eapply same_pipe_trans; [exact Hm|apply Hh].
Qed.

Create HintDb quiet.
#[export] Hint Resolve quiet_ret quiet_raise quiet_lift quiet_get_attrs
  quiet_logger quiet_set_attrs quiet_set_svg_paths_cache
  quiet_set_total_svg_paths quiet_set_full_image_cache : quiet.

Ltac quiet_step :=
  match goal with
  | |- quiet (bind _ _) => apply quiet_bind; [|intros]
  | |- quiet (try_except _ _) => apply quiet_try_except; [|intros]
  | |- quiet (match ?x with _ => _ end) => destruct x
  | |- quiet (if ?b then _ else _) => destruct b
  | |- quiet _ => solve [auto with quiet]
  end.

Lemma yields_ret {A} (P : A -> Prop) (a : A) : P a -> yields P (ret a).
Proof. intros H w a' w' E. unfold ret in E. now inversion E; subst. Qed.

Lemma yields_lift {A} (P : A -> Prop) (r : res A) :
  (forall a, r = Ok a -> P a) -> yields P (lift r).
Proof. intros H w a w' E. unfold lift in E. inversion E; subst. now apply H. Qed.

Lemma yields_bind {A B} (P : B -> Prop) (m : M A) (k : A -> M B) :
  (forall a, yields P (k a)) -> yields P (bind m k).
Proof.
  intros H w b w' E. unfold bind in E.
  destruct (m w) as [[a|e] w1].
  - eapply H. exact E.
  - discriminate.
Qed.

(** *** The trace-based animator *)

Section TraceFacts.

Variable fl : Q -> Q.
Variable env : trace_env.

Lemma cache_svg_paths_quiet (w h : nat) : quiet (cache_svg_paths fl env w h).
Proof. unfold cache_svg_paths. repeat quiet_step. Qed.

Lemma load_full_image_quiet (w h : nat) : quiet (load_full_image env w h).
Proof. unfold load_full_image. repeat quiet_step. Qed.

Lemma render_body_quiet (pd : Z) (w h : nat) : quiet (render_body fl env pd w h).
Proof.
  unfold render_body.
  repeat first [ apply cache_svg_paths_quiet
               | apply load_full_image_quiet
               | quiet_step ].
Qed.

Lemma render_quiet (pd : Z) (w h : nat) :
  quiet (render_svg_frame_simple fl env pd w h).
Proof.
  unfold render_svg_frame_simple.
  repeat first [ apply render_body_quiet | quiet_step ].
Qed.

Lemma reveal_full_image_shape (mask : nat -> nat -> bool) (full c0 c : canvas) :
  reveal_full_image mask full c0 = Ok c -> shape c = shape c0.
Proof.
  unfold reveal_full_image.
  destruct (_ && _); intros E; inversion E. reflexivity.
Qed.

Lemma render_body_shape (pd : Z) (w h : nat) :
  yields (fun c => shape c = (h, w)) (render_body fl env pd w h).
Proof.
  unfold render_body.
  apply yields_bind; intros a.
  apply yields_bind; intros _.
  apply yields_bind; intros a1.
  apply yields_bind; intros total.
  destruct (0 <? Z.min pd (Z.of_nat total))%Z.
  - apply yields_bind; intros _.
    apply yields_bind; intros a2.
    destruct (full_image_cache a2) as [full|].
    + apply yields_bind; intros ratio.
      apply yields_lift. intros c E.
      apply reveal_full_image_shape in E. rewrite E.
      destruct (has_pil env); reflexivity.
    + apply yields_ret. destruct (has_pil env); reflexivity.
  - now apply yields_ret.
Qed.

(** With OpenCV there, [render_svg_frame_simple] returns a canvas of the
    asked shape whatever happens inside, and a white one when its body
    raised. *)
Lemma render_total (pd : Z) (w h : nat) (w0 : world) :
  HAS_CV2 env = true ->
  exists c w1,
    render_svg_frame_simple fl env pd w h w0 = (Ok (Some c), w1)
    /\ shape c = (h, w)
    /\ same_pipe w0 w1
    /\ (forall e w', render_body fl env pd w h w0 = (Raise e, w') ->
                     c = blank h w /\ In (WarnRenderFailed e) (log w1)).
Proof.
  intros Hcv.
  assert (Hq := @render_quiet pd w h w0).
  assert (Hs := @render_body_shape pd w h w0).
  unfold render_svg_frame_simple in *. rewrite Hcv in *. cbn [negb] in *.
  unfold try_except, bind in *.
  destruct (render_body fl env pd w h w0) as [[c|e] w1] eqn:E.
  - exists c, w1. repeat split.
    + eapply Hs. reflexivity.
    + apply Hq.
    + apply Hq.
    + apply Hq.
    + apply Hq.
    + discriminate.
    + discriminate.
  - eexists. eexists. split; [reflexivity|]. split; [reflexivity|].
    split; [exact Hq|].
    intros e' w' E'. inversion E'; subst. split; [reflexivity|].
    cbn. apply in_or_app. right. now left.
Qed.

End TraceFacts.

Section TraceRuns.

Variable fl : Q -> Q.
Variable env : trace_env.
Hypothesis cv2_there : HAS_CV2 env = true.

(** The pre-rendering loop appends one frame of the asked shape per frame
    index and skips none. *)
Lemma prerender_from (paths : list string) (w h N : nat) (idxs : list nat)
  (acc : list canvas) (w0 : world) :
  exists rendered w1,
    fold_m idxs acc
      (fun rendered_frames frame_idx =>
         frame <- render_svg_frame_simple fl env
                    (paths_to_draw fl paths frame_idx N) w h ;;
         match frame with
         | Some f => ret (rendered_frames ++ [f])
         | None => logger (WarnFrameFailed frame_idx) ;; ret rendered_frames
         end) w0
    = (Ok (acc ++ rendered), w1)
    /\ length rendered = length idxs
    /\ Forall (fun c => shape c = (h, w)) rendered
    /\ same_pipe w0 w1.
Proof.
  revert acc w0. induction idxs as [|i idxs IH]; intros acc w0.
  - exists [], w0. cbn. unfold ret. rewrite app_nil_r.
    repeat split; auto.
  - cbn [fold_m]. unfold bind at 1. unfold bind at 1.
    destruct (@render_total fl env (paths_to_draw fl paths i N) w h w0 cv2_there)
      as (c & w1 & E & S & P & _).
    rewrite E. unfold ret at 1.
    destruct (IH (acc ++ [c]) w1) as (rendered & w2 & E2 & L2 & F2 & P2).
    exists (c :: rendered), w2.
    rewrite E2, <- app_assoc. cbn [app length].
    split; [reflexivity|].
    split; [now rewrite L2|].
    split; [now constructor|].
    eapply same_pipe_trans; eauto.
Qed.

Lemma prerender_all (paths : list string) (w h N : nat) (w0 : world) :
  exists rendered w1,
    prerender fl env paths w h N w0 = (Ok rendered, w1)
    /\ length rendered = N
    /\ Forall (fun c => shape c = (h, w)) rendered
    /\ same_pipe w0 w1.
Proof.
  destruct (@prerender_from paths w h N (seq 0 N) [] w0)
    as (rendered & w1 & E & L & F & P).
  exists rendered, w1. rewrite length_seq in L. auto.
Qed.

Variable cfg : config.
Let N := total_frames_of fl (fps cfg) (duration cfg).

Hypothesis some_paths : parse_svg_paths env <> [].


(** The same run against an encoder that is not done in time. *)
Lemma trace_run_timeout (enc : encoder) (w0 : world) :
  (0 < N)%nat -> never_done_in_time enc ->
  exists w1,
    create_animation_frames_stream fl env cfg enc w0
    = (Ok false,
       mkWorld Running (stdin_frames w1) true (temp_dir_exists w0) (attrs w1)
               (log w1 ++ [ErrCreatingAnimation TimeoutExpired])).
Proof.
  intros HN Hn.
  unfold create_animation_frames_stream, try_except at 1. fold N.
  destruct (parse_svg_paths env) as [|p ps] eqn:Ep; [contradiction|].
  unfold bind at 1. start_encoder. unfold bind at 1.
  destruct (@prerender_all (p :: ps) (width cfg) (height cfg) N
              (set_proc Running w0))
    as (rendered & w1 & E & L & F & (P1 & P2 & P3 & P4)).
  rewrite E. cbn in P1, P4.
  destruct rendered as [|r rs]; [simpl in L; lia|].
  unfold bind at 1. unfold try_except at 1. unfold bind at 1.
  rewrite (@for_each_streams canvas enc tobytes (r :: rs)
             (fun frame => stdin_write enc (tobytes frame)));
    [|reflexivity|exact P1|apply never_done_takes; exact Hn].
  exists (push_frames (map tobytes (r :: rs)) w1).
  destruct enc as [code secs|after code| |e]; cbn in Hn; finish_run;
    rewrite P1, P4.
  - destruct (secs <=? 60)%nat eqn:Es; [apply Nat.leb_le in Es; lia|].
    reflexivity.
  - contradiction.
  - reflexivity.
  - contradiction.
Qed.

End TraceRuns.

(** What is left of a run of the trace-based animator whose [Popen]
    raised: the handler of [create_animation_frames_stream] logs the error,
    no frame was rendered or written. *)
Lemma trace_run_not_started (fl : Q -> Q) (env : trace_env) (cfg : config)
  (e : exn) (w0 : world) :
  parse_svg_paths env <> [] ->
  create_animation_frames_stream fl env cfg (EncNotStarted e) w0
  = (Ok false,
     mkWorld (proc w0) (stdin_frames w0) (stdin_closed w0) (temp_dir_exists w0)
             (attrs w0) (log w0 ++ [ErrCreatingAnimation e])).
Proof.
  intros Hp. unfold create_animation_frames_stream, try_except at 1.
  destruct (parse_svg_paths env) as [|p ps]; [congruence|].
  unfold bind at 1. rewrite popen_not_started. reflexivity.
Qed.

(** ** Frame count and frame size *)

Lemma holds_frames_map {A} (f : A -> list Z) (xs : list A) (h w : nat) :
  (forall x, In x xs -> length (f x) = (h * w * 3)%nat) ->
  holds_frames (length xs) h w (map f xs).
Proof.
  intros H. split.
  - apply length_map.
  - apply Forall_forall. intros fr Hin.
    apply in_map_iff in Hin. destruct Hin as (x & <- & Hx). now apply H.
Qed.

Lemma holds_frames_seq (f : nat -> list Z) (n h w : nat) :
  (forall i, (i < n)%nat -> length (f i) = (h * w * 3)%nat) ->
  holds_frames n h w (map f (seq 0 n)).
Proof.
  intros H.
  assert (K := @holds_frames_map nat f (seq 0 n) h w).
  rewrite length_seq in K. apply K.
  intros i Hi. apply in_seq in Hi. apply H. lia.
Qed.




(** ** Rendering failures in the trace-based animator *)

(** C10. In the trace-based animator, with OpenCV available,
    [render_svg_frame_simple] never lets an exception of its body escape and
    never returns [None]: it returns a canvas of the requested
    height x width x 3 shape, and when the body raised that canvas is the
    all-white one (with a warning logged).  It returns [None] exactly when
    OpenCV is absent.  So the pre-rendering loop keeps one frame per frame
    index: no frame is skipped and the loop does not fail. *)
Theorem render_never_aborts (fl : Q -> Q) (env : trace_env) (paths_to_draw0 : Z)
  (w h N : nat) (paths : list string) (w0 : world) :
  (HAS_CV2 env = true ->
     exists c w1,
       render_svg_frame_simple fl env paths_to_draw0 w h w0 = (Ok (Some c), w1)
       /\ shape c = (h, w)
       /\ (forall e w', render_body fl env paths_to_draw0 w h w0 = (Raise e, w') ->
                        c = blank h w /\ In (WarnRenderFailed e) (log w1)))
  /\ (HAS_CV2 env = false ->
        render_svg_frame_simple fl env paths_to_draw0 w h w0 = (Ok None, w0))
  /\ (forall r w1, render_svg_frame_simple fl env paths_to_draw0 w h w0 = (r, w1) ->
        (r = Ok None <-> HAS_CV2 env = false) /\ (forall e, r <> Raise e))
  /\ (HAS_CV2 env = true ->
        exists rendered w1,
          prerender fl env paths w h N w0 = (Ok rendered, w1)
          /\ length rendered = N
          /\ Forall (fun c => shape c = (h, w)) rendered).
Proof.
  split; [|split; [|split]].
  - intros Hcv.
    destruct (@render_total fl env paths_to_draw0 w h w0 Hcv)
      as (c & w1 & E & S & _ & B).
    exists c, w1. auto.
  - intros Hcv. unfold render_svg_frame_simple. now rewrite Hcv.
  - intros r w1 E.
    destruct (HAS_CV2 env) eqn:Hcv.
    + destruct (@render_total fl env paths_to_draw0 w h w0 Hcv)
        as (c & w2 & E2 & _).
      rewrite E2 in E. inversion E; subst. split.
      * split; intros K; discriminate.
      * intros e K. discriminate.
    + unfold render_svg_frame_simple in E. rewrite Hcv in E.
      cbn in E. unfold ret in E. inversion E; subst. split.
      * split; reflexivity.
      * intros e K. discriminate.
  - intros Hcv.
    destruct (@prerender_all fl env Hcv paths w h N w0)
      as (rendered & w1 & E & L & F & _).
    exists rendered, w1. auto.
Qed.

Lemma render_never_aborts_witness :
  exists c w1,
    render_svg_frame_simple exact broken_svg_env 1 4 2 trace_world
    = (Ok (Some c), w1)
    /\ shape c = (2, 4)%nat
    /\ (forall e w', render_body exact broken_svg_env 1 4 2 trace_world
                     = (Raise e, w') ->
                     c = blank 2 4 /\ In (WarnRenderFailed e) (log w1)).
Proof.
  exact (proj1 (@render_never_aborts exact broken_svg_env 1 4 2 0 [] trace_world)
               eq_refl).
Defined.

(** ** Timeouts *)

(** C5, as stated, fails: with an encoder that never exits the contour
    animator returns the same result as with an encoder that exits with
    code 1, and the encoder process is still running when it returns. *)
Lemma timeout_same_result_process_running :
  fst (create_animation exact no_raster no_area tiny_cfg EncHangs true
                        (Some []) (Ok tt) fresh_world)
  = fst (create_animation exact no_raster no_area tiny_cfg (EncExits 1 0) true
                          (Some []) (Ok tt) fresh_world)
  /\ proc (snd (create_animation exact no_raster no_area tiny_cfg EncHangs true
                                 (Some []) (Ok tt) fresh_world))
     = Running.
Proof. vm_compute. split; reflexivity. Qed.

(** C5, amended. When the encoder is not done within the 60-second wait
    that follows the closing of its input, [wait] raises [TimeoutExpired];
    the enclosing handler logs it and the run returns [False], the same
    result as for a non-zero exit code: the two are told apart only by the
    logged error ("Animation error"/"Error creating animation" against
    "FFmpeg failed").  The encoder process is not terminated: it is still
    running when the run returns.  Contour animator and trace-based
    animator. *)
Theorem timeout_surfaces_as_plain_failure (fl : Q -> Q) (cfg : config)
  (enc : encoder) :
  monotone_rounding fl -> exact_on_integers fl -> never_done_in_time enc ->
  (forall raster area found copy_outputs,
      (Z.of_nat (length found) <= 2 ^ 53)%Z ->
      exists frames,
        length frames = total_frames_of fl (fps cfg) (duration cfg)
        /\ create_animation fl raster area cfg enc true (Some found)
                            copy_outputs fresh_world
           = (Ok false,
              mkWorld Running frames true false no_cache
                      [ErrAnimation TimeoutExpired; InfoCleanedUp])
        /\ (forall code secs, (secs <= 60)%nat -> code <> 0%Z ->
              create_animation fl raster area cfg (EncExits code secs) true
                               (Some found) copy_outputs fresh_world
              = (Ok false,
                 mkWorld (Exited code) frames true false no_cache
                         [ErrFfmpegFailed code; InfoCleanedUp])))
  /\ (forall env w0,
      HAS_CV2 env = true -> parse_svg_paths env <> [] ->
      (0 < total_frames_of fl (fps cfg) (duration cfg))%nat ->
      exists w1,
        create_animation_frames_stream fl env cfg enc w0
        = (Ok false,
           mkWorld Running (stdin_frames w1) true (temp_dir_exists w0) (attrs w1)
                   (log w1 ++ [ErrCreatingAnimation TimeoutExpired]))).
Proof.
  intros M E Hn. split.
  - intros raster area found copy_outputs Hb.
    assert (Hr : forall i,
              (i < total_frames_of fl (fps cfg) (duration cfg))%nat ->
              exists c, v2_canvas fl raster (extract_contours area found)
                          (height cfg) (width cfg) i
                          (total_frames_of fl (fps cfg) (duration cfg)) = Ok c).
    { intros i Hi.
      destruct (@v2_frames_ok fl raster (extract_contours area found)
                  (height cfg) (width cfg)
                  (total_frames_of fl (fps cfg) (duration cfg)) M E)
        with (i := i) as (c & Ec & _); auto.
      - unfold extract_contours. now rewrite sorted_reverse_length.
      - now exists c. }
    eexists. split; [|split].
    + rewrite length_map. apply length_seq.
    + now apply v2_run_timeout.
    + intros code secs Hs Hc. now apply v2_run_exit_code.
  - intros env w0 Hcv Hp HN. now apply trace_run_timeout.
Qed.

Lemma timeout_surfaces_as_plain_failure_witness :
  exists frames,
    length frames = total_frames_of exact (fps tiny_cfg) (duration tiny_cfg)
    /\ create_animation exact no_raster no_area tiny_cfg EncHangs true
                        (Some [[(0, 0); (1, 0); (1, 1)]]%Z) (Ok tt) fresh_world
       = (Ok false,
          mkWorld Running frames true false no_cache
                  [ErrAnimation TimeoutExpired; InfoCleanedUp])
    /\ (forall code secs, (secs <= 60)%nat -> code <> 0%Z ->
          create_animation exact no_raster no_area tiny_cfg (EncExits code secs)
                           true (Some [[(0, 0); (1, 0); (1, 1)]]%Z) (Ok tt)
                           fresh_world
          = (Ok false,
             mkWorld (Exited code) frames true false no_cache
                     [ErrFfmpegFailed code; InfoCleanedUp])).
Proof.
  apply (proj1 (@timeout_surfaces_as_plain_failure exact tiny_cfg EncHangs
                  exact_monotone exact_exact_on_integers I)).
  cbn. lia.
Defined.

(** ** Cleanup *)

Lemma cleanup_removes (w : world) : temp_dir_exists (cleanup w) = false.
Proof. unfold cleanup. destruct (temp_dir_exists w) eqn:E; [reflexivity|exact E]. Qed.

Lemma try_finally_cleanup {A} (m : M A) (w : world) :
  temp_dir_exists (snd (try_finally m cleanup w)) = false.
Proof.
  unfold try_finally. destruct (m w) as [r w']. cbn. apply cleanup_removes.
Qed.

(** C6, as stated, fails: against an encoder that never exits, [process]
    returns its failure with the temporary directory removed but the
    encoder process still running. *)
Lemma failure_surfaced_with_encoder_running :
  fst (process exact one_path_env tiny_cfg EncHangs true true true true (Ok tt)
               trace_world) = Ok false
  /\ temp_dir_exists
       (snd (process exact one_path_env tiny_cfg EncHangs true true true true
                     (Ok tt) trace_world)) = false
  /\ proc (snd (process exact one_path_env tiny_cfg EncHangs true true true true
                        (Ok tt) trace_world)) = Running.
Proof. vm_compute. repeat split. Qed.

(** C6, amended. Whatever happens in a run (success, broken pipe, non-zero
    exit code, timeout or any other failure) the temporary working directory
    is gone when the result is returned: contour animator, whiteboard
    animator, and [process] of the trace-based animator.  The pipeline does
    not terminate the encoder itself: after a non-zero exit code or a broken
    pipe the process has exited on its own, and after a timeout it is still
    running when the failure is returned. *)
Theorem working_directory_removed_encoder_left (fl : Q -> Q) (cfg : config) :
  (forall enc raster area preprocess_ok found copy_outputs w,
      temp_dir_exists
        (snd (create_animation fl raster area cfg enc preprocess_ok found
                               copy_outputs w)) = false)
  /\ (forall enc np_sin raster line_raster circle_raster moments extracted
             save_outputs w,
      temp_dir_exists
        (snd (create_whiteboard_animation fl np_sin raster line_raster
                circle_raster moments cfg enc extracted save_outputs w)) = false)
  /\ (forall enc env deps_ok preprocess_ok pbm_ok potrace_ok copy_outputs w,
      temp_dir_exists
        (snd (process fl env cfg enc deps_ok preprocess_ok pbm_ok potrace_ok
                      copy_outputs w)) = false)
  /\ (monotone_rounding fl -> exact_on_integers fl ->
      forall raster area found copy_outputs,
        (Z.of_nat (length found) <= 2 ^ 53)%Z ->
        (forall code secs, (secs <= 60)%nat -> code <> 0%Z ->
           fst (create_animation fl raster area cfg (EncExits code secs) true
                                 (Some found) copy_outputs fresh_world) = Ok false
           /\ proc (snd (create_animation fl raster area cfg (EncExits code secs)
                           true (Some found) copy_outputs fresh_world))
              = Exited code)
        /\ (forall after code,
              proc (snd (create_animation fl raster area cfg
                           (EncDies after code) true (Some found)
                           copy_outputs fresh_world))
              = Exited code
              /\ ((after <= total_frames_of fl (fps cfg) (duration cfg))%nat ->
                  (0 < total_frames_of fl (fps cfg) (duration cfg))%nat ->
                  (0 < bytes_of 1 (height cfg) (width cfg) <= bufsize)%Z ->
                  fst (create_animation fl raster area cfg (EncDies after code)
                                        true (Some found) copy_outputs
                                        fresh_world)
                  = Ok false
                  /\ In (ErrAnimation BrokenPipeError)
                        (log (snd (create_animation fl raster area cfg
                                     (EncDies after code) true (Some found)
                                     copy_outputs fresh_world))))
              /\ ((total_frames_of fl (fps cfg) (duration cfg) < after)%nat ->
                  create_animation fl raster area cfg (EncDies after code) true
                                   (Some found) copy_outputs fresh_world
                  = create_animation fl raster area cfg (EncExits code 0) true
                                     (Some found) copy_outputs fresh_world))
        /\ (forall enc, never_done_in_time enc ->
              fst (create_animation fl raster area cfg enc true (Some found)
                                    copy_outputs fresh_world) = Ok false
              /\ proc (snd (create_animation fl raster area cfg enc true
                              (Some found) copy_outputs fresh_world))
                 = Running)).
Proof.
  split; [|split; [|split]].
  - intros. apply try_finally_cleanup.
  - intros. apply try_finally_cleanup.
  - intros. apply try_finally_cleanup.
  - intros M E raster area found copy_outputs Hb.
    assert (Hs : forall i,
              (i < total_frames_of fl (fps cfg) (duration cfg))%nat ->
              exists c, v2_canvas fl raster (extract_contours area found)
                          (height cfg) (width cfg) i
                          (total_frames_of fl (fps cfg) (duration cfg)) = Ok c
                        /\ shape c = (height cfg, width cfg)).
    { intros i Hi. apply v2_frames_ok; auto.
      unfold extract_contours. now rewrite sorted_reverse_length. }
    assert (Hr : forall i,
              (i < total_frames_of fl (fps cfg) (duration cfg))%nat ->
              exists c, v2_canvas fl raster (extract_contours area found)
                          (height cfg) (width cfg) i
                          (total_frames_of fl (fps cfg) (duration cfg)) = Ok c).
    { intros i Hi. destruct (Hs i Hi) as (c & Ec & _). now exists c. }
    split; [|split].
    + intros code secs Hsecs Hc. rewrite v2_run_exit_code; auto.
    + intros after code.
      rewrite (@v2_run_dies fl raster area cfg found copy_outputs Hr after code).
      set (N := total_frames_of fl (fps cfg) (duration cfg)) in *.
      set (frames := map _ (seq 0 N)).
      assert (L : length frames = N)
        by (unfold frames; now rewrite length_map, length_seq).
      split; [|split].
      * destruct (broken_write after 0 0 frames); [reflexivity|].
        destruct ((after <=? N)%nat && (0 <? buffered frames)%Z);
          [reflexivity|].
        destruct (code =? 0)%Z; [|reflexivity].
        destruct copy_outputs; reflexivity.
      * intros Ha HN Hsz.
        destruct (broken_write after 0 0 frames);
          [split; [reflexivity|now left]|].
        assert (P : (0 < buffered frames)%Z).
        { apply buffered_positive.
          - intros K. rewrite K in L. simpl in L. lia.
          - unfold frames. apply Forall_forall. intros fr Hin.
            apply in_map_iff in Hin. destruct Hin as (i & <- & Hi).
            apply in_seq in Hi. destruct (Hs i) as (c & Ec & Sc); [lia|].
            rewrite Ec. cbn [frame_bytes].
            rewrite (shape_bytes Sc). unfold bytes_of in Hsz.
            rewrite Nat.mul_1_l in Hsz. exact Hsz. }
        apply Nat.leb_le in Ha. apply Z.ltb_lt in P. rewrite Ha, P.
        split; [reflexivity|now left].
      * intros Ha.
        rewrite (@v2_run_exits fl raster area cfg found copy_outputs Hr code 0)
          by lia.
        fold N. fold frames.
        rewrite broken_write_alive by (rewrite L; simpl; lia).
        destruct (after <=? N)%nat eqn:Ea;
          [apply Nat.leb_le in Ea; lia|reflexivity].
    + intros enc Hn. rewrite v2_run_timeout; auto.
Qed.

Lemma working_directory_removed_encoder_left_witness :
  fst (create_animation exact no_raster no_area tiny_cfg (EncDies 1 0) true
                        (Some [[(0, 0); (1, 0); (1, 1)]]%Z) (Ok tt) fresh_world)
  = Ok false
  /\ In (ErrAnimation BrokenPipeError)
        (log (snd (create_animation exact no_raster no_area tiny_cfg
                     (EncDies 1 0) true (Some [[(0, 0); (1, 0); (1, 1)]]%Z)
                     (Ok tt) fresh_world))).
Proof.
  destruct (@working_directory_removed_encoder_left exact tiny_cfg)
    as (_ & _ & _ & D).
  destruct (D exact_monotone exact_exact_on_integers no_raster no_area
              [[(0, 0); (1, 0); (1, 1)]]%Z (Ok tt)) as (_ & Y & _).
  - cbn. lia.
  - apply (proj1 (proj2 (Y 1%nat 0%Z))).
    + vm_compute. lia.
    + vm_compute. lia.
    + vm_compute. split; [reflexivity|discriminate].
Defined.

(** ** Empty drawing plans *)

Lemma np_where_all_length (h w : nat) :
  length (np_where all_set h w) = (h * w)%nat.
Proof.
  unfold np_where, all_set.
  rewrite (length_flat_map_const _ (n := w)).
  - now rewrite length_seq.
  - intros y. rewrite (length_flat_map_const _ (n := 1%nat)).
    + rewrite length_seq. lia.
    + reflexivity.
Qed.

Lemma np_where_all_in (h w y x : nat) :
  (y < h)%nat -> (x < w)%nat -> In (y, x) (np_where all_set h w).
Proof.
  intros Hy Hx. unfold np_where, all_set.
  apply in_flat_map. exists y. split; [apply in_seq; lia|].
  apply in_flat_map. exists x. split; [apply in_seq; lia|].
  now left.
Qed.

Lemma stroke_pixels_nonempty (mask : nat -> nat -> bool) (h w : nat) :
  (0 < h)%nat -> (0 < w)%nat -> stroke_pixels_of mask h w <> [].
Proof.
  intros Hh Hw. unfold stroke_pixels_of.
  destruct (length (np_where mask h w) =? 0)%nat eqn:E.
  - intros K. apply (f_equal (@length _)) in K.
    rewrite np_where_all_length in K. simpl in K. nia.
  - apply Nat.eqb_neq in E. intros K. rewrite K in E. now apply E.
Qed.

Lemma map_nth_seq {A} (l : list A) (d : A) :
  map (fun i => nth i l d) (seq 0 (length l)) = l.
Proof.
  induction l as [|a l IH]; [reflexivity|].
  cbn [length seq map nth]. f_equal.
  rewrite <- seq_shift, map_map. exact IH.
Qed.

Lemma natural_order_perm (fl : Q -> Q) (rng : Type) (seed : Z -> rng)
  (randn : nat -> rng -> list Q * rng) (argsort : list Q -> list nat)
  (wy wx sigma : Q) (stroke_pixels : list (nat * nat)) (g : rng) :
  (forall scores, Permutation (argsort scores) (seq 0 (length scores))) ->
  (forall n s, length (fst (randn n s)) = n) ->
  Permutation stroke_pixels
    (fst (natural_order fl seed randn argsort wy wx sigma stroke_pixels g)).
Proof.
  intros Hsort Hlen. unfold natural_order.
  specialize (Hlen (length stroke_pixels) (seed 42%Z)).
  destruct (randn (length stroke_pixels) (seed 42%Z)) as [noise g2].
  cbn [fst] in *.
  set (scores := scores_of fl wy wx sigma stroke_pixels noise).
  assert (L : length scores = length stroke_pixels).
  { unfold scores, scores_of. rewrite length_map, length_combine, Hlen.
    apply Nat.min_id. }
  rewrite <- (map_nth_seq stroke_pixels (0, 0)%nat) at 1.
  apply Permutation_map. apply Permutation_sym.
  rewrite <- L. apply Hsort.
Qed.

(** C3, as stated, fails: the whiteboard animator given an image from which
    no outline and no fill survived returns failure, without a frame. *)
Lemma empty_plan_fails_whiteboard_run :
  create_whiteboard_animation exact flat_sin no_raster keep_line keep_circle
    no_moments tiny_cfg (EncExits 0 1) (WbStrokes (blank 2 2) [] []) (Ok tt)
    fresh_world
  = (Ok false,
     mkWorld NotSpawned [] false false no_cache [ErrExtract; InfoCleanedUp]).
Proof. reflexivity. Qed.

(** C3, amended. In the pixel-reveal animators (colour, highlight), when
    the foreground mask has no set pixel the stroke pixels fall back to
    every pixel of the height x width canvas, and the plan handed to the
    frame loop is those pixels in the order of [argsort] (numpy's [argsort]
    returning a permutation of the indices and [randn(n)] n numbers): for
    positive dimensions it is never empty.  The contour animator has neither
    fallback nor guard: with no contour it streams white frames.  In the
    whiteboard animator and in the trace-based animator an empty plan is
    rejected by a guard: the run logs an error and returns failure before
    an encoder is spawned. *)
Theorem empty_plan_fallback_or_failure (fl : Q -> Q) (cfg : config)
  (enc : encoder) :
  (forall mask h w,
      np_where mask h w = [] ->
      stroke_pixels_of mask h w = np_where all_set h w
      /\ length (stroke_pixels_of mask h w) = (h * w)%nat
      /\ (forall y x, (y < h)%nat -> (x < w)%nat ->
                      In (y, x) (stroke_pixels_of mask h w)))
  /\ (forall mask h w, (0 < h)%nat -> (0 < w)%nat ->
                       stroke_pixels_of mask h w <> [])
  /\ (forall (rng : Type) (seed : Z -> rng) (randn : nat -> rng -> list Q * rng)
             (argsort : list Q -> list nat) mask h w (g : rng),
      (forall scores, Permutation (argsort scores) (seq 0 (length scores))) ->
      (forall n s, length (fst (randn n s)) = n) ->
      (np_where mask h w = [] ->
       Permutation (np_where all_set h w)
                   (fst (color_drawing_plan fl seed randn argsort mask h w g))
       /\ Permutation (np_where all_set h w)
                      (fst (highlight_drawing_plan fl seed randn argsort mask
                              h w g)))
      /\ ((0 < h)%nat -> (0 < w)%nat ->
          fst (color_drawing_plan fl seed randn argsort mask h w g) <> []
          /\ fst (highlight_drawing_plan fl seed randn argsort mask h w g)
             <> []))
  /\ (monotone_rounding fl -> exact_on_integers fl ->
      takes enc (total_frames_of fl (fps cfg) (duration cfg)) ->
      forall raster area copy_outputs,
        stdin_frames
          (snd (create_animation fl raster area cfg enc true (Some [])
                                 copy_outputs fresh_world))
        = repeat (tobytes (blank (height cfg) (width cfg)))
                 (total_frames_of fl (fps cfg) (duration cfg)))
  /\ (forall np_sin raster line_raster circle_raster moments img_color
             save_outputs w,
      create_whiteboard_animation fl np_sin raster line_raster circle_raster
        moments cfg enc (WbStrokes img_color [] []) save_outputs w
      = (Ok false, cleanup (snd (logger ErrExtract w))))
  /\ (forall env w,
      parse_svg_paths env = [] ->
      create_animation_frames_stream fl env cfg enc w
      = (Ok false, snd (logger ErrNoPaths w))).
Proof.
  split; [|split; [|split; [|split; [|split]]]].
  - intros mask h w E.
    assert (S : stroke_pixels_of mask h w = np_where all_set h w).
    { unfold stroke_pixels_of. now rewrite E. }
    rewrite S. split; [reflexivity|]. split.
    + apply np_where_all_length.
    + intros y x. apply np_where_all_in.
  - intros mask h w. apply stroke_pixels_nonempty.
  - intros rng seed randn argsort mask h w g Hsort Hlen.
    assert (Pc := @natural_order_perm fl rng seed randn argsort (6 # 10)
                    (4 # 10) 20 (stroke_pixels_of mask h w) g Hsort Hlen).
    assert (Ph := @natural_order_perm fl rng seed randn argsort (5 # 10)
                    (5 # 10) 30 (stroke_pixels_of mask h w) g Hsort Hlen).
    fold (color_drawing_plan fl seed randn argsort mask h w g) in Pc.
    fold (highlight_drawing_plan fl seed randn argsort mask h w g) in Ph.
    split.
    + intros E.
      assert (S : stroke_pixels_of mask h w = np_where all_set h w).
      { unfold stroke_pixels_of. now rewrite E. }
      rewrite S in Pc, Ph. split; assumption.
    + intros Hh Hw.
      assert (Ne := @stroke_pixels_nonempty mask h w Hh Hw).
      split; intros K; [rewrite K in Pc|rewrite K in Ph];
        apply Permutation_sym, Permutation_nil in Pc || 
        apply Permutation_sym, Permutation_nil in Ph; contradiction.
  - intros M E Ht raster area copy_outputs.
    set (N := total_frames_of fl (fps cfg) (duration cfg)) in *.
    assert (W : forall i, (i < N)%nat ->
              v2_canvas fl raster (extract_contours area []) (height cfg)
                        (width cfg) i N
              = Ok (blank (height cfg) (width cfg))).
    { intros i Hi. unfold v2_canvas, extract_contours. cbn [sorted_reverse fold_right].
      assert (K := @reveal_count_le_total fl 0 i N M E ltac:(simpl; lia) Hi).
      unfold contours_to_draw, py_range. cbn [length].
      replace (Z.to_nat (reveal_count fl 0 i N)) with 0%nat by (simpl in K; lia).
      reflexivity. }
    rewrite v2_run_frames; fold N; auto.
    + clear Ht. assert (G : forall a n,
                (forall i, (a <= i < a + n)%nat -> (i < N)%nat) ->
                map (fun i => frame_bytes
                       (v2_canvas fl raster (extract_contours area [])
                                  (height cfg) (width cfg) i N)) (seq a n)
                = repeat (tobytes (blank (height cfg) (width cfg))) n).
      { intros a n. revert a. induction n as [|n IH]; intros a Hin;
          [reflexivity|].
        cbn [seq map repeat]. rewrite W by (apply Hin; lia). cbn [frame_bytes].
        f_equal. apply IH. intros i Hi. apply Hin. lia. }
      apply G. intros i Hi. lia.
    + intros i Hi. rewrite W by exact Hi. now eexists.
  - reflexivity.
  - intros env w E.
    unfold create_animation_frames_stream. rewrite E. reflexivity.
Qed.

Lemma empty_plan_fallback_or_failure_witness :
  Permutation (np_where all_set 2 2)
    (fst (color_drawing_plan exact (fun s => Z.to_nat s) counter_randn
            (fun scores => seq 0 (length scores)) (fun _ _ => false) 2 2
            0%nat))
  /\ fst (highlight_drawing_plan exact (fun s => Z.to_nat s) counter_randn
            (fun scores => seq 0 (length scores)) (fun _ _ => false) 2 2
            0%nat) <> [].
Proof.
  destruct (proj1 (proj2 (proj2
              (@empty_plan_fallback_or_failure exact tiny_cfg EncHangs)))
              nat (fun s => Z.to_nat s) counter_randn
              (fun scores => seq 0 (length scores)) (fun _ _ => false)
              2%nat 2%nat 0%nat) as [A B].
  - intros scores. apply Permutation_refl.
  - intros n s. unfold counter_randn. cbn [fst].
    now rewrite length_map, length_seq.
  - split.
    + apply A. reflexivity.
    + apply B; lia.
Defined.

(** ** Determinism of the drawing plan *)

Lemma sorted_reverse_in {A} (key : A -> Q) (xs : list A) (b : A) :
  In b (sorted_reverse key xs) -> In b xs.
Proof.
  unfold sorted_reverse. induction xs as [|x xs IH]; simpl; [auto|].
  intros H.
  assert (K : forall ys, In b (insert_desc key x ys) -> b = x \/ In b ys).
  { induction ys as [|y ys IHy]; simpl.
    - intros [->|[]]. now left.
    - destruct (Qle_bool (key y) (key x)); simpl.
      + intros [->|[->|Hb]]; auto.
      + intros [->|Hb]; auto. destruct (IHy Hb); auto. }
  destruct (K _ H) as [->|Hb]; auto.
Qed.

Lemma Qle_bool_compat (a a' b b' : Q) :
  a == a' -> b == b' -> Qle_bool a b = Qle_bool a' b'.
Proof.
  intros Ea Eb.
  destruct (Qle_bool a b) eqn:E1; destruct (Qle_bool a' b') eqn:E2; auto.
  - apply Qle_bool_iff in E1. rewrite Ea, Eb in E1.
    apply Qle_bool_iff in E1. congruence.
  - apply Qle_bool_iff in E2. rewrite <- Ea, <- Eb in E2.
    apply Qle_bool_iff in E2. congruence.
Qed.

Lemma insert_desc_keys {A} (k1 k2 : A -> Q) (a : A) (ys : list A) :
  k1 a == k2 a -> (forall b, In b ys -> k1 b == k2 b) ->
  insert_desc k1 a ys = insert_desc k2 a ys.
Proof.
  intros Ha. induction ys as [|y ys IH]; intros Hys; simpl; [reflexivity|].
  rewrite (@Qle_bool_compat (k1 y) (k2 y) (k1 a) (k2 a)); auto.
  - destruct (Qle_bool (k2 y) (k2 a)); [reflexivity|].
    rewrite IH; auto. intros b Hb. apply Hys. now right.
  - apply Hys. now left.
Qed.

Lemma sorted_reverse_keys {A} (k1 k2 : A -> Q) (xs : list A) :
  (forall b, In b xs -> k1 b == k2 b) ->
  sorted_reverse k1 xs = sorted_reverse k2 xs.
Proof.
  induction xs as [|x xs IH]; intros H; [reflexivity|].
  unfold sorted_reverse in *. simpl.
  rewrite IH by (intros b Hb; apply H; now right).
  apply insert_desc_keys.
  - apply H. now left.
  - intros b Hb. apply H. right.
    now apply (@sorted_reverse_in A k2 xs b).
Qed.

(** C7. Two runs of the extractor on the same input and configuration give
    the same ordered drawing plan, whatever state numpy's global generator
    was in when each run started: the jitter is drawn after re-seeding with
    the constant 42, so the plan of the colour animator and that of the
    highlight animator do not depend on the generator state, and a second
    run in the same process (started in the state the first one left)
    repeats the first.  The contour animator draws nothing at random: its
    order is fixed by the contours found and their areas. *)
Theorem drawing_plan_deterministic (fl : Q -> Q) (rng : Type)
  (np_random_seed : Z -> rng) (np_random_randn : nat -> rng -> list Q * rng)
  (np_argsort : list Q -> list nat) (mask : nat -> nat -> bool) (h w : nat)
  (g1 g2 : rng) (area1 area2 : contour -> Q) (found : list contour) :
  color_drawing_plan fl np_random_seed np_random_randn np_argsort mask h w g1
  = color_drawing_plan fl np_random_seed np_random_randn np_argsort mask h w g2
  /\ highlight_drawing_plan fl np_random_seed np_random_randn np_argsort mask h w g1
     = highlight_drawing_plan fl np_random_seed np_random_randn np_argsort mask h w g2
  /\ fst (color_drawing_plan fl np_random_seed np_random_randn np_argsort mask h w
            (snd (color_drawing_plan fl np_random_seed np_random_randn
                    np_argsort mask h w g1)))
     = fst (color_drawing_plan fl np_random_seed np_random_randn np_argsort
              mask h w g1)
  /\ ((forall c, In c found -> area1 c == area2 c) ->
      extract_contours area1 found = extract_contours area2 found).
Proof.
  repeat split.
  intros H. unfold extract_contours. now apply sorted_reverse_keys.
Qed.

Lemma drawing_plan_deterministic_witness :
  extract_contours (fun c => QofNat (length c)) [[(0, 0)]; [(1, 1); (2, 2)]]%Z
  = extract_contours (fun c => QofNat (length c) + 0) [[(0, 0)]; [(1, 1); (2, 2)]]%Z.
Proof.
  apply (proj2 (proj2 (proj2
          (@drawing_plan_deterministic exact nat (fun s => Z.to_nat s)
             counter_randn (fun scores => seq 0 (length scores))
             (fun _ _ => true) 2 2 0%nat 7%nat
             (fun c => QofNat (length c)) (fun c => QofNat (length c) + 0)
             [[(0, 0)]; [(1, 1); (2, 2)]]%Z)))).
  intros c _. now rewrite Qplus_0_r.
Defined.

(** ** The pulsing cursor *)

Lemma py_int_between (x : Q) (z : Z) :
  (0 <= z)%Z -> inject_Z z <= x -> x < inject_Z (z + 1) -> py_int x = z.
Proof.
  intros Hz Hlo Hhi. unfold py_int.
  assert (H0 : 0 <= x).
  { apply Qle_trans with (inject_Z z); [|exact Hlo].
    change 0 with (inject_Z 0). now rewrite <- Zle_Qle. }
  apply Qle_bool_iff in H0. rewrite H0.
  apply Z.le_antisymm.
  - assert (K : inject_Z (Qfloor x) < inject_Z (z + 1)).
    { eapply Qle_lt_trans; [apply Qfloor_le|exact Hhi]. }
    rewrite <- Zlt_Qlt in K. lia.
  - rewrite <- (Qfloor_Z z). now apply Qfloor_resp_le.
Qed.

Lemma py_int_positive (x : Q) (z : Z) :
  (0 < z)%Z -> py_int x = z -> inject_Z z <= x /\ x < inject_Z (z + 1).
Proof.
  intros Hz E. unfold py_int in E.
  destruct (Qle_bool 0 x) eqn:P.
  - subst z. split; [apply Qfloor_le|apply Qlt_floor].
  - exfalso.
    assert (N : x < 0).
    { apply Qnot_le_lt. intros K. apply Qle_bool_iff in K. congruence. }
    assert (C : (Qceiling x <= 0)%Z).
    { change 0%Z with (Qceiling 0). apply Qceiling_resp_le. lra. }
    lia.
Qed.

Lemma py_int_in (x : Q) (a b : Z) :
  inject_Z a <= x -> x <= inject_Z b -> (a <= py_int x <= b)%Z.
Proof.
  intros Ha Hb. split.
  - rewrite <- (py_int_integer a). now apply py_int_monotone.
  - rewrite <- (py_int_integer b). now apply py_int_monotone.
Qed.

(** C8, as stated, fails in the whiteboard animator.  The cursor of the
    highlight animator has the radius [int(base * (0.8 + 0.2 * sin(i * k)))]
    with base 25 and k 0.3, whatever the sine is; the size of the cursor of
    the whiteboard animator is of that form for no base and no [k]: it is
    17, 19, 19 and 16 at frames 0, 4, 8 and 16, which no sine and cosine
    with the double-angle formulas at 4k and 8k allow.  The facts assumed of
    the sine hold of rational stand-ins at k = 0.2. *)
Lemma whiteboard_pulse_fits_no_base :
  (forall (np_sin : Q -> Q) frame_idx,
      highlight_cursor_radius exact np_sin frame_idx
      = py_int (25 * ((8 # 10) + (2 # 10) * np_sin (QofNat frame_idx * (3 # 10)))))
  /\ trig_like toy_sin toy_cos (1 # 5)
  /\ ~ (exists (np_sin np_cos : Q -> Q) (base k : Q),
          trig_like np_sin np_cos k /\
          forall frame_idx, (frame_idx <= 16)%nat ->
            hand_cursor_size exact np_sin frame_idx
            = py_int (base * ((8 # 10) + (2 # 10) * np_sin (QofNat frame_idx * k)))).
Proof.
  split; [reflexivity|]. split.
  { unfold trig_like. split.
    - intros a b E. unfold toy_sin.
      rewrite !(Qeqb_comp a b E _ _ (Qeq_refl _)). reflexivity.
    - repeat split; vm_compute; try reflexivity; discriminate. }
  intros (s & c & base & k
          & (Hp & H0 & L4 & U4 & L8 & U8 & L16 & U16 & Hcos & Hsin) & Hall).
  unfold hand_cursor_size, exact in Hall.
  assert (size : forall i (x : Q) (z : Z),
            QofNat i * (2 # 10) == x ->
            inject_Z z <= 20 * ((85 # 100) + (15 # 100) * s x) ->
            20 * ((85 # 100) + (15 # 100) * s x) < inject_Z (z + 1) ->
            (0 < z)%Z -> (i <= 16)%nat ->
            inject_Z z <= base * ((8 # 10) + (2 # 10) * s (QofNat i * k))
            /\ base * ((8 # 10) + (2 # 10) * s (QofNat i * k)) < inject_Z (z + 1)).
  { intros i x z Ex Lo Hi Hz Hi16.
    apply py_int_positive; [exact Hz|].
    rewrite <- (Hall i Hi16).
    apply py_int_between; [lia| |]; rewrite (Hp _ _ Ex); assumption. }
  destruct (size 0%nat 0 17%Z) as [A0 B0]; try reflexivity; try lia;
    [rewrite H0; vm_compute; discriminate|rewrite H0; reflexivity|].
  destruct (size 4%nat (4 # 5) 19%Z) as [A4 B4]; try reflexivity; try lia;
    [change (inject_Z 19) with 19; lra|change (inject_Z (19 + 1)) with 20; lra|].
  destruct (size 8%nat (8 # 5) 19%Z) as [A8 B8]; try reflexivity; try lia;
    [change (inject_Z 19) with 19; lra|change (inject_Z (19 + 1)) with 20; lra|].
  destruct (size 16%nat (16 # 5) 16%Z) as [A16 B16]; try reflexivity; try lia;
    [change (inject_Z 16) with 16; lra|change (inject_Z (16 + 1)) with 17; lra|].
  clear size Hall.
  rewrite (Hp (QofNat 0 * k) 0) in A0, B0 by (unfold QofNat; simpl; ring).
  rewrite H0 in A0, B0.
  rewrite (Hp (QofNat 4 * k) (4 * k)) in A4, B4 by reflexivity.
  rewrite (Hp (QofNat 8 * k) (8 * k)) in A8, B8 by reflexivity.
  rewrite (Hp (QofNat 16 * k) (16 * k)) in A16, B16 by reflexivity.
  change (inject_Z 17) with 17 in *. change (inject_Z (17 + 1)) with 18 in *.
  change (inject_Z 19) with 19 in *. change (inject_Z (19 + 1)) with 20 in *.
  change (inject_Z 16) with 16 in *. change (inject_Z (16 + 1)) with 17 in *.
  set (s4 := s (4 * k)) in *. set (s8 := s (8 * k)) in *.
  set (s16 := s (16 * k)) in *. set (c8 := c (8 * k)) in *.
  assert (HB : 0 < base) by lra.
  assert (P4 : 0 < s4) by nra.
  assert (P8 : 0 < s8) by nra.
  assert (N16 : s16 < 0) by nra.
  assert (S4 : s4 < 12 # 17) by nra.
  assert (C8 : 0 < c8) by nra.
  nra.
Qed.

Section CursorCentre.

Variable line_raster : point -> point -> nat -> nat -> pixel -> pixel.

Lemma last_cons_default {A} (m : list A) :
  forall a d, last (a :: m) d = last m a.
Proof.
  induction m as [|b m IH]; intros a d; [reflexivity|].
  change (last (a :: b :: m) d) with (last (b :: m) d).
  rewrite !IH. reflexivity.
Qed.


(** A target that covers every point draws every path to its end and
    leaves the cursor on the last point of the last path. *)
Lemma draw_outlines_complete (paths : list (list point)) (target : Z) :
  forall drawn c cursor,
    (drawn + Z.of_nat (sum_lengths paths) <= target)%Z ->
    draw_outlines line_raster paths target drawn c cursor
    = (draw_all_outlines line_raster paths c,
       last (map (fun p => last p (0, 0)%Z) paths) cursor).
Proof.
  induction paths as [|p paths IH]; intros drawn c cursor H; [reflexivity|].
  cbn [draw_outlines sum_lengths fold_right] in *.
  unfold path_len.
  replace (drawn + Z.of_nat (length p) <=? target)%Z with true
    by (symmetry; apply Z.leb_le;
        change (fold_right (fun (p0 : list point) (acc : nat) =>
                              (length p0 + acc)%nat) 0%nat paths)
          with (sum_lengths paths) in H; lia).
  rewrite IH.
  - unfold draw_all_outlines. cbn [fold_left map]. unfold path_len.
    f_equal. symmetry. apply last_cons_default.
  - change (fold_right (fun (p0 : list point) (acc : nat) =>
                          (length p0 + acc)%nat) 0%nat paths)
      with (sum_lengths paths) in H. lia.
Qed.


Lemma last_is_nth {A} (l : list A) (d : A) :
  l <> [] -> last l d = nth (length l - 1) l d.
Proof.
  induction l as [|a l IH]; [congruence|]. intros _.
  destruct l as [|b l]; [reflexivity|].
  change (last (a :: b :: l) d) with (last (b :: l) d).
  rewrite IH by discriminate. cbn [length].
  rewrite !Nat.sub_succ, !Nat.sub_0_r. reflexivity.
Qed.

(** The cursor that the loop over the outlines leaves depends on the paths
    and on the target, not on the canvas or on the line rasterizer. *)
Lemma draw_outlines_cursor (line_raster' : point -> point -> nat -> nat -> pixel -> pixel)
  (paths : list (list point)) (target : Z) :
  forall drawn c c' cursor,
    snd (draw_outlines line_raster paths target drawn c cursor)
    = snd (draw_outlines line_raster' paths target drawn c' cursor).
Proof.
  induction paths as [|p paths IH]; intros drawn c c' cursor; [reflexivity|].
  cbn [draw_outlines].
  destruct (drawn + path_len p <=? target)%Z; [apply IH|].
  destruct (drawn <? target)%Z; reflexivity.
Qed.

(** Before the first point is due the cursor stays where it was. *)
Lemma draw_outlines_not_begun (paths : list (list point)) (target drawn : Z)
  (c : canvas) (cursor : Z * Z) :
  Forall (fun p : list point => p <> []) paths -> (target <= drawn)%Z ->
  snd (draw_outlines line_raster paths target drawn c cursor) = cursor.
Proof.
  intros Hne Ht. destruct paths as [|p paths]; [reflexivity|].
  cbn [draw_outlines]. apply Forall_inv in Hne.
  assert (L : (0 < path_len p)%Z)
    by (unfold path_len; destruct p; [congruence|simpl; lia]).
  destruct (Z.leb_spec (drawn + path_len p) target); [lia|].
  destruct (Z.ltb_spec drawn target); [lia|reflexivity].
Qed.

(** While the outlines are being revealed the cursor is on the point of the
    outlines, taken one path after the other, at the target or just before
    it. *)
Lemma draw_outlines_cursor_at (paths : list (list point)) (target : Z) :
  Forall (fun p : list point => p <> []) paths ->
  forall drawn c cursor,
    (drawn < target < drawn + Z.of_nat (sum_lengths paths))%Z ->
    exists j,
      (j = target - drawn \/ j = target - drawn - 1)%Z
      /\ snd (draw_outlines line_raster paths target drawn c cursor)
         = nth (Z.to_nat j) (concat paths) (0, 0)%Z.
Proof.
  induction 1 as [|p paths Hp Hps IH]; intros drawn c cursor Ht.
  - simpl in Ht. lia.
  - cbn [draw_outlines concat].
    change (sum_lengths (p :: paths)) with (length p + sum_lengths paths)%nat in Ht.
    assert (L : (0 < path_len p)%Z)
      by (unfold path_len; destruct p; [congruence|simpl; lia]).
    unfold path_len in *.
    destruct (Z.leb_spec (drawn + Z.of_nat (length p)) target) as [Hle|Hgt].
    + destruct (Z.eq_dec (drawn + Z.of_nat (length p)) target) as [E|NE].
      * exists (target - drawn - 1)%Z. split; [now right|].
        rewrite draw_outlines_not_begun by (auto; lia).
        rewrite last_is_nth by exact Hp.
        rewrite app_nth1 by lia. f_equal. lia.
      * destruct (IH (drawn + Z.of_nat (length p))%Z
                     (draw_segments line_raster (Z.of_nat (length p) - 1) p c)
                     (last p (0, 0)%Z)) as (j & Hj & Ej); [lia|].
        exists (j + Z.of_nat (length p))%Z. split; [lia|].
        rewrite Ej, app_nth2 by lia. f_equal. lia.
    + destruct (Z.ltb_spec drawn target) as [Hlt|Hge]; [|lia].
      exists (target - drawn)%Z. split; [now left|].
      cbn [snd]. rewrite Z.min_l by lia.
      now rewrite app_nth1 by lia.
Qed.

End CursorCentre.

Section FillCentre.

Variable fl : Q -> Q.
Variable contour_raster : contour -> Z -> nat -> nat -> bool.
Variable moments : contour -> Q * Q * Q.
Variable img_color : canvas.

Lemma nth_prefix {A} (l : list A) (d : A) (k : nat) :
  (k <= length l)%nat -> map (fun i => nth i l d) (seq 0 k) = firstn k l.
Proof.
  revert k. induction l as [|a l IH]; intros k Hk.
  - simpl in Hk. replace k with 0%nat by lia. reflexivity.
  - destruct k as [|k]; [reflexivity|]. cbn [seq map nth firstn]. f_equal.
    rewrite <- seq_shift, map_map. apply IH. simpl in Hk. lia.
Qed.

(** The fills are taken in the order of the list. *)
Lemma fold_fills_prefix (color_fills : list contour) (k : nat)
  (acc : canvas * (Z * Z)) :
  (k <= length color_fills)%nat ->
  fold_left (fun a i => draw_fill fl contour_raster moments img_color
                                  (nth i color_fills []) a)
            (seq 0 k) acc
  = fold_left (fun a cnt => draw_fill fl contour_raster moments img_color cnt a)
              (firstn k color_fills) acc.
Proof.
  intros Hk. rewrite <- (nth_prefix color_fills [] Hk).
  generalize (seq 0 k). intros idxs. revert acc.
  induction idxs as [|i idxs IH]; intros acc; [reflexivity|].
  cbn [map fold_left]. apply IH.
Qed.

(** The cursor after a run of fills is the centroid of the last of them
    that has one: it depends on the fills, not on the image. *)
Lemma draw_fills_cursor (fills : list contour) :
  forall c cursor,
    snd (fold_left (fun a cnt => draw_fill fl contour_raster moments img_color
                                           cnt a)
                   fills (c, cursor))
    = fills_cursor fl moments fills cursor.
Proof.
  unfold fills_cursor.
  induction fills as [|cnt fills IH]; intros c cursor; [reflexivity|].
  cbn [fold_left]. unfold draw_fill at 2.
  destruct (moments cnt) as [[m00 m10] m01].
  destruct (Qeq_bool m00 0); apply IH.
Qed.

End FillCentre.

(** C8, amended. Every circle of the cursor of a frame has for radius the
    truncation to an integer of [base * (c + a * sin(frame_idx * k))],
    computed in floats, with (base, c, a, k) = (25, 0.8, 0.2, 0.3) in the
    highlight animator and (20, 0.85, 0.15, 0.2) in the whiteboard animator:
    the radius depends on the frame index alone.  The centre is the current
    reveal position.  In the highlight animator it is the next pixel of the
    plan.  In the first pass of the whiteboard animator it is where the loop
    over the outlines stops for the number of points revealed: the middle of
    the canvas before the first point, the point of the outlines at that
    number or just before it while they are being revealed, the last point
    when all are.  In its second pass it is the centroid of the last fill
    revealed that has one.  With a sine between -1 and 1 and exact
    arithmetic the radius is between 15 and 25, and between 14 and 20. *)
Theorem cursor_radius_keyed_on_frame_index (fl : Q -> Q) (np_sin : Q -> Q)
  (stroke_pixels : list (nat * nat)) (pixels_drawn : Z) (total_pixels : nat)
  (x y : Z) (frame_idx : nat) :
  Forall (fun op =>
            radius op
            = py_int (fl (25 * fl (fl (8 # 10)
                                   + fl (fl (2 # 10)
                                         * np_sin (fl (QofNat frame_idx
                                                       * fl (3 # 10)))))))
            /\ center op
               = (Z.of_nat (snd (nth (Z.to_nat pixels_drawn) stroke_pixels (0, 0)%nat)),
                  Z.of_nat (fst (nth (Z.to_nat pixels_drawn) stroke_pixels (0, 0)%nat))))
         (highlight_cursor_ops fl np_sin stroke_pixels pixels_drawn total_pixels
                               frame_idx)
  /\ map (fun op => (center op, radius op)) (hand_cursor_ops fl np_sin x y frame_idx)
     = (let size :=
          py_int (fl (20 * fl (fl (85 # 100)
                               + fl (fl (15 # 100)
                                     * np_sin (fl (QofNat frame_idx
                                                   * fl (2 # 10))))))) in
        [ ((x + 2, y + 2)%Z, size); ((x, y), size) ])
  /\ (forall raster line_raster circle_raster moments img_color outline_paths
             color_fills h w N,
        (Z.of_nat frame_idx < outline_frames_of fl N)%Z ->
        outline_paths <> [] ->
        Forall (fun p : list point => p <> []) outline_paths ->
        exists canvas1 centre,
          whiteboard_canvas fl np_sin raster line_raster circle_raster moments
            img_color outline_paths color_fills h w frame_idx N
          = Ok (draw_hand_cursor fl np_sin circle_raster canvas1
                                 (fst centre) (snd centre) frame_idx)
          /\ (forall line_raster' canvas',
                centre
                = snd (draw_outlines line_raster' outline_paths
                         (outline_target fl outline_paths frame_idx N) 0
                         canvas' (Z.of_nat w / 2, Z.of_nat h / 2)%Z))
          /\ ((outline_target fl outline_paths frame_idx N <= 0)%Z ->
              centre = (Z.of_nat w / 2, Z.of_nat h / 2)%Z)
          /\ ((0 < outline_target fl outline_paths frame_idx N
               < Z.of_nat (sum_lengths outline_paths))%Z ->
              exists j,
                (j = outline_target fl outline_paths frame_idx N
                 \/ j = outline_target fl outline_paths frame_idx N - 1)%Z
                /\ centre = nth (Z.to_nat j) (concat outline_paths) (0, 0)%Z)
          /\ ((Z.of_nat (sum_lengths outline_paths)
               <= outline_target fl outline_paths frame_idx N)%Z ->
              centre = last (last outline_paths []) (0, 0)%Z))
  /\ (forall raster line_raster circle_raster moments img_color outline_paths
             color_fills h w N,
        (outline_frames_of fl N <= Z.of_nat frame_idx)%Z ->
        color_fills <> [] -> color_frames_of fl N <> 0%Z ->
        exists canvas2,
          whiteboard_canvas fl np_sin raster line_raster circle_raster moments
            img_color outline_paths color_fills h w frame_idx N
          = Ok (if (fill_target fl color_fills frame_idx N
                    <? Z.of_nat (length color_fills))%Z
                then
                  let centre :=
                    fills_cursor fl moments
                      (firstn (Z.to_nat (fill_target fl color_fills frame_idx N))
                              color_fills)
                      (Z.of_nat w / 2, Z.of_nat h / 2)%Z in
                  draw_hand_cursor fl np_sin circle_raster canvas2
                                   (fst centre) (snd centre) frame_idx
                else canvas2))
  /\ ((forall a, - (1) <= np_sin a <= 1) ->
      (15 <= highlight_cursor_radius exact np_sin frame_idx <= 25)%Z
      /\ (14 <= hand_cursor_size exact np_sin frame_idx <= 20)%Z).
Proof.
  split; [|split; [|split; [|split]]].
  - unfold highlight_cursor_ops.
    destruct ((0 <? pixels_drawn)%Z && (pixels_drawn <? Z.of_nat total_pixels)%Z);
      [|constructor].
    destruct (nth (Z.to_nat pixels_drawn) stroke_pixels (0, 0)%nat)
      as [cursor_y cursor_x].
    repeat constructor.
  - reflexivity.
  - intros raster line_raster circle_raster moments img_color outline_paths
           color_fills h w N Hi Hne Hall.
    unfold whiteboard_canvas.
    assert (Hn : nonempty_list outline_paths = true)
      by (destruct outline_paths; [congruence|reflexivity]).
    rewrite Hn.
    replace (Z.of_nat frame_idx <? outline_frames_of fl N)%Z with true
      by (symmetry; apply Z.ltb_lt; lia).
    cbn [andb]. unfold wb_truediv.
    destruct (Qeq_bool (inject_Z (outline_frames_of fl N)) 0) eqn:K.
    { apply Qeq_bool_iff in K. unfold Qeq in K. simpl in K. lia. }
    cbn [rbind]. fold (outline_target fl outline_paths frame_idx N).
    set (target := outline_target fl outline_paths frame_idx N).
    destruct (draw_outlines line_raster outline_paths target 0 (blank h w)
                (Z.of_nat w / 2, Z.of_nat h / 2)%Z) as [canvas1 centre] eqn:D.
    assert (C : centre
                = snd (draw_outlines line_raster outline_paths target 0
                         (blank h w) (Z.of_nat w / 2, Z.of_nat h / 2)%Z))
      by (now rewrite D).
    exists canvas1, centre. split; [now destruct centre|].
    split; [|split; [|split]].
    + intros line_raster' canvas'. rewrite C. apply draw_outlines_cursor.
    + intros Ht. rewrite C. now apply draw_outlines_not_begun.
    + intros Ht. rewrite C.
      destruct (@draw_outlines_cursor_at line_raster outline_paths target Hall
                  0%Z (blank h w) (Z.of_nat w / 2, Z.of_nat h / 2)%Z)
        as (j & Hj & Ej); [lia|].
      exists j. split; [lia|exact Ej].
    + intros Ht. rewrite C, draw_outlines_complete by lia. cbn [snd].
      symmetry.
      clear -Hne. induction outline_paths as [|p ps IH]; [congruence|].
      destruct ps as [|q ps]; [reflexivity|].
      change (last (p :: q :: ps) []) with (last (q :: ps) []).
      change (map (fun p0 => last p0 (0, 0)%Z) (p :: q :: ps))
        with (last p (0, 0)%Z :: map (fun p0 => last p0 (0, 0)%Z) (q :: ps)).
      rewrite IH by discriminate. reflexivity.
  - intros raster line_raster circle_raster moments img_color outline_paths
           color_fills h w N Hi Hne Hc.
    unfold whiteboard_canvas.
    assert (Hn : nonempty_list color_fills = true)
      by (destruct color_fills; [congruence|reflexivity]).
    rewrite Hn.
    replace (Z.of_nat frame_idx <? outline_frames_of fl N)%Z with false
      by (symmetry; apply Z.ltb_ge; lia).
    replace (outline_frames_of fl N <=? Z.of_nat frame_idx)%Z with true
      by (symmetry; apply Z.leb_le; lia).
    cbn [andb]. unfold wb_truediv.
    destruct (Qeq_bool (inject_Z (color_frames_of fl N)) 0) eqn:K.
    { apply Qeq_bool_iff in K. unfold Qeq in K. simpl in K. lia. }
    cbn [rbind]. fold (fill_target fl color_fills frame_idx N).
    set (k := fill_target fl color_fills frame_idx N).
    unfold py_range.
    destruct (Z.ltb_spec k (Z.of_nat (length color_fills))) as [Hk|Hk].
    + rewrite Z.min_l by lia.
      rewrite fold_fills_prefix by lia.
      match goal with
      | |- context [fold_left ?f ?l (?c, ?cur)] =>
          assert (E := @draw_fills_cursor fl raster moments img_color l c cur);
          destruct (fold_left f l (c, cur)) as [canvas2 centre]
      end.
      cbn [snd] in E. exists canvas2. rewrite <- E. now destruct centre.
    + match goal with
      | |- context [fold_left ?f ?l ?a] =>
          destruct (fold_left f l a) as [canvas2 [cx cy]]
      end.
      now exists canvas2.
  - intros Hs. unfold highlight_cursor_radius, hand_cursor_size, exact.
    destruct (Hs (QofNat frame_idx * (3 # 10))) as [A1 B1].
    destruct (Hs (QofNat frame_idx * (2 # 10))) as [A2 B2].
    split; apply py_int_in.
    + change (inject_Z 15) with 15. lra.
    + change (inject_Z 25) with 25. lra.
    + change (inject_Z 14) with 14. lra.
    + change (inject_Z 20) with 20. lra.
Qed.

(** A path of three points in a run of four frames: at frame 0 one point
    and a half is due, and the cursor is on the second point. *)
Lemma cursor_radius_keyed_on_frame_index_witness :
  exists canvas1,
    whiteboard_canvas exact flat_sin no_raster keep_line keep_circle no_moments
      (blank 4 4) [[(1, 1); (3, 1); (3, 3)]]%Z [] 4 4 0 4
    = Ok (draw_hand_cursor exact flat_sin keep_circle canvas1 3 1 0).
Proof.
  destruct (@cursor_radius_keyed_on_frame_index exact flat_sin [] 0 0 0%Z 0%Z
              0%nat) as (_ & _ & P & _).
  destruct (P no_raster keep_line keep_circle no_moments (blank 4 4)
              [[(1, 1); (3, 1); (3, 3)]]%Z [] 4%nat 4%nat 4%nat)
    as (canvas1 & centre & E & C & _).
  - vm_compute. reflexivity.
  - discriminate.
  - repeat constructor; discriminate.
  - exists canvas1. rewrite E, (C keep_line (blank 4 4)). reflexivity.
Defined.

(** ** The final hold of the whiteboard animator *)

Section WhiteboardFacts.

Variable fl : Q -> Q.
Variable np_sin : Q -> Q.
Variable contour_raster : contour -> Z -> nat -> nat -> bool.
Variable line_raster : point -> point -> nat -> nat -> pixel -> pixel.
Variable circle_raster : circle_op -> nat -> nat -> pixel -> pixel.
Variable moments : contour -> Q * Q * Q.

Variable img_color : canvas.
Variable outline_paths : list (list point).
Variable color_fills : list contour.

(** A pixel (y, x) that no outline segment and no fill touches. *)
Variables y x : nat.
Hypothesis off_the_lines :
  forall stroke_path i p, In stroke_path outline_paths ->
    line_raster (nth i stroke_path (0, 0)%Z) (nth (i + 1) stroke_path (0, 0)%Z)
                y x p = p.
Hypothesis off_the_fills :
  forall cnt, In cnt color_fills -> contour_raster cnt (-1) y x = false.

Lemma draw_segments_keeps (n : Z) (stroke_path : list point) (c : canvas) :
  In stroke_path outline_paths ->
  px (draw_segments line_raster n stroke_path c) y x = px c y x.
Proof.
  intros Hin. unfold draw_segments.
  generalize (py_range n). intros idxs. revert c.
  induction idxs as [|i idxs IH]; intros c; simpl; [reflexivity|].
  rewrite IH. simpl. now apply off_the_lines.
Qed.

Lemma draw_all_outlines_keeps (c : canvas) :
  px (draw_all_outlines line_raster outline_paths c) y x = px c y x.
Proof.
  unfold draw_all_outlines.
  assert (G : forall paths c0, incl paths outline_paths ->
            px (fold_left
                  (fun c1 stroke_path =>
                     draw_segments line_raster (path_len stroke_path - 1)
                                   stroke_path c1) paths c0) y x
            = px c0 y x).
  { induction paths as [|sp paths IH]; intros c0 Hincl; simpl; [reflexivity|].
    rewrite IH.
    - apply draw_segments_keeps. apply Hincl. now left.
    - intros q Hq. apply Hincl. now right. }
  apply G. apply incl_refl.
Qed.

Lemma draw_fill_keeps (cnt : contour) (acc : canvas * (Z * Z)) :
  In cnt color_fills ->
  px (fst (draw_fill fl contour_raster moments img_color cnt acc)) y x
  = px (fst acc) y x.
Proof.
  intros Hin. unfold draw_fill. destruct acc as [c cursor].
  destruct (moments cnt) as [[m00 m10] m01].
  destruct (Qeq_bool m00 0); simpl; now rewrite off_the_fills.
Qed.

Lemma draw_fills_keeps (idxs : list nat) (acc : canvas * (Z * Z)) :
  Forall (fun i => (i < length color_fills)%nat) idxs ->
  px (fst (fold_left
             (fun a i => draw_fill fl contour_raster moments img_color
                                   (nth i color_fills []) a)
             idxs acc)) y x
  = px (fst acc) y x.
Proof.
  intros H. revert acc. induction H as [|i idxs Hi _ IH]; intros acc; simpl.
  - reflexivity.
  - rewrite IH. apply draw_fill_keeps. now apply nth_In.
Qed.

(** In the hold segment the fill count of pass 2 has passed the number of
    fills. *)
Lemma fills_to_draw_saturated (total : nat) (a b : Z) :
  monotone_rounding fl -> exact_on_integers fl ->
  (Z.of_nat total <= 2 ^ 53)%Z -> (0 < b)%Z -> (b <= a)%Z ->
  (Z.of_nat total
   <= py_int (fl (QofNat total * fl (inject_Z a / inject_Z b))))%Z.
Proof.
  intros M E Hb Hpos Hab.
  rewrite <- (py_int_integer (Z.of_nat total)) at 1.
  apply py_int_monotone.
  apply Qle_trans with (fl (inject_Z (Z.of_nat total)));
    [rewrite (E (Z.of_nat total)) by lia; apply Qle_refl|].
  apply M. fold (QofNat total).
  apply Qle_trans with (QofNat total * 1);
    [rewrite Qmult_1_r; apply Qle_refl|].
  rewrite (Qmult_comm (QofNat total) 1).
  rewrite (Qmult_comm (QofNat total) (fl _)).
  apply Qmult_le_compat_r; [|apply QofNat_nonneg].
  apply Qle_trans with (fl (inject_Z 1));
    [rewrite (E 1%Z) by (simpl; lia); apply Qle_refl|].
  apply M. change (inject_Z 1) with 1.
  apply Qle_shift_div_l.
  - change 0 with (inject_Z 0). now rewrite <- Zlt_Qlt.
  - rewrite Qmult_1_l. now rewrite <- Zle_Qle.
Qed.

(** With at least one fill extracted, a frame of the hold segment is built
    by pass 2, and a pixel that the outlines and fills do not touch keeps
    the white of the blank canvas. *)
Lemma hold_frame_leaves_white (h w frame_idx N : nat) :
  monotone_rounding fl -> exact_on_integers fl ->
  (Z.of_nat (length color_fills) <= 2 ^ 53)%Z ->
  color_fills <> [] ->
  (0 < color_frames_of fl N)%Z ->
  (outline_frames_of fl N + color_frames_of fl N <= Z.of_nat frame_idx)%Z ->
  exists c,
    whiteboard_canvas fl np_sin contour_raster line_raster circle_raster moments
                      img_color outline_paths color_fills h w frame_idx N = Ok c
    /\ px c y x = white.
Proof.
  intros M E Hb Hne Hcf Hhold.
  unfold whiteboard_canvas.
  assert (C1 : (Z.of_nat frame_idx <? outline_frames_of fl N)%Z = false)
    by (apply Z.ltb_ge; lia).
  assert (C2 : (outline_frames_of fl N <=? Z.of_nat frame_idx)%Z = true)
    by (apply Z.leb_le; lia).
  assert (C3 : nonempty_list color_fills = true)
    by (destruct color_fills; [congruence|reflexivity]).
  rewrite C1, C2, C3. cbn [andb].
  unfold wb_truediv.
  assert (C4 : Qeq_bool (inject_Z (color_frames_of fl N)) 0 = false).
  { destruct (Qeq_bool (inject_Z (color_frames_of fl N)) 0) eqn:K;
      [|reflexivity].
    apply Qeq_bool_iff in K. unfold Qeq in K. simpl in K. lia. }
  rewrite C4. cbn [rbind].
  set (fills_to_draw := py_int _).
  assert (Hsat : (Z.of_nat (length color_fills) <= fills_to_draw)%Z).
  { apply fills_to_draw_saturated; auto. lia. }
  replace (Z.min fills_to_draw (Z.of_nat (length color_fills)))
    with (Z.of_nat (length color_fills)) by lia.
  assert (C5 : (fills_to_draw <? Z.of_nat (length color_fills))%Z = false)
    by (apply Z.ltb_ge; lia).
  rewrite C5.
  match goal with
  | |- context [fold_left ?f ?l ?a] =>
      assert (K := @draw_fills_keeps l a); destruct (fold_left f l a) as [c2 [cx cy]]
  end.
  exists c2. split; [reflexivity|].
  simpl in K. rewrite K.
  - now rewrite draw_all_outlines_keeps.
  - unfold py_range. rewrite Nat2Z.id. apply Forall_forall.
    intros i Hi. apply in_seq in Hi. lia.
Qed.

End WhiteboardFacts.

(** C4 fails on the code.  Ten frames: five for the outlines, three for the
    fills, two of hold (frames 8 and 9).  With one fill extracted, both hold
    frames come out of the compositing branch of pass 2: their corner pixel
    is the white of the blank canvas, not the grey of the source image, and
    the last frame written to the encoder starts with 255, 255, 255 where
    the source image has 200, 200, 200. *)
Theorem hold_frames_are_composited (np_sin : Q -> Q)
  (line_raster : point -> point -> nat -> nat -> pixel -> pixel)
  (circle_raster : circle_op -> nat -> nat -> pixel -> pixel)
  (moments : contour -> Q * Q * Q) :
  outline_frames_of exact 10 = 5%Z
  /\ color_frames_of exact 10 = 3%Z
  /\ hold_frames_of exact 10 = 2%Z
  /\ (exists c,
        whiteboard_canvas exact np_sin box_raster line_raster circle_raster
          moments square_img [] [square] 12 12 8 10 = Ok c
        /\ px c 0 0 = white)
  /\ (exists c,
        whiteboard_canvas exact np_sin box_raster line_raster circle_raster
          moments square_img [] [square] 12 12 9 10 = Ok c
        /\ px c 0 0 = white)
  /\ px square_img 0 0 = (200, 200, 200)%Z
  /\ firstn 3
       (nth 9
          (stdin_frames
             (snd (create_whiteboard_animation exact flat_sin box_raster
                     keep_line keep_circle no_moments square_cfg (EncExits 0 1)
                     (WbStrokes square_img [] [square]) (Ok tt) fresh_world)))
          [])
     = [255; 255; 255]%Z
  /\ firstn 3 (tobytes (bgr2rgb square_img)) = [200; 200; 200]%Z.
Proof.
  assert (H : forall frame_idx, (8 <= Z.of_nat frame_idx)%Z ->
            exists c,
              whiteboard_canvas exact np_sin box_raster line_raster
                circle_raster moments square_img [] [square] 12 12 frame_idx 10
              = Ok c
              /\ px c 0 0 = white).
  { intros frame_idx Hf.
    apply hold_frame_leaves_white;
      try (exact exact_monotone); try (exact exact_exact_on_integers).
    - intros stroke_path i p [].
    - intros cnt [<-|[]]. reflexivity.
    - cbn. lia.
    - discriminate.
    - reflexivity.
    - exact Hf. }
  split; [reflexivity|]. split; [reflexivity|]. split; [reflexivity|].
  split; [apply H; cbn; lia|].
  split; [apply H; cbn; lia|].
  split; [reflexivity|].
  split; vm_compute; reflexivity.
Qed.

(** ** Termination of the skeletonization loop *)

Lemma inside_bounds (b : bimg) (y x : Z) :
  inside b y x = true ->
  (Z.to_nat y < brows b)%nat /\ (Z.to_nat x < bcols b)%nat.
Proof.
  unfold inside. intros H.
  apply andb_prop in H. destruct H as [H Hx2].
  apply andb_prop in H. destruct H as [H Hx1].
  apply andb_prop in H. destruct H as [Hy1 Hy2].
  apply Z.leb_le in Hy1, Hx1. apply Z.ltb_lt in Hy2, Hx2. lia.
Qed.

Lemma erode_full (b : bimg) : full b -> full (erode b).
Proof.
  intros F y x Hy Hx. unfold erode. cbn [fg].
  apply forallb_forall. intros d _. unfold sample.
  destruct (inside b _ _) eqn:I; [|reflexivity].
  apply inside_bounds in I. now apply F.
Qed.

Lemma countNonZero_full (b : bimg) :
  full b -> (0 < brows b)%nat -> (0 < bcols b)%nat -> countNonZero b <> 0%nat.
Proof.
  intros F Hr Hc. unfold countNonZero.
  destruct (brows b) as [|r] eqn:Er; [lia|].
  destruct (bcols b) as [|c] eqn:Ec; [lia|].
  unfold list_sum. cbn [seq map fold_right filter].
  rewrite F by lia. cbn [length]. lia.
Qed.

Lemma countNonZero_empty (b : bimg) : empty b -> countNonZero b = 0%nat.
Proof.
  intros E. unfold countNonZero, list_sum.
  assert (G : forall ys, Forall (fun y => (y < brows b)%nat) ys ->
            fold_right Nat.add 0%nat
              (map (fun y => length (filter (fun x => fg b y x)
                                            (seq 0 (bcols b)))) ys)
            = 0%nat).
  { induction 1 as [|y ys Hy _ IH]; [reflexivity|].
    cbn [map fold_right]. rewrite IH, Nat.add_0_r.
    assert (K : forall xs, Forall (fun x => (x < bcols b)%nat) xs ->
              filter (fun x => fg b y x) xs = []).
    { induction 1 as [|x xs Hx _ IHx]; [reflexivity|].
      cbn [filter]. now rewrite E, IHx. }
    rewrite K; [reflexivity|].
    apply Forall_forall. intros x Hx. apply in_seq in Hx. lia. }
  apply G. apply Forall_forall. intros y Hy. apply in_seq in Hy. lia.
Qed.

(** The loop never reaches its [break] on an image that is all foreground:
    with OpenCV's default border an erosion changes nothing in it. *)
Lemma skeleton_loop_diverges (fuel : nat) (binary skeleton : bimg) :
  full binary -> (0 < brows binary)%nat -> (0 < bcols binary)%nat ->
  skeleton_loop fuel binary skeleton = None.
Proof.
  revert binary skeleton.
  induction fuel as [|fuel IH]; intros binary skeleton F Hr Hc.
  - reflexivity.
  - cbn [skeleton_loop].
    assert (K : countNonZero (erode binary) <> 0%nat)
      by (apply countNonZero_full; auto using erode_full).
    apply Nat.eqb_neq in K. rewrite K.
    apply IH; auto using erode_full.
Qed.

(** C9 fails on the code.  On a non-empty image that is all foreground (a
    black input image thresholded with [THRESH_BINARY_INV]) the loop of the
    skeletonization never reaches its [break]: whatever number of iterations
    it is given, it has not returned. *)
Theorem skeletonize_all_foreground_never_returns (h w fuel : nat) :
  skeletonize fuel (all_foreground (S h) (S w)) = None.
Proof.
  unfold skeletonize.
  rewrite skeleton_loop_diverges; try reflexivity; cbn; try lia.
  intros y x _ _. reflexivity.
Qed.

(** *** When the loop does terminate *)

Lemma erode_background (b : bimg) (y x : nat) (d : Z * Z) :
  In d kernel3 ->
  inside b (Z.of_nat y + fst d) (Z.of_nat x + snd d) = true ->
  fg b (Z.to_nat (Z.of_nat y + fst d)) (Z.to_nat (Z.of_nat x + snd d)) = false ->
  fg (erode b) y x = false.
Proof.
  intros Hd Hin Hbg. unfold erode. cbn [fg].
  destruct (forallb _ kernel3) eqn:E; [|reflexivity].
  rewrite forallb_forall in E. specialize (E d Hd).
  unfold sample in E. rewrite Hin in E. congruence.
Qed.

Lemma iter_erode_shape (k : nat) (b : bimg) :
  brows (Nat.iter k erode b) = brows b /\ bcols (Nat.iter k erode b) = bcols b.
Proof.
  induction k as [|k [IH1 IH2]]; [split; reflexivity|].
  rewrite Nat.iter_succ. split; assumption.
Qed.

Lemma toward_kernel (y y0 x x0 : nat) :
  In (toward y y0, toward x x0) kernel3.
Proof.
  unfold toward, kernel3.
  destruct (y <? y0)%nat; destruct (y0 <? y)%nat;
    destruct (x <? x0)%nat; destruct (x0 <? x)%nat; simpl; tauto.
Qed.

(** After [k] erosions the background has grown to every pixel within
    distance [k] (in either coordinate) of a background pixel. *)
Lemma erosion_spreads (b : bimg) (y0 x0 : nat) :
  (y0 < brows b)%nat -> (x0 < bcols b)%nat -> fg b y0 x0 = false ->
  forall k y x,
    (y < brows b)%nat -> (x < bcols b)%nat ->
    (Z.abs (Z.of_nat y - Z.of_nat y0) <= Z.of_nat k)%Z ->
    (Z.abs (Z.of_nat x - Z.of_nat x0) <= Z.of_nat k)%Z ->
    fg (Nat.iter k erode b) y x = false.
Proof.
  intros Hy0 Hx0 Hbg.
  induction k as [|k IH]; intros y x Hy Hx Dy Dx.
  - assert (y = y0) by lia. assert (x = x0) by lia. subst. exact Hbg.
  - rewrite Nat.iter_succ.
    destruct (iter_erode_shape k b) as [Sr Sc].
    assert (Ty : (0 <= Z.of_nat y + toward y y0 < Z.of_nat (brows b))%Z
                 /\ (Z.abs (Z.of_nat y + toward y y0 - Z.of_nat y0)
                     <= Z.of_nat k)%Z).
    { unfold toward.
      destruct (y <? y0)%nat eqn:A; [apply Nat.ltb_lt in A; lia|].
      destruct (y0 <? y)%nat eqn:B; [apply Nat.ltb_lt in B; lia|].
      apply Nat.ltb_ge in A, B. lia. }
    assert (Tx : (0 <= Z.of_nat x + toward x x0 < Z.of_nat (bcols b))%Z
                 /\ (Z.abs (Z.of_nat x + toward x x0 - Z.of_nat x0)
                     <= Z.of_nat k)%Z).
    { unfold toward.
      destruct (x <? x0)%nat eqn:A; [apply Nat.ltb_lt in A; lia|].
      destruct (x0 <? x)%nat eqn:B; [apply Nat.ltb_lt in B; lia|].
      apply Nat.ltb_ge in A, B. lia. }
    apply (@erode_background _ y x (toward y y0, toward x x0)).
    + apply toward_kernel.
    + unfold inside. rewrite Sr, Sc. cbn [fst snd].
      repeat (apply andb_true_intro; split);
        first [apply Z.leb_le; lia | apply Z.ltb_lt; lia].
    + cbn [fst snd]. apply IH; rewrite ?Z2Nat.id; lia.
Qed.

Lemma iter_erode_empty (b : bimg) (y0 x0 k : nat) :
  (y0 < brows b)%nat -> (x0 < bcols b)%nat -> fg b y0 x0 = false ->
  (brows b <= k)%nat -> (bcols b <= k)%nat ->
  empty (Nat.iter k erode b).
Proof.
  intros Hy0 Hx0 Hbg Hr Hc y x Hy Hx.
  destruct (iter_erode_shape k b) as [Sr Sc]. rewrite Sr in Hy. rewrite Sc in Hx.
  apply (@erosion_spreads b y0 x0 Hy0 Hx0 Hbg); lia.
Qed.

Lemma iter_erode_shift (k : nat) (b : bimg) :
  Nat.iter k erode (erode b) = Nat.iter (S k) erode b.
Proof.
  induction k as [|k IH]; [reflexivity|].
  rewrite Nat.iter_succ, IH. now rewrite !Nat.iter_succ.
Qed.

Lemma skeleton_loop_returns (fuel : nat) :
  forall n binary skeleton,
    (1 <= n <= fuel)%nat -> empty (Nat.iter n erode binary) ->
    exists s, skeleton_loop fuel binary skeleton = Some s
              /\ brows s = brows skeleton /\ bcols s = bcols skeleton.
Proof.
  induction fuel as [|fuel IH]; intros n binary skeleton Hn He; [lia|].
  cbn [skeleton_loop].
  destruct (countNonZero (erode binary) =? 0)%nat eqn:C.
  - eexists. split; [reflexivity|]. split; reflexivity.
  - destruct n as [|[|n]]; [lia| |].
    + change (Nat.iter 1 erode binary) with (erode binary) in He.
      apply countNonZero_empty in He.
      apply Nat.eqb_neq in C. contradiction.
    + destruct (IH (S n) (erode binary)
                   (bitwise_or skeleton
                      (subtract binary (morph_open binary))))
        as (s & Es & Sr & Sc).
      * lia.
      * now rewrite iter_erode_shift.
      * exists s. split; [exact Es|]. split; assumption.
Qed.

(** On an image with at least one background pixel the loop reaches its
    [break] within max(rows, cols) iterations and the inverted skeleton has
    the shape of the input. *)
Lemma skeletonize_terminates (binary : bimg) (y0 x0 : nat) :
  (y0 < brows binary)%nat -> (x0 < bcols binary)%nat ->
  fg binary y0 x0 = false ->
  exists s,
    skeletonize (Nat.max (brows binary) (bcols binary)) binary = Some s
    /\ brows s = brows binary /\ bcols s = bcols binary.
Proof.
  intros Hy Hx Hbg. unfold skeletonize.
  destruct (@skeleton_loop_returns (Nat.max (brows binary) (bcols binary))
              (Nat.max (brows binary) (bcols binary)) binary
              (zeros (brows binary) (bcols binary)))
    as (s & Es & Sr & Sc).
  - lia.
  - apply (@iter_erode_empty binary y0 x0); auto; lia.
  - rewrite Es. cbn [option_map]. eexists. split; [reflexivity|].
    cbn. split; assumption.
Qed.

(** * Further properties of the code *)

(** ** The reveal count over a run *)

Lemma progress_nonneg (fl : Q -> Q) (i N : nat) :
  monotone_rounding fl -> exact_on_integers fl -> 0 <= progress fl i N.
Proof.
  intros M E. unfold progress.
  apply Qle_trans with (fl (inject_Z 0));
    [rewrite (E 0%Z) by (simpl; lia); apply Qle_refl|].
  apply M. change (inject_Z 0) with 0.
  unfold Qdiv. apply Qmult_le_0_compat; [apply QofNat_nonneg|].
  destruct N as [|n]; [apply Qle_refl|].
  apply Qlt_le_weak, Qinv_lt_0_compat. unfold QofNat.
  change 0 with (inject_Z 0). rewrite <- Zlt_Qlt. lia.
Qed.

Lemma reveal_count_nonneg (fl : Q -> Q) (total i N : nat) :
  monotone_rounding fl -> exact_on_integers fl ->
  (0 <= reveal_count fl total i N)%Z.
Proof.
  intros M E. unfold reveal_count.
  rewrite <- (py_int_integer 0). apply py_int_monotone.
  apply Qle_trans with (fl (inject_Z 0));
    [rewrite (E 0%Z) by (simpl; lia); apply Qle_refl|].
  apply M. change (inject_Z 0) with 0.
  apply Qmult_le_0_compat; [apply QofNat_nonneg|now apply progress_nonneg].
Qed.

Lemma progress_last (fl : Q -> Q) (N : nat) :
  monotone_rounding fl -> exact_on_integers fl -> (0 < N)%nat ->
  progress fl (N - 1) N == 1.
Proof.
  intros M E HN. unfold progress.
  rewrite (@monotone_rounding_compat fl M _ (inject_Z 1)).
  - apply E. simpl. lia.
  - replace (N - 1 + 1)%nat with N by lia.
    change (inject_Z 1) with 1. apply Qmult_inv_r.
    intros K. unfold QofNat, Qeq in K. simpl in K. lia.
Qed.

Lemma reveal_count_last (fl : Q -> Q) (total N : nat) :
  monotone_rounding fl -> exact_on_integers fl ->
  (Z.of_nat total <= 2 ^ 53)%Z -> (0 < N)%nat ->
  reveal_count fl total (N - 1) N = Z.of_nat total.
Proof.
  intros M E Hb HN. unfold reveal_count.
  rewrite <- (py_int_integer (Z.of_nat total)).
  apply py_int_compat.
  rewrite (@monotone_rounding_compat fl M _ (inject_Z (Z.of_nat total))).
  - apply E. lia.
  - rewrite progress_last by auto. apply Qmult_1_r.
Qed.

(** X1. In each animator that reveals a count of primitives, the count of
    every frame of a run lies between 0 and the size of the plan, and at the
    last frame it is the size of the plan: the last frame of the contour
    animator draws every contour, that of the colour and highlight
    animators every stroke pixel, that of the trace-based animator every
    path (and its count is never below 1). *)
Theorem last_frame_reveals_whole_plan (fl : Q -> Q) (contours : list contour)
  (paths : list string) (total_pixels N : nat) :
  monotone_rounding fl -> exact_on_integers fl ->
  (Z.of_nat (length contours) <= 2 ^ 53)%Z ->
  (Z.of_nat (length paths) <= 2 ^ 53)%Z ->
  (Z.of_nat total_pixels <= 2 ^ 53)%Z ->
  (0 < N)%nat ->
  (forall i, (i < N)%nat ->
     (0 <= contours_to_draw fl contours i N <= Z.of_nat (length contours))%Z
     /\ (0 <= pixels_to_draw fl total_pixels i N <= Z.of_nat total_pixels)%Z
     /\ (1 <= paths_to_draw fl paths i N
         <= Z.max 1 (Z.of_nat (length paths)))%Z)
  /\ contours_to_draw fl contours (N - 1) N = Z.of_nat (length contours)
  /\ pixels_to_draw fl total_pixels (N - 1) N = Z.of_nat total_pixels
  /\ paths_to_draw fl paths (N - 1) N = Z.max 1 (Z.of_nat (length paths)).
Proof.
  intros M E Hc Hp Ht HN.
  unfold contours_to_draw, pixels_to_draw, paths_to_draw.
  split; [|split; [|split]].
  - intros i Hi.
    assert (A := @reveal_count_nonneg fl (length contours) i N M E).
    assert (B := @reveal_count_le_total fl (length contours) i N M E Hc Hi).
    assert (A2 := @reveal_count_nonneg fl total_pixels i N M E).
    assert (B2 := @reveal_count_le_total fl total_pixels i N M E Ht Hi).
    assert (B3 := @reveal_count_le_total fl (length paths) i N M E Hp Hi).
    lia.
  - now apply reveal_count_last.
  - now apply reveal_count_last.
  - now rewrite reveal_count_last.
Qed.

Lemma last_frame_reveals_whole_plan_witness :
  contours_to_draw exact [[(0, 0)]; [(1, 1)]; [(2, 2)]]%Z (7 - 1) 7 = 3%Z.
Proof.
  apply (@last_frame_reveals_whole_plan exact [[(0, 0)]; [(1, 1)]; [(2, 2)]]%Z
           ["M0 0"%string] 5 7 exact_monotone exact_exact_on_integers);
    cbn; lia.
Defined.

(** ** The order of the contours *)

Lemma insert_desc_perm {A} (key : A -> Q) (a : A) (xs : list A) :
  Permutation (a :: xs) (insert_desc key a xs).
Proof.
  induction xs as [|b xs IH]; simpl; [apply Permutation_refl|].
  destruct (Qle_bool (key b) (key a)); [apply Permutation_refl|].
  eapply perm_trans; [apply perm_swap|]. now apply perm_skip.
Qed.

Lemma sorted_reverse_perm {A} (key : A -> Q) (xs : list A) :
  Permutation xs (sorted_reverse key xs).
Proof.
  unfold sorted_reverse.
  induction xs as [|x xs IH]; simpl; [apply Permutation_refl|].
  eapply perm_trans; [|apply insert_desc_perm]. now apply perm_skip.
Qed.

Lemma insert_desc_sorted {A} (key : A -> Q) (a : A) (xs : list A) :
  StronglySorted (fun u v => key v <= key u) xs ->
  StronglySorted (fun u v => key v <= key u) (insert_desc key a xs).
Proof.
  induction 1 as [|b xs Hs IH Hb]; simpl.
  - constructor; constructor.
  - destruct (Qle_bool (key b) (key a)) eqn:E.
    + apply Qle_bool_iff in E.
      constructor; [now constructor|].
      constructor; [exact E|].
      rewrite Forall_forall in Hb |- *. intros c Hc.
      eapply Qle_trans; [apply Hb; exact Hc|exact E].
    + constructor; [exact IH|].
      assert (Hab : key a <= key b).
      { destruct (Qlt_le_dec (key a) (key b)) as [L|G].
        - now apply Qlt_le_weak.
        - apply Qle_bool_iff in G. congruence. }
      rewrite Forall_forall in Hb |- *. intros c Hc.
      apply (Permutation_in _ (Permutation_sym (insert_desc_perm key a xs))) in Hc.
      destruct Hc as [<-|Hc]; auto.
Qed.

Lemma filter_insert_desc {A} (key : A -> Q) (c : Q) (a : A) (xs : list A) :
  StronglySorted (fun u v => key v <= key u) xs ->
  filter (fun u => Qeq_bool (key u) c) (insert_desc key a xs)
  = filter (fun u => Qeq_bool (key u) c) (a :: xs).
Proof.
  induction 1 as [|b xs Hs IH Hb]; [reflexivity|].
  cbn [insert_desc].
  destruct (Qle_bool (key b) (key a)) eqn:E; [reflexivity|].
  cbn [filter] in *. rewrite IH.
  destruct (Qeq_bool (key a) c) eqn:Ea; [|reflexivity].
  destruct (Qeq_bool (key b) c) eqn:Eb; [|reflexivity].
  apply Qeq_bool_iff in Ea, Eb.
  assert (K : key b <= key a) by (rewrite Ea, Eb; apply Qle_refl).
  apply Qle_bool_iff in K. congruence.
Qed.

Lemma sorted_reverse_sorted {A} (key : A -> Q) (xs : list A) :
  StronglySorted (fun u v => key v <= key u) (sorted_reverse key xs).
Proof.
  unfold sorted_reverse. induction xs as [|x xs IH]; simpl.
  - constructor.
  - now apply insert_desc_sorted.
Qed.

(** X2. [extract_contours] hands the frame loop exactly the contours that
    were found, each as often as it was found, ordered by non-increasing
    area; contours of equal area keep the order in which they were found. *)
Theorem extract_contours_sorted_stable (contourArea : contour -> Q)
  (found : list contour) (area : Q) :
  Permutation found (extract_contours contourArea found)
  /\ StronglySorted (fun u v => contourArea v <= contourArea u)
                    (extract_contours contourArea found)
  /\ filter (fun u => Qeq_bool (contourArea u) area)
            (extract_contours contourArea found)
     = filter (fun u => Qeq_bool (contourArea u) area) found.
Proof.
  unfold extract_contours. split; [|split].
  - apply sorted_reverse_perm.
  - apply sorted_reverse_sorted.
  - unfold sorted_reverse. induction found as [|x xs IH]; [reflexivity|].
    cbn [fold_right]. rewrite filter_insert_desc.
    + cbn [filter]. now rewrite IH.
    + apply sorted_reverse_sorted.
Qed.

(** ** The last frame of the colour animator *)

Lemma is_revealed_in (l : list (nat * nat)) (y x : nat) :
  is_revealed l y x = true <-> In (y, x) l.
Proof.
  unfold is_revealed. rewrite existsb_exists. split.
  - intros ([a b] & Hin & H). cbn in H.
    apply andb_prop in H. destruct H as [H1 H2].
    apply Nat.eqb_eq in H1, H2. now subst.
  - intros H. exists (y, x). split; [exact H|].
    cbn. now rewrite !Nat.eqb_refl.
Qed.

Lemma is_revealed_perm (l l' : list (nat * nat)) (y x : nat) :
  Permutation l l' -> is_revealed l y x = is_revealed l' y x.
Proof.
  intros P.
  destruct (is_revealed l y x) eqn:A; destruct (is_revealed l' y x) eqn:B; auto.
  - apply is_revealed_in in A. apply (Permutation_in _ P) in A.
    apply is_revealed_in in A. congruence.
  - apply is_revealed_in in B. apply (Permutation_in _ (Permutation_sym P)) in B.
    apply is_revealed_in in B. congruence.
Qed.

Lemma np_where_in (mask : nat -> nat -> bool) (h w y x : nat) :
  In (y, x) (np_where mask h w)
  <-> (y < h)%nat /\ (x < w)%nat /\ mask y x = true.
Proof.
  unfold np_where. rewrite in_flat_map. split.
  - intros (y' & Hy & H). apply in_flat_map in H.
    destruct H as (x' & Hx & H).
    apply in_seq in Hy, Hx.
    destruct (mask y' x') eqn:Em; [|contradiction].
    destruct H as [H|[]]. inversion H; subst. repeat split; auto; lia.
  - intros (Hy & Hx & Hm). exists y. split; [apply in_seq; lia|].
    apply in_flat_map. exists x. split; [apply in_seq; lia|].
    rewrite Hm. now left.
Qed.

(** X3. In the colour animator, with an image of the frame's size, numpy's
    [argsort] returning a permutation of the indices and [randn(n)]
    returning n numbers, the plan
    is a permutation of the stroke pixels, and the last frame of a run, when
    its index is not a positive multiple of 10 (no blur), shows the image
    colour (channels swapped to RGB) at every stroke pixel and white
    everywhere else; the stroke pixels are the set pixels of the mask, or
    every pixel when the mask is empty. *)
Theorem colour_last_frame_shows_every_stroke_pixel (fl : Q -> Q) (rng : Type)
  (seed : Z -> rng) (randn : nat -> rng -> list Q * rng)
  (argsort : list Q -> list nat) (blur : canvas -> canvas) (img_color : canvas)
  (mask : nat -> nat -> bool) (h w N : nat) (g : rng) (y x : nat) :
  monotone_rounding fl -> exact_on_integers fl ->
  shape img_color = (h, w) ->
  (forall scores, Permutation (argsort scores) (seq 0 (length scores))) ->
  (forall n s, length (fst (randn n s)) = n) ->
  (Z.of_nat (length (stroke_pixels_of mask h w)) <= 2 ^ 53)%Z ->
  (0 < N)%nat ->
  ((0 <? N - 1)%nat && ((N - 1) mod 10 =? 0)%nat) = false ->
  (y < h)%nat -> (x < w)%nat ->
  Permutation (stroke_pixels_of mask h w)
              (fst (color_drawing_plan fl seed randn argsort mask h w g))
  /\ px (color_canvas fl blur img_color
           (fst (color_drawing_plan fl seed randn argsort mask h w g))
           (length (stroke_pixels_of mask h w)) h w (N - 1) N) y x
     = (let '(b, g0, r) :=
          if (length (np_where mask h w) =? 0)%nat || mask y x
          then px img_color y x else white in
        (r, g0, b)).
Proof.
  intros M E _ Hsort Hlen Hb HN Hblur Hy Hx.
  assert (P := @natural_order_perm fl rng seed randn argsort (6 # 10) (4 # 10) 20
                 (stroke_pixels_of mask h w) g Hsort Hlen).
  fold (color_drawing_plan fl seed randn argsort mask h w g) in P.
  split; [exact P|].
  set (plan := fst (color_drawing_plan fl seed randn argsort mask h w g)) in *.
  unfold color_canvas, pixels_to_draw.
  rewrite reveal_count_last by auto. rewrite Hblur.
  assert (Hne : stroke_pixels_of mask h w <> [])
    by (apply stroke_pixels_nonempty; lia).
  assert (Hpos : (0 <? Z.of_nat (length (stroke_pixels_of mask h w)))%Z = true).
  { apply Z.ltb_lt. destruct (stroke_pixels_of mask h w); [congruence|].
    cbn [length]. lia. }
  rewrite Hpos. unfold py_prefix.
  assert (Hneg : (Z.of_nat (length (stroke_pixels_of mask h w)) <? 0)%Z = false)
    by (apply Z.ltb_ge; lia).
  rewrite Hneg, Nat2Z.id.
  rewrite (Permutation_length P), firstn_all.
  unfold bgr2rgb, reveal_pixels, paint, blank. cbn [px].
  rewrite <- (is_revealed_perm y x P).
  assert (R : is_revealed (stroke_pixels_of mask h w) y x
              = (length (np_where mask h w) =? 0)%nat || mask y x).
  { unfold stroke_pixels_of.
    destruct (length (np_where mask h w) =? 0)%nat eqn:E0; cbn [orb].
    - apply is_revealed_in. now apply np_where_all_in.
    - destruct (mask y x) eqn:Em.
      + apply is_revealed_in. apply np_where_in. auto.
      + destruct (is_revealed (np_where mask h w) y x) eqn:R; [|reflexivity].
        apply is_revealed_in, np_where_in in R. destruct R as (_ & _ & R).
        congruence. }
  rewrite R. reflexivity.
Qed.

Lemma colour_last_frame_shows_every_stroke_pixel_witness :
  px (color_canvas exact (fun c => c) (blank 2 2)
        (fst (color_drawing_plan exact (fun s => Z.to_nat s) counter_randn
                (fun scores => seq 0 (length scores)) (fun y x => (y =? x)%nat)
                2 2 0%nat))
        (length (stroke_pixels_of (fun y x => (y =? x)%nat) 2 2)) 2 2 (4 - 1) 4)
     1 1
  = (let '(b, g0, r) :=
       if (length (np_where (fun y x => (y =? x)%nat) 2 2) =? 0)%nat
          || (1 =? 1)%nat
       then px (blank 2 2) 1 1 else white in
     (r, g0, b)).
Proof.
  apply (@colour_last_frame_shows_every_stroke_pixel exact nat
           (fun s => Z.to_nat s) counter_randn
           (fun scores => seq 0 (length scores)) (fun c => c) (blank 2 2)
           (fun y x => (y =? x)%nat) 2 2 4 0%nat 1 1
           exact_monotone exact_exact_on_integers eq_refl).
  - intros scores. apply Permutation_refl.
  - intros n s. unfold counter_randn. cbn [fst].
    rewrite length_map. apply length_seq.
  - cbn. lia.
  - lia.
  - reflexivity.
  - lia.
  - lia.
Defined.

(** ** Frames of the whiteboard animator *)

Lemma for_each_app {A} (xs ys : list A) (body : A -> M unit) (w : world) :
  for_each (xs ++ ys) body w
  = match for_each xs body w with
    | (Ok _, w') => for_each ys body w'
    | (Raise e, w') => (Raise e, w')
    end.
Proof.
  revert w. induction xs as [|x xs IH]; intros w; [reflexivity|].
  cbn [app for_each]. unfold bind.
  destruct (body x w) as [[u|e] w1]; [apply IH|reflexivity].
Qed.

Section WhiteboardFrames.

Variable fl : Q -> Q.
Variable np_sin : Q -> Q.
Variable contour_raster : contour -> Z -> nat -> nat -> bool.
Variable line_raster : point -> point -> nat -> nat -> pixel -> pixel.
Variable circle_raster : circle_op -> nat -> nat -> pixel -> pixel.
Variable moments : contour -> Q * Q * Q.

Variable img_color : canvas.
Variable outline_paths : list (list point).
Variable color_fills : list contour.
Variables h w N : nat.

Hypothesis img_shape : shape img_color = (h, w).

Lemma draw_hand_cursor_shape (c : canvas) (x y : Z) (i : nat) :
  shape (draw_hand_cursor fl np_sin circle_raster c x y i) = shape c.
Proof. reflexivity. Qed.

Lemma draw_segments_shape (n : Z) (stroke_path : list point) (c : canvas) :
  shape (draw_segments line_raster n stroke_path c) = shape c.
Proof.
  unfold draw_segments. generalize (py_range n). intros idxs. revert c.
  induction idxs as [|i idxs IH]; intros c; [reflexivity|].
  cbn [fold_left]. now rewrite IH.
Qed.

Lemma draw_outlines_shape (paths : list (list point)) (target drawn : Z)
  (c : canvas) (cursor : Z * Z) :
  shape (fst (draw_outlines line_raster paths target drawn c cursor)) = shape c.
Proof.
  revert drawn c cursor.
  induction paths as [|sp paths IH]; intros drawn c cursor; [reflexivity|].
  cbn [draw_outlines].
  destruct (drawn + path_len sp <=? target)%Z.
  - rewrite IH. apply draw_segments_shape.
  - destruct (drawn <? target)%Z; [apply draw_segments_shape|reflexivity].
Qed.

Lemma draw_all_outlines_shape (paths : list (list point)) (c : canvas) :
  shape (draw_all_outlines line_raster paths c) = shape c.
Proof.
  unfold draw_all_outlines. revert c.
  induction paths as [|sp paths IH]; intros c; [reflexivity|].
  cbn [fold_left]. rewrite IH. apply draw_segments_shape.
Qed.

Lemma draw_fills_shape (idxs : list nat) (acc : canvas * (Z * Z)) :
  shape (fst (fold_left
                (fun a i => draw_fill fl contour_raster moments img_color
                                      (nth i color_fills []) a)
                idxs acc))
  = shape (fst acc).
Proof.
  revert acc. induction idxs as [|i idxs IH]; intros acc; [reflexivity|].
  cbn [fold_left]. rewrite IH.
  unfold draw_fill. destruct acc as [c cursor].
  destruct (moments (nth i color_fills [])) as [[m00 m10] m01].
  destruct (Qeq_bool m00 0); reflexivity.
Qed.

(** A frame renders, with the shape of the configuration, as soon as pass 2
    has a frame to itself or there is nothing to fill. *)
Lemma whiteboard_canvas_ok (frame_idx : nat) :
  color_fills = [] \/ color_frames_of fl N <> 0%Z ->
  exists c,
    whiteboard_canvas fl np_sin contour_raster line_raster circle_raster moments
                      img_color outline_paths color_fills h w frame_idx N = Ok c
    /\ shape c = (h, w).
Proof.
  intros Hc. unfold whiteboard_canvas.
  destruct ((Z.of_nat frame_idx <? outline_frames_of fl N)%Z
            && nonempty_list outline_paths) eqn:P1.
  - apply andb_prop in P1. destruct P1 as [P1 _]. apply Z.ltb_lt in P1.
    unfold wb_truediv.
    destruct (Qeq_bool (inject_Z (outline_frames_of fl N)) 0) eqn:K.
    { apply Qeq_bool_iff in K. unfold Qeq in K. simpl in K. lia. }
    cbn [rbind].
    match goal with
    | |- context [draw_outlines ?l ?p ?t ?d ?c ?cur] =>
        assert (S := @draw_outlines_shape p t d c cur);
        destruct (draw_outlines l p t d c cur) as [c1 [cx cy]]
    end.
    eexists. split; [reflexivity|].
    rewrite draw_hand_cursor_shape. exact S.
  - destruct ((outline_frames_of fl N <=? Z.of_nat frame_idx)%Z
              && nonempty_list color_fills) eqn:P2.
    + apply andb_prop in P2. destruct P2 as [_ P2].
      destruct Hc as [Hc|Hc]; [rewrite Hc in P2; discriminate|].
      unfold wb_truediv.
      destruct (Qeq_bool (inject_Z (color_frames_of fl N)) 0) eqn:K.
      { apply Qeq_bool_iff in K. unfold Qeq in K. simpl in K. lia. }
      cbn [rbind].
      match goal with
      | |- context [fold_left ?f ?l ?a] =>
          assert (S := @draw_fills_shape l a);
          destruct (fold_left f l a) as [c2 [cx cy]]
      end.
      cbn [fst] in S. rewrite draw_all_outlines_shape in S.
      match goal with
      | |- context [if ?b then Ok _ else Ok _] => destruct b
      end; eexists; (split; [reflexivity|]).
      * rewrite draw_hand_cursor_shape. exact S.
      * exact S.
    + exists img_color. split; [reflexivity|exact img_shape].
Qed.

(** A frame of pass 2 raises when pass 2 was given no frame at all. *)
Lemma whiteboard_canvas_zero_division (frame_idx : nat) :
  color_fills <> [] -> color_frames_of fl N = 0%Z ->
  (outline_frames_of fl N <= Z.of_nat frame_idx)%Z ->
  whiteboard_canvas fl np_sin contour_raster line_raster circle_raster moments
                    img_color outline_paths color_fills h w frame_idx N
  = Raise ZeroDivisionError.
Proof.
  intros Hne Hc Ho. unfold whiteboard_canvas.
  assert (P1 : (Z.of_nat frame_idx <? outline_frames_of fl N)%Z = false)
    by (apply Z.ltb_ge; lia).
  assert (P2 : (outline_frames_of fl N <=? Z.of_nat frame_idx)%Z = true)
    by (apply Z.leb_le; lia).
  assert (P3 : nonempty_list color_fills = true)
    by (destruct color_fills; [congruence|reflexivity]).
  rewrite P1, P2, P3, Hc. reflexivity.
Qed.

Variable cfg : config.
Hypothesis cfg_dims : height cfg = h /\ width cfg = w.
Hypothesis cfg_frames : total_frames_of fl (fps cfg) (duration cfg) = N.
Hypothesis some_strokes : strokes_missing outline_paths color_fills = false.

Let wb_bytes (i : nat) : list Z :=
  match whiteboard_canvas fl np_sin contour_raster line_raster circle_raster
          moments img_color outline_paths color_fills h w i N with
  | Ok c => tobytes (bgr2rgb c)
  | Raise _ => []
  end.

Let wb_body (enc : encoder) (frame_idx : nat) : M unit :=
  canvas0 <- lift (whiteboard_canvas fl np_sin contour_raster line_raster
                     circle_raster moments img_color outline_paths color_fills
                     h w frame_idx N) ;;
  stdin_write enc (tobytes (bgr2rgb canvas0)).

Lemma wb_body_ok (enc : encoder) (i : nat) (w0 : world) :
  (exists c,
      whiteboard_canvas fl np_sin contour_raster line_raster circle_raster
        moments img_color outline_paths color_fills h w i N = Ok c) ->
  wb_body enc i w0 = stdin_write enc (wb_bytes i) w0.
Proof.
  intros [c E]. unfold wb_body, wb_bytes, bind, lift. now rewrite E.
Qed.

Lemma whiteboard_run_frames (enc : encoder) (save_outputs : res unit) :
  color_fills = [] \/ color_frames_of fl N <> 0%Z ->
  takes enc N ->
  stdin_frames
    (snd (create_whiteboard_animation fl np_sin contour_raster line_raster
            circle_raster moments cfg enc
            (WbStrokes img_color outline_paths color_fills) save_outputs
            fresh_world))
  = map wb_bytes (seq 0 N).
Proof.
  intros Hc Ht.
  unfold create_whiteboard_animation, try_finally, try_except.
  rewrite some_strokes, cfg_frames.
  destruct cfg_dims as [Dh Dw]. rewrite Dh, Dw.
  unfold bind at 1. start_encoder. unfold bind at 1.
  rewrite (@for_each_streams nat enc wb_bytes (seq 0 N)).
  - destruct enc as [code secs|after code| |e]; finish_run.
    + destruct (secs <=? 60)%nat; cbn; [|reflexivity].
      destruct (code =? 0)%Z; cbn; [|reflexivity].
      destruct save_outputs; reflexivity.
    + either_close; [reflexivity|].
      destruct (code =? 0)%Z; cbn; [|reflexivity].
      destruct save_outputs; reflexivity.
    + reflexivity.
    + contradiction.
  - intros i w0 _. apply wb_body_ok.
    destruct (@whiteboard_canvas_ok i Hc) as (c & E & _). now exists c.
  - reflexivity.
  - cbn. now rewrite length_seq.
Qed.

Lemma whiteboard_run_zero_division (enc : encoder) (save_outputs : res unit) :
  color_fills <> [] -> color_frames_of fl N = 0%Z ->
  (Z.to_nat (outline_frames_of fl N) < N)%nat ->
  takes enc (Z.to_nat (outline_frames_of fl N)) ->
  create_whiteboard_animation fl np_sin contour_raster line_raster
    circle_raster moments cfg enc
    (WbStrokes img_color outline_paths color_fills) save_outputs fresh_world
  = (Ok false,
     mkWorld Running (map wb_bytes (seq 0 (Z.to_nat (outline_frames_of fl N))))
             false false no_cache
             [ErrAnimation ZeroDivisionError; InfoCleanedUp]).
Proof.
  intros Hne Hc Hk Ht.
  set (k := Z.to_nat (outline_frames_of fl N)) in *.
  unfold create_whiteboard_animation, try_finally, try_except.
  rewrite some_strokes, cfg_frames.
  destruct cfg_dims as [Dh Dw]. rewrite Dh, Dw.
  unfold bind at 1. start_encoder. unfold bind at 1.
  replace N with (k + (N - k))%nat at 1 by lia.
  rewrite seq_app, for_each_app.
  rewrite (@for_each_streams nat enc wb_bytes (seq 0 k)).
  - destruct (N - k)%nat as [|m] eqn:Em; [lia|].
    cbn [seq for_each]. unfold bind at 1. unfold bind at 1, lift at 1.
    rewrite whiteboard_canvas_zero_division by (auto; unfold k; lia).
    finish_run. reflexivity.
  - intros i w0 Hi. apply in_seq in Hi. apply wb_body_ok.
    unfold whiteboard_canvas.
    assert (P1 : (Z.of_nat i <? outline_frames_of fl N)%Z = true)
      by (apply Z.ltb_lt; unfold k in Hi; lia).
    assert (P2 : (outline_frames_of fl N <=? Z.of_nat i)%Z = false)
      by (apply Z.leb_gt; unfold k in Hi; lia).
    rewrite P1, P2. cbn [andb].
    destruct (nonempty_list outline_paths); [|now exists img_color].
    unfold wb_truediv.
    destruct (Qeq_bool (inject_Z (outline_frames_of fl N)) 0) eqn:K.
    { apply Qeq_bool_iff in K. unfold Qeq in K. simpl in K.
      unfold k in Hi. lia. }
    cbn [rbind].
    match goal with
    | |- context [draw_outlines ?l ?p ?t ?d ?c ?cur] =>
        destruct (draw_outlines l p t d c cur) as [c1 [cx cy]]
    end.
    eexists. reflexivity.
  - reflexivity.
  - cbn. now rewrite length_seq.
Qed.

End WhiteboardFrames.

Lemma py_int_nonneg_fraction (n : Z) (d : positive) :
  (0 <= n)%Z -> py_int (n # d) = (n / Z.pos d)%Z.
Proof.
  intros Hn. unfold py_int.
  assert (H0 : 0 <= n # d) by (unfold Qle; simpl; lia).
  apply Qle_bool_iff in H0. rewrite H0. reflexivity.
Qed.

(** With exact arithmetic: half of the frames for the outlines, 35% for the
    fills, both rounded down. *)
Lemma whiteboard_segments_exact (N : nat) :
  outline_frames_of exact N = (Z.of_nat N / 2)%Z
  /\ color_frames_of exact N = (Z.of_nat N * 35 / 100)%Z.
Proof.
  unfold outline_frames_of, color_frames_of, exact, QofNat. split.
  - rewrite (@py_int_compat _ (Z.of_nat N # 2)).
    + apply py_int_nonneg_fraction. lia.
    + unfold Qeq. simpl. lia.
  - rewrite (@py_int_compat _ ((Z.of_nat N * 35) # 100)).
    + apply py_int_nonneg_fraction. lia.
    + unfold Qeq. simpl. lia.
Qed.

(** X4. A run of the whiteboard animator whose encoder keeps reading writes
    exactly N frames of height * width * 3 bytes, provided the enhanced
    image has the configured shape, no outline path is empty (the extraction
    keeps paths of three points or more) and either nothing was extracted to fill
    or pass 2 was given at least one frame ([color_frames] is not 0; with
    exact arithmetic: N >= 3). *)
Theorem whiteboard_writes_every_frame (fl np_sin : Q -> Q)
  (contour_raster : contour -> Z -> nat -> nat -> bool)
  (line_raster : point -> point -> nat -> nat -> pixel -> pixel)
  (circle_raster : circle_op -> nat -> nat -> pixel -> pixel)
  (moments : contour -> Q * Q * Q) (img_color : canvas)
  (outline_paths : list (list point)) (color_fills : list contour)
  (cfg : config) (enc : encoder) (save_outputs : res unit) (N : nat) :
  shape img_color = (height cfg, width cfg) ->
  Forall (fun path : list point => path <> []) outline_paths ->
  total_frames_of fl (fps cfg) (duration cfg) = N ->
  strokes_missing outline_paths color_fills = false ->
  color_fills = [] \/ color_frames_of fl N <> 0%Z ->
  takes enc N ->
  holds_frames N (height cfg) (width cfg)
    (stdin_frames
       (snd (create_whiteboard_animation fl np_sin contour_raster line_raster
               circle_raster moments cfg enc
               (WbStrokes img_color outline_paths color_fills) save_outputs
               fresh_world)))
  /\ (forall n, (3 <= n)%nat -> color_frames_of exact n <> 0%Z).
Proof.
  intros Hs _ HN Hm Hc Ht. split.
  - rewrite (@whiteboard_run_frames fl np_sin contour_raster line_raster
               circle_raster moments img_color outline_paths color_fills
               (height cfg) (width cfg) N Hs cfg (conj eq_refl eq_refl) HN Hm
               enc save_outputs Hc Ht).
    apply holds_frames_seq. intros i _.
    destruct (@whiteboard_canvas_ok fl np_sin contour_raster line_raster
                circle_raster moments img_color outline_paths color_fills
                (height cfg) (width cfg) N Hs i Hc) as (c & E & S).
    rewrite E. apply shape_bytes. now rewrite bgr2rgb_shape.
  - intros n Hn. destruct (whiteboard_segments_exact n) as [_ ->].
    intros K.
    assert (Z.of_nat n * 35 < 100)%Z.
    { apply Z.div_small_iff in K; lia. }
    lia.
Qed.

Lemma whiteboard_writes_every_frame_witness :
  holds_frames 10 12 12
    (stdin_frames
       (snd (create_whiteboard_animation exact flat_sin box_raster keep_line
               keep_circle no_moments square_cfg (EncExits 0 1)
               (WbStrokes square_img [] [square]) (Ok tt) fresh_world))).
Proof.
  apply (@whiteboard_writes_every_frame exact flat_sin box_raster keep_line
           keep_circle no_moments square_img [] [square] square_cfg
           (EncExits 0 1) (Ok tt) 10).
  - reflexivity.
  - constructor.
  - reflexivity.
  - reflexivity.
  - right. discriminate.
  - exact I.
Defined.

(** X5. When pass 2 of the whiteboard animator is given no frame
    ([color_frames] is 0; with exact arithmetic: a run of one or two frames)
    and at least one fill was extracted (no outline path being empty), the
    frame loop divides by zero at
    the first frame that follows the outline frames: the run has written
    only the outline frames, logs the error and returns [False], and the
    encoder it spawned is left running with its input still open. *)
Theorem whiteboard_short_run_divides_by_zero (fl np_sin : Q -> Q)
  (contour_raster : contour -> Z -> nat -> nat -> bool)
  (line_raster : point -> point -> nat -> nat -> pixel -> pixel)
  (circle_raster : circle_op -> nat -> nat -> pixel -> pixel)
  (moments : contour -> Q * Q * Q) (img_color : canvas)
  (outline_paths : list (list point)) (color_fills : list contour)
  (cfg : config) (enc : encoder) (save_outputs : res unit) (N : nat) :
  total_frames_of fl (fps cfg) (duration cfg) = N ->
  Forall (fun path : list point => path <> []) outline_paths ->
  color_fills <> [] -> color_frames_of fl N = 0%Z ->
  (Z.to_nat (outline_frames_of fl N) < N)%nat ->
  takes enc (Z.to_nat (outline_frames_of fl N)) ->
  (exists frames,
      length frames = Z.to_nat (outline_frames_of fl N)
      /\ create_whiteboard_animation fl np_sin contour_raster line_raster
           circle_raster moments cfg enc
           (WbStrokes img_color outline_paths color_fills) save_outputs
           fresh_world
         = (Ok false,
            mkWorld Running frames false false no_cache
                    [ErrAnimation ZeroDivisionError; InfoCleanedUp]))
  /\ (forall n, (1 <= n <= 2)%nat ->
        color_frames_of exact n = 0%Z
        /\ (Z.to_nat (outline_frames_of exact n) < n)%nat).
Proof.
  intros HN _ Hne Hc Hk Ht. split.
  - eexists. split.
    2:{ apply (@whiteboard_run_zero_division fl np_sin contour_raster
                 line_raster circle_raster moments img_color outline_paths
                 color_fills (height cfg) (width cfg) N cfg
                 (conj eq_refl eq_refl) HN); auto.
        unfold strokes_missing.
        destruct color_fills; [congruence|].
        cbn. now rewrite andb_false_r. }
    rewrite length_map. apply length_seq.
  - intros n Hn. destruct (whiteboard_segments_exact n) as [-> ->].
    assert (n = 1 \/ n = 2)%nat as [->| ->] by lia; cbn; lia.
Qed.

Lemma whiteboard_short_run_divides_by_zero_witness :
  exists frames,
    length frames = Z.to_nat (outline_frames_of exact 2)
    /\ create_whiteboard_animation exact flat_sin box_raster keep_line
         keep_circle no_moments short_square_cfg EncHangs
         (WbStrokes square_img [] [square]) (Ok tt) fresh_world
       = (Ok false,
          mkWorld Running frames false false no_cache
                  [ErrAnimation ZeroDivisionError; InfoCleanedUp]).
Proof.
  apply (@whiteboard_short_run_divides_by_zero exact flat_sin box_raster
           keep_line keep_circle no_moments square_img [] [square]
           short_square_cfg EncHangs (Ok tt) 2).
  - reflexivity.
  - constructor.
  - discriminate.
  - reflexivity.
  - cbn. lia.
  - exact I.
Defined.

(** ** Failures before the encoder is spawned *)

Lemma cleanup_same_pipe (w : world) :
  proc (cleanup w) = proc w /\ stdin_frames (cleanup w) = stdin_frames w.
Proof. unfold cleanup. destruct (temp_dir_exists w); split; reflexivity. Qed.

Lemma aborted_by_cleanup (w w' : world) :
  proc w' = proc w -> stdin_frames w' = stdin_frames w ->
  aborted_before_spawn (Ok false, cleanup w') w.
Proof.
  intros Hp Hf. destruct (cleanup_same_pipe w') as [A B].
  repeat split; cbn [fst snd]; try congruence. apply cleanup_removes.
Qed.

(** X6. A failure of the normalizer or of the extractor ends the run before
    any encoder is spawned: the run returns [False], no process exists, no
    frame is written, and the temporary directory is removed.  Contour
    animator ([preprocess_image] failed, or the cleaned image could not be
    read), colour animator (image not loaded), whiteboard animator (image
    unreadable, extraction raised, or nothing extracted) and [process] of
    the trace-based animator (a dependency is missing, or preprocessing,
    the PBM conversion or Potrace failed, or the SVG has no path). *)
Theorem early_failure_spawns_no_encoder (fl : Q -> Q) (cfg : config)
  (enc : encoder) (w : world) :
  (forall raster area found copy_outputs,
      aborted_before_spawn
        (create_animation fl raster area cfg enc false found copy_outputs w) w)
  /\ (forall raster area copy_outputs,
      aborted_before_spawn
        (create_animation fl raster area cfg enc true None copy_outputs w) w)
  /\ (forall (rng : Type) seed randn argsort blur (g : rng) save_outputs,
      aborted_before_spawn
        (create_color_animation fl seed randn argsort blur cfg enc None g
                                save_outputs w) w)
  /\ (forall np_sin raster line_raster circle_raster moments extracted
             save_outputs,
      match extracted with
      | WbStrokes _ outline_paths color_fills =>
          strokes_missing outline_paths color_fills = true
      | _ => True
      end ->
      aborted_before_spawn
        (create_whiteboard_animation fl np_sin raster line_raster
           circle_raster moments cfg enc extracted save_outputs w) w)
  /\ (forall env deps_ok preprocess_ok pbm_ok potrace_ok copy_outputs,
      deps_ok && preprocess_ok && pbm_ok && potrace_ok = false
      \/ parse_svg_paths env = [] ->
      aborted_before_spawn
        (process fl env cfg enc deps_ok preprocess_ok pbm_ok potrace_ok
                 copy_outputs w) w).
Proof.
  split; [|split; [|split; [|split]]].
  - intros. now apply aborted_by_cleanup.
  - intros. now apply aborted_by_cleanup.
  - intros. now apply aborted_by_cleanup.
  - intros np_sin raster line_raster circle_raster moments extracted
           save_outputs H.
    unfold create_whiteboard_animation.
    destruct extracted as [img outline_paths color_fills| |].
    + rewrite H. now apply aborted_by_cleanup.
    + now apply aborted_by_cleanup.
    + now apply aborted_by_cleanup.
  - intros env deps_ok preprocess_ok pbm_ok potrace_ok copy_outputs H.
    unfold process.
    destruct deps_ok; [|now apply aborted_by_cleanup].
    destruct preprocess_ok; [|now apply aborted_by_cleanup].
    destruct pbm_ok; [|now apply aborted_by_cleanup].
    destruct potrace_ok; [|now apply aborted_by_cleanup].
    destruct H as [H|H]; [discriminate|].
    unfold try_finally, try_except at 1, bind at 1. cbn [mkdtemp modify negb].
    unfold bind at 1, create_animation_frames_stream. rewrite H.
    now apply aborted_by_cleanup.
Qed.

Lemma early_failure_spawns_no_encoder_witness :
  aborted_before_spawn
    (create_whiteboard_animation exact flat_sin no_raster keep_line keep_circle
       no_moments tiny_cfg EncHangs (WbStrokes (blank 2 2) [] []) (Ok tt)
       fresh_world) fresh_world.
Proof.
  destruct (@early_failure_spawns_no_encoder exact tiny_cfg EncHangs fresh_world)
    as (_ & _ & _ & H & _).
  apply H. reflexivity.
Defined.

(** ** The trace-based animator without OpenCV *)

Lemma prerender_without_cv2 (fl : Q -> Q) (env : trace_env)
  (paths : list string) (w h N : nat) (idxs : list nat) (acc : list canvas)
  (w0 : world) :
  HAS_CV2 env = false ->
  fold_m idxs acc
    (fun rendered_frames frame_idx =>
       frame <- render_svg_frame_simple fl env
                  (paths_to_draw fl paths frame_idx N) w h ;;
       match frame with
       | Some f => ret (rendered_frames ++ [f])
       | None => logger (WarnFrameFailed frame_idx) ;; ret rendered_frames
       end) w0
  = (Ok acc,
     mkWorld (proc w0) (stdin_frames w0) (stdin_closed w0) (temp_dir_exists w0)
             (attrs w0) (log w0 ++ map WarnFrameFailed idxs)).
Proof.
  intros Hcv.
  set (body := fun (rendered_frames : list canvas) (frame_idx : nat) => _).
  assert (Hb : forall acc0 i w1,
            body acc0 i w1
            = (Ok acc0,
               mkWorld (proc w1) (stdin_frames w1) (stdin_closed w1)
                       (temp_dir_exists w1) (attrs w1)
                       (log w1 ++ [WarnFrameFailed i]))).
  { intros acc0 i w1. unfold body, render_svg_frame_simple, bind.
    rewrite Hcv. reflexivity. }
  revert w0. induction idxs as [|i idxs IH]; intros w0.
  - cbn. rewrite app_nil_r. now destruct w0.
  - cbn [fold_m]. unfold bind at 1. rewrite Hb, IH.
    cbn. now rewrite <- app_assoc.
Qed.

(** X7. Without OpenCV the trace-based animator cannot succeed, although the
    dependency check only warns about it.  On an interpreter that evaluates
    annotations when a function is defined, the module does not even load:
    [NameError], before [process] is reached.  Where it loads, every frame
    renders as [None], so [process] returns [False] whatever the other
    inputs and the encoder are.  When the run gets as far as the frame loop
    (everything else in place, at least one path) and the encoder starts,
    it receives no frame, its input is not closed, and it is still running
    when [process] returns; one "Frame i failed to render" warning is logged
    per frame.  When [Popen] raises instead, that error is logged and
    nothing else happens. *)
Theorem no_opencv_no_video (fl : Q -> Q) (env : trace_env) (cfg : config)
  (enc : encoder) (copy_outputs : res unit) (w : world) :
  HAS_CV2 env = false ->
  (forall deps_ok preprocess_ok pbm_ok potrace_ok,
      run_sketch_animate true fl env cfg enc deps_ok preprocess_ok pbm_ok
                         potrace_ok copy_outputs w
      = (Raise NameError, w))
  /\ (forall deps_ok preprocess_ok pbm_ok potrace_ok,
      fst (run_sketch_animate false fl env cfg enc deps_ok preprocess_ok pbm_ok
                              potrace_ok copy_outputs w) = Ok false)
  /\ (parse_svg_paths env <> [] -> takes enc 0 ->
      run_sketch_animate false fl env cfg enc true true true true
                         copy_outputs w
      = (Ok false,
         mkWorld Running (stdin_frames w) (stdin_closed w) false (attrs w)
           (log w
            ++ map WarnFrameFailed
                   (seq 0 (total_frames_of fl (fps cfg) (duration cfg)))
            ++ [ErrNoFrames; InfoCleanedUp])))
  /\ (parse_svg_paths env <> [] -> forall e,
      run_sketch_animate false fl env cfg (EncNotStarted e) true true true true
                         copy_outputs w
      = (Ok false,
         mkWorld (proc w) (stdin_frames w) (stdin_closed w) false (attrs w)
           (log w ++ [ErrCreatingAnimation e; InfoCleanedUp]))).
Proof.
  intros Hcv.
  assert (Run : forall w0,
            parse_svg_paths env <> [] -> takes enc 0 ->
            create_animation_frames_stream fl env cfg enc w0
            = (Ok false,
               mkWorld Running (stdin_frames w0) (stdin_closed w0)
                 (temp_dir_exists w0) (attrs w0)
                 (log w0
                  ++ map WarnFrameFailed
                         (seq 0 (total_frames_of fl (fps cfg) (duration cfg)))
                  ++ [ErrNoFrames]))).
  { intros w0 Hp Ht. unfold create_animation_frames_stream, try_except at 1.
    destruct (parse_svg_paths env) as [|p ps]; [congruence|].
    unfold bind at 1. start_encoder. unfold bind at 1, prerender.
    rewrite prerender_without_cv2 by exact Hcv.
    finish_run. now rewrite <- app_assoc. }
  assert (Load : forall eager deps_ok preprocess_ok pbm_ok potrace_ok enc0 w0,
            run_sketch_animate eager fl env cfg enc0 deps_ok preprocess_ok
                               pbm_ok potrace_ok copy_outputs w0
            = if eager then (Raise NameError, w0)
              else process fl env cfg enc0 deps_ok preprocess_ok pbm_ok
                           potrace_ok copy_outputs w0).
  { intros. unfold run_sketch_animate, import_sketch_animate, bind, lift.
    rewrite Hcv. now destruct eager. }
  split; [|split; [|split]].
  - intros. now rewrite Load.
  - intros deps_ok preprocess_ok pbm_ok potrace_ok. rewrite Load.
    unfold process.
    destruct deps_ok; [|reflexivity].
    destruct preprocess_ok; [|reflexivity].
    destruct pbm_ok; [|reflexivity].
    destruct potrace_ok; [|reflexivity].
    unfold try_finally, try_except at 1, bind at 1. cbn [mkdtemp modify negb].
    unfold bind at 1.
    destruct (parse_svg_paths env) as [|p ps] eqn:Ep.
    + unfold create_animation_frames_stream. rewrite Ep. reflexivity.
    + destruct enc as [code secs|after code| |e].
      * rewrite Run; [reflexivity|discriminate|exact I].
      * rewrite Run; [reflexivity|discriminate|simpl; lia].
      * rewrite Run; [reflexivity|discriminate|exact I].
      * rewrite trace_run_not_started by (rewrite Ep; discriminate).
        reflexivity.
  - intros Hp Ht. rewrite Load. unfold process.
    unfold try_finally, try_except at 1, bind at 1. cbn [mkdtemp modify negb].
    unfold bind at 1. rewrite Run by assumption.
    cbn. rewrite <- !app_assoc. reflexivity.
  - intros Hp e. rewrite Load. unfold process.
    unfold try_finally, try_except at 1, bind at 1. cbn [mkdtemp modify negb].
    unfold bind at 1. rewrite trace_run_not_started by exact Hp.
    cbn. rewrite <- !app_assoc. reflexivity.
Qed.

(** An environment with one path in the SVG and no OpenCV. *)
Lemma no_opencv_no_video_witness :
  run_sketch_animate false exact
    (mkTraceEnv false true false (Ok (mkSvg None ["M0 0 L1 1"%string]))
                false None (fun c _ _ => Ok c))
    tiny_cfg (EncExits 0 1) true true true true (Ok tt) trace_world
  = (Ok false,
     mkWorld Running [] false false no_cache
       [WarnFrameFailed 0; WarnFrameFailed 1; ErrNoFrames; InfoCleanedUp]).
Proof.
  exact (proj1 (proj2 (proj2
           (@no_opencv_no_video exact
              (mkTraceEnv false true false
                 (Ok (mkSvg None ["M0 0 L1 1"%string])) false None
                 (fun c _ _ => Ok c))
              tiny_cfg (EncExits 0 1) (Ok tt) trace_world eq_refl)))
           ltac:(discriminate) I).
Defined.

(** ** Frames of the trace-based animator once the caches are filled *)

Section CachedRender.

Variable fl : Q -> Q.
Variable env : trace_env.
Variable paths : list string.
Variable full : canvas.
Variables w h : nat.
Variable w0 : world.

Hypothesis cv2_there : HAS_CV2 env = true.
Hypothesis caches : cached paths full w0.
Hypothesis full_shape : shape full = (h, w).

Lemma render_cached (pd : Z) :
  exists c,
    render_svg_frame_simple fl env pd w h w0 = (Ok (Some c), w0)
    /\ shape c = (h, w)
    /\ forall y x, (y < h)%nat -> (x < w)%nat ->
         px c y x
         = if (0 <? Z.min pd (Z.of_nat (length paths)))%Z
              && reveal_mask fl (reveal_ratio_of fl pd (length paths)) w h y x
           then px full y x else white.
Proof.
  unfold shape in full_shape. injection full_shape as Hr Hc.
  unfold render_svg_frame_simple. rewrite cv2_there. cbn [negb].
  unfold try_except, bind at 1, render_body.
  unfold bind at 1, get_attrs at 1. rewrite caches. cbn [svg_paths_cache].
  unfold bind at 1, ret at 1.
  unfold bind at 1, get_attrs at 1. rewrite caches. cbn [total_svg_paths].
  unfold bind at 1, ret at 1.
  destruct (0 <? Z.min pd (Z.of_nat (length paths)))%Z eqn:Hnum.
  - unfold bind at 1, load_full_image, bind at 1, get_attrs at 1.
    rewrite caches. cbn [full_image_cache]. unfold ret at 1.
    unfold bind at 1, get_attrs at 1. rewrite caches. cbn [full_image_cache].
    unfold bind at 1, lift at 1, py_truediv.
    destruct (Qeq_bool (inject_Z (Z.max 1 (Z.of_nat (length paths)))) 0) eqn:K.
    { apply Qeq_bool_iff in K. unfold Qeq in K. simpl in K. lia. }
    unfold lift, reveal_full_image.
    assert (F : ((rows full =? rows (if has_pil env then blank h w else blank h w))%nat
                 || (rows full =? 1)%nat)
                && ((cols full =? cols (if has_pil env then blank h w else blank h w))%nat
                    || (cols full =? 1)%nat) = true).
    { destruct (has_pil env); cbn [rows cols blank];
        rewrite Hr, Hc, !Nat.eqb_refl; reflexivity. }
    rewrite F. unfold ret. eexists. split; [reflexivity|].
    split; [destruct (has_pil env); reflexivity|].
    intros y x Hy Hx. cbn [andb px paint]. unfold reveal_ratio_of.
    destruct (reveal_mask _ _ _ _ _ _); [|reflexivity].
    rewrite Hr, Hc.
    destruct (h =? 1)%nat eqn:E1; destruct (w =? 1)%nat eqn:E2;
      try apply Nat.eqb_eq in E1; try apply Nat.eqb_eq in E2;
      try (assert (y = 0%nat) by lia; subst y);
      try (assert (x = 0%nat) by lia; subst x); reflexivity.
  - unfold ret. eexists. split; [reflexivity|]. split; [reflexivity|].
    intros y x _ _. reflexivity.
Qed.

End CachedRender.

Lemma reveal_ratio_monotone (fl : Q -> Q) (pd1 pd2 : Z) (t : nat) :
  monotone_rounding fl -> (pd1 <= pd2)%Z ->
  reveal_ratio_of fl pd1 t <= reveal_ratio_of fl pd2 t.
Proof.
  intros M H. unfold reveal_ratio_of. apply M.
  unfold Qdiv. apply Qmult_le_compat_r.
  - rewrite <- Zle_Qle. lia.
  - apply Qlt_le_weak, Qinv_lt_0_compat.
    change 0 with (inject_Z 0). rewrite <- Zlt_Qlt. lia.
Qed.

(** X8. Once its caches are filled (the kept paths, their number, the
    resized cleaned image), and with OpenCV there, a call of
    [render_svg_frame_simple] changes nothing in the animator and reads
    neither the SVG nor the image file again: any two environments give the
    same frame.  The frame is a wipe of the cleaned image along the
    diagonal: a pixel shows the image where
    [((x / width) + (y / height)) / 2 <= paths_to_draw / total] and is white
    elsewhere, so the SVG counts only by the number of its paths, and a
    pixel shown for some [paths_to_draw] stays shown for every larger one
    (for a monotone rounding). *)
Theorem cached_render_is_diagonal_wipe (fl : Q -> Q) (env env' : trace_env)
  (paths : list string) (full : canvas) (w h : nat) (w0 : world)
  (pd pd' : Z) :
  HAS_CV2 env = true -> HAS_CV2 env' = true ->
  cached paths full w0 -> shape full = (h, w) ->
  exists c c',
    render_svg_frame_simple fl env pd w h w0 = (Ok (Some c), w0)
    /\ render_svg_frame_simple fl env' pd w h w0 = (Ok (Some c'), w0)
    /\ (forall y x, (y < h)%nat -> (x < w)%nat ->
          px c y x = px c' y x
          /\ px c y x
             = if (0 <? Z.min pd (Z.of_nat (length paths)))%Z
                  && reveal_mask fl (reveal_ratio_of fl pd (length paths)) w h y x
               then px full y x else white)
    /\ (monotone_rounding fl -> (0 < pd <= pd')%Z -> paths <> [] ->
        forall y x,
          reveal_mask fl (reveal_ratio_of fl pd (length paths)) w h y x = true ->
          reveal_mask fl (reveal_ratio_of fl pd' (length paths)) w h y x = true).
Proof.
  intros Hcv Hcv' Hc Hs.
  destruct (@render_cached fl env paths full w h w0 Hcv Hc Hs pd)
    as (c & E & _ & P).
  destruct (@render_cached fl env' paths full w h w0 Hcv' Hc Hs pd)
    as (c' & E' & _ & P').
  exists c, c'. split; [exact E|]. split; [exact E'|]. split.
  - intros y x Hy Hx. split; [|now apply P].
    rewrite P, P' by assumption. reflexivity.
  - intros M Hpd Hne y x. unfold reveal_mask. intros R.
    apply Qle_bool_iff in R. apply Qle_bool_iff.
    eapply Qle_trans; [exact R|].
    apply reveal_ratio_monotone; [exact M|lia].
Qed.

(** A world whose caches hold one path and a 2 x 2 grey image. *)
Lemma cached_render_is_diagonal_wipe_witness :
  exists c c',
    render_svg_frame_simple exact one_path_env 1 2 2
      (mkWorld NotSpawned [] false true
         (mkSvgCache (Some ["M0 0 L1 1"%string]) (Some 1%nat)
                     (Some (mkCanvas 2 2 (fun _ _ => (9, 9, 9)%Z)))) [])
    = (Ok (Some c),
       mkWorld NotSpawned [] false true
         (mkSvgCache (Some ["M0 0 L1 1"%string]) (Some 1%nat)
                     (Some (mkCanvas 2 2 (fun _ _ => (9, 9, 9)%Z)))) [])
    /\ render_svg_frame_simple exact broken_svg_env 1 2 2
         (mkWorld NotSpawned [] false true
            (mkSvgCache (Some ["M0 0 L1 1"%string]) (Some 1%nat)
                        (Some (mkCanvas 2 2 (fun _ _ => (9, 9, 9)%Z)))) [])
       = (Ok (Some c'),
          mkWorld NotSpawned [] false true
            (mkSvgCache (Some ["M0 0 L1 1"%string]) (Some 1%nat)
                        (Some (mkCanvas 2 2 (fun _ _ => (9, 9, 9)%Z)))) []).
Proof.
  destruct (@cached_render_is_diagonal_wipe exact one_path_env broken_svg_env
              ["M0 0 L1 1"%string] (mkCanvas 2 2 (fun _ _ => (9, 9, 9)%Z)) 2 2
              (mkWorld NotSpawned [] false true
                 (mkSvgCache (Some ["M0 0 L1 1"%string]) (Some 1%nat)
                    (Some (mkCanvas 2 2 (fun _ _ => (9, 9, 9)%Z)))) [])
              1 1 eq_refl eq_refl eq_refl eq_refl)
    as (c & c' & E & E' & _).
  exists c, c'. split; assumption.
Defined.

Lemma reveal_mask_full (fl : Q -> Q) (ratio : Q) (w h y x : nat) :
  monotone_rounding fl -> exact_on_integers fl ->
  1 <= ratio -> (y < h)%nat -> (x < w)%nat ->
  reveal_mask fl ratio w h y x = true.
Proof.
  intros M E Hr Hy Hx. unfold reveal_mask. apply Qle_bool_iff.
  eapply Qle_trans; [|exact Hr].
  assert (F1 : forall a b, (a < b)%nat -> fl (QofNat a / QofNat b) <= 1).
  { intros a b Hab.
    apply Qle_trans with (fl (inject_Z 1));
      [|rewrite (E 1%Z) by (simpl; lia); apply Qle_refl].
    apply M. change (inject_Z 1) with 1. apply Qle_shift_div_r.
    - unfold QofNat. change 0 with (inject_Z 0). rewrite <- Zlt_Qlt. lia.
    - rewrite Qmult_1_l. apply QofNat_le. lia. }
  assert (F2 : fl (fl (QofNat x / QofNat w) + fl (QofNat y / QofNat h)) <= 2).
  { apply Qle_trans with (fl (inject_Z 2));
      [|rewrite (E 2%Z) by (simpl; lia); apply Qle_refl].
    apply M. change (inject_Z 2) with (1 + 1).
    apply Qplus_le_compat; now apply F1. }
  apply Qle_trans with (fl (inject_Z 1));
    [|rewrite (E 1%Z) by (simpl; lia); apply Qle_refl].
  apply M. change (inject_Z 1) with 1.
  apply Qle_shift_div_r; [reflexivity|]. rewrite Qmult_1_l. exact F2.
Qed.

(** X9. With the caches filled from an SVG that has at least one path, the
    frame that the trace-based animator renders for the last frame index of
    a run is the whole cleaned image: every pixel shows the image (for a
    monotone rounding that is exact on integers). *)
Theorem trace_last_frame_is_whole_image (fl : Q -> Q) (env : trace_env)
  (paths : list string) (full : canvas) (w h N : nat) (w0 : world) :
  monotone_rounding fl -> exact_on_integers fl ->
  HAS_CV2 env = true -> cached paths full w0 -> shape full = (h, w) ->
  paths <> [] -> (Z.of_nat (length paths) <= 2 ^ 53)%Z -> (0 < N)%nat ->
  exists c,
    render_svg_frame_simple fl env (paths_to_draw fl paths (N - 1) N) w h w0
    = (Ok (Some c), w0)
    /\ shape c = (h, w)
    /\ forall y x, (y < h)%nat -> (x < w)%nat -> px c y x = px full y x.
Proof.
  intros M E Hcv Hc Hs Hne Hb HN.
  destruct (@render_cached fl env paths full w h w0 Hcv Hc Hs
              (paths_to_draw fl paths (N - 1) N)) as (c & Ec & Sc & P).
  exists c. split; [exact Ec|]. split; [exact Sc|].
  intros y x Hy Hx. rewrite P by assumption.
  assert (Hlen : (1 <= Z.of_nat (length paths))%Z).
  { destruct paths; [congruence|]. cbn [length]. lia. }
  assert (Hpd : paths_to_draw fl paths (N - 1) N = Z.of_nat (length paths)).
  { unfold paths_to_draw. rewrite reveal_count_last by auto. lia. }
  rewrite Hpd.
  replace (0 <? Z.min (Z.of_nat (length paths)) (Z.of_nat (length paths)))%Z
    with true by (symmetry; apply Z.ltb_lt; lia).
  rewrite reveal_mask_full; auto.
  unfold reveal_ratio_of.
  rewrite Z.min_id, Z.max_r by lia.
  apply Qle_trans with (fl (inject_Z 1));
    [rewrite (E 1%Z) by (simpl; lia); apply Qle_refl|].
  apply M. change (inject_Z 1) with 1.
  apply Qle_shift_div_l.
  - change 0 with (inject_Z 0). rewrite <- Zlt_Qlt. lia.
  - rewrite Qmult_1_l. apply Qle_refl.
Qed.

Lemma trace_last_frame_is_whole_image_witness :
  exists c,
    render_svg_frame_simple exact one_path_env
      (paths_to_draw exact ["M0 0 L1 1"%string] (3 - 1) 3) 2 2
      (mkWorld NotSpawned [] false true
         (mkSvgCache (Some ["M0 0 L1 1"%string]) (Some 1%nat)
                     (Some (mkCanvas 2 2 (fun _ _ => (9, 9, 9)%Z)))) [])
    = (Ok (Some c),
       mkWorld NotSpawned [] false true
         (mkSvgCache (Some ["M0 0 L1 1"%string]) (Some 1%nat)
                     (Some (mkCanvas 2 2 (fun _ _ => (9, 9, 9)%Z)))) [])
    /\ shape c = (2, 2)%nat
    /\ forall y x, (y < 2)%nat -> (x < 2)%nat ->
         px c y x = px (mkCanvas 2 2 (fun _ _ => (9, 9, 9)%Z)) y x.
Proof.
  apply (@trace_last_frame_is_whole_image exact one_path_env
           ["M0 0 L1 1"%string] (mkCanvas 2 2 (fun _ _ => (9, 9, 9)%Z)) 2 2 3
           (mkWorld NotSpawned [] false true
              (mkSvgCache (Some ["M0 0 L1 1"%string]) (Some 1%nat)
                 (Some (mkCanvas 2 2 (fun _ _ => (9, 9, 9)%Z)))) [])
           exact_monotone exact_exact_on_integers eq_refl eq_refl eq_refl).
  - discriminate.
  - cbn. lia.
  - lia.
Defined.

(** ** A run of the trace-based animator in which nothing is missing *)

Section HealthyRender.

Variable fl : Q -> Q.
Variable env : trace_env.
Variable doc : svg_doc.
Variable full : canvas.
Variables w h : nat.

Hypothesis all_there : healthy env doc full w h.

Let paths := filter nonempty (path_elements doc).

Hypothesis some_paths : paths <> [].

Lemma cache_svg_paths_fills (w0 : world) :
  cache_svg_paths fl env w h w0
  = (Ok tt, with_attrs (mkSvgCache (Some paths) (Some (length paths))
                                   (full_image_cache (attrs w0))) w0).
Proof.
  destruct all_there as (_ & Hp & Hv & _).
  unfold cache_svg_paths. unfold bind at 1, lift at 1. rewrite Hp.
  unfold viewbox_usable in Hv. apply andb_true_iff in Hv. destruct Hv as [V1 V2].
  set (vb := match viewBox doc with Some parts => parts | None => _ end) in *.
  destruct (if (3 <=? length vb)%nat then nth 2 vb (Raise ValueError)
            else Ok (QofNat w)) as [q1|] eqn:E1; [|discriminate].
  destruct (if (4 <=? length vb)%nat then nth 3 vb (Raise ValueError)
            else Ok (QofNat h)) as [q2|] eqn:E2; [|discriminate].
  apply negb_true_iff in V1, V2.
  unfold bind, lift, py_truediv, set_svg_paths_cache, set_total_svg_paths,
    set_attrs, modify. rewrite V1, V2. cbn. reflexivity.
Qed.

Lemma render_healthy (pd : Z) (w0 : world) :
  (0 < pd)%Z ->
  attrs w0 = no_cache \/ cached paths full w0 ->
  exists c,
    render_svg_frame_simple fl env pd w h w0
    = (Ok (Some c),
       with_attrs (mkSvgCache (Some paths) (Some (length paths)) (Some full)) w0)
    /\ wipe_of fl (reveal_ratio_of fl pd (length paths)) full w h c.
Proof.
  intros Hpd [Hn|Hc].
  - destruct all_there as (Hcv & Hp & Hv & Hx & img & Hi & Hr & Hs).
    assert (Hlen : (1 <= Z.of_nat (length paths))%Z).
    { destruct paths; [congruence|]. cbn [length]. lia. }
    unfold shape in Hs. injection Hs as Hrows Hcols.
    unfold render_svg_frame_simple. rewrite Hcv. cbn [negb].
    unfold try_except, bind at 1, render_body.
    unfold bind at 1, get_attrs at 1. rewrite Hn. cbn [svg_paths_cache no_cache].
    unfold bind at 1. rewrite cache_svg_paths_fills. rewrite Hn.
    cbn [full_image_cache no_cache].
    unfold bind at 1, get_attrs at 1. cbn [attrs with_attrs total_svg_paths].
    unfold bind at 1, ret at 1. fold paths.
    replace (0 <? Z.min pd (Z.of_nat (length paths)))%Z with true
      by (symmetry; apply Z.ltb_lt; lia).
    unfold bind at 1, load_full_image, bind at 1, get_attrs at 1.
    cbn [attrs with_attrs full_image_cache]. rewrite Hx, Hi.
    unfold bind at 1, lift at 1. rewrite Hr.
    unfold set_full_image_cache, set_attrs, modify.
    cbn [attrs with_attrs svg_paths_cache total_svg_paths proc stdin_frames
         stdin_closed temp_dir_exists log].
    unfold bind at 1, get_attrs at 1. cbn [attrs full_image_cache].
    unfold bind at 1, lift at 1, py_truediv.
    destruct (Qeq_bool (inject_Z (Z.max 1 (Z.of_nat (length paths)))) 0) eqn:K.
    { apply Qeq_bool_iff in K. unfold Qeq in K. simpl in K. lia. }
    unfold lift, reveal_full_image.
    assert (F : ((rows full =? rows (if has_pil env then blank h w else blank h w))%nat
                 || (rows full =? 1)%nat)
                && ((cols full =? cols (if has_pil env then blank h w else blank h w))%nat
                    || (cols full =? 1)%nat) = true).
    { destruct (has_pil env); cbn [rows cols blank];
        rewrite Hrows, Hcols, !Nat.eqb_refl; reflexivity. }
    rewrite F. unfold ret. eexists. split; [reflexivity|].
    split; [destruct (has_pil env); reflexivity|].
    intros y x Hy Hx'. cbn [px paint]. unfold reveal_ratio_of.
    destruct (reveal_mask _ _ _ _ _ _); [|reflexivity].
    rewrite Hrows, Hcols.
    destruct (h =? 1)%nat eqn:E1; destruct (w =? 1)%nat eqn:E2;
      try apply Nat.eqb_eq in E1; try apply Nat.eqb_eq in E2;
      try (assert (y = 0%nat) by lia; subst y);
      try (assert (x = 0%nat) by lia; subst x); reflexivity.
  - destruct all_there as (Hcv & _ & _ & _ & img & _ & _ & Hs).
    assert (Hlen : (1 <= Z.of_nat (length paths))%Z).
    { destruct paths; [congruence|]. cbn [length]. lia. }
    destruct (@render_cached fl env paths full w h w0 Hcv Hc Hs pd)
      as (c & E & S & P).
    exists c. split.
    + rewrite E. f_equal. unfold cached in Hc. rewrite <- Hc.
      destruct w0; reflexivity.
    + split; [exact S|]. intros y x Hy Hx. rewrite P by assumption.
      replace (0 <? Z.min pd (Z.of_nat (length paths)))%Z with true
        by (symmetry; apply Z.ltb_lt; lia).
      reflexivity.
Qed.

(** Every pass of the pre-rendering loop gives the wipe of its frame index
    and leaves the caches filled. *)
Lemma prerender_healthy_from (N : nat) (idxs : list nat) (acc : list canvas)
  (w0 : world) :
  attrs w0 = no_cache \/ cached paths full w0 ->
  exists rendered w1,
    fold_m idxs acc
      (fun rendered_frames frame_idx =>
         frame <- render_svg_frame_simple fl env
                    (paths_to_draw fl paths frame_idx N) w h ;;
         match frame with
         | Some f => ret (rendered_frames ++ [f])
         | None => logger (WarnFrameFailed frame_idx) ;; ret rendered_frames
         end) w0
    = (Ok (acc ++ rendered), w1)
    /\ Forall2 (fun i c =>
                  wipe_of fl (reveal_ratio_of fl (paths_to_draw fl paths i N)
                                              (length paths)) full w h c)
               idxs rendered
    /\ same_pipe w0 w1
    /\ log w1 = log w0.
Proof.
  revert acc w0. induction idxs as [|i idxs IH]; intros acc w0 Ha.
  - exists [], w0. cbn. unfold ret. rewrite app_nil_r.
    repeat split; auto.
  - cbn [fold_m]. unfold bind at 1. unfold bind at 1.
    destruct (@render_healthy (paths_to_draw fl paths i N) w0) as (c & E & W);
      [unfold paths_to_draw; lia|exact Ha|].
    rewrite E. unfold ret at 1.
    destruct (IH (acc ++ [c])
                 (with_attrs (mkSvgCache (Some paths) (Some (length paths))
                                         (Some full)) w0))
      as (rendered & w2 & E2 & F2 & P2 & L2); [right; reflexivity|].
    exists (c :: rendered), w2.
    rewrite E2, <- app_assoc. cbn [app].
    split; [reflexivity|].
    split; [now constructor|].
    split; [|exact L2].
    destruct P2 as (Q1 & Q2 & Q3 & Q4). repeat split; assumption.
Qed.

End HealthyRender.

Lemma parse_svg_paths_of (env : trace_env) :
  parse_svg_paths env <> [] ->
  exists doc, et_parse env = Ok doc
              /\ parse_svg_paths env = filter nonempty (path_elements doc).
Proof.
  unfold parse_svg_paths. destruct (HAS_XML env); cbn [negb]; [|congruence].
  destruct (et_parse env) as [doc|]; [|congruence].
  intros _. exists doc. split; reflexivity.
Qed.

(** X10. A run of the trace-based animator in which nothing is missing
    (OpenCV, an SVG with at least one path and a usable [viewBox], the
    cleaned image, a resize to the frame size) and whose encoder keeps
    reading puts on the pipe, for each frame index [i] of the N, the bytes
    of the diagonal wipe of the cleaned image at the share
    [paths_to_draw i / total]: the paths that Potrace found are counted
    and never drawn. *)
Theorem healthy_trace_run_streams_wipes (fl : Q -> Q) (env : trace_env)
  (doc : svg_doc) (full : canvas) (cfg : config) (enc : encoder) (w0 : world) :
  healthy env doc full (width cfg) (height cfg) ->
  parse_svg_paths env <> [] ->
  attrs w0 = no_cache -> stdin_frames w0 = [] ->
  takes enc (total_frames_of fl (fps cfg) (duration cfg)) ->
  exists rendered,
    stdin_frames (snd (create_animation_frames_stream fl env cfg enc w0))
    = map tobytes rendered
    /\ Forall2 (fun i c =>
                  wipe_of fl
                    (reveal_ratio_of fl
                       (paths_to_draw fl (parse_svg_paths env) i
                          (total_frames_of fl (fps cfg) (duration cfg)))
                       (length (parse_svg_paths env)))
                    full (width cfg) (height cfg) c)
               (seq 0 (total_frames_of fl (fps cfg) (duration cfg))) rendered.
Proof.
  intros Hh Hne Ha Hf Ht.
  destruct (@parse_svg_paths_of env Hne) as (doc' & Hd & Hp).
  assert (doc' = doc).
  { destruct Hh as (_ & Hd' & _). congruence. }
  subst doc'.
  set (N := total_frames_of fl (fps cfg) (duration cfg)) in *.
  unfold create_animation_frames_stream, try_except at 1. fold N.
  rewrite Hp in *.
  destruct (filter nonempty (path_elements doc)) as [|p ps] eqn:Ep;
    [contradiction|].
  unfold bind at 1. start_encoder. unfold bind at 1.
  destruct (@prerender_healthy_from fl env doc full (width cfg) (height cfg)
              Hh ltac:(rewrite Ep; discriminate) N (seq 0 N) []
              (set_proc Running w0))
    as (rendered & w1 & E & F & (P1 & P2 & P3 & P4) & _);
    [left; exact Ha|].
  rewrite Ep in E, F. unfold prerender. rewrite E. cbn [app].
  exists rendered. split; [|exact F].
  assert (L : length rendered = N).
  { apply Forall2_length in F. rewrite length_seq in F. auto. }
  cbn in P1, P2.
  destruct rendered as [|r rs].
  - finish_run. rewrite P2, Hf. reflexivity.
  - unfold bind at 1. unfold try_except at 1. unfold bind at 1.
    rewrite (@for_each_streams canvas enc tobytes (r :: rs)
               (fun frame => stdin_write enc (tobytes frame)));
      [|reflexivity|exact P1|rewrite P2, Hf, L; exact Ht].
    destruct enc as [code secs|after code| |e]; finish_run; rewrite P1, P2, Hf.
    + destruct (secs <=? 60)%nat; cbn; [|reflexivity].
      destruct (code =? 0)%Z; reflexivity.
    + either_close; [reflexivity|].
      destruct (code =? 0)%Z; reflexivity.
    + reflexivity.
    + contradiction.
Qed.

Lemma healthy_trace_run_streams_wipes_witness :
  exists rendered,
    stdin_frames
      (snd (create_animation_frames_stream exact healthy_env tiny_cfg
              (EncExits 0 1) trace_world))
    = map tobytes rendered
    /\ length rendered = 2%nat.
Proof.
  destruct (@healthy_trace_run_streams_wipes exact healthy_env
              (mkSvg None ["M0 0 L1 1"%string]) grey2 tiny_cfg (EncExits 0 1)
              trace_world) as (rendered & E & F).
  - repeat split; try reflexivity. exists grey2. repeat split; reflexivity.
  - discriminate.
  - reflexivity.
  - reflexivity.
  - exact I.
  - exists rendered. split; [exact E|].
    apply Forall2_length in F. rewrite <- F. reflexivity.
Defined.


(** ** A [viewBox] without width or height *)

Section ZeroViewBox.

Variable fl : Q -> Q.
Variable env : trace_env.
Variable doc : svg_doc.
Variables w h : nat.

Hypothesis cv2_there : HAS_CV2 env = true.
Hypothesis parsed : et_parse env = Ok doc.
Hypothesis no_size : zero_viewbox doc.

Let paths := filter nonempty (path_elements doc).

(** The first call stores the paths, fails on the scale and leaves the
    number of paths unset. *)
Lemma render_first_poisons (pd : Z) (w0 : world) :
  attrs w0 = no_cache ->
  render_svg_frame_simple fl env pd w h w0
  = (Ok (Some (blank h w)),
     mkWorld (proc w0) (stdin_frames w0) (stdin_closed w0) (temp_dir_exists w0)
             (mkSvgCache (Some paths) None None)
             (log w0 ++ [WarnRenderFailed ZeroDivisionError])).
Proof.
  intros Hn.
  destruct no_size as (parts & q2 & q3 & Hv & Hl & H2 & H3 & Hz).
  unfold render_svg_frame_simple. rewrite cv2_there. cbn [negb].
  unfold try_except, bind at 1, render_body.
  unfold bind at 1, get_attrs at 1. rewrite Hn. cbn [svg_paths_cache no_cache].
  unfold bind at 1, cache_svg_paths.
  unfold bind at 1, lift at 1. rewrite parsed, Hv.
  replace (3 <=? length parts)%nat with true
    by (symmetry; apply Nat.leb_le; lia).
  replace (4 <=? length parts)%nat with true
    by (symmetry; apply Nat.leb_le; lia).
  rewrite H2, H3.
  unfold bind, lift, py_truediv, set_svg_paths_cache, set_attrs, modify,
    logger, ret.
  rewrite Hn. cbn [total_svg_paths full_image_cache no_cache].
  destruct (Qeq_bool q2 0) eqn:K2; [reflexivity|].
  destruct (Qeq_bool q3 0) eqn:K3; [reflexivity|].
  exfalso. destruct Hz as [Hz|Hz]; apply Qeq_bool_iff in Hz; congruence.
Qed.

(** Every later call finds the paths stored and the number of paths
    missing. *)
Lemma render_later_poisoned (pd : Z) (w0 : world) :
  attrs w0 = mkSvgCache (Some paths) None None ->
  render_svg_frame_simple fl env pd w h w0
  = (Ok (Some (blank h w)),
     mkWorld (proc w0) (stdin_frames w0) (stdin_closed w0) (temp_dir_exists w0)
             (mkSvgCache (Some paths) None None)
             (log w0 ++ [WarnRenderFailed AttributeError])).
Proof.
  intros Ha.
  unfold render_svg_frame_simple. rewrite cv2_there. cbn [negb].
  unfold try_except, bind at 1, render_body.
  unfold bind at 1, get_attrs at 1. rewrite Ha. cbn [svg_paths_cache].
  unfold bind at 1, ret at 1.
  unfold bind at 1, get_attrs at 1. rewrite Ha. cbn [total_svg_paths].
  unfold bind, raise, logger, modify, ret. rewrite Ha. reflexivity.
Qed.

Lemma prerender_later_poisoned (ps : list string) (N : nat) (idxs : list nat)
  (acc : list canvas) (w0 : world) :
  attrs w0 = mkSvgCache (Some paths) None None ->
  fold_m idxs acc
    (fun rendered_frames frame_idx =>
       frame <- render_svg_frame_simple fl env
                  (paths_to_draw fl ps frame_idx N) w h ;;
       match frame with
       | Some f => ret (rendered_frames ++ [f])
       | None => logger (WarnFrameFailed frame_idx) ;; ret rendered_frames
       end) w0
  = (Ok (acc ++ repeat (blank h w) (length idxs)),
     mkWorld (proc w0) (stdin_frames w0) (stdin_closed w0) (temp_dir_exists w0)
             (mkSvgCache (Some paths) None None)
             (log w0 ++ repeat (WarnRenderFailed AttributeError) (length idxs))).
Proof.
  revert acc w0. induction idxs as [|i idxs IH]; intros acc w0 Ha.
  - cbn. unfold ret. rewrite !app_nil_r, <- Ha. destruct w0; reflexivity.
  - cbn [fold_m]. unfold bind at 1. unfold bind at 1.
    rewrite render_later_poisoned by exact Ha. unfold ret at 1.
    rewrite IH by reflexivity.
    cbn [proc stdin_frames stdin_closed temp_dir_exists log length repeat].
    rewrite <- !app_assoc. reflexivity.
Qed.

Lemma prerender_poisoned (ps : list string) (N : nat) (w0 : world) :
  attrs w0 = no_cache ->
  prerender fl env ps w h N w0
  = (Ok (repeat (blank h w) N),
     if (N =? 0)%nat then w0
     else mkWorld (proc w0) (stdin_frames w0) (stdin_closed w0)
                  (temp_dir_exists w0) (mkSvgCache (Some paths) None None)
                  (log w0 ++ poisoned_warnings N)).
Proof.
  intros Hn. unfold prerender.
  destruct N as [|k]; [reflexivity|].
  cbn [seq fold_m Nat.eqb]. unfold bind at 1. unfold bind at 1.
  rewrite render_first_poisons by exact Hn. unfold ret at 1.
  rewrite prerender_later_poisoned by reflexivity.
  rewrite length_seq.
  cbn [proc stdin_frames stdin_closed temp_dir_exists log app repeat
       poisoned_warnings].
  rewrite <- app_assoc. reflexivity.
Qed.

End ZeroViewBox.

(** X11. When the [viewBox] of the SVG has a width or a height of zero, the
    first call of [render_svg_frame_simple] stores the paths, fails on the
    scale (division by zero) and leaves the number of paths unset; every
    later call fails on that missing attribute.  Each call still returns a
    white frame, so a run whose encoder keeps reading and exits with 0 in
    time streams N white frames, logs one warning per frame and returns
    True. *)
Theorem zero_viewbox_gives_white_video (fl : Q -> Q) (env : trace_env)
  (doc : svg_doc) (cfg : config) (secs : nat) (w0 : world) :
  HAS_CV2 env = true -> et_parse env = Ok doc -> zero_viewbox doc ->
  parse_svg_paths env <> [] ->
  attrs w0 = no_cache -> stdin_frames w0 = [] ->
  (0 < total_frames_of fl (fps cfg) (duration cfg))%nat ->
  (secs <= 60)%nat ->
  create_animation_frames_stream fl env cfg (EncExits 0 secs) w0
  = (Ok true,
     mkWorld (Exited 0)
       (repeat (tobytes (blank (height cfg) (width cfg)))
               (total_frames_of fl (fps cfg) (duration cfg)))
       true (temp_dir_exists w0)
       (mkSvgCache (Some (filter nonempty (path_elements doc))) None None)
       (log w0
        ++ poisoned_warnings (total_frames_of fl (fps cfg) (duration cfg))
        ++ [InfoComplete])).
Proof.
  intros Hcv Hd Hz Hne Ha Hf HN Hs.
  set (N := total_frames_of fl (fps cfg) (duration cfg)) in *.
  unfold create_animation_frames_stream, try_except at 1. fold N.
  destruct (parse_svg_paths env) as [|p ps] eqn:Ep; [contradiction|].
  unfold bind at 1. start_encoder. unfold bind at 1.
  rewrite (@prerender_poisoned fl env doc (width cfg) (height cfg) Hcv Hd Hz
             (p :: ps) N (set_proc Running w0)) by exact Ha.
  destruct N as [|k]; [lia|]. cbn [Nat.eqb repeat].
  unfold bind at 1. unfold try_except at 1. unfold bind at 1.
  rewrite (@for_each_streams canvas (EncExits 0 secs) tobytes
             (blank (height cfg) (width cfg)
              :: repeat (blank (height cfg) (width cfg)) k)
             (fun frame => stdin_write (EncExits 0 secs) (tobytes frame)));
    [|reflexivity|reflexivity|exact I].
  finish_run. rewrite Hf.
  replace (secs <=? 60)%nat with true by (symmetry; apply Nat.leb_le; lia).
  cbn. rewrite map_repeat, <- app_assoc. reflexivity.
Qed.

Lemma zero_viewbox_gives_white_video_witness :
  create_animation_frames_stream exact zero_viewbox_env tiny_cfg (EncExits 0 1)
    trace_world
  = (Ok true,
     mkWorld (Exited 0) (repeat (tobytes (blank 2 2)) 2) true false
       (mkSvgCache (Some ["M0 0 L1 1"%string]) None None)
       [WarnRenderFailed ZeroDivisionError; WarnRenderFailed AttributeError;
        InfoComplete]).
Proof.
  apply (@zero_viewbox_gives_white_video exact zero_viewbox_env
           (mkSvg (Some [Ok 0; Ok 0; Ok 0; Ok 0]) ["M0 0 L1 1"%string])
           tiny_cfg 1 trace_world eq_refl eq_refl).
  - exists [Ok 0; Ok 0; Ok 0; Ok 0], 0, 0. repeat split.
    + cbn. lia.
    + left. reflexivity.
  - discriminate.
  - reflexivity.
  - reflexivity.
  - cbn. lia.
  - lia.
Defined.

(** ** An encoder that exits early, and outputs that cannot be saved *)

Section ColorRunsBroken.

Variable fl : Q -> Q.
Variable rng : Type.
Variable np_random_seed : Z -> rng.
Variable np_random_randn : nat -> rng -> list Q * rng.
Variable np_argsort : list Q -> list nat.
Variable GaussianBlur : canvas -> canvas.
Variable cfg : config.
Variable img_color : canvas.
Variable mask : nat -> nat -> bool.
Variable g : rng.
Variable save_outputs : res unit.

Let N := total_frames_of fl (fps cfg) (duration cfg).
Let plan : list (nat * nat) :=
  fst (color_drawing_plan fl np_random_seed np_random_randn np_argsort mask
                          (height cfg) (width cfg) g).
Let color_frames : list (list Z) :=
  map (fun i => tobytes (color_canvas fl GaussianBlur img_color plan
                           (length (stroke_pixels_of mask (height cfg) (width cfg)))
                           (height cfg) (width cfg) i N))
      (seq 0 N).
Let warned : list log_event :=
  if (length (np_where mask (height cfg) (width cfg)) =? 0)%nat
  then [WarnFallback] else [].

Ltac enter_color :=
  unfold create_color_animation, try_finally, try_except;
  fold N; fold plan; unfold warned;
  unfold bind at 1;
  destruct (length (np_where mask (height cfg) (width cfg)) =? 0)%nat;
  [ unfold logger at 1, modify at 1 | unfold ret at 1 ];
  cbn [fst snd]; unfold bind at 1; start_encoder; unfold bind at 1.

Lemma color_run_dies (after : nat) (code : Z) :
  create_color_animation fl np_random_seed np_random_randn np_argsort
    GaussianBlur cfg (EncDies after code) (Some (img_color, mask)) g
    save_outputs fresh_world
  = match broken_write after 0 0 color_frames with
    | Some k =>
        (Ok false,
         mkWorld (Exited code) (firstn k color_frames) false false no_cache
                 (warned ++ [ErrAnimation BrokenPipeError; InfoCleanedUp]))
    | None =>
        if (after <=? N)%nat && (0 <? buffered color_frames)%Z
        then (Ok false,
              mkWorld (Exited code) color_frames true false no_cache
                      (warned ++ [ErrAnimation BrokenPipeError; InfoCleanedUp]))
        else if (code =? 0)%Z
        then match save_outputs with
             | Ok _ =>
                 (Ok true,
                  mkWorld (Exited code) color_frames true false no_cache
                          (warned ++ [InfoComplete; InfoCleanedUp]))
             | Raise e =>
                 (Ok false,
                  mkWorld (Exited code) color_frames true false no_cache
                          (warned ++ [InfoComplete; ErrAnimation e; InfoCleanedUp]))
             end
        else (Ok false,
              mkWorld (Exited code) color_frames true false no_cache
                      (warned ++ [ErrFfmpegFailed code; InfoCleanedUp]))
    end.
Proof.
  assert (L : length color_frames = N)
    by (unfold color_frames; now rewrite length_map, length_seq).
  enter_color;
    (rewrite (@for_each_breaks nat after code
                (fun i => tobytes (color_canvas fl GaussianBlur img_color plan
                            (length (stroke_pixels_of mask (height cfg) (width cfg)))
                            (height cfg) (width cfg) i N)));
     [|reflexivity|reflexivity];
     cbn [set_proc fresh_world stdin_frames length];
     change (buffered []) with 0%Z; fold color_frames;
     destruct (broken_write after 0 0 color_frames) as [k|];
     [ finish_run; rewrite Nat.sub_0_r; unfold color_frames;
       now rewrite firstn_map
     | finish_run; fold color_frames; rewrite L;
       destruct ((after <=? N)%nat && (0 <? buffered color_frames)%Z); cbn;
       [reflexivity|];
       destruct (code =? 0)%Z; cbn; [|reflexivity];
       destruct save_outputs; reflexivity ]).
Qed.

Lemma color_run_unsaved (secs : nat) (e : exn) :
  (secs <= 60)%nat -> save_outputs = Raise e ->
  create_color_animation fl np_random_seed np_random_randn np_argsort
    GaussianBlur cfg (EncExits 0 secs) (Some (img_color, mask)) g
    save_outputs fresh_world
  = (Ok false,
     mkWorld (Exited 0) color_frames true false no_cache
             (warned ++ [InfoComplete; ErrAnimation e; InfoCleanedUp])).
Proof.
  intros Hs He. apply Nat.leb_le in Hs.
  enter_color;
    (rewrite (@for_each_streams nat (EncExits 0 secs)
                (fun i => tobytes (color_canvas fl GaussianBlur img_color plan
                            (length (stroke_pixels_of mask (height cfg) (width cfg)))
                            (height cfg) (width cfg) i N)));
     [ finish_run; rewrite Hs; cbn; rewrite He; reflexivity
     | reflexivity | reflexivity | exact I ]).
Qed.

End ColorRunsBroken.

Section V2RunsUnsaved.

Variable fl : Q -> Q.
Variable contour_raster : contour -> Z -> nat -> nat -> bool.
Variable contourArea : contour -> Q.
Variable cfg : config.
Variable found : list contour.
Variable copy_outputs : res unit.

Let N := total_frames_of fl (fps cfg) (duration cfg).
Let contours := extract_contours contourArea found.

Hypothesis frames_render :
  forall i, (i < N)%nat ->
    exists c, v2_canvas fl contour_raster contours (height cfg) (width cfg) i N = Ok c.

Lemma v2_run_unsaved (secs : nat) (e : exn) :
  (secs <= 60)%nat -> copy_outputs = Raise e ->
  create_animation fl contour_raster contourArea cfg (EncExits 0 secs) true
                   (Some found) copy_outputs fresh_world
  = (Ok false,
     mkWorld (Exited 0)
       (map (fun i => frame_bytes (v2_canvas fl contour_raster contours
                                             (height cfg) (width cfg) i N))
            (seq 0 N))
       true false no_cache
       [InfoComplete; ErrAnimation e; InfoCleanedUp]).
Proof.
  intros Hs He.
  unfold create_animation, try_finally, try_except.
  cbn [negb]. fold N. fold contours.
  unfold bind at 1. start_encoder. unfold bind at 1.
  rewrite (@v2_loop_streams fl contour_raster (EncExits 0 secs) contours
             (height cfg) (width cfg) N (set_proc Running fresh_world)
             frames_render eq_refl I).
  finish_run. apply Nat.leb_le in Hs. rewrite Hs. cbn. rewrite He. reflexivity.
Qed.

End V2RunsUnsaved.

Lemma v2_frames_render (fl : Q -> Q) (raster : contour -> Z -> nat -> nat -> bool)
  (area : contour -> Q) (cfg : config) (found : list contour) :
  monotone_rounding fl -> exact_on_integers fl ->
  (Z.of_nat (length found) <= 2 ^ 53)%Z ->
  forall i, (i < total_frames_of fl (fps cfg) (duration cfg))%nat ->
    exists c, v2_canvas fl raster (extract_contours area found)
                (height cfg) (width cfg) i
                (total_frames_of fl (fps cfg) (duration cfg)) = Ok c.
Proof.
  intros M E Hb i Hi.
  destruct (@v2_frames_ok fl raster (extract_contours area found)
              (height cfg) (width cfg)
              (total_frames_of fl (fps cfg) (duration cfg)) M E)
    with (i := i) as (c & Ec & _); auto.
  - unfold extract_contours. now rewrite sorted_reverse_length.
  - now exists c.
Qed.

(** X12. When the encoder exits before the pipe is closed (after [after]
    calls to [write], at most the N of the run), the contour animator and
    the colour animator return False with the broken pipe logged as an
    animation error, for frames that are not empty and fit the 10^8-byte
    buffer.  The frames that [write] accepted are the first k of what a
    complete run writes, with after <= k <= N: writes are buffered, so the
    error surfaces at the first write from then on that has to flush, and
    at [close] otherwise, where k = N and the pipe ends up closed.  It
    surfaces at [close] whenever the N frames fit the buffer together.  The
    encoder is not waited for and nothing is saved. *)
Theorem broken_pipe_keeps_frame_prefix (fl : Q -> Q) (cfg : config)
  (after : nat) (code : Z) :
  (after <= total_frames_of fl (fps cfg) (duration cfg))%nat ->
  (0 < total_frames_of fl (fps cfg) (duration cfg))%nat ->
  (0 < bytes_of 1 (height cfg) (width cfg) <= bufsize)%Z ->
  (monotone_rounding fl -> exact_on_integers fl ->
   forall raster area found copy_outputs,
     (Z.of_nat (length found) <= 2 ^ 53)%Z ->
     exists frames k,
       (forall enc, takes enc (total_frames_of fl (fps cfg) (duration cfg)) ->
          stdin_frames (snd (create_animation fl raster area cfg enc true
                               (Some found) copy_outputs fresh_world))
          = frames)
       /\ (after <= k <= total_frames_of fl (fps cfg) (duration cfg))%nat
       /\ create_animation fl raster area cfg (EncDies after code) true
            (Some found) copy_outputs fresh_world
          = (Ok false,
             mkWorld (Exited code) (firstn k frames)
                     (total_frames_of fl (fps cfg) (duration cfg) <=? k)%nat
                     false no_cache
                     [ErrAnimation BrokenPipeError; InfoCleanedUp])
       /\ ((bytes_of (total_frames_of fl (fps cfg) (duration cfg))
                     (height cfg) (width cfg) <= bufsize)%Z ->
           k = total_frames_of fl (fps cfg) (duration cfg)))
  /\ (forall (rng : Type) (seed : Z -> rng) (randn : nat -> rng -> list Q * rng)
             (argsort : list Q -> list nat) (blur : canvas -> canvas)
             img_color mask (g : rng) save_outputs,
     (forall c, shape (blur c) = shape c) ->
     exists frames k,
       (forall enc, takes enc (total_frames_of fl (fps cfg) (duration cfg)) ->
          stdin_frames (snd (create_color_animation fl seed randn argsort blur
                               cfg enc (Some (img_color, mask)) g save_outputs
                               fresh_world))
          = frames)
       /\ (after <= k <= total_frames_of fl (fps cfg) (duration cfg))%nat
       /\ create_color_animation fl seed randn argsort blur cfg
            (EncDies after code) (Some (img_color, mask)) g save_outputs
            fresh_world
          = (Ok false,
             mkWorld (Exited code) (firstn k frames)
               (total_frames_of fl (fps cfg) (duration cfg) <=? k)%nat
               false no_cache
               ((if (length (np_where mask (height cfg) (width cfg)) =? 0)%nat
                 then [WarnFallback] else [])
                ++ [ErrAnimation BrokenPipeError; InfoCleanedUp]))
       /\ ((bytes_of (total_frames_of fl (fps cfg) (duration cfg))
                     (height cfg) (width cfg) <= bufsize)%Z ->
           k = total_frames_of fl (fps cfg) (duration cfg))).
Proof.
  set (N := total_frames_of fl (fps cfg) (duration cfg)).
  intros Ha HN Hsz. split.
  - intros M E raster area found copy_outputs Hb.
    assert (Hs : forall i, (i < N)%nat ->
              exists c, v2_canvas fl raster (extract_contours area found)
                          (height cfg) (width cfg) i N = Ok c
                        /\ shape c = (height cfg, width cfg)).
    { intros i Hi. apply v2_frames_ok; auto.
      unfold extract_contours. now rewrite sorted_reverse_length. }
    assert (Hr := @v2_frames_render fl raster area cfg found M E Hb).
    fold N in Hr.
    set (frames := map (fun i => frame_bytes
                          (v2_canvas fl raster (extract_contours area found)
                                     (height cfg) (width cfg) i N))
                       (seq 0 N)).
    assert (L : length frames = N)
      by (unfold frames; now rewrite length_map, length_seq).
    assert (F : Forall (fun frame => length frame
                                     = (height cfg * width cfg * 3)%nat) frames).
    { unfold frames. apply Forall_forall. intros fr Hin.
      apply in_map_iff in Hin. destruct Hin as (i & <- & Hi).
      apply in_seq in Hi. destruct (Hs i) as (c & Ec & Sc); [lia|].
      rewrite Ec. cbn [frame_bytes]. exact (shape_bytes Sc). }
    destruct (@broken_pipe_surfaces frames N (height cfg) (width cfg) after
                L F Ha HN Hsz) as (k & Hk & Hcase & Hfit).
    exists frames, k. split; [|split; [exact Hk|split; [|exact Hfit]]].
    + intros enc Ht. apply v2_run_frames; assumption.
    + rewrite (@v2_run_dies fl raster area cfg found copy_outputs Hr after code).
      fold N. fold frames.
      destruct Hcase as [[B Hlt]|(B & -> & C)].
      * now rewrite B, Hlt.
      * rewrite B, C, Nat.leb_refl, <- L, firstn_all. reflexivity.
  - intros rng seed randn argsort blur img_color mask g save_outputs Hblur.
    set (frames := map (fun i => tobytes
                          (color_canvas fl blur img_color
                             (fst (color_drawing_plan fl seed randn argsort mask
                                     (height cfg) (width cfg) g))
                             (length (stroke_pixels_of mask (height cfg) (width cfg)))
                             (height cfg) (width cfg) i N))
                       (seq 0 N)).
    assert (L : length frames = N)
      by (unfold frames; now rewrite length_map, length_seq).
    assert (F : Forall (fun frame => length frame
                                     = (height cfg * width cfg * 3)%nat) frames).
    { unfold frames. apply Forall_forall. intros fr Hin.
      apply in_map_iff in Hin. destruct Hin as (i & <- & Hi).
      apply shape_bytes. now apply color_canvas_shape. }
    destruct (@broken_pipe_surfaces frames N (height cfg) (width cfg) after
                L F Ha HN Hsz) as (k & Hk & Hcase & Hfit).
    exists frames, k. split; [|split; [exact Hk|split; [|exact Hfit]]].
    + intros enc Ht. apply color_run_frames. exact Ht.
    + rewrite color_run_dies. fold N. fold frames.
      destruct Hcase as [[B Hlt]|(B & -> & C)].
      * now rewrite B, Hlt.
      * rewrite B, C, Nat.leb_refl, <- L, firstn_all. reflexivity.
Qed.

(** Two frames of twelve bytes fit the buffer: all are accepted, and the
    error is raised by [close]. *)
Lemma broken_pipe_keeps_frame_prefix_witness :
  exists frames k,
    (forall enc, takes enc (total_frames_of exact (fps tiny_cfg) (duration tiny_cfg)) ->
       stdin_frames (snd (create_animation exact no_raster no_area tiny_cfg enc
                            true (Some [[(0, 0); (1, 0); (1, 1)]]%Z) (Ok tt)
                            fresh_world))
       = frames)
    /\ (1 <= k <= total_frames_of exact (fps tiny_cfg) (duration tiny_cfg))%nat
    /\ create_animation exact no_raster no_area tiny_cfg (EncDies 1 7) true
         (Some [[(0, 0); (1, 0); (1, 1)]]%Z) (Ok tt) fresh_world
       = (Ok false,
          mkWorld (Exited 7) (firstn k frames)
                  (total_frames_of exact (fps tiny_cfg) (duration tiny_cfg) <=? k)%nat
                  false no_cache
                  [ErrAnimation BrokenPipeError; InfoCleanedUp])
    /\ ((bytes_of (total_frames_of exact (fps tiny_cfg) (duration tiny_cfg))
                  (height tiny_cfg) (width tiny_cfg) <= bufsize)%Z ->
        k = total_frames_of exact (fps tiny_cfg) (duration tiny_cfg)).
Proof.
  assert (Ha : (1 <= total_frames_of exact (fps tiny_cfg) (duration tiny_cfg))%nat)
    by (vm_compute; lia).
  assert (HN : (0 < total_frames_of exact (fps tiny_cfg) (duration tiny_cfg))%nat)
    by (vm_compute; lia).
  assert (Hsz : (0 < bytes_of 1 (height tiny_cfg) (width tiny_cfg) <= bufsize)%Z)
    by (vm_compute; split; [reflexivity|discriminate]).
  destruct (@broken_pipe_keeps_frame_prefix exact tiny_cfg 1 7 Ha HN Hsz)
    as [V _].
  apply (V exact_monotone exact_exact_on_integers no_raster no_area
           [[(0, 0); (1, 0); (1, 1)]]%Z (Ok tt)).
  cbn. lia.
Defined.

(** X13. What a run returns after a successful encoding depends on the
    files saved next to the video: with an encoder that took every frame
    and exited with 0 in time, a copy or a write that raises makes the
    contour animator, the colour animator and [process] of the trace-based
    animator return False, after the completion message was logged. *)
Theorem unsaved_outputs_fail_encoded_run (fl : Q -> Q) (cfg : config)
  (secs : nat) (e : exn) :
  (secs <= 60)%nat ->
  (monotone_rounding fl -> exact_on_integers fl ->
   forall raster area found,
     (Z.of_nat (length found) <= 2 ^ 53)%Z ->
     exists frames,
       length frames = total_frames_of fl (fps cfg) (duration cfg)
       /\ create_animation fl raster area cfg (EncExits 0 secs) true
            (Some found) (Raise e) fresh_world
          = (Ok false,
             mkWorld (Exited 0) frames true false no_cache
                     [InfoComplete; ErrAnimation e; InfoCleanedUp]))
  /\ (forall (rng : Type) (seed : Z -> rng) (randn : nat -> rng -> list Q * rng)
             (argsort : list Q -> list nat) (blur : canvas -> canvas)
             img_color mask (g : rng),
     exists frames,
       length frames = total_frames_of fl (fps cfg) (duration cfg)
       /\ create_color_animation fl seed randn argsort blur cfg
            (EncExits 0 secs) (Some (img_color, mask)) g (Raise e) fresh_world
          = (Ok false,
             mkWorld (Exited 0) frames true false no_cache
               ((if (length (np_where mask (height cfg) (width cfg)) =? 0)%nat
                 then [WarnFallback] else [])
                ++ [InfoComplete; ErrAnimation e; InfoCleanedUp])))
  /\ (forall env enc w0 w1,
        create_animation_frames_stream fl env cfg enc
          (mkWorld (proc w0) (stdin_frames w0) (stdin_closed w0) true
                   (attrs w0) (log w0))
        = (Ok true, w1) ->
        process fl env cfg enc true true true true (Raise e) w0
        = (Ok false,
           cleanup (mkWorld (proc w1) (stdin_frames w1) (stdin_closed w1)
                            (temp_dir_exists w1) (attrs w1)
                            (log w1 ++ [ErrProcessing e])))).
Proof.
  intros Hs. split; [|split].
  - intros M E raster area found Hb.
    assert (Hr := @v2_frames_render fl raster area cfg found M E Hb).
    eexists. split; [|apply v2_run_unsaved; auto].
    now rewrite length_map, length_seq.
  - intros rng seed randn argsort blur img_color mask g.
    eexists. split; [|apply color_run_unsaved; auto].
    now rewrite length_map, length_seq.
  - intros env enc w0 w1 Hrun.
    unfold process, try_finally, try_except.
    unfold bind at 1, mkdtemp at 1, modify at 1. cbn [negb].
    unfold bind at 1. rewrite Hrun. cbn [negb].
    unfold bind, lift, logger, modify, ret. reflexivity.
Qed.

Lemma unsaved_outputs_fail_encoded_run_witness :
  exists frames,
    length frames = total_frames_of exact (fps tiny_cfg) (duration tiny_cfg)
    /\ create_animation exact no_raster no_area tiny_cfg (EncExits 0 1) true
         (Some [[(0, 0); (1, 0); (1, 1)]]%Z) (Raise OSError) fresh_world
       = (Ok false,
          mkWorld (Exited 0) frames true false no_cache
                  [InfoComplete; ErrAnimation OSError; InfoCleanedUp]).
Proof.
  assert (Hs : (1 <= 60)%nat) by lia.
  destruct (@unsaved_outputs_fail_encoded_run exact tiny_cfg 1 OSError Hs)
    as [V _].
  apply (V exact_monotone exact_exact_on_integers no_raster no_area
           [[(0, 0); (1, 0); (1, 1)]]%Z).
  cbn. lia.
Defined.

(** ** What the skeletonization keeps *)

Lemma erode_within (b : bimg) : within (erode b) b.
Proof.
  intros y x Hy Hx. unfold erode. cbn [fg]. intros H.
  rewrite forallb_forall in H.
  specialize (H (0, 0)%Z). unfold kernel3 in H.
  assert (K : sample b true (Z.of_nat y + 0) (Z.of_nat x + 0) = true).
  { apply H. simpl. tauto. }
  unfold sample, inside in K. rewrite !Z.add_0_r, !Nat2Z.id in K.
  replace ((0 <=? Z.of_nat y)%Z && (Z.of_nat y <? Z.of_nat (brows b))%Z
           && (0 <=? Z.of_nat x)%Z && (Z.of_nat x <? Z.of_nat (bcols b))%Z)
    with true in K; [exact K|].
  symmetry. repeat (apply andb_true_intro; split);
    first [apply Z.leb_le; lia | apply Z.ltb_lt; lia].
Qed.

(** The loop only ever adds pixels of the image it was started on. *)
Lemma skeleton_loop_within (orig : bimg) (fuel : nat) :
  forall binary skeleton s,
    brows binary = brows orig -> bcols binary = bcols orig ->
    within binary orig -> within skeleton orig ->
    skeleton_loop fuel binary skeleton = Some s ->
    within s orig.
Proof.
  induction fuel as [|fuel IH]; intros binary skeleton s Hr Hc Wb Ws E;
    [discriminate|].
  cbn [skeleton_loop] in E.
  assert (Ws' : within (bitwise_or skeleton (subtract binary (morph_open binary)))
                       orig).
  { intros y x Hy Hx. unfold bitwise_or, subtract. cbn [fg]. intros H.
    apply orb_true_iff in H. destruct H as [H|H].
    - now apply Ws.
    - apply andb_true_iff in H. destruct H as [H _]. now apply Wb. }
  destruct (countNonZero (erode binary) =? 0)%nat.
  - inversion E; subst. exact Ws'.
  - apply (IH (erode binary)
               (bitwise_or skeleton (subtract binary (morph_open binary))) s);
      auto.
    intros y x Hy Hx H. apply Wb; auto.
    apply erode_within; [rewrite Hr|rewrite Hc|]; assumption.
Qed.

(** Iterations past the [break] change nothing. *)
Lemma skeleton_loop_more_fuel (fuel k : nat) :
  forall binary skeleton s,
    skeleton_loop fuel binary skeleton = Some s ->
    skeleton_loop (fuel + k) binary skeleton = Some s.
Proof.
  induction fuel as [|fuel IH]; intros binary skeleton s E; [discriminate|].
  cbn [skeleton_loop Nat.add] in *.
  destruct (countNonZero (erode binary) =? 0)%nat; [exact E|].
  now apply IH.
Qed.

(** X14. On an image with at least one background pixel the
    skeletonization loop of [preprocess_image] reaches its [break] within
    max(rows, cols) iterations, and the result does not depend on the
    iterations allowed beyond that.  The image written has the shape of the
    input, and it is black (a skeleton pixel) only where the thresholded
    input was foreground: every background pixel of the input stays
    white. *)
Theorem skeleton_stays_within_foreground (binary : bimg) (y0 x0 : nat) :
  (y0 < brows binary)%nat -> (x0 < bcols binary)%nat ->
  fg binary y0 x0 = false ->
  exists s,
    (forall k, skeletonize (Nat.max (brows binary) (bcols binary) + k) binary
               = Some s)
    /\ brows s = brows binary /\ bcols s = bcols binary
    /\ (forall y x, (y < brows binary)%nat -> (x < bcols binary)%nat ->
                    fg s y x = false -> fg binary y x = true).
Proof.
  intros Hy Hx Hbg.
  set (n := Nat.max (brows binary) (bcols binary)).
  destruct (@skeleton_loop_returns n n binary
              (zeros (brows binary) (bcols binary)))
    as (sk & Es & Sr & Sc).
  - subst n. lia.
  - apply (@iter_erode_empty binary y0 x0); auto; subst n; lia.
  - exists (bitwise_not sk). split; [|split; [|split]].
    + intros k. unfold skeletonize. fold n.
      rewrite (@skeleton_loop_more_fuel n k _ _ sk Es). reflexivity.
    + exact Sr.
    + exact Sc.
    + intros y x Hy' Hx' H. unfold bitwise_not in H. cbn [fg] in H.
      apply negb_false_iff in H.
      apply (@skeleton_loop_within binary n binary
               (zeros (brows binary) (bcols binary)) sk); auto.
      * intros ? ? _ _ K. exact K.
      * intros ? ? _ _ K. discriminate K.
Qed.

Lemma skeleton_stays_within_foreground_witness :
  exists s,
    (forall k, skeletonize (Nat.max (brows corner_img) (bcols corner_img) + k)
                 corner_img = Some s)
    /\ brows s = brows corner_img /\ bcols s = bcols corner_img
    /\ (forall y x, (y < brows corner_img)%nat -> (x < bcols corner_img)%nat ->
                    fg s y x = false -> fg corner_img y x = true).
Proof.
  apply (@skeleton_stays_within_foreground corner_img 0 0).
  - cbn. lia.
  - cbn. lia.
  - reflexivity.
Defined.

(** ** The glow trail of the highlight animator *)

Lemma py_min_le_l (a b : Q) : py_min a b <= a.
Proof.
  unfold py_min. destruct (Qle_bool a b) eqn:E; [apply Qle_refl|].
  destruct (Qlt_le_dec b a) as [L|L]; [now apply Qlt_le_weak|].
  apply Qle_bool_iff in L. congruence.
Qed.

Lemma py_min_monotone (a b c : Q) : b <= c -> py_min a b <= py_min a c.
Proof.
  intros H. unfold py_min.
  destruct (Qle_bool a b) eqn:E1; destruct (Qle_bool a c) eqn:E2.
  - apply Qle_refl.
  - apply Qle_bool_iff in E1.
    exfalso. assert (K : a <= c) by (eapply Qle_trans; eauto).
    apply Qle_bool_iff in K. congruence.
  - destruct (Qlt_le_dec b a) as [L|L]; [now apply Qlt_le_weak|].
    apply Qle_bool_iff in L. congruence.
  - exact H.
Qed.

Section GlowFacts.

Variable fl : Q -> Q.

Lemma glow_circles_ok (trail : Z) (len : nat) :
  (1 <= trail)%Z ->
  forall recent i,
    exists circles,
      glow_circles fl recent len i trail = Ok circles
      /\ map fst circles
         = map (fun p : nat * nat => (Z.of_nat (snd p), Z.of_nat (fst p))) recent
      /\ Forall (fun c => snd c <= 1) circles
      /\ (monotone_rounding fl ->
          Forall (fun c => snd c
                           <= py_min 1 (fl (QofNat (len - i)
                                            / inject_Z (trail * 10)))) circles
          /\ StronglySorted (fun c d => snd d <= snd c) circles).
Proof.
  intros Ht.
  assert (K : Qeq_bool (inject_Z (trail * 10)) 0 = false).
  { destruct (Qeq_bool _ _) eqn:E; [|reflexivity].
    apply Qeq_bool_iff in E. unfold Qeq in E. simpl in E. lia. }
  assert (Step : forall a b, (a <= b)%nat -> monotone_rounding fl ->
            py_min 1 (fl (QofNat a / inject_Z (trail * 10)))
            <= py_min 1 (fl (QofNat b / inject_Z (trail * 10)))).
  { intros a b Hab M. apply py_min_monotone, M.
    unfold Qdiv. apply Qmult_le_compat_r; [now apply QofNat_le|].
    apply Qlt_le_weak, Qinv_lt_0_compat.
    change 0 with (inject_Z 0). rewrite <- Zlt_Qlt. lia. }
  induction recent as [|[py px] rest IH]; intros i.
  - exists []. cbn. repeat split; constructor.
  - destruct (IH (S i)) as (later & E & Hc & H1 & Hm).
    cbn [glow_circles]. rewrite K. cbn [rbind]. rewrite E. cbn [rbind].
    eexists. split; [reflexivity|].
    split; [cbn [map fst snd]; now rewrite Hc|].
    split; [constructor; [apply py_min_le_l|exact H1]|].
    intros M. destruct (Hm M) as [Hb Hs].
    assert (Hb' : Forall (fun c => snd c
                            <= py_min 1 (fl (QofNat (len - i)
                                             / inject_Z (trail * 10)))) later).
    { eapply Forall_impl; [|exact Hb]. cbn. intros c Hle.
      eapply Qle_trans; [exact Hle|]. apply Step; [lia|exact M]. }
    split.
    + constructor; [apply Qle_refl|exact Hb'].
    + constructor; [exact Hs|exact Hb'].
Qed.

End GlowFacts.

Lemma py_slice_length {A} (xs : list A) (a b : Z) :
  (0 <= a <= b)%Z -> (b <= Z.of_nat (length xs))%Z ->
  length (py_slice xs a b) = Z.to_nat (b - a).
Proof.
  intros Ha Hb. unfold py_slice, py_bound.
  replace (a <? 0)%Z with false by (symmetry; apply Z.ltb_ge; lia).
  replace (b <? 0)%Z with false by (symmetry; apply Z.ltb_ge; lia).
  rewrite length_skipn, length_firstn. lia.
Qed.

(** X15. The glow block of the highlight animator never divides by zero:
    when the trail length [int(fps * 0.3)] is zero (or negative) the block
    is skipped, and otherwise every intensity [age / (trail * 10)] is
    defined.  The circles are centred on the pixels of
    [stroke_pixels[glow_start:pixels_drawn]], at most [trail * 50] of them,
    every intensity is at most 1, and for a monotone rounding the
    intensities never increase along the trail: the oldest pixel of the
    trail glows most and the newest least. *)
Theorem glow_trail_defined_and_fading (fl : Q -> Q)
  (stroke_pixels : list (nat * nat)) (pixels_drawn fps0 : Z) :
  exists circles,
    glow_trail fl stroke_pixels pixels_drawn fps0 = Ok circles
    /\ ((highlight_trail_frames fl fps0 <= 0)%Z -> circles = [])
    /\ (circles <> [] ->
        map fst circles
        = map (fun p : nat * nat => (Z.of_nat (snd p), Z.of_nat (fst p)))
              (py_slice stroke_pixels
                 (glow_start pixels_drawn (highlight_trail_frames fl fps0))
                 pixels_drawn))
    /\ ((pixels_drawn <= Z.of_nat (length stroke_pixels))%Z ->
        Z.of_nat (length circles)
        = Z.max 0 (Z.min pixels_drawn (highlight_trail_frames fl fps0 * 50)))
    /\ Forall (fun c => snd c <= 1) circles
    /\ (monotone_rounding fl ->
        StronglySorted (fun c d => snd d <= snd c) circles).
Proof.
  unfold glow_trail.
  set (trail := highlight_trail_frames fl fps0).
  destruct (0 <? pixels_drawn)%Z eqn:Hp.
  2:{ apply Z.ltb_ge in Hp. exists []. repeat split; try constructor.
      - congruence.
      - cbn [length]. lia. }
  apply Z.ltb_lt in Hp.
  destruct (glow_start pixels_drawn trail <? pixels_drawn)%Z eqn:Hs.
  2:{ apply Z.ltb_ge in Hs. exists []. repeat split; try constructor.
      - congruence.
      - unfold glow_start in Hs. cbn [length]. lia. }
  apply Z.ltb_lt in Hs.
  assert (Ht : (1 <= trail)%Z) by (unfold glow_start in Hs; lia).
  destruct (@glow_circles_ok fl trail
              (length (py_slice stroke_pixels (glow_start pixels_drawn trail)
                                pixels_drawn))
              Ht (py_slice stroke_pixels (glow_start pixels_drawn trail)
                           pixels_drawn) 0)
    as (circles & E & Hc & H1 & Hm).
  exists circles. split; [exact E|].
  split; [intros; lia|].
  split; [intros _; exact Hc|].
  split.
  - intros Hb.
    assert (L : length circles
                = length (py_slice stroke_pixels (glow_start pixels_drawn trail)
                                   pixels_drawn)).
    { rewrite <- (length_map fst circles), Hc. apply length_map. }
    rewrite L, py_slice_length by (unfold glow_start; lia).
    unfold glow_start. lia.
  - split; [exact H1|]. intros M. now destruct (Hm M).
Qed.

Lemma glow_trail_defined_and_fading_witness :
  exists circles,
    glow_trail exact [(0, 0); (0, 1); (1, 0)]%nat 2 30 = Ok circles
    /\ StronglySorted (fun c d => snd d <= snd c) circles.
Proof.
  destruct (@glow_trail_defined_and_fading exact [(0, 0); (0, 1); (1, 0)]%nat
              2 30) as (circles & E & _ & _ & _ & _ & S).
  exists circles. split; [exact E|]. apply S. exact exact_monotone.
Defined.

(** ** The dependency check and the bitmap handed to Potrace *)

(** X16. [check_dependencies] lets [process] go on exactly when
    [potrace --version] exited with 0 and either [ffmpeg -version] exited
    with 0, or it could not be run (not found, timed out) on Windows with
    the bundled FFmpeg present, in which case the bundled path is stored.
    A non-zero exit code of FFmpeg is never made up for by the bundled
    one.  The flag that the check returns is stricter: it is also False
    when only OpenCV is absent, and [process] then goes on all the same. *)
Theorem dependency_gate_characterised (potrace ffmpeg : run_outcome)
  (win32 bundled has_cv2 : bool) :
  let checked := check_dependencies potrace ffmpeg win32 bundled has_cv2 in
  (dependencies_gate checked = true <->
     potrace = RunExit 0
     /\ (ffmpeg = RunExit 0
         \/ ((ffmpeg = RunNotFound \/ ffmpeg = RunTimeout)
             /\ win32 = true /\ bundled = true)))
  /\ fst (fst checked) = dependencies_gate checked && has_cv2
  /\ (snd checked = true <->
        (ffmpeg = RunNotFound \/ ffmpeg = RunTimeout)
        /\ win32 = true /\ bundled = true)
  /\ (fst (fst checked) = true <-> snd (fst checked) = []).
Proof.
  cbv zeta. unfold check_dependencies, dependencies_gate.
  destruct potrace as [pc| |]; destruct ffmpeg as [fc| |];
    try destruct (Z.eqb_spec pc 0); try destruct (Z.eqb_spec fc 0);
    destruct win32, bundled, has_cv2; cbn;
    intuition (try congruence; try discriminate).
Qed.

Lemma flat_rows_nth {A} (f : nat -> nat -> A) (w : nat) (d : A) :
  forall h s y x,
    (y < h)%nat -> (x < w)%nat ->
    nth (y * w + x)
        (flat_map (fun r => map (fun c => f r c) (seq 0 w)) (seq s h)) d
    = f (s + y)%nat x.
Proof.
  induction h as [|h IH]; intros s y x Hy Hx; [lia|].
  cbn [seq flat_map].
  destruct y as [|y].
  - rewrite Nat.mul_0_l, Nat.add_0_l, Nat.add_0_r.
    rewrite app_nth1 by (rewrite length_map, length_seq; exact Hx).
    rewrite (nth_indep _ d (f s 0%nat))
      by (rewrite length_map, length_seq; exact Hx).
    rewrite (map_nth (fun c => f s c)), seq_nth by exact Hx. reflexivity.
  - rewrite app_nth2 by (rewrite length_map, length_seq; lia).
    rewrite length_map, length_seq.
    replace (S y * w + x - w)%nat with (y * w + x)%nat by lia.
    rewrite IH by lia. f_equal. lia.
Qed.

Lemma gimg_tobytes_length (img : gimg) :
  length (gimg_tobytes img) = (grows img * gcols img)%nat.
Proof.
  unfold gimg_tobytes.
  rewrite (length_flat_map_const _ (n := gcols img)).
  - now rewrite length_seq.
  - intros y. now rewrite length_map, length_seq.
Qed.

(** X17. With OpenCV, an image that could be read and a file that could be
    opened, [convert_to_pbm] returns True and writes, under the header
    [P4 width height], one byte per pixel: width * height bytes, the byte
    of pixel (y, x) at offset y * width + x, 255 where the grey level is at
    most 127 and 0 where it is above.  That is more than the
    ceil(width / 8) * height bytes of a raster with eight pixels to the
    byte as soon as the image is two pixels wide.  The function returns
    False when the image cannot be read or the file cannot be opened, and
    the only exception that leaves it is the timeout of ImageMagick when
    OpenCV is absent. *)
Theorem pbm_payload_is_one_byte_per_pixel (has_cv2 : bool)
  (magick : run_outcome) (imread : option gimg) (open_pbm : res unit) :
  (forall img, has_cv2 = true -> imread = Some img -> open_pbm = Ok tt ->
     exists f,
       convert_to_pbm has_cv2 magick imread open_pbm = Ok (true, Some f)
       /\ pbm_magic f = "P4"%string
       /\ pbm_width f = gcols img /\ pbm_height f = grows img
       /\ length (pbm_data f) = (pbm_height f * pbm_width f)%nat
       /\ (forall y x, (y < grows img)%nat -> (x < gcols img)%nat ->
             nth (y * gcols img + x) (pbm_data f) 0%Z
             = if (gray img y x <=? 127)%Z then 255%Z else 0%Z)
       /\ ((2 <= gcols img)%nat -> (1 <= grows img)%nat ->
           ((pbm_width f + 7) / 8 * pbm_height f < length (pbm_data f))%nat))
  /\ (has_cv2 = true -> imread = None \/ (exists e, open_pbm = Raise e) ->
      convert_to_pbm has_cv2 magick imread open_pbm = Ok (false, None))
  /\ (forall e, convert_to_pbm has_cv2 magick imread open_pbm = Raise e ->
        has_cv2 = false /\ magick = RunTimeout /\ e = TimeoutExpired).
Proof.
  split; [|split].
  - intros img Hcv Hi Ho. unfold convert_to_pbm. rewrite Hcv, Hi, Ho.
    cbn [negb]. eexists. split; [reflexivity|].
    cbn [pbm_magic pbm_width pbm_height pbm_data threshold_binary_inv
         grows gcols].
    split; [reflexivity|]. split; [reflexivity|]. split; [reflexivity|].
    split; [rewrite gimg_tobytes_length; reflexivity|]. split.
    + intros y x Hy Hx. unfold gimg_tobytes.
      cbn [grows gcols gray threshold_binary_inv].
      rewrite (flat_rows_nth
                 (fun r c => if (127 <? gray img r c)%Z then 0%Z else 255%Z))
        by assumption.
      cbn [Nat.add].
      destruct (127 <? gray img y x)%Z eqn:A;
        destruct (gray img y x <=? 127)%Z eqn:B; try reflexivity.
      * apply Z.ltb_lt in A. apply Z.leb_le in B. lia.
      * apply Z.ltb_ge in A. apply Z.leb_gt in B. lia.
    + intros Hw Hh. rewrite gimg_tobytes_length.
      cbn [grows gcols threshold_binary_inv].
      rewrite (Nat.mul_comm (grows img)).
      apply Nat.mul_lt_mono_pos_r; [lia|].
      apply Nat.Div0.div_lt_upper_bound. lia.
  - intros Hcv H. unfold convert_to_pbm. rewrite Hcv. cbn [negb].
    destruct H as [H|[e H]].
    + now rewrite H.
    + rewrite H. now destruct imread.
  - intros e H. unfold convert_to_pbm in H.
    destruct has_cv2; cbn [negb] in H.
    + destruct imread; [destruct open_pbm|]; discriminate.
    + destruct magick as [code| |]; try discriminate.
      * destruct (code =? 0)%Z; discriminate.
      * inversion H. auto.
Qed.

Lemma pbm_payload_is_one_byte_per_pixel_witness :
  exists f,
    convert_to_pbm true RunNotFound (Some halves) (Ok tt) = Ok (true, Some f)
    /\ pbm_magic f = "P4"%string
    /\ pbm_width f = 3%nat /\ pbm_height f = 2%nat
    /\ length (pbm_data f) = 6%nat
    /\ ((pbm_width f + 7) / 8 * pbm_height f < length (pbm_data f))%nat.
Proof.
  destruct (@pbm_payload_is_one_byte_per_pixel true RunNotFound (Some halves)
              (Ok tt)) as [H _].
  destruct (H halves eq_refl eq_refl eq_refl)
    as (f & E & M & W & Hh & L & _ & P).
  exists f. split; [exact E|]. split; [exact M|].
  split; [exact W|]. split; [exact Hh|].
  split; [rewrite L, W, Hh; reflexivity|].
  apply P; cbn; lia.
Defined.

(** ** The end of each pass of the whiteboard animator *)

Section WhiteboardPasses.

Variable fl : Q -> Q.
Variable np_sin : Q -> Q.
Variable contour_raster : contour -> Z -> nat -> nat -> bool.
Variable line_raster : point -> point -> nat -> nat -> pixel -> pixel.
Variable circle_raster : circle_op -> nat -> nat -> pixel -> pixel.
Variable moments : contour -> Q * Q * Q.

Hypothesis fl_monotone : monotone_rounding fl.
Hypothesis fl_exact : exact_on_integers fl.

(** The share of a pass at its last frame is 1, so the count is the total. *)
Lemma whole_share (total : nat) (k : Z) :
  (Z.of_nat total <= 2 ^ 53)%Z -> (0 < k)%Z ->
  py_int (fl (QofNat total * fl (inject_Z k / inject_Z k))) = Z.of_nat total.
Proof.
  intros Hb Hk.
  rewrite <- (py_int_integer (Z.of_nat total)).
  apply py_int_compat.
  rewrite (@monotone_rounding_compat fl fl_monotone _ (inject_Z (Z.of_nat total))).
  - apply fl_exact. lia.
  - rewrite (@monotone_rounding_compat fl fl_monotone _ (inject_Z 1)).
    + rewrite (fl_exact 1%Z) by (simpl; lia). apply Qmult_1_r.
    + change (inject_Z 1) with 1. apply Qmult_inv_r.
      intros K. unfold Qeq in K. simpl in K. lia.
Qed.

Lemma fold_fills_all (img_color : canvas) (color_fills : list contour)
  (acc : canvas * (Z * Z)) :
  fold_left (fun a i => draw_fill fl contour_raster moments img_color
                                  (nth i color_fills []) a)
            (seq 0 (length color_fills)) acc
  = fold_left (fun a cnt => draw_fill fl contour_raster moments img_color cnt a)
              color_fills acc.
Proof.
  rewrite <- (map_nth_seq color_fills []) at 2.
  generalize (seq 0 (length color_fills)). intros idxs. revert acc.
  induction idxs as [|i idxs IH]; intros acc; [reflexivity|].
  cbn [map fold_left]. apply IH.
Qed.

Variable img_color : canvas.
Variable outline_paths : list (list point).
Variable color_fills : list contour.
Variables h w N : nat.

Lemma outline_pass_ends_complete (i : nat) :
  outline_paths <> [] ->
  (Z.of_nat (sum_lengths outline_paths) <= 2 ^ 53)%Z ->
  (Z.of_nat i + 1 = outline_frames_of fl N)%Z ->
  whiteboard_canvas fl np_sin contour_raster line_raster circle_raster moments
    img_color outline_paths color_fills h w i N
  = Ok (draw_hand_cursor fl np_sin circle_raster
          (draw_all_outlines line_raster outline_paths (blank h w))
          (fst (last (last outline_paths []) (0, 0)%Z))
          (snd (last (last outline_paths []) (0, 0)%Z)) i).
Proof.
  intros Hne Hb Hi. unfold whiteboard_canvas.
  assert (Hn : nonempty_list outline_paths = true)
    by (destruct outline_paths; [congruence|reflexivity]).
  rewrite Hn.
  replace (Z.of_nat i <? outline_frames_of fl N)%Z with true
    by (symmetry; apply Z.ltb_lt; lia).
  cbn [andb]. unfold wb_truediv.
  destruct (Qeq_bool (inject_Z (outline_frames_of fl N)) 0) eqn:K.
  { apply Qeq_bool_iff in K. unfold Qeq in K. simpl in K. lia. }
  cbn [rbind].
  replace (QofNat (i + 1)) with (inject_Z (outline_frames_of fl N))
    by (unfold QofNat; f_equal; lia).
  rewrite whole_share by (auto; lia).
  rewrite draw_outlines_complete by lia.
  replace (last (map (fun p => last p (0, 0)%Z) outline_paths)
                (Z.of_nat w / 2, Z.of_nat h / 2)%Z)
    with (last (last outline_paths []) (0, 0)%Z).
  - destruct (last (last outline_paths []) (0, 0)%Z) as [cx cy]. reflexivity.
  - clear -Hne. induction outline_paths as [|p ps IH]; [congruence|].
    destruct ps as [|q ps]; [reflexivity|].
    change (last (p :: q :: ps) []) with (last (q :: ps) []).
    change (map (fun p0 => last p0 (0, 0)%Z) (p :: q :: ps))
      with (last p (0, 0)%Z :: map (fun p0 => last p0 (0, 0)%Z) (q :: ps)).
    rewrite IH by discriminate. reflexivity.
Qed.

Lemma fill_pass_ends_complete (i : nat) :
  color_fills <> [] ->
  (Z.of_nat (length color_fills) <= 2 ^ 53)%Z ->
  (0 < color_frames_of fl N)%Z ->
  (Z.of_nat i + 1 = outline_frames_of fl N + color_frames_of fl N)%Z ->
  whiteboard_canvas fl np_sin contour_raster line_raster circle_raster moments
    img_color outline_paths color_fills h w i N
  = Ok (fst (fold_left
               (fun a cnt => draw_fill fl contour_raster moments img_color cnt a)
               color_fills
               (draw_all_outlines line_raster outline_paths (blank h w),
                (Z.of_nat w / 2, Z.of_nat h / 2)%Z))).
Proof.
  intros Hne Hb Hc Hi. unfold whiteboard_canvas.
  assert (Hn : nonempty_list color_fills = true)
    by (destruct color_fills; [congruence|reflexivity]).
  rewrite Hn.
  replace (Z.of_nat i <? outline_frames_of fl N)%Z with false
    by (symmetry; apply Z.ltb_ge; lia).
  replace (outline_frames_of fl N <=? Z.of_nat i)%Z with true
    by (symmetry; apply Z.leb_le; lia).
  cbn [andb]. unfold wb_truediv.
  destruct (Qeq_bool (inject_Z (color_frames_of fl N)) 0) eqn:K.
  { apply Qeq_bool_iff in K. unfold Qeq in K. simpl in K. lia. }
  cbn [rbind].
  replace (Z.of_nat i - outline_frames_of fl N + 1)%Z
    with (color_frames_of fl N) by lia.
  rewrite whole_share by (auto; lia).
  rewrite Z.min_id, Z.ltb_irrefl.
  unfold py_range. rewrite Nat2Z.id, fold_fills_all.
  match goal with
  | |- context [fold_left ?f ?l ?a] => destruct (fold_left f l a) as [c2 [cx cy]]
  end.
  reflexivity.
Qed.

(** Without outline paths the frames of the first pass fall through to the
    last branch. *)
Lemma no_outlines_open_on_image (i : nat) :
  outline_paths = [] -> (Z.of_nat i < outline_frames_of fl N)%Z ->
  whiteboard_canvas fl np_sin contour_raster line_raster circle_raster moments
    img_color outline_paths color_fills h w i N
  = Ok img_color.
Proof.
  intros He Hi. unfold whiteboard_canvas. rewrite He.
  replace (outline_frames_of fl N <=? Z.of_nat i)%Z with false
    by (symmetry; apply Z.leb_gt; lia).
  cbn [nonempty_list andb]. rewrite andb_false_r. reflexivity.
Qed.

End WhiteboardPasses.

(** X18. In the whiteboard animator each pass ends complete.  The last
    frame of the outline pass (frame index [outline_frames - 1]) shows
    every outline path (none of them empty) drawn to its end, the cursor on
    the last point of the last path; the last frame of the fill pass (frame index
    [outline_frames + color_frames - 1]) shows every outline and every
    colour fill, and no cursor.  (The image has the size of the frame; the
    rounding is monotone and exact on the integers up to 2^53.) *)
Theorem whiteboard_passes_end_complete (fl np_sin : Q -> Q)
  (contour_raster : contour -> Z -> nat -> nat -> bool)
  (line_raster : point -> point -> nat -> nat -> pixel -> pixel)
  (circle_raster : circle_op -> nat -> nat -> pixel -> pixel)
  (moments : contour -> Q * Q * Q) (img_color : canvas)
  (outline_paths : list (list point)) (color_fills : list contour)
  (h w N : nat) :
  monotone_rounding fl -> exact_on_integers fl ->
  shape img_color = (h, w) ->
  (Z.of_nat (sum_lengths outline_paths) <= 2 ^ 53)%Z ->
  (Z.of_nat (length color_fills) <= 2 ^ 53)%Z ->
  (forall i, outline_paths <> [] ->
     Forall (fun p : list point => p <> []) outline_paths ->
     (Z.of_nat i + 1 = outline_frames_of fl N)%Z ->
     whiteboard_canvas fl np_sin contour_raster line_raster circle_raster
       moments img_color outline_paths color_fills h w i N
     = Ok (draw_hand_cursor fl np_sin circle_raster
             (draw_all_outlines line_raster outline_paths (blank h w))
             (fst (last (last outline_paths []) (0, 0)%Z))
             (snd (last (last outline_paths []) (0, 0)%Z)) i))
  /\ (forall i, color_fills <> [] -> (0 < color_frames_of fl N)%Z ->
        (Z.of_nat i + 1 = outline_frames_of fl N + color_frames_of fl N)%Z ->
        whiteboard_canvas fl np_sin contour_raster line_raster circle_raster
          moments img_color outline_paths color_fills h w i N
        = Ok (fst (fold_left
                     (fun a cnt => draw_fill fl contour_raster moments
                                             img_color cnt a)
                     color_fills
                     (draw_all_outlines line_raster outline_paths (blank h w),
                      (Z.of_nat w / 2, Z.of_nat h / 2)%Z)))).
Proof.
  intros M E _ Hb1 Hb2. split.
  - intros i Hne _ Hi. now apply outline_pass_ends_complete.
  - intros i Hne Hc Hi. now apply fill_pass_ends_complete.
Qed.

Lemma whiteboard_passes_end_complete_witness :
  whiteboard_canvas exact flat_sin box_raster keep_line keep_circle no_moments
    square_img [square] [square] 12 12 4 10
  = Ok (draw_hand_cursor exact flat_sin keep_circle
          (draw_all_outlines keep_line [square] (blank 12 12))
          (fst (last (last [square] []) (0, 0)%Z))
          (snd (last (last [square] []) (0, 0)%Z)) 4).
Proof.
  destruct (@whiteboard_passes_end_complete exact flat_sin box_raster keep_line
              keep_circle no_moments square_img [square] [square] 12 12 10
              exact_monotone exact_exact_on_integers eq_refl) as [H _].
  - cbn. lia.
  - cbn. lia.
  - apply H; [discriminate|repeat constructor; discriminate|].
    destruct (whiteboard_segments_exact 10) as [O _]. rewrite O. reflexivity.
Defined.

(** X19. A whiteboard run in which no outline path was extracted opens on
    the finished picture: with an image of the configured size and an
    encoder that keeps reading, every frame written during the first pass
    (frame index below [outline_frames]) is the enhanced image itself, as
    in the final hold, and the colour fills start from a white canvas only
    after that. *)
Theorem no_outlines_first_pass_shows_image (fl np_sin : Q -> Q)
  (contour_raster : contour -> Z -> nat -> nat -> bool)
  (line_raster : point -> point -> nat -> nat -> pixel -> pixel)
  (circle_raster : circle_op -> nat -> nat -> pixel -> pixel)
  (moments : contour -> Q * Q * Q) (img_color : canvas)
  (color_fills : list contour) (cfg : config) (enc : encoder)
  (save_outputs : res unit) (i : nat) :
  shape img_color = (height cfg, width cfg) ->
  color_fills <> [] ->
  color_frames_of fl (total_frames_of fl (fps cfg) (duration cfg)) <> 0%Z ->
  takes enc (total_frames_of fl (fps cfg) (duration cfg)) ->
  (i < total_frames_of fl (fps cfg) (duration cfg))%nat ->
  (Z.of_nat i
   < outline_frames_of fl (total_frames_of fl (fps cfg) (duration cfg)))%Z ->
  nth i (stdin_frames
           (snd (create_whiteboard_animation fl np_sin contour_raster
                   line_raster circle_raster moments cfg enc
                   (WbStrokes img_color [] color_fills) save_outputs
                   fresh_world))) []
  = tobytes (bgr2rgb img_color).
Proof.
  intros Hs Hne Hc Ht Hi Ho.
  set (N := total_frames_of fl (fps cfg) (duration cfg)) in *.
  rewrite (@whiteboard_run_frames fl np_sin contour_raster line_raster
             circle_raster moments img_color [] color_fills
             (height cfg) (width cfg) N Hs cfg (conj eq_refl eq_refl) eq_refl);
    auto.
  - match goal with
    | |- nth i (map ?f _) [] = _ =>
        rewrite (nth_indep _ [] (f 0%nat))
          by (now rewrite length_map, length_seq);
        rewrite (map_nth f)
    end.
    rewrite seq_nth by exact Hi. cbn [Nat.add].
    rewrite no_outlines_open_on_image by auto. reflexivity.
  - destruct color_fills; [congruence|reflexivity].
Qed.

Lemma no_outlines_first_pass_shows_image_witness :
  nth 0 (stdin_frames
           (snd (create_whiteboard_animation exact flat_sin box_raster
                   keep_line keep_circle no_moments square_cfg (EncExits 0 1)
                   (WbStrokes square_img [] [square]) (Ok tt) fresh_world))) []
  = tobytes (bgr2rgb square_img).
Proof.
  apply (@no_outlines_first_pass_shows_image exact flat_sin box_raster keep_line
           keep_circle no_moments square_img [square] square_cfg (EncExits 0 1)
           (Ok tt) 0 eq_refl).
  - discriminate.
  - replace (total_frames_of exact (fps square_cfg) (duration square_cfg))
      with 10%nat by reflexivity.
    destruct (whiteboard_segments_exact 10) as [_ C]. rewrite C. discriminate.
  - exact I.
  - cbn. lia.
  - replace (total_frames_of exact (fps square_cfg) (duration square_cfg))
      with 10%nat by reflexivity.
    destruct (whiteboard_segments_exact 10) as [O _]. rewrite O. reflexivity.
Defined.

(** ** Runs of the highlight animator *)

Lemma glow_trail_returns (fl : Q -> Q) (stroke_pixels : list (nat * nat))
  (pixels_drawn fps0 : Z) :
  exists circles, glow_trail fl stroke_pixels pixels_drawn fps0 = Ok circles.
Proof.
  unfold glow_trail.
  destruct (0 <? pixels_drawn)%Z eqn:Hp; [|now exists []].
  apply Z.ltb_lt in Hp.
  destruct (glow_start pixels_drawn (highlight_trail_frames fl fps0)
            <? pixels_drawn)%Z eqn:Hs; [|now exists []].
  apply Z.ltb_lt in Hs.
  destruct (@glow_circles_ok fl (highlight_trail_frames fl fps0)
              (length (py_slice stroke_pixels
                         (glow_start pixels_drawn (highlight_trail_frames fl fps0))
                         pixels_drawn)))
    with (recent := py_slice stroke_pixels
                      (glow_start pixels_drawn (highlight_trail_frames fl fps0))
                      pixels_drawn) (i := 0%nat)
    as (circles & E & _).
  - unfold glow_start in Hs. lia.
  - now exists circles.
Qed.

Section HighlightRuns.

Variable fl : Q -> Q.
Variable rng : Type.
Variable np_random_seed : Z -> rng.
Variable np_random_randn : nat -> rng -> list Q * rng.
Variable np_argsort : list Q -> list nat.
Variable np_sin : Q -> Q.
Variable circle_raster : circle_op -> nat -> nat -> pixel -> pixel.
Variable glow_filter : list (point * Q) -> canvas -> canvas.
Variable addWeighted : canvas -> canvas -> canvas.

(** OpenCV's filters return an array of the shape of their first input. *)
Hypothesis glow_shape : forall circles c, shape (glow_filter circles c) = shape c.
Hypothesis blend_shape : forall c overlay, shape (addWeighted c overlay) = shape c.

Lemma highlight_canvas_ok (img_color : canvas) (stroke_pixels : list (nat * nat))
  (total_pixels h w : nat) (fps0 : Z) (i N : nat) :
  exists c,
    highlight_canvas fl np_sin circle_raster glow_filter addWeighted img_color
                     stroke_pixels total_pixels h w fps0 i N = Ok c
    /\ shape c = (h, w).
Proof.
  unfold highlight_canvas.
  destruct (0 <? pixels_to_draw fl total_pixels i N)%Z.
  - destruct (@glow_trail_returns fl stroke_pixels
                (pixels_to_draw fl total_pixels i N) fps0) as [circles E].
    rewrite E. cbn [rbind].
    set (canvas2 := match circles with
                    | [] => _
                    | _ :: _ => _
                    end).
    assert (S2 : shape canvas2 = (h, w)).
    { subst canvas2. destruct circles; [reflexivity|].
      rewrite glow_shape. reflexivity. }
    destruct (highlight_cursor_ops fl np_sin stroke_pixels
                (pixels_to_draw fl total_pixels i N) total_pixels i);
      cbn [rbind]; eexists; (split; [reflexivity|]);
      rewrite bgr2rgb_shape; [exact S2|].
    rewrite blend_shape. exact S2.
  - cbn [rbind]. eexists. split; reflexivity.
Qed.

Variable cfg : config.
Variable img_color : canvas.
Variable mask : nat -> nat -> bool.
Variable g : rng.
Variable save_outputs : res unit.

Let N := total_frames_of fl (fps cfg) (duration cfg).

Lemma highlight_run_frames (enc : encoder) :
  takes enc N ->
  holds_frames N (height cfg) (width cfg)
    (stdin_frames
       (snd (create_highlight_animation fl np_random_seed np_random_randn
               np_argsort np_sin circle_raster glow_filter addWeighted cfg enc
               (HlLoaded img_color mask) g save_outputs fresh_world))).
Proof.
  intros Ht.
  unfold create_highlight_animation, try_finally, try_except.
  fold N.
  set (plan := fst (highlight_drawing_plan fl np_random_seed np_random_randn
                      np_argsort mask (height cfg) (width cfg) g)).
  set (total := length (stroke_pixels_of mask (height cfg) (width cfg))).
  set (hl_bytes := fun i : nat =>
         frame_bytes (highlight_canvas fl np_sin circle_raster glow_filter
                        addWeighted img_color plan total (height cfg)
                        (width cfg) (fps cfg) i N)).
  set (body := fun frame_idx : nat => bind (lift _) _).
  assert (Hloop : forall w0, proc w0 = Running -> stdin_frames w0 = [] ->
            for_each (seq 0 N) body w0
            = (Ok tt, push_frames (map hl_bytes (seq 0 N)) w0)).
  { intros w0 Hp Hf.
    apply (@for_each_streams nat enc hl_bytes); auto.
    - intros i w1 _. subst body hl_bytes. cbv beta.
      destruct (@highlight_canvas_ok img_color plan total (height cfg)
                  (width cfg) (fps cfg) i N) as (c & E & _).
      unfold bind, lift. rewrite E. reflexivity.
    - rewrite Hf, length_seq. exact Ht. }
  assert (Hframes : holds_frames N (height cfg) (width cfg)
                      (map hl_bytes (seq 0 N))).
  { apply holds_frames_seq. intros i _. subst hl_bytes. cbv beta.
    destruct (@highlight_canvas_ok img_color plan total (height cfg)
                (width cfg) (fps cfg) i N) as (c & E & S).
    rewrite E. cbn [frame_bytes]. now apply shape_bytes. }
  unfold bind at 1.
  destruct (length (np_where mask (height cfg) (width cfg)) =? 0)%nat;
    [unfold logger at 1, modify at 1|unfold ret at 1];
    cbn [fst snd]; unfold bind at 1; start_encoder; unfold bind at 1;
    rewrite Hloop by reflexivity;
    (destruct enc as [code secs|after code| |e]; finish_run;
     [ destruct (secs <=? 60)%nat; cbn; [|exact Hframes];
       destruct (code =? 0)%Z; cbn; [|exact Hframes];
       destruct save_outputs; exact Hframes
     | either_close; [exact Hframes|];
       destruct (code =? 0)%Z; cbn; [|exact Hframes];
       destruct save_outputs; exact Hframes
     | exact Hframes
     | contradiction ]).
Qed.

End HighlightRuns.

(** X20. Once the image is loaded, a run of the highlight animator whose
    encoder keeps reading writes exactly N frames of height * width * 3
    bytes: no frame of the loop raises, whatever the frame rate, the mask
    and the permutation that [argsort] gives (the glow block is skipped
    when its divisor would be zero), provided that the image has the size
    of the frame and that the glow filter and the blend return arrays of
    the shape of their input.  The last frame of a run
    carries no cursor: all pixels are drawn by then. *)
Theorem highlight_writes_every_frame (fl np_sin : Q -> Q) (rng : Type)
  (seed : Z -> rng) (randn : nat -> rng -> list Q * rng)
  (argsort : list Q -> list nat)
  (circle_raster : circle_op -> nat -> nat -> pixel -> pixel)
  (glow_filter : list (point * Q) -> canvas -> canvas)
  (addWeighted : canvas -> canvas -> canvas)
  (cfg : config) (enc : encoder) (img_color : canvas)
  (mask : nat -> nat -> bool) (g : rng) (save_outputs : res unit) :
  (forall circles c, shape (glow_filter circles c) = shape c) ->
  (forall c overlay, shape (addWeighted c overlay) = shape c) ->
  (forall scores, Permutation (argsort scores) (seq 0 (length scores))) ->
  (forall n s, length (fst (randn n s)) = n) ->
  shape img_color = (height cfg, width cfg) ->
  takes enc (total_frames_of fl (fps cfg) (duration cfg)) ->
  holds_frames (total_frames_of fl (fps cfg) (duration cfg))
    (height cfg) (width cfg)
    (stdin_frames
       (snd (create_highlight_animation fl seed randn argsort np_sin
               circle_raster glow_filter addWeighted cfg enc
               (HlLoaded img_color mask) g save_outputs fresh_world)))
  /\ (monotone_rounding fl -> exact_on_integers fl ->
      forall stroke_pixels total_pixels N,
        (Z.of_nat total_pixels <= 2 ^ 53)%Z -> (0 < N)%nat ->
        highlight_cursor_ops fl np_sin stroke_pixels
          (pixels_to_draw fl total_pixels (N - 1) N) total_pixels (N - 1)
        = []).
Proof.
  intros Hg Hb _ _ _ Ht. split; [now apply highlight_run_frames|].
  intros M E stroke_pixels total_pixels N Hbd HN.
  unfold highlight_cursor_ops, pixels_to_draw.
  rewrite reveal_count_last by auto.
  rewrite Z.ltb_irrefl, andb_false_r. reflexivity.
Qed.

Lemma highlight_writes_every_frame_witness :
  holds_frames 10 12 12
    (stdin_frames
       (snd (create_highlight_animation exact (fun _ : Z => tt)
               (fun n (_ : unit) => (repeat 0 n, tt))
               (fun scores => seq 0 (length scores)) flat_sin keep_circle
               keep_glow keep_blend square_cfg (EncExits 0 1)
               (HlLoaded square_img (box_raster square (-1))) tt (Ok tt)
               fresh_world))).
Proof.
  refine (proj1 (@highlight_writes_every_frame exact flat_sin unit (fun _ : Z => tt)
           (fun n (_ : unit) => (repeat 0 n, tt))
           (fun scores => seq 0 (length scores)) keep_circle keep_glow
           keep_blend square_cfg (EncExits 0 1) square_img
           (box_raster square (-1)) tt (Ok tt) _ _ _ _ _ _)).
  - reflexivity.
  - reflexivity.
  - intros scores. apply Permutation_refl.
  - intros n s. apply repeat_length.
  - reflexivity.
  - exact I.
Defined.

(** ** The job store of the rendering API *)

Import JobServer.

Lemma dict_get_set_same {V} (k : string) (v : V) (d : list (string * V)) :
  dict_get k (dict_set k v d) = Some v.
Proof.
  induction d as [|[k' v'] d IH]; cbn [dict_set dict_get].
  - now rewrite String.eqb_refl.
  - destruct (String.eqb_spec k k') as [E|NE]; cbn [dict_get].
    + subst. now rewrite String.eqb_refl.
    + destruct (String.eqb_spec k k'); [contradiction|exact IH].
Qed.

Lemma dict_get_set_other {V} (k k0 : string) (v : V) (d : list (string * V)) :
  k0 <> k -> dict_get k0 (dict_set k v d) = dict_get k0 d.
Proof.
  intros NE. induction d as [|[k' v'] d IH]; cbn [dict_set dict_get].
  - destruct (String.eqb_spec k0 k); [contradiction|reflexivity].
  - destruct (String.eqb_spec k k') as [E|NE']; cbn [dict_get].
    + subst. destruct (String.eqb_spec k0 k'); [contradiction|reflexivity].
    + now rewrite IH.
Qed.

Lemma dict_set_in {V} (k : string) (v : V) (d : list (string * V)) :
  In (k, v) (dict_set k v d).
Proof.
  induction d as [|[k' v'] d IH]; cbn [dict_set]; [now left|].
  destruct (String.eqb_spec k k') as [E|NE].
  - subst. now left.
  - now right.
Qed.

Lemma dict_get_none {V} (k : string) (d : list (string * V)) :
  dict_get k d = None <-> ~ In k (map fst d).
Proof.
  induction d as [|[k' v'] d IH]; cbn [dict_get map fst In]; [tauto|].
  destruct (String.eqb_spec k k') as [E|NE].
  - subst. split; [discriminate|]. intros H. exfalso. apply H. now left.
  - rewrite IH. split.
    + intros H [K|K]; [congruence|contradiction].
    + intros H K. apply H. now right.
Qed.

Lemma dict_set_keys {V} (k : string) (v : V) (d : list (string * V)) :
  map fst (dict_set k v d)
  = match dict_get k d with
    | Some _ => map fst d
    | None => map fst d ++ [k]
    end.
Proof.
  induction d as [|[k' v'] d IH]; cbn [dict_set dict_get map fst app];
    [reflexivity|].
  destruct (String.eqb_spec k k') as [E|NE]; cbn [map fst]; [reflexivity|].
  rewrite IH. now destruct (dict_get k d).
Qed.

Lemma dict_set_nodup {V} (k : string) (v : V) (d : list (string * V)) :
  NoDup (map fst d) -> NoDup (map fst (dict_set k v d)).
Proof.
  intros H. rewrite dict_set_keys.
  destruct (dict_get k d) eqn:E; [exact H|].
  apply dict_get_none in E.
  apply NoDup_app; [exact H|repeat constructor; intros []| ].
  intros x Hx [K|[]]. subst. contradiction.
Qed.

(** X21. A job that [create_job] has just stored is found by every
    endpoint: the status endpoint answers "pending" with the creation time
    and no download link, the plan endpoint returns the plan, the job is in
    the pending list, and a download is refused with 400.  The answers for
    every other job id are what they were. *)
Theorem created_job_is_pending_everywhere (plan : Type)
  (job_id now k : string) (p : plan) (cb : option string) (s : server plan)
  (exists_file : string -> bool) :
  let s' := snd (create_job job_id now p cb s) in
  get_job_status job_id s'
  = Respond 200 (mkJobStatus job_id "pending" now None None None None)
  /\ get_job_plan job_id s' = Respond 200 p
  /\ In (mkPending job_id now (String.append "/api/colab/plan/" job_id) cb)
        (get_pending_jobs s')
  /\ download_video exists_file job_id s'
     = HTTPException 400 "Job is not completed. Current status: pending"
  /\ (k <> job_id ->
      get_job_status k s' = get_job_status k s
      /\ get_job_plan k s' = get_job_plan k s
      /\ download_video exists_file k s' = download_video exists_file k s).
Proof.
  cbv zeta. unfold create_job. cbn [snd].
  split; [|split; [|split; [|split]]].
  - unfold get_job_status. cbn [jobs]. rewrite dict_get_set_same. reflexivity.
  - unfold get_job_plan. cbn [plan_files]. now rewrite dict_get_set_same.
  - unfold get_pending_jobs. cbn [jobs].
    apply in_map_iff.
    exists (job_id, mkJob job_id "pending" p now cb None None None None).
    split; [reflexivity|].
    apply filter_In. split; [apply dict_set_in|reflexivity].
  - unfold download_video. cbn [jobs]. rewrite dict_get_set_same. reflexivity.
  - intros NE. unfold get_job_status, get_job_plan, download_video.
    cbn [jobs plan_files]. rewrite !dict_get_set_other by exact NE.
    repeat split.
Qed.

Section StoreFacts.

Variable plan : Type.

Lemma handle_consistent (s : server plan) (e : event plan) :
  consistent s -> consistent (handle s e).
Proof.
  intros (Hn & Hp & Hk & Hs).
  assert (Upd : forall k j1 j0,
            dict_get k (jobs s) = Some j0 ->
            jobId j1 = jobId j0 -> videoPlan j1 = videoPlan j0 ->
            forall sf,
              (sf = status_files s
               \/ exists f, sf = dict_set k f (status_files s)) ->
              consistent (mkServer (dict_set k j1 (jobs s)) (plan_files s) sf)).
  { intros k j1 j0 E Hid Hv sf Hsf.
    split; [|split; [|split]]; cbn [jobs plan_files status_files].
    - now apply dict_set_nodup.
    - intros k0. destruct (String.eqb_spec k0 k) as [->|NE].
      + rewrite dict_get_set_same, Hp, E. cbn. now rewrite Hv.
      + rewrite dict_get_set_other by exact NE. apply Hp.
    - intros k0 j. destruct (String.eqb_spec k0 k) as [->|NE].
      + rewrite dict_get_set_same. intros K. inversion K; subst.
        rewrite Hid. now apply Hk.
      + rewrite dict_get_set_other by exact NE. apply Hk.
    - intros k0. destruct (String.eqb_spec k0 k) as [->|NE].
      + rewrite dict_get_set_same.
        destruct Hsf as [->|[f ->]].
        * rewrite Hs, E. split; discriminate.
        * rewrite dict_get_set_same. split; discriminate.
      + rewrite dict_get_set_other by exact NE.
        destruct Hsf as [->|[f ->]]; [apply Hs|].
        rewrite dict_get_set_other by exact NE. apply Hs. }
  destruct e as [job_id now p cb|job_id request now|job_id now|job_id now];
    cbn [handle].
  - unfold create_job. cbn [snd].
    split; [|split; [|split]]; cbn [jobs plan_files status_files].
    + now apply dict_set_nodup.
    + intros k0. destruct (String.eqb_spec k0 job_id) as [->|NE].
      * now rewrite !dict_get_set_same.
      * rewrite !dict_get_set_other by exact NE. apply Hp.
    + intros k0 j. destruct (String.eqb_spec k0 job_id) as [->|NE].
      * rewrite dict_get_set_same. intros K. now inversion K.
      * rewrite dict_get_set_other by exact NE. apply Hk.
    + intros k0. destruct (String.eqb_spec k0 job_id) as [->|NE].
      * rewrite !dict_get_set_same. split; discriminate.
      * rewrite !dict_get_set_other by exact NE. apply Hs.
  - unfold job_callback.
    destruct (dict_get job_id (jobs s)) as [j0|] eqn:E; cbn [snd];
      [|repeat split; auto; apply Hs].
    apply (Upd job_id _ j0 E); [reflexivity|reflexivity|].
    right. eexists. reflexivity.
  - unfold process_job_locally.
    destruct (dict_get job_id (jobs s)) as [j0|] eqn:E; cbn [snd];
      [|repeat split; auto; apply Hs].
    destruct (negb (String.eqb (status j0) "pending")); cbn [snd];
      [repeat split; auto; apply Hs|].
    apply (Upd job_id _ j0 E); [reflexivity|reflexivity|now left].
  - unfold process_video_background.
    destruct (dict_get job_id (jobs s)) as [j0|] eqn:E;
      [|repeat split; auto; apply Hs].
    apply (Upd job_id _ j0 E); [reflexivity|reflexivity|now left].
Qed.

Lemma serve_consistent (events : list (event plan)) :
  forall s, consistent s -> consistent (serve events s).
Proof.
  induction events as [|e events IH]; intros s H; [exact H|].
  cbn [serve fold_left]. apply IH. now apply handle_consistent.
Qed.

Lemma report_same (request : CallbackRequest) (now : string) (j : job plan) :
  same_job j (report request now j) /\ keeps_record j (report request now j).
Proof.
  unfold same_job, keeps_record, report.
  cbn [jobId videoPlan createdAt callbackUrl startedAt completedAt error
       outputPath].
  repeat split; auto.
  - destruct (_ && _); [discriminate|auto].
  - destruct (_ || _); [discriminate|auto].
  - destruct (String.eqb (req_status request) "failed"); cbn [andb]; auto.
    destruct (req_error request) as [e|]; cbn [truthy]; auto.
    destruct (nonempty e); [discriminate|auto].
  - destruct (String.eqb (req_status request) "completed"); cbn [andb]; auto.
    destruct (req_outputPath request) as [o|]; cbn [truthy]; auto.
    destruct (nonempty o); [discriminate|auto].
Qed.

(** One event keeps every job that is not created anew, with the fields
    that identify it and with what was recorded about it. *)
Lemma handle_keeps (s : server plan) (e : event plan) (k : string)
  (j : job plan) :
  dict_get k (jobs s) = Some j ->
  exists j',
    dict_get k (jobs (handle s e)) = Some j'
    /\ (generates k e = false -> same_job j j' /\ keeps_record j j').
Proof.
  intros E.
  assert (Same : same_job j j /\ keeps_record j j)
    by (unfold same_job, keeps_record; repeat split; auto).
  destruct e as [job_id now p cb|job_id request now|job_id now|job_id now];
    cbn [handle generates].
  - unfold create_job. cbn [snd jobs].
    destruct (String.eqb_spec job_id k) as [->|NE].
    + rewrite dict_get_set_same. eexists. split; [reflexivity|discriminate].
    + rewrite dict_get_set_other by congruence. exists j. auto.
  - unfold job_callback.
    destruct (dict_get job_id (jobs s)) as [j0|] eqn:E0; cbn [snd jobs];
      [|exists j; auto].
    destruct (String.eqb_spec k job_id) as [->|NE].
    + rewrite dict_get_set_same. eexists. split; [reflexivity|].
      intros _. assert (j0 = j) by congruence. subst. apply report_same.
    + rewrite dict_get_set_other by exact NE. exists j. auto.
  - unfold process_job_locally.
    destruct (dict_get job_id (jobs s)) as [j0|] eqn:E0; cbn [snd jobs];
      [|exists j; auto].
    destruct (negb (String.eqb (status j0) "pending")); cbn [snd jobs];
      [exists j; auto|].
    destruct (String.eqb_spec k job_id) as [->|NE].
    + rewrite dict_get_set_same. eexists. split; [reflexivity|].
      intros _. assert (j0 = j) by congruence. subst.
      unfold same_job, keeps_record.
      cbn [jobId videoPlan createdAt callbackUrl startedAt completedAt error
           outputPath].
      repeat split; auto. discriminate.
    + rewrite dict_get_set_other by exact NE. exists j. auto.
  - unfold process_video_background.
    destruct (dict_get job_id (jobs s)) as [j0|] eqn:E0; cbn [jobs];
      [|exists j; auto].
    destruct (String.eqb_spec k job_id) as [->|NE].
    + rewrite dict_get_set_same. eexists. split; [reflexivity|].
      intros _. assert (j0 = j) by congruence. subst.
      unfold same_job, keeps_record.
      cbn [jobId videoPlan createdAt callbackUrl startedAt completedAt error
           outputPath].
      repeat split; auto; discriminate.
    + rewrite dict_get_set_other by exact NE. exists j. auto.
Qed.

End StoreFacts.

(** X22. After any history of requests on a server that started without
    files, the keys of [jobs.json] are distinct, every job is stored under
    its own [jobId], and the three kinds of file agree on which jobs exist:
    the plan endpoint answers 200 exactly for the ids the status endpoint
    knows, with the plan stored in the job. *)
Theorem job_files_stay_consistent (plan : Type) (events : list (event plan))
  (k : string) :
  let s := serve events (empty_server plan) in
  consistent s
  /\ (forall p, get_job_plan k s = Respond 200 p
                <-> exists j, dict_get k (jobs s) = Some j /\ videoPlan j = p)
  /\ (get_job_plan k s = HTTPException 404 "Job plan not found"
      <-> get_job_status k s = HTTPException 404 "Job not found").
Proof.
  cbv zeta.
  assert (C : consistent (serve events (empty_server plan))).
  { apply serve_consistent. unfold consistent, empty_server. cbn.
    split; [constructor|]. split; [reflexivity|].
    split; [discriminate|]. intros _. split; reflexivity. }
  split; [exact C|].
  destruct C as (_ & Hp & _ & _).
  unfold get_job_plan, get_job_status. rewrite Hp.
  destruct (dict_get k (jobs (serve events (empty_server plan)))) as [j|];
    cbn [option_map].
  - split; [split|split; discriminate].
    + intros K. inversion K. now exists j.
    + intros (j' & K & <-). now inversion K.
  - split; [split|split; reflexivity].
    + discriminate.
    + intros (j' & K & _). discriminate.
Qed.

(** X23. No request removes a job.  Through any history in which the id is
    not created anew, a job keeps its [jobId], plan, creation time and
    callback URL, and what was once recorded about it (start time,
    completion time, error, output path) is never cleared. *)
Theorem jobs_are_never_lost (plan : Type) (events : list (event plan))
  (s : server plan) (k : string) (j : job plan) :
  dict_get k (jobs s) = Some j ->
  exists j',
    dict_get k (jobs (serve events s)) = Some j'
    /\ (existsb (generates k) events = false ->
        same_job j j' /\ keeps_record j j').
Proof.
  revert s j. induction events as [|e events IH]; intros s j E.
  - exists j. split; [exact E|]. intros _.
    unfold same_job, keeps_record. repeat split; auto.
  - destruct (@handle_keeps plan s e k j E) as (j1 & E1 & K1).
    destruct (IH (handle s e) j1 E1) as (j2 & E2 & K2).
    exists j2. split; [exact E2|].
    cbn [existsb]. intros G. apply orb_false_iff in G. destruct G as [G1 G2].
    destruct (K1 G1) as [(A1 & A2 & A3 & A4) (B1 & B2 & B3 & B4)].
    destruct (K2 G2) as [(C1 & C2 & C3 & C4) (D1 & D2 & D3 & D4)].
    unfold same_job, keeps_record.
    repeat split; try congruence; auto.
Qed.

Lemma jobs_are_never_lost_witness :
  exists j',
    dict_get "a"%string
      (jobs (serve [@Process unit "a"%string "t1"%string; @Background unit "a"%string "t2"%string;
                    @Callback unit "a"%string (mkCallback "pending"%string None None None) "t3"%string]
               (snd (create_job "a"%string "t0"%string tt (Some "http://hook"%string)
                                (empty_server unit)))))
    = Some j'
    /\ createdAt j' = "t0"%string /\ completedAt j' <> None.
Proof.
  destruct (@jobs_are_never_lost unit
              [@Process unit "a"%string "t1"%string; @Background unit "a"%string "t2"%string;
               @Callback unit "a"%string (mkCallback "pending"%string None None None) "t3"%string]
              (snd (create_job "a"%string "t0"%string tt (Some "http://hook"%string)
                               (empty_server unit)))
              "a"%string
              (mkJob "a"%string "pending"%string tt "t0"%string (Some "http://hook"%string)
                     None None None None) eq_refl)
    as (j' & E & _).
  exists j'. split; [exact E|].
  vm_compute in E. inversion E. split; [reflexivity|discriminate].
Defined.

(** X24. A download succeeds only for a job whose status is "completed" and
    whose output file exists: the path served is the reported output path,
    or [temp/colab-jobs/{job_id}-output.mp4] when none was reported.  The
    status endpoint gives a download link exactly when the status is
    "completed", whether or not that file exists: after a callback that
    reports "completed" without an output path the link is given, and the
    download answers 404 unless the default file is there. *)
Theorem download_needs_completed_job_and_file (plan : Type) (s : server plan)
  (exists_file : string -> bool) (k : string) :
  (forall path,
     download_video exists_file k s = Respond 200 path <->
     exists j,
       dict_get k (jobs s) = Some j
       /\ status j = "completed"%string
       /\ exists_file path = true
       /\ path = match outputPath j with
                 | Some o => if nonempty o then o
                             else String.append "temp/colab-jobs/"
                                    (String.append k "-output.mp4")
                 | None => String.append "temp/colab-jobs/"
                             (String.append k "-output.mp4")
                 end)
  /\ (forall body,
        get_job_status k s = Respond 200 body ->
        (js_downloadUrl body
         = Some (String.append "/api/colab/download/" k)
         <-> js_status body = "completed"%string)
        /\ (js_downloadUrl body = None
            <-> js_status body <> "completed"%string))
  /\ (forall j now,
        dict_get k (jobs s) = Some j -> outputPath j = None ->
        let s' := snd (job_callback k (mkCallback "completed" None None None)
                                    now s) in
        (exists body,
            get_job_status k s' = Respond 200 body
            /\ js_status body = "completed"%string
            /\ js_completedAt body = Some now
            /\ js_downloadUrl body
               = Some (String.append "/api/colab/download/" k))
        /\ (exists_file (String.append "temp/colab-jobs/"
                           (String.append k "-output.mp4")) = false ->
            download_video exists_file k s'
            = HTTPException 404 "Output file not found")).
Proof.
  split; [|split].
  - intros path. unfold download_video.
    destruct (dict_get k (jobs s)) as [j|];
      [|split; [discriminate|intros (j & K & _); discriminate]].
    destruct (String.eqb_spec (status j) "completed") as [Ec|Nc]; cbn [negb].
    + set (out := if truthy (outputPath j) then _ else _).
      assert (Ho : out = match outputPath j with
                         | Some o => if nonempty o then o
                                     else String.append "temp/colab-jobs/"
                                            (String.append k "-output.mp4")
                         | None => String.append "temp/colab-jobs/"
                                     (String.append k "-output.mp4")
                         end).
      { subst out. destruct (outputPath j) as [o|]; reflexivity. }
      destruct (exists_file out) eqn:Ex; cbn [negb].
      * split.
        -- intros K. inversion K. subst path. exists j.
           repeat split; auto.
        -- intros (j' & K & _ & _ & P). inversion K; subst j'.
           now rewrite P, <- Ho.
      * split; [discriminate|].
        intros (j' & K & _ & Ex' & P). inversion K; subst j'.
        rewrite P, <- Ho in Ex'. congruence.
    + split; [discriminate|].
      intros (j' & K & St & _). inversion K; subst j'. contradiction.
  - intros body. unfold get_job_status.
    destruct (dict_get k (jobs s)) as [j|]; [|discriminate].
    intros K. inversion K. cbn [js_downloadUrl js_status].
    destruct (String.eqb_spec (status j) "completed") as [Ec|Nc].
    + split; split; auto; try discriminate. intros; contradiction.
    + split; split; auto; try discriminate. intros; contradiction.
  - intros j now E Ho. cbv zeta. unfold job_callback. rewrite E. cbn [snd].
    split.
    + unfold get_job_status. cbn [jobs]. rewrite dict_get_set_same.
      eexists. split; [reflexivity|]. repeat split.
    + intros Ex. unfold download_video. cbn [jobs].
      rewrite dict_get_set_same.
      cbn [report req_status req_outputPath status outputPath String.eqb
           Ascii.eqb Bool.eqb andb negb truthy].
      rewrite Ho. cbn [truthy]. rewrite Ex. reflexivity.
Qed.

Lemma download_needs_completed_job_and_file_witness :
  download_video (fun _ => false) "a"
    (snd (job_callback "a" (mkCallback "completed" None None None) "t1"
            (snd (create_job "a" "t0" tt None (empty_server unit)))))
  = HTTPException 404 "Output file not found".
Proof.
  destruct (@download_needs_completed_job_and_file unit
              (snd (create_job "a" "t0" tt None (empty_server unit)))
              (fun _ => false) "a") as (_ & _ & H).
  destruct (H (mkJob "a" "pending" tt "t0" None None None None None) "t1"%string
              eq_refl eq_refl) as [_ D].
  apply D. reflexivity.
Defined.

(** X25. Local processing never completes a job.  For a pending job,
    [process_job_locally] answers 200, marks the job "processing" with its
    start time and creates the background task; when that task is over
    the job is "failed", with the message that local processing is not
    implemented, and a download is refused.  For an unknown id the handlers
    answer 404 and for a job that is not pending [process_job_locally]
    answers 400; in both cases no file changes and no task is created.  A
    callback stores whatever status it is given. *)
Theorem local_processing_ends_failed (plan : Type) (s : server plan)
  (k now now' : string) (exists_file : string -> bool) :
  (forall j,
     dict_get k (jobs s) = Some j -> status j = "pending"%string ->
     exists s1,
       process_job_locally k now s = (Respond 200 k, true, s1)
       /\ get_job_status k s1
          = Respond 200 (mkJobStatus k "processing" (createdAt j) (Some now)
                                     (completedAt j) (error j) None)
       /\ get_job_status k (process_video_background k now' s1)
          = Respond 200
              (mkJobStatus k "failed" (createdAt j) (Some now) (Some now')
                 (Some "Local processing not yet implemented. Use Colab or Node.js server."%string)
                 None)
       /\ download_video exists_file k (process_video_background k now' s1)
          = HTTPException 400 "Job is not completed. Current status: failed")
  /\ (dict_get k (jobs s) = None ->
      process_job_locally k now s
      = (HTTPException 404 "Job not found", false, s)
      /\ (forall request,
            job_callback k request now s
            = (HTTPException 404 "Job not found", None, s))
      /\ process_video_background k now s = s)
  /\ (forall j,
        dict_get k (jobs s) = Some j -> status j <> "pending"%string ->
        process_job_locally k now s
        = (HTTPException 400
             (String.append "Job is not pending. Current status: " (status j)),
           false, s))
  /\ (forall j request,
        dict_get k (jobs s) = Some j ->
        exists body,
          get_job_status k (snd (job_callback k request now s))
          = Respond 200 body
          /\ js_status body = req_status request).
Proof.
  split; [|split; [|split]].
  - intros j E St. unfold process_job_locally. rewrite E, St. cbn [negb String.eqb].
    replace (String.eqb "pending" "pending") with true by reflexivity.
    cbn [negb]. eexists. split; [reflexivity|].
    unfold process_video_background, get_job_status, download_video.
    cbn [jobs]. rewrite !dict_get_set_same. cbn [jobs].
    rewrite !dict_get_set_same.
    cbn [status createdAt startedAt completedAt error outputPath jobId].
    repeat split.
  - intros E. unfold process_job_locally, job_callback,
      process_video_background. rewrite E. repeat split.
  - intros j E St. unfold process_job_locally. rewrite E.
    destruct (String.eqb_spec (status j) "pending"); [contradiction|].
    reflexivity.
  - intros j request E. unfold job_callback. rewrite E. cbn [snd].
    unfold get_job_status. cbn [jobs]. rewrite dict_get_set_same.
    eexists. split; reflexivity.
Qed.

Lemma local_processing_ends_failed_witness :
  exists s1,
    process_job_locally "a" "t1"
      (snd (create_job "a" "t0" tt None (empty_server unit)))
    = (Respond 200 "a"%string, true, s1)
    /\ get_job_status "a" (process_video_background "a" "t2" s1)
       = Respond 200
           (mkJobStatus "a" "failed" "t0" (Some "t1"%string) (Some "t2"%string)
              (Some "Local processing not yet implemented. Use Colab or Node.js server."%string)
              None).
Proof.
  destruct (@local_processing_ends_failed unit
              (snd (create_job "a" "t0" tt None (empty_server unit)))
              "a" "t1" "t2" (fun _ => false)) as [H _].
  destruct (H (mkJob "a" "pending" tt "t0" None None None None None)
              eq_refl eq_refl) as (s1 & E1 & _ & E3 & _).
  exists s1. split; [exact E1|exact E3].
Defined.

(** ** The strokes that the whiteboard animator extracts *)

Lemma insert_asc_perm {A} (key : A -> Q) (a : A) (xs : list A) :
  Permutation (a :: xs) (insert_asc key a xs).
Proof.
  induction xs as [|b xs IH]; cbn [insert_asc]; [reflexivity|].
  destruct (Qle_bool (key a) (key b)); [reflexivity|].
  rewrite perm_swap. now apply perm_skip.
Qed.

Lemma py_sorted_perm {A} (key : A -> Q) (xs : list A) :
  Permutation xs (py_sorted key xs).
Proof.
  induction xs as [|a xs IH]; cbn [py_sorted fold_right]; [reflexivity|].
  rewrite <- insert_asc_perm. now apply perm_skip.
Qed.

Lemma insert_asc_sorted {A} (key : A -> Q) (a : A) (xs : list A) :
  StronglySorted (fun u v => key u <= key v) xs ->
  StronglySorted (fun u v => key u <= key v) (insert_asc key a xs).
Proof.
  induction 1 as [|b xs Hs IH Hb]; cbn [insert_asc].
  - repeat constructor.
  - destruct (Qle_bool (key a) (key b)) eqn:E.
    + apply Qle_bool_iff in E. constructor; [now constructor|].
      constructor; [exact E|].
      eapply Forall_impl; [|exact Hb]. cbn. intros c Hc.
      eapply Qle_trans; eauto.
    + assert (L : key b <= key a).
      { destruct (Qlt_le_dec (key b) (key a)) as [L|L];
          [now apply Qlt_le_weak|].
        apply Qle_bool_iff in L. congruence. }
      constructor; [exact IH|].
      apply (Permutation_Forall (insert_asc_perm key a xs)).
      constructor; assumption.
Qed.

Lemma py_sorted_sorted {A} (key : A -> Q) (xs : list A) :
  StronglySorted (fun u v => key u <= key v) (py_sorted key xs).
Proof.
  induction xs as [|a xs IH]; cbn [py_sorted fold_right]; [constructor|].
  now apply insert_asc_sorted.
Qed.

Lemma filter_sorted {A} (R : A -> A -> Prop) (f : A -> bool) (xs : list A) :
  StronglySorted R xs -> StronglySorted R (filter f xs).
Proof.
  induction 1 as [|a xs Hs IH Ha]; cbn [filter]; [constructor|].
  destruct (f a); [|exact IH].
  constructor; [exact IH|].
  apply Forall_forall. intros x Hx. apply filter_In in Hx.
  rewrite Forall_forall in Ha. now apply Ha.
Qed.

(** X26. What [extract_drawing_strokes] hands to the animation: every
    outline path has at least three points (so none is empty), every colour
    fill has an area of 100 or more and is one of the contours found, and
    the fills are ordered top to bottom by the height of their centroid,
    which is 0 for a contour without area, so the sort key never divides by
    zero.  When every edge contour is smaller than 50 and every colour
    contour smaller than 100, nothing is extracted and the run gives up
    before it starts an encoder. *)
Theorem extracted_strokes_are_sorted_and_large (fl np_sin : Q -> Q)
  (moments : contour -> Q * Q * Q) (contourArea arcLength : contour -> Q)
  (approxPolyDP : contour -> Q -> list point)
  (edge_contours color_contours : list contour) :
  Forall (fun path => (3 <= length path)%nat)
         (outline_paths_of fl moments contourArea arcLength approxPolyDP
                           edge_contours)
  /\ Forall (fun cnt => 100 <= contourArea cnt /\ In cnt color_contours)
            (color_fills_of fl moments contourArea color_contours)
  /\ (forall cnt, In cnt color_contours -> 100 <= contourArea cnt ->
        In cnt (color_fills_of fl moments contourArea color_contours))
  /\ StronglySorted
       (fun u v => contour_top fl moments u <= contour_top fl moments v)
       (color_fills_of fl moments contourArea color_contours)
  /\ (Forall (fun cnt => contourArea cnt < 50) edge_contours ->
      Forall (fun cnt => contourArea cnt < 100) color_contours ->
      forall img cfg enc contour_raster line_raster circle_raster
             save_outputs w,
        aborted_before_spawn
          (create_whiteboard_animation fl np_sin contour_raster line_raster
             circle_raster moments cfg enc
             (extract_drawing_strokes fl moments contourArea arcLength
                approxPolyDP (Ok (Some (img, edge_contours, color_contours))))
             save_outputs w) w).
Proof.
  split; [|split; [|split; [|split]]].
  - unfold outline_paths_of. apply Forall_forall. intros p Hp.
    apply filter_In in Hp. destruct Hp as [_ Hp]. now apply Nat.leb_le in Hp.
  - unfold color_fills_of. apply Forall_forall. intros c Hc.
    apply filter_In in Hc. destruct Hc as [Hin Ha].
    split; [now apply Qle_bool_iff in Ha|].
    eapply Permutation_in; [symmetry; apply py_sorted_perm|exact Hin].
  - intros c Hin Ha. unfold color_fills_of. apply filter_In. split.
    + eapply Permutation_in; [apply py_sorted_perm|exact Hin].
    + now apply Qle_bool_iff.
  - unfold color_fills_of. apply filter_sorted, py_sorted_sorted.
  - intros He Hc img cfg enc contour_raster line_raster circle_raster
           save_outputs w.
    assert (Small : forall (t : Q) (xs : list contour),
              Forall (fun cnt => contourArea cnt < t) xs ->
              forall key : contour -> Q,
                filter (fun cnt => Qle_bool t (contourArea cnt))
                       (py_sorted key xs) = []).
    { intros t xs Hx key.
      assert (F : Forall (fun cnt => contourArea cnt < t) (py_sorted key xs))
        by (apply (Permutation_Forall (py_sorted_perm key xs)); exact Hx).
      induction F as [|c cs Hlt _ IH]; [reflexivity|].
      cbn [filter]. destruct (Qle_bool t (contourArea c)) eqn:E; [|exact IH].
      apply Qle_bool_iff in E. exfalso. eapply Qlt_not_le; eauto. }
    unfold extract_drawing_strokes, create_whiteboard_animation,
      outline_paths_of, color_fills_of.
    rewrite (Small 50 edge_contours He), (Small 100 color_contours Hc).
    cbn [map filter strokes_missing nonempty_list negb andb].
    now apply aborted_by_cleanup.
Qed.

Lemma extracted_strokes_are_sorted_and_large_witness :
  aborted_before_spawn
    (create_whiteboard_animation exact flat_sin no_raster keep_line keep_circle
       no_moments tiny_cfg EncHangs
       (extract_drawing_strokes exact no_moments (fun _ => 0) (fun _ => 0)
          (fun cnt _ => cnt) (Ok (Some (blank 2 2, [square], [square]))))
       (Ok tt) fresh_world) fresh_world.
Proof.
  destruct (@extracted_strokes_are_sorted_and_large exact flat_sin no_moments
              (fun _ => 0) (fun _ => 0) (fun cnt _ => cnt) [square] [square])
    as (_ & _ & _ & _ & H).
  apply H; repeat constructor.
Defined.

(** ** The connection test against the rendering API *)

(** X27. [test_connection] returns [True] only when the health check was
    answered 200 with a JSON body and the job creation 202 with a JSON
    object.  When the health check is not answered 200, it returns [False]
    and no other request is made; when it is answered 200 with a body that
    is not JSON, it returns [False] or lets the JSON error escape, according
    to the version of [requests].  The pending-jobs request cannot make the
    test fail by its status, but it can by its body: a 200 whose body is a
    JSON list raises [AttributeError], which no handler catches, and the
    test job is never posted.  Against the endpoints of the FastAPI server,
    whose bodies are the objects the client reads, every run returns [True]
    and leaves one more job on the server: the test job is pending
    afterwards, and it is listed by the pending-jobs endpoint. *)
Theorem connection_test_creates_a_job (S : Type)
  (get_health get_pending post_generate : S -> reply * S) (caught : bool)
  (s : S) :
  (fst (test_connection get_health get_pending post_generate caught s)
   = Ok true ->
   (exists data, fst (get_health s) = Replied 200 (Some data))
   /\ (exists fields,
         fst (post_generate (snd (get_pending (snd (get_health s)))))
         = Replied 202 (Some (JObject fields))))
  /\ ((forall body, fst (get_health s) <> Replied 200 body) ->
      test_connection get_health get_pending post_generate caught s
      = (Ok false, snd (get_health s)))
  /\ (fst (get_health s) = Replied 200 None ->
      test_connection get_health get_pending post_generate caught s
      = (if caught then Ok false else Raise JSONDecodeError,
         snd (get_health s)))
  /\ (forall data,
        fst (get_health s) = Replied 200 (Some data) ->
        (forall items,
           fst (get_pending (snd (get_health s)))
           = Replied 200 (Some (JArray items)) ->
           test_connection get_health get_pending post_generate caught s
           = (Raise AttributeError, snd (get_pending (snd (get_health s)))))
        /\ (fst (get_pending (snd (get_health s))) = RequestException
            \/ (exists code body,
                  fst (get_pending (snd (get_health s))) = Replied code body
                  /\ code <> 200%nat) ->
            test_connection get_health get_pending post_generate caught s
            = (creation_check caught
                 (fst (post_generate (snd (get_pending (snd (get_health s)))))),
               snd (post_generate (snd (get_pending (snd (get_health s))))))))
  /\ (forall (plan : Type) (job_id now health_now : string) (test_plan : plan)
             (srv : server plan),
        let after := test_connection (tunnel_health health_now) tunnel_pending
                       (tunnel_generate job_id now test_plan) caught srv in
        fst after = Ok true
        /\ get_job_status job_id (snd after)
           = Respond 200 (mkJobStatus job_id "pending" now None None None None)
        /\ In (mkPending job_id now (String.append "/api/colab/plan/" job_id)
                         None)
              (get_pending_jobs (snd after))).
Proof.
  split; [|split; [|split; [|split]]].
  - unfold test_connection.
    destruct (get_health s) as [[c1 b1|] s1]; cbn [fst snd health_check];
      [|discriminate].
    destruct (Nat.eqb_spec c1 200) as [->|NE]; [|discriminate].
    destruct b1 as [data|]; cbn [response_json rbind except_request_exception];
      [|destruct caught; discriminate].
    destruct (get_pending s1) as [r2 s2]. cbn [snd].
    destruct (pending_check caught r2) as [u|e]; [|discriminate].
    destruct (post_generate s2) as [[c3 b3|] s3]; cbn [fst creation_check];
      [|discriminate].
    destruct (Nat.eqb_spec c3 202) as [->|NE3]; [|discriminate].
    destruct b3 as [[| | | | |fields]|];
      cbn [response_json rbind json_get except_request_exception];
      try discriminate; try (destruct caught; discriminate).
    intros _. split; [now exists data|now exists fields].
  - intros Hne. unfold test_connection.
    destruct (get_health s) as [[c1 b1|] s1]; cbn [fst snd health_check] in *;
      [|reflexivity].
    destruct (Nat.eqb_spec c1 200) as [->|NE]; [|reflexivity].
    now destruct (Hne b1).
  - intros E. unfold test_connection.
    destruct (get_health s) as [r1 s1]. cbn [fst snd] in *. subst r1.
    cbn. now destruct caught.
  - intros data E. split.
    + intros items E2. unfold test_connection.
      destruct (get_health s) as [r1 s1]. cbn [fst snd] in *. subst r1.
      cbn [health_check Nat.eqb response_json rbind except_request_exception].
      destruct (get_pending s1) as [r2 s2]. cbn [fst snd] in *. subst r2.
      reflexivity.
    + intros E2. unfold test_connection.
      destruct (get_health s) as [r1 s1]. cbn [fst snd] in *. subst r1.
      cbn [health_check Nat.eqb response_json rbind except_request_exception].
      destruct (get_pending s1) as [r2 s2]. cbn [fst snd] in *.
      assert (P : exists u, pending_check caught r2 = Ok u).
      { destruct E2 as [->|(code & body & -> & NE)]; [now exists tt|].
        cbn [pending_check].
        destruct (Nat.eqb_spec code 200); [contradiction|now exists tt]. }
      destruct P as [u ->].
      now destruct (post_generate s2).
  - intros plan job_id now health_now test_plan srv. cbv zeta.
    unfold test_connection, tunnel_health, tunnel_pending, tunnel_generate,
      create_job.
    cbn [fst snd health_check pending_check creation_check Nat.eqb
         response_json rbind json_get json_len health_body pending_body
         created_body except_request_exception dict_get String.eqb
         Ascii.eqb Bool.eqb].
    split; [reflexivity|]. split.
    + unfold get_job_status. cbn [jobs]. rewrite dict_get_set_same.
      reflexivity.
    + unfold get_pending_jobs. cbn [jobs]. apply in_map_iff.
      exists (job_id, mkJob job_id "pending" test_plan now None None None None
                            None).
      split; [reflexivity|].
      apply filter_In. split; [apply dict_set_in|reflexivity].
Qed.

(** Against a server that answers the health check with a page that is not
    JSON, an old [requests] lets the error escape. *)
Lemma connection_test_creates_a_job_witness :
  test_connection (fun s : unit => (Replied 200 None, s))
    (fun s => (RequestException, s)) (fun s => (RequestException, s)) false tt
  = (Raise JSONDecodeError, tt).
Proof.
  exact (proj1 (proj2 (proj2
           (@connection_test_creates_a_job unit
              (fun s : unit => (Replied 200 None, s))
              (fun s => (RequestException, s)) (fun s => (RequestException, s))
              false tt))) eq_refl).
Defined.

(** ** What a frame of the contour animator shows *)

Section V2Pixels.

Variable fl : Q -> Q.
Variable contour_raster : contour -> Z -> nat -> nat -> bool.

Lemma drawContours_paints (c : canvas) (contours : list contour) (i : nat)
  (color0 : pixel) (t : Z) :
  (i < length contours)%nat ->
  drawContours contour_raster c contours i color0 t
  = Ok (paint (fun y x p => if contour_raster (nth i contours []) t y x
                            then color0 else p) c).
Proof.
  intros Hi. unfold drawContours.
  destruct (nth_error contours i) as [cnt|] eqn:E.
  - apply nth_error_nth with (d := []) in E. now rewrite E.
  - apply nth_error_None in E. lia.
Qed.

Lemma draw_prefix_pixels (contours : list contour) (idxs : list nat) :
  Forall (fun i => (i < length contours)%nat) idxs ->
  forall c0,
  exists c,
    fold_left
      (fun acc i =>
         rbind acc (fun c =>
         rbind (drawContours contour_raster c contours i black (-1)) (fun c1 =>
         drawContours contour_raster c1 contours i black 2)))
      idxs (Ok c0) = Ok c
    /\ shape c = shape c0
    /\ forall y x,
         px c y x
         = if existsb (fun i => drawn_by contour_raster (nth i contours []) y x)
                      idxs
           then black else px c0 y x.
Proof.
  induction 1 as [|i idxs Hi _ IH]; intros c0.
  - exists c0. repeat split.
  - cbn [fold_left existsb rbind].
    rewrite (@drawContours_paints c0 contours i black (-1)%Z Hi). cbn [rbind].
    rewrite (@drawContours_paints _ contours i black 2%Z Hi).
    match goal with
    | |- context [fold_left _ idxs (Ok ?c1)] =>
        destruct (IH c1) as (c & Ec & Sc & Pc)
    end.
    exists c. split; [exact Ec|]. split; [exact Sc|].
    intros y x. rewrite Pc. unfold drawn_by. cbn [px paint].
    destruct (existsb _ idxs); [now rewrite orb_true_r|].
    rewrite orb_false_r.
    destruct (contour_raster (nth i contours []) (-1) y x),
             (contour_raster (nth i contours []) 2 y x); reflexivity.
Qed.

Lemma existsb_of_map {A B} (f : B -> bool) (g : A -> B) (l : list A) :
  existsb f (map g l) = existsb (fun a => f (g a)) l.
Proof.
  induction l as [|a l IH]; [reflexivity|]. cbn [map existsb]. now rewrite IH.
Qed.

Lemma existsb_nth_prefix {A} (f : A -> bool) (l : list A) (d : A) (k : nat) :
  (k <= length l)%nat ->
  existsb (fun i => f (nth i l d)) (seq 0 k) = existsb f (firstn k l).
Proof.
  revert k. induction l as [|a l IH]; intros k Hk.
  - cbn [length] in Hk. assert (k = 0%nat) by lia. subst. reflexivity.
  - destruct k as [|k]; [reflexivity|].
    cbn [seq existsb firstn nth]. f_equal.
    rewrite <- seq_shift, existsb_of_map. apply IH. cbn [length] in Hk. lia.
Qed.

End V2Pixels.

(** X28. Every frame of the contour animator shows exactly the contours
    drawn so far, largest first: in frame [i] a pixel is black where one of
    the first [contours_to_draw(i)] contours covers it, filled or along its
    outline of thickness 2, and white elsewhere.  So a pixel that is black
    in a frame is black in every later frame of the run: the drawing only
    ever grows.  (Holds for a monotone rounding that is exact on the
    integers up to 2^53.) *)
Theorem contour_frames_only_add_ink (fl : Q -> Q)
  (contour_raster : contour -> Z -> nat -> nat -> bool)
  (contours : list contour) (h w N i : nat) :
  monotone_rounding fl -> exact_on_integers fl ->
  (Z.of_nat (length contours) <= 2 ^ 53)%Z -> (i < N)%nat ->
  exists c,
    v2_canvas fl contour_raster contours h w i N = Ok c
    /\ shape c = (h, w)
    /\ (forall y x,
          px c y x
          = if existsb (fun cnt => drawn_by contour_raster cnt y x)
                       (firstn (Z.to_nat (contours_to_draw fl contours i N))
                               contours)
            then black else white)
    /\ (forall j c', (i <= j)%nat -> (j < N)%nat ->
          v2_canvas fl contour_raster contours h w j N = Ok c' ->
          forall y x, px c y x = black -> px c' y x = black).
Proof.
  intros M E Hb Hi.
  assert (Frame : forall k, (k < N)%nat ->
            exists c,
              v2_canvas fl contour_raster contours h w k N = Ok c
              /\ shape c = (h, w)
              /\ forall y x,
                   px c y x
                   = if existsb (fun cnt => drawn_by contour_raster cnt y x)
                                (firstn (Z.to_nat (contours_to_draw fl contours k N))
                                        contours)
                     then black else white).
  { intros k Hk.
    assert (Hle : (contours_to_draw fl contours k N
                   <= Z.of_nat (length contours))%Z)
      by (unfold contours_to_draw; now apply reveal_count_le_total).
    unfold v2_canvas.
    destruct (@draw_prefix_pixels contour_raster contours
                (py_range (contours_to_draw fl contours k N)))
      with (c0 := blank h w) as (c & Ec & Sc & Pc).
    - unfold py_range. apply Forall_forall. intros x Hx.
      apply in_seq in Hx. lia.
    - exists c. split; [exact Ec|]. split; [exact Sc|].
      intros y x. rewrite Pc. unfold py_range.
      rewrite (existsb_nth_prefix (fun cnt => drawn_by contour_raster cnt y x))
        by lia.
      reflexivity. }
  destruct (Frame i Hi) as (c & Ec & Sc & Pc).
  exists c. split; [exact Ec|]. split; [exact Sc|]. split; [exact Pc|].
  intros j c' Hij Hj Ec' y x Hblack.
  destruct (Frame j Hj) as (c2 & Ec2 & _ & Pc2).
  assert (c2 = c') by congruence. subst c2.
  rewrite Pc in Hblack. rewrite Pc2.
  destruct (existsb _ (firstn (Z.to_nat (contours_to_draw fl contours i N))
                              contours)) eqn:Xi; [|discriminate].
  destruct (@firstn_prefix contour contours
              (Z.to_nat (contours_to_draw fl contours i N))
              (Z.to_nat (contours_to_draw fl contours j N))) as [rest R].
  - assert (K : (contours_to_draw fl contours i N
                 <= contours_to_draw fl contours j N)%Z)
      by (unfold contours_to_draw; apply reveal_count_monotone; auto).
    lia.
  - rewrite R, existsb_app, Xi. reflexivity.
Qed.

Lemma contour_frames_only_add_ink_witness :
  exists c,
    v2_canvas exact box_raster [square] 12 12 9 10 = Ok c
    /\ shape c = (12, 12)%nat
    /\ px c 5 5 = black /\ px c 0 0 = white.
Proof.
  destruct (@contour_frames_only_add_ink exact box_raster [square] 12 12 10 9
              exact_monotone exact_exact_on_integers)
    as (c & E & S & P & _).
  - cbn. lia.
  - lia.
  - exists c. split; [exact E|]. split; [exact S|].
    rewrite !P. split; vm_compute; reflexivity.
Defined.

(** ** An image that the highlight animator cannot load *)

(** X29. The highlight animator tells its two loading failures apart, unlike
    the colour animator.  When OpenCV cannot read the image,
    [preprocess_image] returns a single [None]; unpacking it into three
    names raises [TypeError], which is logged as an animation error.  When
    the preprocessing itself raised, its handler (which has logged the
    error) returns three [None]s and the run returns [False] without
    logging an animation error, as the colour animator does in both cases.  In every case the run ends before an
    encoder is spawned and the temporary directory is removed. *)
Theorem highlight_unreadable_image_is_a_type_error (fl np_sin : Q -> Q)
  (rng : Type) (seed : Z -> rng) (randn : nat -> rng -> list Q * rng)
  (argsort : list Q -> list nat)
  (circle_raster : circle_op -> nat -> nat -> pixel -> pixel)
  (glow_filter : list (point * Q) -> canvas -> canvas)
  (blend : canvas -> canvas -> canvas) (blur : canvas -> canvas)
  (cfg : config) (enc : encoder) (g : rng) (save_outputs : res unit)
  (w : world) :
  create_highlight_animation fl seed randn argsort np_sin circle_raster
    glow_filter blend cfg enc HlUnreadable g save_outputs w
  = (Ok false, cleanup (snd (logger (ErrAnimation TypeError) w)))
  /\ create_highlight_animation fl seed randn argsort np_sin circle_raster
       glow_filter blend cfg enc HlRaised g save_outputs w
     = (Ok false, cleanup w)
  /\ create_color_animation fl seed randn argsort blur cfg enc None g
       save_outputs w
     = (Ok false, cleanup w)
  /\ (forall loaded,
        loaded = HlUnreadable \/ loaded = HlRaised ->
        aborted_before_spawn
          (create_highlight_animation fl seed randn argsort np_sin
             circle_raster glow_filter blend cfg enc loaded g save_outputs w)
          w).
Proof.
  split; [reflexivity|]. split; [reflexivity|]. split; [reflexivity|].
  intros loaded [->| ->]; now apply aborted_by_cleanup.
Qed.

Lemma highlight_unreadable_image_is_a_type_error_witness :
  aborted_before_spawn
    (create_highlight_animation exact (fun _ : Z => tt)
       (fun n (_ : unit) => (repeat 0 n, tt))
       (fun scores => seq 0 (length scores)) flat_sin keep_circle keep_glow
       keep_blend tiny_cfg EncHangs HlUnreadable tt (Ok tt) fresh_world)
    fresh_world.
Proof.
  apply (proj2 (proj2 (proj2
          (@highlight_unreadable_image_is_a_type_error exact flat_sin unit
             (fun _ : Z => tt) (fun n (_ : unit) => (repeat 0 n, tt))
             (fun scores => seq 0 (length scores)) keep_circle keep_glow
             keep_blend (fun c => c) tiny_cfg EncHangs tt (Ok tt)
             fresh_world)))).
  now left.
Defined.

(** ** Double arithmetic *)

(** X30. The two facts assumed of the float operations hold of IEEE double
    arithmetic (to nearest, ties to even; overflow and subnormal numbers
    aside): the rounding is monotone, and every integer up to 2^53 is its
    own rounding.  So with Python's floats a run of the contour animator
    whose encoder keeps reading writes exactly [int(fps * duration)] frames
    of height * width * 3 bytes, whatever the contours (fewer than 2^53)
    and whatever OpenCV draws for them. *)
Theorem double_arithmetic_meets_assumptions (cfg : config) (enc : encoder) :
  monotone_rounding binary64
  /\ exact_on_integers binary64
  /\ (forall raster area found copy_outputs,
        takes enc (total_frames_of binary64 (fps cfg) (duration cfg)) ->
        (Z.of_nat (length found) <= 2 ^ 53)%Z ->
        holds_frames (total_frames_of binary64 (fps cfg) (duration cfg))
          (height cfg) (width cfg)
          (stdin_frames
             (snd (create_animation binary64 raster area cfg enc true
                     (Some found) copy_outputs fresh_world)))).
Proof.
  split; [exact binary64_monotone|]. split; [exact binary64_exact_on_integers|].
  intros raster area found copy_outputs Ht Hb.
  set (N := total_frames_of binary64 (fps cfg) (duration cfg)) in *.
  assert (Hr : forall i, (i < N)%nat ->
            exists c, v2_canvas binary64 raster (extract_contours area found)
                        (height cfg) (width cfg) i N = Ok c
                      /\ shape c = (height cfg, width cfg)).
  { intros i Hi.
    apply v2_frames_ok;
      auto using binary64_monotone, binary64_exact_on_integers.
    unfold extract_contours. now rewrite sorted_reverse_length. }
  rewrite v2_run_frames; fold N; auto.
  - apply holds_frames_seq. intros i Hi.
    destruct (Hr i) as (c & Ec & Sc); [lia|].
    rewrite Ec. cbn. now apply shape_bytes.
  - intros i Hi. destruct (Hr i Hi) as (c & Ec & _). now exists c.
Qed.

(** At 100 frames a second for the double of 0.57 seconds: 56 frames of
    twelve bytes. *)
Lemma double_arithmetic_meets_assumptions_witness :
  holds_frames 56 2 2
    (stdin_frames
       (snd (create_animation binary64 no_raster no_area
               (mkConfig 2 2 100 (binary64 (57 # 100))) EncHangs true
               (Some [[(0, 0); (1, 0); (1, 1)]]%Z) (Ok tt) fresh_world))).
Proof.
  apply (proj2 (proj2
           (@double_arithmetic_meets_assumptions
              (mkConfig 2 2 100 (binary64 (57 # 100))) EncHangs))
           no_raster no_area [[(0, 0); (1, 0); (1, 1)]]%Z (Ok tt) I).
  cbn. lia.
Defined.
